(** * rev-dal: query building, model runtime and revision engine

    A shallow embedding of the data-access layer (query builder,
    predicate-literal facade, model runtime, revision handlers) together
    with the properties its specification states about it.

    JavaScript objects are association lists in insertion order, thrown
    values are first-class data carried by a [Result], and every function
    that talks to the storage collaborator is a state transformer over a
    [World] holding the store and the journal of issued statements. *)

From Stdlib Require Import String Ascii List ZArith Bool Arith Lia.
From Stdlib Require Import DecimalString.
Import ListNotations.
Open Scope string_scope.
Open Scope list_scope.

Set Warnings "-register-all".
Set Warnings "-automation".
Set Warnings "-notation-overridden".
Set Warnings "-implicit-core-hint-db".
Set Warnings "-deprecated".
Set Warnings "-masking-absolute-name".

(* ================================================================== *)
(** ** Strings *)

Module Str.

Definition eqb := String.eqb.

(** The double-quote character and the one-character string holding it. *)
Definition dquote_char : ascii := ascii_of_nat 34.
Definition dquote : string := String dquote_char EmptyString.

Fixpoint chars (s : string) : list ascii :=
  match s with
  | EmptyString => []
  | String c r => c :: chars r
  end.

Fixpoint of_chars (l : list ascii) : string :=
  match l with
  | [] => EmptyString
  | c :: r => String c (of_chars r)
  end.

(** [s.includes(c)] for a one-character needle. *)
Fixpoint includes_char (c : ascii) (s : string) : bool :=
  match s with
  | EmptyString => false
  | String d r => Ascii.eqb c d || includes_char c r
  end.

(** [s.startsWith(p)] *)
Definition startsWith (p s : string) : bool := String.prefix p s.

(** [s.indexOf(c)] for a one-character needle. *)
Fixpoint indexOf (c : ascii) (s : string) : option nat :=
  match s with
  | EmptyString => None
  | String d r =>
      if Ascii.eqb c d then Some 0
      else match indexOf c r with
           | Some n => Some (S n)
           | None => None
           end
  end.

(** [s.slice(n)] *)
Fixpoint drop (n : nat) (s : string) : string :=
  match n, s with
  | 0, _ => s
  | S m, EmptyString => EmptyString
  | S m, String _ r => drop m r
  end.

(** [s.slice(0, n)] *)
Fixpoint take (n : nat) (s : string) : string :=
  match n, s with
  | 0, _ => EmptyString
  | S m, EmptyString => EmptyString
  | S m, String c r => String c (take m r)
  end.

(** [l.join(sep)] *)
Definition join (sep : string) (l : list string) : string := String.concat sep l.

Definition of_nat (n : nat) : string := NilZero.string_of_uint (Nat.to_uint n).

Definition of_Z (z : Z) : string := NilZero.string_of_int (Z.to_int z).

(** The positional placeholder [`$${n}`]. *)
Definition placeholder (n : nat) : string := ("$" ++ of_nat n)%string.

Definition mem (s : string) (l : list string) : bool := existsb (String.eqb s) l.

Definition is_hex (c : ascii) : bool :=
  let n := nat_of_ascii c in
  (Nat.leb 48 n && Nat.leb n 57) || (Nat.leb 97 n && Nat.leb n 102) ||
  (Nat.leb 65 n && Nat.leb n 70).

Definition is_one_of (cs : string) (c : ascii) : bool := includes_char c cs.

End Str.

(* ================================================================== *)
(** ** JavaScript values *)

(** Numbers: the finite values the layer handles are counters and row
    counts, kept as integers; the two non-finite shapes that
    [Number.isFinite] rejects are kept apart. *)
Inductive JsNum :=
| NFin (z : Z)
| NNaN
| NInf (positive : bool).

Inductive Value :=
| VUndef
| VNull
| VBool (b : bool)
| VNum (n : JsNum)
| VStr (s : string)
| VDate (t : option Z)            (* [None] is the Invalid Date *)
| VArr (l : list Value)
| VObj (l : list (string * Value)).

Definition JsObject := list (string * Value).

Module Js.

Definition num_eqb (a b : JsNum) : bool :=
  match a, b with
  | NFin x, NFin y => Z.eqb x y
  | NInf p, NInf q => Bool.eqb p q
  | _, _ => false                   (* NaN is equal to nothing *)
  end.

Definition isFinite (n : JsNum) : bool :=
  match n with NFin _ => true | _ => false end.

(** Truthiness, as used by [!x], [x || y] and [if (x)]. *)
Definition truthy (v : Value) : bool :=
  match v with
  | VUndef | VNull => false
  | VBool b => b
  | VNum (NFin z) => negb (Z.eqb z 0)
  | VNum NNaN => false
  | VNum (NInf _) => true
  | VStr s => negb (String.eqb s "")
  | VDate _ | VArr _ | VObj _ => true
  end.

(** [v == null] *)
Definition nullish (v : Value) : bool :=
  match v with VUndef | VNull => true | _ => false end.

Definition is_object (v : Value) : bool :=
  match v with VDate _ | VArr _ | VObj _ => true | _ => false end.


(** Own-property lookup on an object. *)
Fixpoint get {A} (k : string) (o : list (string * A)) : option A :=
  match o with
  | [] => None
  | (k', v) :: r => if String.eqb k k' then Some v else get k r
  end.

(** [o[k] = v]: overwrite in place, or append a new own property. *)
Fixpoint set {A} (k : string) (v : A) (o : list (string * A)) : list (string * A) :=
  match o with
  | [] => [(k, v)]
  | (k', v') :: r => if String.eqb k k' then (k, v) :: r else (k', v') :: set k v r
  end.

(** [delete o[k]] *)
Fixpoint remove {A} (k : string) (o : list (string * A)) : list (string * A) :=
  match o with
  | [] => []
  | (k', v') :: r => if String.eqb k k' then remove k r else (k', v') :: remove k r
  end.

Definition has {A} (k : string) (o : list (string * A)) : bool :=
  match get k o with Some _ => true | None => false end.

(** The names a plain object inherits from [Object.prototype]: reading
    one that is no own key answers the inherited member (a function; for
    [__proto__], the prototype itself), so [o[k]] is truthy and [k in o]
    holds for them on every object literal. *)
Definition inheritedNames : list string :=
  ["constructor"; "__defineGetter__"; "__defineSetter__"; "hasOwnProperty";
   "__lookupGetter__"; "__lookupSetter__"; "isPrototypeOf"; "propertyIsEnumerable";
   "toString"; "valueOf"; "__proto__"; "toLocaleString"].

Definition inherits (k : string) : bool := Str.mem k inheritedNames.

(** [k in o] *)
Definition has_in {A} (k : string) (o : list (string * A)) : bool :=
  has k o || inherits k.

(** [o[k]] read as a value: a missing property reads [undefined]. *)
Definition prop (k : string) (o : JsObject) : Value :=
  match get k o with Some v => v | None => VUndef end.

Definition keys {A} (o : list (string * A)) : list string := map fst o.

(** [Object.assign(target, source)] *)
Definition assign {A} (target source : list (string * A)) : list (string * A) :=
  fold_left (fun acc kv => set (fst kv) (snd kv) acc) source target.

(** [set.add(x)] on a [Set<string>] kept in insertion order. *)
Definition add (x : string) (s : list string) : list string :=
  if Str.mem x s then s else s ++ [x].

(** [[...new Set(l)]] *)
Definition dedup (l : list string) : list string :=
  fold_left (fun acc x => add x acc) l [].

Fixpoint index_entries_from (i : nat) (l : list Value) : list (string * Value) :=
  match l with
  | [] => []
  | x :: r => (Str.of_nat i, x) :: index_entries_from (S i) r
  end.

(** Structural equality on values, used by the storage model for [=]. *)
Fixpoint eqb (a b : Value) {struct a} : bool :=
  match a, b with
  | VUndef, VUndef => true
  | VNull, VNull => true
  | VBool x, VBool y => Bool.eqb x y
  | VNum x, VNum y => num_eqb x y
  | VStr x, VStr y => String.eqb x y
  | VDate (Some x), VDate (Some y) => Z.eqb x y
  | VArr la, VArr lb =>
      (fix go (la lb : list Value) : bool :=
         match la, lb with
         | [], [] => true
         | x :: ra, y :: rb => eqb x y && go ra rb
         | _, _ => false
         end) la lb
  | VObj la, VObj lb =>
      (fix go (la lb : list (string * Value)) : bool :=
         match la, lb with
         | [], [] => true
         | (k, x) :: ra, (k', y) :: rb => String.eqb k k' && eqb x y && go ra rb
         | _, _ => false
         end) la lb
  | _, _ => false
  end.

End Js.

(** [deepEqual(a, b)] of the model runtime. Reference identity is not
    modelled, so the first test [a === b] is decided on primitives only;
    for objects the structural branches below return the same answer the
    identity test would, except on values that contain [NaN] or an invalid
    date, where identity is not available to the model. *)
Fixpoint deepEqual (a b : Value) {struct a} : bool :=
  match a, b with
  | VUndef, VUndef => true
  | VNull, VNull => true
  | VBool x, VBool y => Bool.eqb x y
  | VNum x, VNum y => Js.num_eqb x y
  | VStr x, VStr y => String.eqb x y
  | VDate x, VDate y =>
      match x, y with
      | Some tx, Some ty => Z.eqb tx ty
      | _, _ => false
      end
  | VArr la, VArr lb =>
      Nat.eqb (length la) (length lb) &&
      (fix go (la lb : list Value) : bool :=
         match la, lb with
         | x :: ra, y :: rb => deepEqual x y && go ra rb
         | _, _ => true
         end) la lb
  | VObj la, VObj lb =>
      Nat.eqb (length la) (length lb) &&
      (fix go (la : list (string * Value)) : bool :=
         match la with
         | [] => true
         | (k, x) :: ra =>
             match Js.get k lb with
             | Some y => deepEqual x y && go ra
             | None => false
             end
         end) la
  | VArr la, VObj lb =>
      Nat.eqb (length la) (length lb) &&
      (fix go (i : nat) (la : list Value) : bool :=
         match la with
         | [] => true
         | x :: ra =>
             match Js.get (Str.of_nat i) lb with
             | Some y => deepEqual x y && go (S i) ra
             | None => false
             end
         end) 0 la
  | VObj la, VArr lb =>
      Nat.eqb (length la) (length lb) &&
      (fix go (la : list (string * Value)) : bool :=
         match la with
         | [] => true
         | (k, x) :: ra =>
             match Js.get k (Js.index_entries_from 0 lb) with
             | Some y => deepEqual x y && go ra
             | None => false
             end
         end) la
  | VDate _, VArr lb => Nat.eqb (length lb) 0
  | VDate _, VObj lb => Nat.eqb (length lb) 0
  | VArr la, VDate _ => Nat.eqb (length la) 0
  | VObj la, VDate _ => Nat.eqb (length la) 0
  | _, _ => false
  end.

(* ================================================================== *)
(** ** Errors (errors.ts) *)

Inductive ErrorClass :=
| CError | CTypeError | CDALError | CDocumentNotFound | CInvalidUUIDError
| CValidationError | CConnectionError | CTransactionError | CQueryError
| CConstraintError | CDuplicateSlugNameError.

(** An [Error] object: its class (what [instanceof] sees), its [name] and
    [message], the [code] discriminant, the fields a storage error carries
    ([detail], [constraint], [column]) and the ones the DAL classes add. *)
Inductive JsError : Type := mkError {
  cls : ErrorClass;
  name : string;
  message : string;
  code : option string;
  detail : option string;
  constraint : option string;
  column : option string;
  field : option string;
  originalError : option JsError
}.

(** Anything a [throw] can carry. *)
Inductive Thrown :=
| TErr (e : JsError)
| TVal (v : Value).

Inductive Result (A : Type) :=
| Ok (a : A)
| Throw (t : Thrown).
Arguments Ok {A} a.
Arguments Throw {A} t.

Module Errors.

Definition plain (c : ErrorClass) (n msg : string) (cd : option string) : JsError :=
  mkError c n msg cd None None None None None.

Definition Error (msg : string) : JsError := plain CError "Error" msg None.
Definition TypeError (msg : string) : JsError := plain CTypeError "TypeError" msg None.

Definition DALError (msg : string) (cd : option string) : JsError :=
  plain CDALError "DALError" msg cd.

Definition DocumentNotFound (msg : string) : JsError :=
  plain CDocumentNotFound "DocumentNotFound" msg (Some "DOCUMENT_NOT_FOUND").

Definition InvalidUUIDError (msg : string) : JsError :=
  plain CInvalidUUIDError "InvalidUUIDError" msg (Some "INVALID_UUID").

Definition ValidationError (msg : string) (fld : option string) : JsError :=
  mkError CValidationError "ValidationError" msg (Some "VALIDATION_ERROR")
          None None None fld None.

Definition ConnectionError (msg : string) : JsError :=
  plain CConnectionError "ConnectionError" msg (Some "CONNECTION_ERROR").

Definition QueryError (msg : string) (orig : option JsError) : JsError :=
  mkError CQueryError "QueryError" msg (Some "QUERY_ERROR") None None None None orig.

Definition ConstraintError (msg : string) (c : option string) : JsError :=
  mkError CConstraintError "ConstraintError" msg (Some "CONSTRAINT_ERROR")
          None c None None None.

(** An error as the storage driver raises it: a plain [Error] carrying
    the vendor's five-character code. *)
Definition PostgresError (cd msg : string) (dt cs col : option string) : JsError :=
  mkError CError "error" msg (Some cd) dt cs col None None.

Definition orElse (o : option string) (d : string) : string :=
  match o with Some s => s | None => d end.

(** [convertPostgreSQLError(pgError)] *)
Definition convertPostgreSQLError (pgError : Thrown) : JsError :=
  match pgError with
  | TVal _ => DALError "Unknown error" None
  | TErr error =>
      let message := message error in
      match code error with
      | Some "23505" =>
          ConstraintError
            ("Unique constraint violation: " ++ orElse (detail error) message)%string
            (constraint error)
      | Some "23503" =>
          ConstraintError
            ("Foreign key constraint violation: " ++ orElse (detail error) message)%string
            (constraint error)
      | Some "23502" =>
          ValidationError
            ("Not null constraint violation: " ++ orElse (column error) message)%string
            (column error)
      | Some "23514" =>
          ValidationError
            ("Check constraint violation: " ++ orElse (detail error) message)%string
            (constraint error)
      | Some "08000" | Some "08003" | Some "08006" => ConnectionError message
      | Some "42P01" =>
          QueryError ("Table does not exist: " ++ message)%string (Some error)
      | Some "42703" =>
          QueryError ("Column does not exist: " ++ message)%string (Some error)
      | _ => QueryError message (Some error)
      end
  end.

(** The codes the mapping above is keyed on: the storage vendor's. *)
Definition storage_codes : list string :=
  ["23505"; "23503"; "23502"; "23514"; "08000"; "08003"; "08006"; "42P01"; "42703"].

Definition is_storage_error (e : JsError) : bool :=
  match cls e with
  | CError => match code e with Some _ => true | None => false end
  | _ => false
  end.

End Errors.

(* ================================================================== *)
(** ** The host runtime and the model instance state *)

(** What the JavaScript host supplies: the [Date] string parser,
    [crypto.randomUUID()] and the clock behind [new Date()], the last two
    indexed by the number of draws made so far, and the text
    [Date.prototype.toString()] gives a time value in the host's zone. *)
Record Host := {
  Date_parse : string -> option Z;
  randomUUID : nat -> string;
  Date_now : nat -> Z;
  Date_toString : Z -> string
}.

(** Per-row state of a [Model] instance. *)
Record Instance := {
  _data : JsObject;
  _virtualFields : JsObject;
  _changed : list string;
  _isNew : bool;
  _originalData : JsObject
}.

(* ================================================================== *)
(** ** Schema types (type.ts) *)

(** [defaultValue]: absent, a literal, or a factory that may be invoked
    without a receiver ([getDefault()]) or with the owning instance. *)
Inductive DefaultSpec :=
| DNone
| DLit (v : Value)
| DFn (f : option Instance -> Result Value).

(** The common part of every [Type]. A custom validator answers [false]
    (reject), anything else (accept), or throws. *)
Record TypeBase := {
  validators : list (Value -> Result bool);
  _required : bool;
  defaultValue : DefaultSpec;
  hasDefault : bool;
  isSensitive : bool;
  isVirtual : bool
}.

Inductive SchemaField :=
| AnyType (b : TypeBase)
| StringType (b : TypeBase) (maxLength minLength : option nat) (enumValues : option (list string))
| NumberType (b : TypeBase) (minValue maxValue : option Z) (isInteger : bool)
| BooleanType (b : TypeBase)
| DateType (b : TypeBase)
| ArrayType (b : TypeBase) (elementType : option SchemaField)
| ObjectType (b : TypeBase)
| VirtualType (b : TypeBase)
| CustomField (b : TypeBase) (validate : Host -> Value -> string -> Result Value).

Module Types.

Definition base (f : SchemaField) : TypeBase :=
  match f with
  | AnyType b | StringType b _ _ _ | NumberType b _ _ _ | BooleanType b | DateType b
  | ArrayType b _ | ObjectType b | VirtualType b | CustomField b _ => b
  end.

Definition with_base (g : TypeBase -> TypeBase) (f : SchemaField) : SchemaField :=
  match f with
  | AnyType b => AnyType (g b)
  | StringType b x y z => StringType (g b) x y z
  | NumberType b x y z => NumberType (g b) x y z
  | BooleanType b => BooleanType (g b)
  | DateType b => DateType (g b)
  | ArrayType b e => ArrayType (g b) e
  | ObjectType b => ObjectType (g b)
  | VirtualType b => VirtualType (g b)
  | CustomField b v => CustomField (g b) v
  end.

Definition new_base : TypeBase :=
  {| validators := []; _required := false; defaultValue := DNone;
     hasDefault := false; isSensitive := false; isVirtual := false |}.

Definition required (isRequired : bool) : SchemaField -> SchemaField :=
  with_base (fun b => {| validators := validators b; _required := isRequired;
                         defaultValue := defaultValue b; hasDefault := hasDefault b;
                         isSensitive := isSensitive b; isVirtual := isVirtual b |}).

Definition default (d : DefaultSpec) : SchemaField -> SchemaField :=
  with_base (fun b => {| validators := validators b; _required := _required b;
                         defaultValue := d; hasDefault := true;
                         isSensitive := isSensitive b; isVirtual := isVirtual b |}).

Definition sensitive (s : bool) : SchemaField -> SchemaField :=
  with_base (fun b => {| validators := validators b; _required := _required b;
                         defaultValue := defaultValue b; hasDefault := hasDefault b;
                         isSensitive := s; isVirtual := isVirtual b |}).

Definition validator (v : Value -> Result bool) : SchemaField -> SchemaField :=
  with_base (fun b => {| validators := validators b ++ [v]; _required := _required b;
                         defaultValue := defaultValue b; hasDefault := hasDefault b;
                         isSensitive := isSensitive b; isVirtual := isVirtual b |}).

(** [/^[0-9a-f]{8}-[0-9a-f]{4}-V[0-9a-f]{3}-[89ab][0-9a-f]{3}-[0-9a-f]{12}$/i]
    with [V] ranging over [versions]. *)
Definition uuid_shape (versions : string) (s : string) : bool :=
  let cs := Str.chars s in
  let hexes l := forallb Str.is_hex l in
  let dash c := Ascii.eqb c "-"%char in
  match cs with
  | a1 :: a2 :: a3 :: a4 :: a5 :: a6 :: a7 :: a8 :: d1 ::
    b1 :: b2 :: b3 :: b4 :: d2 ::
    v :: c2 :: c3 :: c4 :: d3 ::
    r :: e2 :: e3 :: e4 :: d4 :: rest =>
      hexes [a1; a2; a3; a4; a5; a6; a7; a8] && dash d1 &&
      hexes [b1; b2; b3; b4] && dash d2 &&
      Str.is_one_of versions v && hexes [c2; c3; c4] && dash d3 &&
      Str.is_one_of "89abAB" r && hexes [e2; e3; e4] && dash d4 &&
      Nat.eqb (length rest) 12 && hexes rest
  | _ => false
  end.

(** The validator [StringType.uuid()] installs. *)
Definition uuid_validator (value : Value) : Result bool :=
  match value with
  | VStr s =>
      if uuid_shape "12345" s then Ok true
      else Throw (TErr (Errors.ValidationError "Must be a valid UUID" None))
  | _ => Throw (TErr (Errors.ValidationError "Must be a valid UUID" None))
  end.

Definition uuid : SchemaField -> SchemaField := validator uuid_validator.

(** The error [ToPrimitive] raises on an object that offers no
    primitive. *)
Definition noPrimitive : JsError :=
  Errors.TypeError "Cannot convert object to primitive value".

(** [String(v)]. An array joins the texts of its elements, [null] and
    [undefined] counting as empty; a plain object answers through the
    [toString] it inherits unless an own [toString] property shadows it:
    values carry no functions, so the own property is not callable, the
    inherited [valueOf] gives the object back, and the conversion throws. *)
Fixpoint ToString (h : Host) (v : Value) {struct v} : Result string :=
  match v with
  | VUndef => Ok "undefined"
  | VNull => Ok "null"
  | VBool true => Ok "true"
  | VBool false => Ok "false"
  | VNum (NFin z) => Ok (Str.of_Z z)
  | VNum NNaN => Ok "NaN"
  | VNum (NInf true) => Ok "Infinity"
  | VNum (NInf false) => Ok "-Infinity"
  | VStr s => Ok s
  | VDate None => Ok "Invalid Date"
  | VDate (Some t) => Ok (Date_toString h t)
  | VArr l =>
      match (fix texts (l : list Value) : Result (list string) :=
               match l with
               | [] => Ok []
               | x :: r =>
                   match (match x with
                          | VUndef | VNull => Ok ""
                          | _ => ToString h x
                          end) with
                   | Throw t => Throw t
                   | Ok s =>
                       match texts r with
                       | Throw t => Throw t
                       | Ok rest => Ok (s :: rest)
                       end
                   end
               end) l with
      | Throw t => Throw t
      | Ok ts => Ok (Str.join "," ts)
      end
  | VObj o =>
      if Js.has "toString" o then Throw (TErr noPrimitive) else Ok "[object Object]"
  end.

(** [runValidators(value, fieldName)] *)
Fixpoint runValidators (h : Host) (vs : list (Value -> Result bool)) (value : Value)
         (fieldName : string) : Result unit :=
  match vs with
  | [] => Ok tt
  | v :: rest =>
      match v value with
      | Ok false =>
          Throw (TErr (Errors.ValidationError
                         ("Validation failed for " ++ fieldName)%string None))
      | Ok true => runValidators h rest value fieldName
      | Throw (TErr e) =>
          match cls e with
          | CValidationError => Throw (TErr e)
          | _ => Throw (TErr (Errors.ValidationError
                   ("Validation error for " ++ fieldName ++ ": " ++ message e)%string None))
          end
      | Throw (TVal thrown) =>
          match ToString h thrown with
          | Throw t => Throw t
          | Ok text =>
              Throw (TErr (Errors.ValidationError
                       ("Validation error for " ++ fieldName ++ ": " ++ text)%string None))
          end
      end
  end.

Definition invalid {A} (msg : string) : Result A :=
  Throw (TErr (Errors.ValidationError msg None)).

Definition after {A} (r : Result unit) (k : Result A) : Result A :=
  match r with Ok _ => k | Throw t => Throw t end.

(** [validate(value, fieldName)], class by class. *)
Fixpoint validate (h : Host) (f : SchemaField) (value : Value) (fieldName : string)
  {struct f} : Result Value :=
  let b := base f in
  match f with
  | CustomField _ v => v h value fieldName
  | _ =>
  if _required b && Js.nullish value then invalid (fieldName ++ " is required")%string
  else if Js.nullish value then Ok value
  else
    match f with
    | AnyType _ | VirtualType _ =>
        after (runValidators h (validators b) value fieldName) (Ok value)
    | StringType _ maxLength minLength enumValues =>
        match value with
        | VStr s =>
            if match maxLength with Some m => Nat.ltb m (String.length s) | None => false end
            then invalid (fieldName ++ " must be shorter than " ++
                          Str.of_nat (match maxLength with Some m => m | None => 0 end) ++
                          " characters")%string
            else if match minLength with Some m => Nat.ltb (String.length s) m | None => false end
            then invalid (fieldName ++ " must be longer than " ++
                          Str.of_nat (match minLength with Some m => m | None => 0 end) ++
                          " characters")%string
            else if match enumValues with Some vs => negb (Str.mem s vs) | None => false end
            then invalid (fieldName ++ " must be one of: " ++
                          Str.join ", " (match enumValues with Some vs => vs | None => [] end))%string
            else after (runValidators h (validators b) value fieldName) (Ok value)
        | _ => invalid (fieldName ++ " must be a string")%string
        end
    | NumberType _ minValue maxValue isInteger =>
        match value with
        | VNum (NFin z) =>
            (* every finite number of the model is an integer *)
            if match minValue with Some m => Z.ltb z m | None => false end
            then invalid (fieldName ++ " must be greater than or equal to " ++
                          Str.of_Z (match minValue with Some m => m | None => 0%Z end))%string
            else if match maxValue with Some m => Z.ltb m z | None => false end
            then invalid (fieldName ++ " must be less than or equal to " ++
                          Str.of_Z (match maxValue with Some m => m | None => 0%Z end))%string
            else after (runValidators h (validators b) value fieldName) (Ok value)
        | _ => invalid (fieldName ++ " must be a finite number")%string
        end
    | BooleanType _ =>
        match value with
        | VBool _ => after (runValidators h (validators b) value fieldName) (Ok value)
        | _ => invalid (fieldName ++ " must be a boolean")%string
        end
    | DateType _ =>
        let check (normalized : option Z) :=
          match normalized with
          | None => invalid (fieldName ++ " must be a valid date")%string
          | Some t =>
              after (runValidators h (validators b) (VDate (Some t)) fieldName)
                    (Ok (VDate (Some t)))
          end in
        match value with
        | VDate t => check t
        | VStr s => check (Date_parse h s)
        | _ => invalid (fieldName ++ " must be a Date object")%string
        end
    | ArrayType _ elementType =>
        match value with
        | VArr items =>
            after (runValidators h (validators b) value fieldName)
              match elementType with
              | None => Ok value
              | Some et =>
                  (fix each (i : nat) (l : list Value) : Result Value :=
                     match l with
                     | [] => Ok (VArr [])
                     | x :: r =>
                         match validate h et x
                                 (fieldName ++ "[" ++ Str.of_nat i ++ "]")%string with
                         | Throw t => Throw t
                         | Ok y =>
                             match each (S i) r with
                             | Ok (VArr ys) => Ok (VArr (y :: ys))
                             | other => other
                             end
                         end
                     end) 0 items
              end
        | _ => invalid (fieldName ++ " must be an array")%string
        end
    | ObjectType _ =>
        match value with
        | VObj _ | VDate _ =>
            (* [typeof value === 'object'] and no array *)
            after (runValidators h (validators b) value fieldName) (Ok value)
        | _ => invalid (fieldName ++ " must be an object")%string
        end
    | CustomField _ v => v h value fieldName
    end
  end.

(** [getDefault()] *)
Definition getDefault (f : SchemaField) : Result Value :=
  if negb (hasDefault (base f)) then Ok VUndef
  else match defaultValue (base f) with
       | DNone => Ok VUndef
       | DLit v => Ok v
       | DFn g => g None
       end.

Definition isNumberType (f : SchemaField) : bool :=
  match f with NumberType _ _ _ _ => true | _ => false end.

(** The factory helpers [types.string()], [types.number()], ... *)
Module types.
Definition string : SchemaField := StringType new_base None None None.
Definition number : SchemaField := NumberType new_base None None false.
Definition boolean : SchemaField := BooleanType new_base.
Definition date : SchemaField := DateType new_base.
Definition array (elementType : option SchemaField) : SchemaField :=
  ArrayType new_base elementType.
Definition object : SchemaField := ObjectType new_base.
Definition virtual : SchemaField :=
  VirtualType {| validators := []; _required := false; defaultValue := DNone;
                 hasDefault := false; isSensitive := false; isVirtual := true |}.
Definition any : SchemaField := AnyType new_base.
End types.

End Types.

(* ================================================================== *)
(** ** Predicates and statements *)

Inductive Conjunction := AND | OR.

(** The [valueTransform] closures the builder installs: the identity,
    [placeholder => `${placeholder}::${cast}`], and the set-membership
    wrapper [placeholder => `(${placeholder}${cast ? `::${cast}` : ''})`]. *)
Inductive ValueTransform :=
| TIdentity
| TCast (cast : string)
| TWrap (cast : option string).

(** A predicate descriptor. [value = None] is an absent [value] property
    (an open operator), [Some VNull] is [null]. *)
Inductive Predicate :=
| Basic (table : option string) (column : string) (operator : string)
        (value : option Value) (valueTransform : option ValueTransform)
| Group (conjunction : Conjunction) (predicates : list Predicate)
| Raw (sql : string) (values : list Value).

Inductive SelectItem :=
| Col (table column : string)                   (* [table.column] *)
| ColAs (table column alias : string)           (* [table.column AS "alias"] *)
| Expr (sql : string).                          (* a select expression, verbatim *)

Record SelectQuery := {
  sel_items : list SelectItem;
  sel_table : string;
  sel_joins : list string;
  sel_where : list Predicate;
  sel_orderBy : list string;
  sel_limit : option Z;
  sel_offset : option Z
}.

(** The statements the layer sends to storage. The four structured forms
    are the ones the storage model below interprets; every other statement
    travels as its text. *)
Inductive Statement :=
| InsertRow (table : string) (fields : list string) (returning : bool)
| UpdateById (table : string) (fields : list string)
| MarkRevisionsDeleted (table : string)
| Select (q : SelectQuery)
| Text (sql : string).

Record SqlCall := { statement : Statement; params : list Value }.

Module Sql.

Definition conjunction_text (c : Conjunction) : string :=
  match c with AND => "AND" | OR => "OR" end.

Definition applyTransform (t : option ValueTransform) (placeholder : string) : string :=
  match t with
  | None | Some TIdentity => placeholder
  | Some (TCast cast) => (placeholder ++ "::" ++ cast)%string
  | Some (TWrap cast) =>
      ("(" ++ placeholder ++
       match cast with
       | Some c => if String.eqb c "" then "" else ("::" ++ c)%string
       | None => ""
       end ++ ")")%string
  end.

(** Rendering context of [_buildWhereClause]: the next placeholder index
    and the parameters bound so far. *)
Record Ctx := { nextIndex : nat; bound : list Value }.

(** [_qualifyColumn(predicate, context)] *)
Definition _qualifyColumn (qualifyColumns : bool) (defaultTable : string)
           (table : option string) (column : string) : string :=
  if String.eqb column "" then column
  else match table with
       | Some t => if String.eqb t "" then
                     (if negb qualifyColumns then column
                      else if Str.includes_char "."%char column || Str.includes_char "("%char column
                           then column
                           else (defaultTable ++ "." ++ column)%string)
                   else (t ++ "." ++ column)%string
       | None =>
           if negb qualifyColumns then column
           else if Str.includes_char "."%char column || Str.includes_char "("%char column
                then column
                else (defaultTable ++ "." ++ column)%string
       end.

(** [_renderBasicPredicate(predicate, context)] *)
Definition _renderBasicPredicate (qualifyColumns : bool) (defaultTable : string)
           (table : option string) (column operator : string) (value : option Value)
           (vt : option ValueTransform) (c : Ctx) : string * Ctx :=
  let columnSql := _qualifyColumn qualifyColumns defaultTable table column in
  match value with
  | Some VNull =>
      if String.eqb operator "IS" || String.eqb operator "IS NOT"
      then ((columnSql ++ " " ++ operator ++ " NULL")%string, c)
      else
        let ph := Str.placeholder (nextIndex c) in
        ((columnSql ++ " " ++ operator ++ " " ++ applyTransform vt ph)%string,
         {| nextIndex := S (nextIndex c); bound := bound c ++ [VNull] |})
  | None | Some VUndef => ((columnSql ++ " " ++ operator)%string, c)
  | Some v =>
      let ph := Str.placeholder (nextIndex c) in
      ((columnSql ++ " " ++ operator ++ " " ++ applyTransform vt ph)%string,
       {| nextIndex := S (nextIndex c); bound := bound c ++ [v] |})
  end.

(** [_renderPredicate(predicate, context)] *)
Fixpoint _renderPredicate (qualifyColumns : bool) (defaultTable : string)
         (p : Predicate) (c : Ctx) {struct p} : string * Ctx :=
  match p with
  | Group cj preds =>
      let '(inner, c') :=
        (fix each (l : list Predicate) (c : Ctx) : list string * Ctx :=
           match l with
           | [] => ([], c)
           | child :: r =>
               let '(rendered, c1) := _renderPredicate qualifyColumns defaultTable child c in
               let '(rest, c2) := each r c1 in
               (if String.eqb rendered "" then rest else rendered :: rest, c2)
           end) preds c in
      match inner with
      | [] => ("", c')
      | _ => (("(" ++ Str.join (" " ++ conjunction_text cj ++ " ") inner ++ ")")%string, c')
      end
  | Raw sql values =>
      if String.eqb sql "" then
        (* a raw predicate without text falls through to the basic renderer,
           which finds neither a column nor an operator to print *)
        ("undefined undefined", c)
      else (sql, {| nextIndex := nextIndex c; bound := bound c ++ values |})
  | Basic table column operator value vt =>
      _renderBasicPredicate qualifyColumns defaultTable table column operator value vt c
  end.

Fixpoint renderAll (qualifyColumns : bool) (defaultTable : string)
         (l : list Predicate) (c : Ctx) : list string * Ctx :=
  match l with
  | [] => ([], c)
  | p :: r =>
      let '(fragment, c1) := _renderPredicate qualifyColumns defaultTable p c in
      let '(rest, c2) := renderAll qualifyColumns defaultTable r c1 in
      (if String.eqb fragment "" then rest else fragment :: rest, c2)
  end.

(** [_buildWhereClause({ qualifyColumns })] over a predicate list: the
    fragments joined by [' AND '] and the bound parameters. *)
Definition buildWhere (qualifyColumns : bool) (defaultTable : string)
           (where_ : list Predicate) : string * list Value :=
  match where_ with
  | [] => ("", [])
  | _ =>
      let '(fragments, c) :=
        renderAll qualifyColumns defaultTable where_ {| nextIndex := 1; bound := [] |} in
      (Str.join " AND " fragments, bound c)
  end.

Definition item_text (i : SelectItem) : string :=
  match i with
  | Col t c => (t ++ "." ++ c)%string
  | ColAs t c a => (t ++ "." ++ c ++ " AS " ++ Str.dquote ++ a ++ Str.dquote)%string
  | Expr sql => sql
  end.

Definition placeholders (n : nat) : list string :=
  map (fun i => Str.placeholder (S i)) (seq 0 n).

Fixpoint setClause (fields : list string) (index : nat) : list string :=
  match fields with
  | [] => []
  | key :: r => (key ++ " = " ++ Str.placeholder (S index))%string :: setClause r (S index)
  end.

(** The text of a statement. Template literals that span several lines
    are rendered on one line, words separated by single spaces. *)
Definition text (s : Statement) : string :=
  match s with
  | InsertRow table fields returning =>
      ("INSERT INTO " ++ table ++ " (" ++ Str.join ", " fields ++ ") VALUES (" ++
       Str.join ", " (placeholders (length fields)) ++ ")" ++
       (if returning then " RETURNING *" else ""))%string
  | UpdateById table fields =>
      ("UPDATE " ++ table ++ " SET " ++ Str.join ", " (setClause fields 0) ++
       " WHERE id = " ++ Str.placeholder (S (length fields)) ++ " RETURNING *")%string
  | MarkRevisionsDeleted table =>
      ("UPDATE " ++ table ++ " SET _rev_deleted = true WHERE _old_rev_of = $1")%string
  | Select q =>
      let where_ := fst (buildWhere true (sel_table q) (sel_where q)) in
      ("SELECT " ++ Str.join ", " (map item_text (sel_items q)) ++ " FROM " ++ sel_table q ++
       (match sel_joins q with [] => "" | js => " " ++ Str.join " " js end) ++
       (if String.eqb where_ "" then "" else " WHERE " ++ where_) ++
       (match sel_orderBy q with [] => "" | os => " ORDER BY " ++ Str.join ", " os end) ++
       (match sel_limit q with Some n => " LIMIT " ++ Str.of_Z n | None => "" end) ++
       (match sel_offset q with Some n => " OFFSET " ++ Str.of_Z n | None => "" end))%string
  | Text sql => sql
  end.

End Sql.

(* ================================================================== *)
(** ** Storage, world and effects *)

Definition Row := JsObject.

Record QueryResult := { rows : list Row; rowCount : nat }.

(** A table: its columns, the column defaults other than the generated
    [id], and its rows (every stored row has every column). *)
Record Table := {
  columns : list string;
  defaults : JsObject;
  records : list Row
}.

Record Store := {
  tables : list (string * Table);
  generated : nat                     (* identities handed out so far *)
}.

Record World := {
  host : Host;
  store : Store;
  journal : list SqlCall;             (* every statement issued, in order *)
  draws : nat                         (* host draws (uuid, clock) so far *)
}.

(** Computations that may throw and may talk to storage. *)
Definition Eff (A : Type) : Type := World -> Result A * World.

Module EffM.

Definition ret {A} (a : A) : Eff A := fun w => (Ok a, w).

Definition throw {A} (e : JsError) : Eff A := fun w => (Throw (TErr e), w).

Definition bind {A B} (m : Eff A) (k : A -> Eff B) : Eff B :=
  fun w => match m w with
           | (Ok a, w') => k a w'
           | (Throw t, w') => (Throw t, w')
           end.

Definition lift {A} (r : Result A) : Eff A := fun w => (r, w).

(** [try { m } catch (error) { throw f(error) }] *)
Definition rethrow {A} (f : Thrown -> JsError) (m : Eff A) : Eff A :=
  fun w => match m w with
           | (Ok a, w') => (Ok a, w')
           | (Throw t, w') => (Throw (TErr (f t)), w')
           end.

Fixpoint forEach {A} (f : A -> Eff unit) (l : list A) : Eff unit :=
  match l with
  | [] => ret tt
  | x :: r => bind (f x) (fun _ => forEach f r)
  end.

End EffM.

Notation "x <- m ;; k" := (EffM.bind m (fun x => k))
  (at level 61, m at next level, right associativity).
Notation "m ;;; k" := (EffM.bind m (fun _ => k))
  (at level 61, right associativity).

Module ResultM.

Definition bind {A B} (m : Result A) (k : A -> Result B) : Result B :=
  match m with Ok a => k a | Throw t => Throw t end.

Fixpoint foldM {A S} (f : S -> A -> Result S) (l : list A) (s : S) : Result S :=
  match l with
  | [] => Ok s
  | x :: r => bind (f s x) (foldM f r)
  end.

End ResultM.

(* ================================================================== *)
(** ** Model classes, relations and the data-access layer object *)

Inductive Cardinality := one | many.
Inductive JoinType := JoinThrough | JoinDirect.

Record ThroughRelationConfig := {
  through_table : string;
  through_sourceColumn : string;
  through_targetColumn : string;
  sourceCondition : option string;
  targetCondition : option string
}.

Record NormalizedRelationConfig := {
  targetTable : string;
  targetModelKey : string;
  sourceColumn : string;
  targetColumn : string;
  hasRevisions : bool;
  cardinality : Cardinality;
  isArray : bool;
  through : option ThroughRelationConfig;
  joinType : JoinType;
  condition : option string
}.

(** The static side of a model constructor. [filterWhereStatic] is the
    [filterWhere] static [createModel] attaches: absent on a bare
    constructor, otherwise bound to the manifest's [hasRevisions]. *)
Record ModelClass := {
  tableName : string;
  schema : list (string * SchemaField);
  _fieldMappings : list (string * string);
  _relations : list (string * NormalizedRelationConfig);
  filterWhereStatic : option bool
}.

(** The data-access layer object: namespace prefix, the storage
    collaborator's [query], and the model registry's two indexes. *)
Record Dal := {
  schemaNamespace : string;
  query : SqlCall -> Store -> Result QueryResult * Store;
  modelsByTable : list (string * ModelClass);
  modelsByKey : list (string * ModelClass)
}.

Module DataAccessLayer.

(** [ModelRegistry.get(identifier)] *)
Definition registry_get (d : Dal) (identifier : string) : option ModelClass :=
  if String.eqb identifier "" then None
  else match Js.get identifier (modelsByTable d) with
       | Some m => Some m
       | None => Js.get identifier (modelsByKey d)
       end.

(** [dal.getModel(name)] *)
Definition getModel (d : Dal) (name_ : string) : Result ModelClass :=
  match registry_get d name_ with
  | Some m => Ok m
  | None => Throw (TErr (Errors.Error ("Model '" ++ name_ ++ "' not found")%string))
  end.

(** [await dal.query(text, params)]: the statement is journalled and the
    collaborator's answer, with its effect on the store, is returned. *)
Definition run_query (d : Dal) (call : SqlCall) : Eff QueryResult :=
  fun w =>
    let '(r, st) := query d call (store w) in
    (r, {| host := host w; store := st; journal := journal w ++ [call]; draws := draws w |}).

End DataAccessLayer.

(* ================================================================== *)
(** ** Model runtime (model.ts) *)

Record SaveOptions := { updateSensitive : list string }.

Module Model.

Definition no_options : SaveOptions := {| updateSensitive := [] |}.

(** [_getDbFieldName(propertyName)] *)
Definition _getDbFieldName (M : ModelClass) (propertyName : string) : string :=
  match Js.get propertyName (_fieldMappings M) with
  | Some dbName => if String.eqb dbName "" then propertyName else dbName
  | None => propertyName
  end.

(** [_getFilteredColumnNames(filterFn)] *)
Definition _getFilteredColumnNames (M : ModelClass)
           (filterFn : string * SchemaField -> bool) : list string :=
  map (fun e => _getDbFieldName M (fst e)) (filter filterFn (schema M)).

(** [getSafeColumnNames()] *)
Definition getSafeColumnNames (M : ModelClass) : list string :=
  _getFilteredColumnNames M
    (fun e => negb (isVirtual (Types.base (snd e))) && negb (isSensitive (Types.base (snd e)))).

(** [getColumnNames(includeSensitive)] *)
Definition getColumnNames (M : ModelClass) (includeSensitive : list string) : list string :=
  _getFilteredColumnNames M
    (fun e =>
       if isVirtual (Types.base (snd e)) then false
       else if isSensitive (Types.base (snd e)) && negb (Str.mem (fst e) includeSensitive)
            then false
            else true).

(** [getSensitiveFieldNames()] *)
Definition getSensitiveFieldNames (M : ModelClass) : list string :=
  map fst (filter (fun e => isSensitive (Types.base (snd e))) (schema M)).

(** [getRelation(name)] *)
Definition getRelation (M : ModelClass) (name_ : string) : option NormalizedRelationConfig :=
  Js.get name_ (_relations M).


(** [getValue(key)] *)
Definition getValue (M : ModelClass) (inst : Instance) (key : string) : Value :=
  match Js.get key (_virtualFields inst) with
  | Some v => v
  | None => Js.prop (_getDbFieldName M key) (_data inst)
  end.

(** [instance.id]: the accessor [_setupPropertyAccessors] installs when the
    schema declares an [id] field, otherwise the prototype getter, which
    answers only a string. *)
Definition id (M : ModelClass) (inst : Instance) : Value :=
  if Js.has "id" (schema M) then getValue M inst "id"
  else match Js.prop "id" (_data inst) with
       | VStr s => VStr s
       | _ => VUndef
       end.

Definition schema_isVirtual (M : ModelClass) (key : string) : bool :=
  match Js.get key (schema M) with
  | Some f => isVirtual (Types.base f)
  | None => false
  end.

(** [setValue(key, value)] *)
Definition setValue (M : ModelClass) (inst : Instance) (key : string) (value : Value)
  : Instance :=
  if schema_isVirtual M key then
    {| _data := _data inst;
       _virtualFields := Js.set key value (_virtualFields inst);
       _changed := _changed inst; _isNew := _isNew inst;
       _originalData := _originalData inst |}
  else
    let dbFieldName := _getDbFieldName M key in
    {| _data := Js.set dbFieldName value (_data inst);
       _virtualFields := _virtualFields inst;
       _changed := Js.add dbFieldName (_changed inst);
       _isNew := _isNew inst;
       _originalData := _originalData inst |}.

(** [instance[key] = value] for a property that is an accessor exactly when
    the schema declares [key]; a property the schema does not declare lands
    on the object itself and never reaches [_data]. *)
Definition setProperty (M : ModelClass) (inst : Instance) (key : string) (value : Value)
  : Instance :=
  if Js.has key (schema M) then setValue M inst key value else inst.

(** [_resolveDefault(fieldDef)], with the instance as receiver. *)
Definition _resolveDefault (inst : Instance) (fieldDef : SchemaField) : Result Value :=
  let b := Types.base fieldDef in
  if negb (hasDefault b) then Ok VUndef
  else match defaultValue b with
       | DNone => Ok VUndef
       | DLit v => Ok v
       | DFn g =>
           match g None with
           | Ok VUndef => g (Some inst)
           | Ok v => Ok v
           | Throw _ => g (Some inst)
           end
       end.

(** [generateVirtualValues()] *)
Definition generateVirtualValues (M : ModelClass) (inst : Instance) : Result Instance :=
  ResultM.foldM
    (fun (i : Instance) (e : string * SchemaField) =>
       let b := Types.base (snd e) in
       if isVirtual b && hasDefault b then
         ResultM.bind (_resolveDefault i (snd e))
           (fun defaultValue =>
              match defaultValue with
              | VUndef => Ok i
              | v => Ok {| _data := _data i;
                           _virtualFields := Js.set (fst e) v (_virtualFields i);
                           _changed := _changed i; _isNew := _isNew i;
                           _originalData := _originalData i |}
              end)
       else Ok i)
    (schema M) inst.

(** [_applyDefaults(initialData)] *)
Definition _applyDefaults (M : ModelClass) (initialData : JsObject) (inst : Instance)
  : Result Instance :=
  ResultM.foldM
    (fun (i : Instance) (e : string * SchemaField) =>
       let '(fieldName, fieldDef) := e in
       let b := Types.base fieldDef in
       if isVirtual b || negb (hasDefault b) then Ok i
       else
         let dbFieldName := _getDbFieldName M fieldName in
         let hasInitialValue :=
           Js.has fieldName initialData ||
           (negb (String.eqb dbFieldName fieldName) && Js.has dbFieldName initialData) in
         if hasInitialValue then Ok i
         else ResultM.bind (_resolveDefault i fieldDef)
                (fun defaultValue =>
                   match defaultValue with
                   | VUndef => Ok i
                   | v => Ok (setValue M i fieldName v)
                   end))
    (schema M) inst.

Definition empty_instance : Instance :=
  {| _data := []; _virtualFields := []; _changed := []; _isNew := true;
     _originalData := [] |}.

(** [new Model(data)] *)
Definition construct (M : ModelClass) (data : JsObject) : Result Instance :=
  ResultM.bind (_applyDefaults M data empty_instance)
    (fun i =>
       generateVirtualValues M
         (fold_left (fun acc kv => setValue M acc (fst kv) (snd kv)) data i)).

(** [_trackOriginalValues()]; [deepClone] is the identity on immutable
    values. *)
Definition _trackOriginalValues (M : ModelClass) (inst : Instance) : Instance :=
  fold_left
    (fun (i : Instance) (e : string * SchemaField) =>
       if negb (isVirtual (Types.base (snd e))) then
         let dbFieldName := _getDbFieldName M (fst e) in
         let value := Js.prop dbFieldName (_data i) in
         {| _data := _data i; _virtualFields := _virtualFields i;
            _changed := _changed i; _isNew := _isNew i;
            _originalData :=
              if Js.is_object value then Js.set dbFieldName value (_originalData i)
              else Js.remove dbFieldName (_originalData i) |}
       else i)
    (schema M) inst.

(** [_createInstance(data)], also exposed as [createFromRow(row)]. *)
Definition _createInstance (M : ModelClass) (data : JsObject) : Result Instance :=
  ResultM.bind (construct M data)
    (fun i =>
       Ok (_trackOriginalValues M
             {| _data := _data i; _virtualFields := _virtualFields i;
                _changed := []; _isNew := false; _originalData := _originalData i |})).

(** [_detectInPlaceChanges()] *)
Definition _detectInPlaceChanges (M : ModelClass) (inst : Instance) : Instance :=
  if _isNew inst then inst
  else
    fold_left
      (fun (i : Instance) (e : string * SchemaField) =>
         let fieldName := fst e in
         if negb (isVirtual (Types.base (snd e))) && negb (Str.startsWith "_" fieldName) then
           let dbFieldName := _getDbFieldName M fieldName in
           match Js.prop dbFieldName (_originalData i) with
           | VUndef => i
           | originalValue =>
               let currentValue := getValue M i fieldName in
               if negb (deepEqual currentValue originalValue)
               then setValue M i fieldName currentValue
               else i
           end
         else i)
      (schema M) inst.

(** [_validate()] *)
Definition _validate (h : Host) (M : ModelClass) (inst : Instance) : Result Instance :=
  ResultM.foldM
    (fun (i : Instance) (e : string * SchemaField) =>
       let '(fieldName, fieldDef) := e in
       if negb (isVirtual (Types.base fieldDef)) then
         let value := getValue M i fieldName in
         ResultM.bind (Types.validate h fieldDef value fieldName)
           (fun validatedValue =>
              if negb (deepEqual validatedValue value)
              then Ok (setValue M i fieldName validatedValue)
              else Ok i)
       else Ok i)
    (schema M) inst.

Definition metadataFields : list string :=
  ["id"; "_old_rev_of"; "_rev_deleted"; "_rev_id"; "_rev_of"; "_rev_date"; "_rev_tags"].

(** [_isValidDbFieldName(dbFieldName)]. The first test is the truthiness
    of [schema[dbFieldName]]: a declared field, or a member the schema
    object inherits. *)
Definition _isValidDbFieldName (M : ModelClass) (dbFieldName : string) : bool :=
  if Js.has dbFieldName (schema M) || Js.inherits dbFieldName then true
  else if Str.mem dbFieldName (map snd (_fieldMappings M)) then true
  else if Str.mem dbFieldName metadataFields then true
  else false.

Definition invalidFieldName (M : ModelClass) (f : string) : JsError :=
  Errors.Error ("Invalid field name '" ++ f ++ "' in " ++ tableName M ++ " model. " ++
                "Field is not defined in schema or field mappings.")%string.

Fixpoint checkFieldNames (M : ModelClass) (fields : list string) : Result unit :=
  match fields with
  | [] => Ok tt
  | f :: r => if _isValidDbFieldName M f then checkFieldNames M r
              else Throw (TErr (invalidFieldName M f))
  end.

Definition with_data (inst : Instance) (d : JsObject) : Instance :=
  {| _data := d; _virtualFields := _virtualFields inst; _changed := _changed inst;
     _isNew := _isNew inst; _originalData := _originalData inst |}.

(** [Object.assign(this._data, result.rows[0])] *)
Definition assignFirstRow (inst : Instance) (result : QueryResult) : Instance :=
  match rows result with
  | [] => inst
  | row :: _ => with_data inst (Js.assign (_data inst) row)
  end.

(** [_insert(options)] *)
Definition _insert (d : Dal) (M : ModelClass) (inst : Instance) : Eff Instance :=
  let fields :=
    filter (fun key => match Js.prop key (_data inst) with VUndef => false | _ => true end)
           (Js.keys (_data inst)) in
  _ <- EffM.lift (checkFieldNames M fields) ;;
  let values := map (fun key => Js.prop key (_data inst)) fields in
  result <- DataAccessLayer.run_query d
              {| statement := InsertRow (tableName M) fields true; params := values |} ;;
  EffM.ret (assignFirstRow inst result).

(** [_update(options)] *)
Definition _update (d : Dal) (M : ModelClass) (inst : Instance) (options : SaveOptions)
  : Eff Instance :=
  match _changed inst with
  | [] => EffM.ret inst
  | _ =>
      let allowedSensitive := updateSensitive options in
      let sensitiveFields := getSensitiveFieldNames M in
      let dbToSchemaMap :=
        fold_left (fun acc e => Js.set (snd e) (fst e) acc) (_fieldMappings M) [] in
      let changedFields :=
        filter (fun dbFieldName =>
                  let schemaFieldName :=
                    match Js.get dbFieldName dbToSchemaMap with
                    | Some s => if String.eqb s "" then dbFieldName else s
                    | None => dbFieldName
                    end in
                  if Str.mem schemaFieldName sensitiveFields
                  then Str.mem schemaFieldName allowedSensitive
                  else true)
               (_changed inst) in
      match changedFields with
      | [] => EffM.ret inst
      | _ =>
          _ <- EffM.lift (checkFieldNames M changedFields) ;;
          let values := map (fun key => Js.prop key (_data inst)) changedFields in
          result <- DataAccessLayer.run_query d
                      {| statement := UpdateById (tableName M) changedFields;
                         params := values ++ [id M inst] |} ;;
          match rows result with
          | [] => EffM.throw (Errors.DocumentNotFound
                                (tableName M ++ " with id " ++
                                 match id M inst with VStr s => s | _ => "undefined" end ++
                                 " not found")%string)
          | _ => EffM.ret (assignFirstRow inst result)
          end
      end
  end.

(** [save(options)] *)
Definition save (d : Dal) (M : ModelClass) (inst : Instance) (options : SaveOptions)
  : Eff Instance :=
  EffM.rethrow Errors.convertPostgreSQLError
    (fun w =>
       (let i1 := _detectInPlaceChanges M inst in
        i2 <- EffM.lift (_validate (host w) M i1) ;;
        i3 <- (if _isNew i2 then _insert d M i2 else _update d M i2 options) ;;
        let i4 := {| _data := _data i3; _virtualFields := _virtualFields i3;
                     _changed := []; _isNew := false;
                     _originalData := _originalData i3 |} in
        let i5 := _trackOriginalValues M i4 in
        EffM.lift (generateVirtualValues M i5)) w).

(** *** Relation helpers *)




Definition orDefault (s d : string) : string := if String.eqb s "" then d else s.








End Model.

(* ================================================================== *)
(** ** Query builder (query-builder.ts) *)

Inductive Direction := ASC | DESC.

Record RelationJoinInfo := {
  ji_type : JoinType;
  ji_table : string;
  ji_baseTable : string;
  ji_hasRevisions : bool;
  ji_condition : string;
  ji_sourceColumn : string;
  ji_targetColumn : string;
  ji_cardinality : Cardinality;
  ji_isArray : bool;
  ji_targetModelKey : string;
  ji_joinTable : option string;
  ji_joinTableOn : option string;
  ji_joinTableSourceColumn : option string;
  ji_joinTableTargetColumn : option string
}.

Record JoinApplyFilter := {
  jf_field : string;
  jf_value : Value;
  jf_operator : option string
}.

(** What [_analyzeJoinApply] extracts from the text of an [_apply]
    callback; the callback is represented by this analysis. *)
Record JoinApplyAnalysis := {
  removeFields : list string;
  filters : list JoinApplyFilter;
  order : option (string * Direction);
  limit_ : option nat
}.

Record ComplexJoinSpec := {
  joinInfo : RelationJoinInfo;
  _apply : option JoinApplyAnalysis
}.

(** One entry of a join specification literal: [true], a configuration
    object, or anything else. *)
Inductive JoinRelationOptions :=
| JoinTrue
| JoinObject (apply : option JoinApplyAnalysis)
| JoinOther.

Record PredicateOptions := {
  opt_table : option string;
  serializeValue : option (Value -> Value);
  cast : option string;
  opt_valueTransform : option ValueTransform
}.

(** A related record as attached to a result row: a hydrated instance, or
    the plain row when no model is registered for the relation. *)
Inductive Entity :=
| EInstance (i : Instance)
| EPlain (o : JsObject).

Inductive Related :=
| RelNull
| RelOne (e : Entity)
| RelMany (l : list Entity).

(** A result row: the hydrated instance and its relation slots. *)
Record ResultRow := {
  instance : Instance;
  joined : list (string * Related)
}.

Record QueryBuilder := {
  modelClass : ModelClass;
  dal : Dal;
  _select : list string;
  _where : list Predicate;
  _joins : list string;
  _orderBy : list string;
  _groupBy : list string;
  _limit : option Z;
  _offset : option Z;
  _includeSensitive : list string;
  _simpleJoins : list (string * RelationJoinInfo);
  _complexJoins : list (string * ComplexJoinSpec)
}.

Module QueryBuilder.

Definition no_predicate_options : PredicateOptions :=
  {| opt_table := None; serializeValue := None; cast := None; opt_valueTransform := None |}.

(** [new QueryBuilder(modelClass, dal)] *)
Definition new (M : ModelClass) (d : Dal) : QueryBuilder :=
  {| modelClass := M; dal := d; _select := ["*"]; _where := []; _joins := [];
     _orderBy := []; _groupBy := []; _limit := None; _offset := None;
     _includeSensitive := []; _simpleJoins := []; _complexJoins := [] |}.

Definition set_where (qb : QueryBuilder) (w : list Predicate) : QueryBuilder :=
  {| modelClass := modelClass qb; dal := dal qb; _select := _select qb; _where := w;
     _joins := _joins qb; _orderBy := _orderBy qb; _groupBy := _groupBy qb;
     _limit := _limit qb; _offset := _offset qb;
     _includeSensitive := _includeSensitive qb; _simpleJoins := _simpleJoins qb;
     _complexJoins := _complexJoins qb |}.

Definition set_joins (qb : QueryBuilder) (js : list string)
           (sj : list (string * RelationJoinInfo)) (cj : list (string * ComplexJoinSpec))
  : QueryBuilder :=
  {| modelClass := modelClass qb; dal := dal qb; _select := _select qb; _where := _where qb;
     _joins := js; _orderBy := _orderBy qb; _groupBy := _groupBy qb;
     _limit := _limit qb; _offset := _offset qb;
     _includeSensitive := _includeSensitive qb; _simpleJoins := sj;
     _complexJoins := cj |}.

Definition set_paging (qb : QueryBuilder) (ob gb : list string) (l o : option Z)
  : QueryBuilder :=
  {| modelClass := modelClass qb; dal := dal qb; _select := _select qb; _where := _where qb;
     _joins := _joins qb; _orderBy := ob; _groupBy := gb; _limit := l; _offset := o;
     _includeSensitive := _includeSensitive qb; _simpleJoins := _simpleJoins qb;
     _complexJoins := _complexJoins qb |}.

(** [includeSensitive(fields)] *)
Definition includeSensitive (qb : QueryBuilder) (fields : list string) : QueryBuilder :=
  {| modelClass := modelClass qb; dal := dal qb; _select := _select qb; _where := _where qb;
     _joins := _joins qb; _orderBy := _orderBy qb; _groupBy := _groupBy qb;
     _limit := _limit qb; _offset := _offset qb;
     _includeSensitive := fields; _simpleJoins := _simpleJoins qb;
     _complexJoins := _complexJoins qb |}.

(** [_resolveFieldName(fieldName)] *)
Definition _resolveFieldName (qb : QueryBuilder) (fieldName : string) : string :=
  Model._getDbFieldName (modelClass qb) fieldName.

Definition has_dot_or_paren (s : string) : bool :=
  Str.includes_char "."%char s || Str.includes_char "("%char s.

(** [_assertResolvedField(field)] *)
Definition _assertResolvedField (qb : QueryBuilder) (field_ : string) : Result string :=
  if has_dot_or_paren field_ then Ok field_
  else
    let resolved := _resolveFieldName qb field_ in
    if negb (String.eqb resolved field_) then
      Throw (TErr (Errors.Error
        ("QueryBuilder expected a resolved database column name but received " ++
         Str.dquote ++ field_ ++ Str.dquote ++ ".")%string))
    else Ok field_.

(** [_splitFieldReference(field)] *)
Definition _splitFieldReference (field_ : string) : option string * string :=
  match Str.indexOf "."%char field_ with
  | None => (None, field_)
  | Some dotIndex => (Some (Str.take dotIndex field_), Str.drop (S dotIndex) field_)
  end.

Definition is_space (c : ascii) : bool :=
  let n := nat_of_ascii c in
  Nat.eqb n 32 || (Nat.leb 9 n && Nat.leb n 13).

(** [/[()\s]/.test(column)] *)
Definition has_paren_or_space (s : string) : bool :=
  existsb (fun c => Ascii.eqb c "("%char || Ascii.eqb c ")"%char || is_space c) (Str.chars s).

(** [_resolvePredicateColumn(tableReference, column)] *)
Definition _resolvePredicateColumn (qb : QueryBuilder) (tableReference : option string)
           (column_ : string) : string :=
  if String.eqb column_ "*" || has_paren_or_space column_ then column_
  else
    let tn := tableName (modelClass qb) in
    let ns := schemaNamespace (dal qb) in
    let unprefixedTableName :=
      if negb (String.eqb ns "") && Str.startsWith ns tn
      then Str.drop (String.length ns) tn else tn in
    let isBaseTable :=
      match tableReference with
      | None => true
      | Some t => String.eqb t "" || String.eqb t tn || String.eqb t unprefixedTableName
      end in
    if isBaseTable then _resolveFieldName qb column_ else column_.

(** [_createPredicate(field, operator, value, options)] *)
Definition _createPredicate (qb : QueryBuilder) (field_ operator : string) (value : Value)
           (options : PredicateOptions) : Predicate :=
  let '(explicitTable, column_) := _splitFieldReference field_ in
  let tableReference :=
    match opt_table options with
    | Some t => if String.eqb t "" then explicitTable else Some t
    | None => explicitTable
    end in
  let tableReference :=
    match tableReference with
    | Some t => if String.eqb t "" then None else Some t
    | None => None
    end in
  let resolvedColumn := _resolvePredicateColumn qb tableReference column_ in
  let storedValue :=
    match serializeValue options with
    | Some serializer => serializer value
    | None => value
    end in
  match storedValue with
  | VUndef => Basic tableReference resolvedColumn operator None None
  | VNull =>
      if String.eqb operator "IS" || String.eqb operator "IS NOT"
      then Basic tableReference resolvedColumn operator (Some VNull) None
      else Basic tableReference resolvedColumn operator (Some VNull)
             (Some match opt_valueTransform options, cast options with
                   | Some t, _ => t
                   | None, Some c => if String.eqb c "" then TIdentity else TCast c
                   | None, None => TIdentity
                   end)
  | v =>
      Basic tableReference resolvedColumn operator (Some v)
            (Some match opt_valueTransform options, cast options with
                  | Some t, _ => t
                  | None, Some c => if String.eqb c "" then TIdentity else TCast c
                  | None, None => TIdentity
                  end)
  end.

(** [_addWhereCondition(field, operator, value, options)] *)
Definition _addWhereCondition (qb : QueryBuilder) (field_ operator : string) (value : Value)
           (options : PredicateOptions) : Predicate * QueryBuilder :=
  let effectiveOperator :=
    match value with
    | VNull => if String.eqb operator "=" then "IS"
               else if String.eqb operator "!=" then "IS NOT"
               else operator
    | _ => operator
    end in
  let predicate := _createPredicate qb field_ effectiveOperator value options in
  (predicate, set_where qb (_where qb ++ [predicate])).

(** [whereIn(field, values, { cast })] *)
Definition whereIn (qb : QueryBuilder) (field_ : string) (values : Value)
           (cast_ : option string) : QueryBuilder :=
  match values with
  | VArr [] => qb
  | VArr _ =>
      snd (_addWhereCondition qb field_ "= ANY" values
             {| opt_table := None; serializeValue := None; cast := None;
                opt_valueTransform := Some (TWrap cast_) |})
  | _ => qb
  end.

(** [_isRevisionFilterPredicate(predicate)] *)
Definition _isRevisionFilterPredicate (p : Predicate) : bool :=
  match p with
  | Basic _ column_ _ _ _ => String.eqb column_ "_old_rev_of" || String.eqb column_ "_rev_deleted"
  | _ => false
  end.

(** [getAllRevisions(documentId)] *)
Definition getAllRevisions (qb : QueryBuilder) (documentId : Value) : QueryBuilder :=
  let kept := filter (fun p => negb (_isRevisionFilterPredicate p)) (_where qb) in
  let qb' := set_where qb kept in
  let idPredicate := _createPredicate qb' "id" "=" documentId no_predicate_options in
  let oldRevPredicate := _createPredicate qb' "_old_rev_of" "=" documentId no_predicate_options in
  set_where qb' (kept ++ [Group OR [idPredicate; oldRevPredicate]]).

Definition direction_text (dir : Direction) : string :=
  match dir with ASC => "ASC" | DESC => "DESC" end.

(** [orderBy(field, direction)] *)
Definition orderBy (qb : QueryBuilder) (field_ : string) (dir : Direction) : QueryBuilder :=
  let expression :=
    if negb (Str.includes_char "("%char field_) then
      let '(table, column_) := _splitFieldReference field_ in
      let resolvedColumn := _resolvePredicateColumn qb table column_ in
      match table with
      | Some t => if String.eqb t "" then resolvedColumn else (t ++ "." ++ resolvedColumn)%string
      | None => resolvedColumn
      end
    else field_ in
  set_paging qb (_orderBy qb ++ [(expression ++ " " ++ direction_text dir)%string])
             (_groupBy qb) (_limit qb) (_offset qb).

(** [limit(count)] *)
Definition limit (qb : QueryBuilder) (count_ : Z) : QueryBuilder :=
  set_paging qb (_orderBy qb) (_groupBy qb) (Some count_) (_offset qb).

(** [offset(count)] *)
Definition offset (qb : QueryBuilder) (count_ : Z) : QueryBuilder :=
  set_paging qb (_orderBy qb) (_groupBy qb) (_limit qb) (Some count_).

(** [groupBy(fields)] *)
Definition groupBy (qb : QueryBuilder) (fields : list string) : QueryBuilder :=
  let expressions :=
    map (fun field_ =>
           if negb (Str.includes_char "("%char field_) && negb (Str.includes_char "."%char field_)
           then (tableName (modelClass qb) ++ "." ++ _resolvePredicateColumn qb None field_)%string
           else field_) fields in
  set_paging qb (_orderBy qb) (_groupBy qb ++ expressions) (_limit qb) (_offset qb).

(** [_getTableName(baseName)] *)
Definition _getTableName (qb : QueryBuilder) (baseName : string) : string :=
  (schemaNamespace (dal qb) ++ baseName)%string.

(** [_resolveTableReference(tableRef)] *)
Definition _resolveTableReference (qb : QueryBuilder) (tableRef : string) : option string :=
  if String.eqb tableRef "" then None
  else if Str.includes_char "."%char tableRef then Some tableRef
  else Some (_getTableName qb tableRef).

(** [_getJoinInfo(relationName)] *)
Definition _getJoinInfo (qb : QueryBuilder) (relationName : string) : option RelationJoinInfo :=
  match Model.getRelation (modelClass qb) relationName with
  | None => None
  | Some relationConfig =>
      let baseTargetTable := targetTable relationConfig in
      match _resolveTableReference qb baseTargetTable with
      | None => None
      | Some targetTableName =>
          let tn := tableName (modelClass qb) in
          let hasRevisions_ := hasRevisions relationConfig in
          let sourceColumn_ := Model.orDefault (sourceColumn relationConfig) "id" in
          let targetColumn_ := Model.orDefault (targetColumn relationConfig) "id" in
          let cardinality_ := cardinality relationConfig in
          let targetModelKey_ :=
            Model.orDefault (targetModelKey relationConfig) baseTargetTable in
          let isArray_ := match cardinality_ with one => false | many => true end in
          match through relationConfig with
          | Some th =>
              match _resolveTableReference qb (through_table th) with
              | None => None
              | Some joinTableName =>
                  let throughSourceKey := through_sourceColumn th in
                  let throughTargetKey := through_targetColumn th in
                  if String.eqb throughSourceKey "" || String.eqb throughTargetKey "" then None
                  else
                    let joinTableOn :=
                      match sourceCondition th with
                      | Some c => c
                      | None => (tn ++ "." ++ sourceColumn_ ++ " = " ++ joinTableName ++ "." ++
                                 throughSourceKey)%string
                      end in
                    let targetCondition_ :=
                      match condition relationConfig, targetCondition th with
                      | Some c, _ => c
                      | None, Some c => c
                      | None, None => (joinTableName ++ "." ++ throughTargetKey ++ " = " ++
                                       targetTableName ++ "." ++ targetColumn_)%string
                      end in
                    Some {| ji_type := JoinThrough; ji_table := targetTableName;
                            ji_baseTable := baseTargetTable; ji_hasRevisions := hasRevisions_;
                            ji_condition := targetCondition_; ji_sourceColumn := sourceColumn_;
                            ji_targetColumn := targetColumn_; ji_cardinality := cardinality_;
                            ji_isArray := isArray_; ji_targetModelKey := targetModelKey_;
                            ji_joinTable := Some joinTableName; ji_joinTableOn := Some joinTableOn;
                            ji_joinTableSourceColumn := Some throughSourceKey;
                            ji_joinTableTargetColumn := Some throughTargetKey |}
              end
          | None =>
              let directCondition :=
                match condition relationConfig with
                | Some c => c
                | None => (tn ++ "." ++ sourceColumn_ ++ " = " ++ targetTableName ++ "." ++
                           targetColumn_)%string
                end in
              Some {| ji_type := JoinDirect; ji_table := targetTableName;
                      ji_baseTable := baseTargetTable; ji_hasRevisions := hasRevisions_;
                      ji_condition := directCondition; ji_sourceColumn := sourceColumn_;
                      ji_targetColumn := targetColumn_; ji_cardinality := cardinality_;
                      ji_isArray := isArray_; ji_targetModelKey := targetModelKey_;
                      ji_joinTable := None; ji_joinTableOn := None;
                      ji_joinTableSourceColumn := None; ji_joinTableTargetColumn := None |}
          end
      end
  end.

Definition joinRevisionGuard (table : string) : string :=
  (" AND " ++ table ++ "._old_rev_of IS NULL AND (" ++ table ++ "._rev_deleted IS NULL OR " ++
   table ++ "._rev_deleted = false)")%string.

(** [_addSimpleJoin(relationName)] *)
Definition _addSimpleJoin (qb : QueryBuilder) (relationName : string) : QueryBuilder :=
  match _getJoinInfo qb relationName with
  | None => qb
  | Some ji =>
      let targetJoin :=
        ("LEFT JOIN " ++ ji_table ji ++ " ON " ++ ji_condition ji ++
         (if ji_hasRevisions ji then joinRevisionGuard (ji_table ji) else ""))%string in
      let joins :=
        match ji_joinTable ji, ji_joinTableOn ji with
        | Some jt, Some jon =>
            if String.eqb jt "" || String.eqb jon "" then [targetJoin]
            else [("LEFT JOIN " ++ jt ++ " ON " ++ jon)%string; targetJoin]
        | _, _ => [targetJoin]
        end in
      set_joins qb (_joins qb ++ joins) (Js.set relationName ji (_simpleJoins qb))
                (_complexJoins qb)
  end.

(** [_addComplexJoin(relationName, relationSpec)] *)
Definition _addComplexJoin (qb : QueryBuilder) (relationName : string)
           (apply : option JoinApplyAnalysis) : QueryBuilder :=
  match _getJoinInfo qb relationName with
  | None => qb
  | Some ji =>
      set_joins qb (_joins qb) (_simpleJoins qb)
                (Js.set relationName {| joinInfo := ji; _apply := apply |} (_complexJoins qb))
  end.

(** [_processJoin(relationName, relationSpec)] *)
Definition _processJoin (qb : QueryBuilder) (relationName : string)
           (relationSpec : JoinRelationOptions) : QueryBuilder :=
  match relationSpec with
  | JoinTrue =>
      match _getJoinInfo qb relationName with
      | Some ji =>
          match ji_cardinality ji with
          | many => _addComplexJoin qb relationName None
          | one => _addSimpleJoin qb relationName
          end
      | None => _addSimpleJoin qb relationName
      end
  | JoinObject apply => _addComplexJoin qb relationName apply
  | JoinOther => qb
  end.

(** [getJoin(joinSpec)] *)
Definition getJoin (qb : QueryBuilder) (joinSpec : list (string * JoinRelationOptions))
  : QueryBuilder :=
  fold_left (fun acc e => _processJoin acc (fst e) (snd e)) joinSpec qb.

(** [_getRelatedModel(relationName, joinInfo)] *)
Definition _getRelatedModel (qb : QueryBuilder) (relationName : string) (ji : RelationJoinInfo)
  : option ModelClass :=
  let identifiers := [ji_targetModelKey ji; ji_baseTable ji; ji_table ji; relationName] in
  (fix firstModel (l : list string) : option ModelClass :=
     match l with
     | [] => None
     | identifier :: r =>
         match DataAccessLayer.registry_get (dal qb) identifier with
         | Some m => Some m
         | None => firstModel r
         end
     end) identifiers.

(** [_buildWhereClause({ qualifyColumns })] *)
Definition _buildWhereClause (qb : QueryBuilder) (qualifyColumns : bool)
  : string * list Value :=
  Sql.buildWhere qualifyColumns (tableName (modelClass qb)) (_where qb).

Definition is_word_char (c : ascii) : bool :=
  let n := nat_of_ascii c in
  (Nat.leb 48 n && Nat.leb n 57) || (Nat.leb 97 n && Nat.leb n 122) ||
  (Nat.leb 65 n && Nat.leb n 90) || Nat.eqb n 95.

(** The ORDER BY qualification of [_buildSelectQuery]:
    [orderClause.replace(/^(\w+)/, `${tableName}.$1`)] unless the clause is
    already qualified or is an expression. *)
Definition qualifyOrderClause (tn orderClause : string) : string :=
  if has_dot_or_paren orderClause then orderClause
  else match orderClause with
       | String c _ => if is_word_char c then (tn ++ "." ++ orderClause)%string
                       else orderClause
       | EmptyString => orderClause
       end.

Definition nullDereference : JsError :=
  Errors.TypeError "Cannot read properties of null (reading 'getSafeColumnNames')".

(** The aliased columns one inline join contributes to the SELECT list. *)
Definition joinSelects (qb : QueryBuilder) (relationName : string) (ji : RelationJoinInfo)
  : Result (list SelectItem) :=
  if String.eqb (ji_table ji) "" then Ok []
  else match _getRelatedModel qb relationName ji with
       | None => Throw (TErr nullDereference)
       | Some RelatedModel =>
           Ok (map (fun col => ColAs (ji_table ji) col (relationName ++ "_" ++ col)%string)
                   (Model.getSafeColumnNames RelatedModel))
       end.

Fixpoint allJoinSelects (qb : QueryBuilder) (l : list (string * RelationJoinInfo))
  : Result (list SelectItem) :=
  match l with
  | [] => Ok []
  | (relationName, ji) :: r =>
      match joinSelects qb relationName ji with
      | Throw t => Throw t
      | Ok items =>
          match allJoinSelects qb r with
          | Throw t => Throw t
          | Ok rest => Ok (items ++ rest)
          end
      end
  end.

(** The SELECT list of [_buildSelectQuery]. *)
Definition selectItems (qb : QueryBuilder) : Result (list SelectItem) :=
  if Str.mem "*" (_select qb) then
    let columns_ := Model.getColumnNames (modelClass qb) (_includeSensitive qb) in
    let mainTableColumns := map (Col (tableName (modelClass qb))) columns_ in
    match _joins qb with
    | [] => Ok mainTableColumns
    | _ =>
        match allJoinSelects qb (_simpleJoins qb) with
        | Throw t => Throw t
        | Ok [] => Ok mainTableColumns
        | Ok js =>
            (* [selectClause += ', ' + joinSelects.join(', ')] *)
            Ok (match mainTableColumns with [] => [Expr ""] | _ => mainTableColumns end ++ js)
        end
    end
  else Ok (map Expr (_select qb)).

(** [_buildSelectQuery()] *)
Definition _buildSelectQuery (qb : QueryBuilder) : Result SqlCall :=
  match selectItems qb with
  | Throw t => Throw t
  | Ok items =>
      let tn := tableName (modelClass qb) in
      Ok {| statement :=
              Select {| sel_items := items; sel_table := tn; sel_joins := _joins qb;
                        sel_where := _where qb;
                        sel_orderBy := map (qualifyOrderClause tn) (_orderBy qb);
                        sel_limit := _limit qb; sel_offset := _offset qb |};
            params := snd (_buildWhereClause qb true) |}
  end.

(** [_instantiateRelated(RelatedModel, data)] *)
Definition _instantiateRelated (RelatedModel : option ModelClass) (data : JsObject)
  : Result Entity :=
  match RelatedModel with
  | None => Ok (EPlain data)
  | Some R => ResultM.bind (Model._createInstance R data) (fun i => Ok (EInstance i))
  end.

(** Demultiplexing of one raw row of an inline-join query: the relation
    whose prefix [`${relationName}_`] a key starts with, if any. *)
Fixpoint joinedRelationOf (key : string) (relationNames : list string) : option string :=
  match relationNames with
  | [] => None
  | relationName :: r =>
      if Str.startsWith (relationName ++ "_")%string key then Some relationName
      else joinedRelationOf key r
  end.

Definition splitRow (relationNames : list string) (row : Row)
  : JsObject * list (string * JsObject) :=
  fold_left
    (fun (acc : JsObject * list (string * JsObject)) (kv : string * Value) =>
       let '(mainData, joinedData) := acc in
       match joinedRelationOf (fst kv) relationNames with
       | Some relationName =>
           let existing := match Js.get relationName joinedData with
                           | Some o => o
                           | None => []
                           end in
           let fieldName := Str.drop (S (String.length relationName)) (fst kv) in
           (mainData, Js.set relationName (Js.set fieldName (snd kv) existing) joinedData)
       | None => (Js.set (fst kv) (snd kv) mainData, joinedData)
       end)
    row ([], []).

Definition attachJoined (qb : QueryBuilder) (joinedData : list (string * JsObject))
  : Result (list (string * Related)) :=
  ResultM.foldM
    (fun (acc : list (string * Related)) (e : string * JsObject) =>
       let '(relationName, data) := e in
       let hasMatchingRow :=
         existsb (fun kv => match snd kv with VNull => false | _ => true end) data in
       if hasMatchingRow then
         let RelatedModel :=
           match Js.get relationName (_simpleJoins qb) with
           | Some ji => _getRelatedModel qb relationName ji
           | None => None
           end in
         ResultM.bind (_instantiateRelated RelatedModel data)
           (fun e => Ok (Js.set relationName (RelOne e) acc))
       else Ok (Js.set relationName RelNull acc))
    joinedData [].

(** [_processResults(rows)] *)
Fixpoint _processResults (qb : QueryBuilder) (rs : list Row) : Result (list ResultRow) :=
  match rs with
  | [] => Ok []
  | row :: rest =>
      let '(mainData, joinedData) :=
        match _simpleJoins qb with
        | [] => (row, [])
        | sj => splitRow (Js.keys sj) row
        end in
      match Model._createInstance (modelClass qb) mainData with
      | Throw t => Throw t
      | Ok i =>
          match attachJoined qb joinedData with
          | Throw t => Throw t
          | Ok js =>
              match _processResults qb rest with
              | Throw t => Throw t
              | Ok more => Ok ({| instance := i; joined := js |} :: more)
              end
          end
      end
  end.

(** [`${value}`] for the values that serve as join keys. *)
Definition keyString (v : Value) : string :=
  match v with
  | VStr s => s
  | VNum (NFin z) => Str.of_Z z
  | VNum NNaN => "NaN"
  | VNum (NInf true) => "Infinity"
  | VNum (NInf false) => "-Infinity"
  | VBool true => "true"
  | VBool false => "false"
  | VDate (Some t) => Str.of_Z t
  | VDate None => "NaN"
  | VNull => "null"
  | VUndef => "undefined"
  | VArr _ => ""
  | VObj _ => "[object Object]"
  end.

(** [_extractJoinSourceValues(mainRows, sourceColumn)] *)
Definition _extractJoinSourceValues (qb : QueryBuilder) (mainRows : list ResultRow)
           (sourceColumn_ : string) : list Value :=
  if String.eqb sourceColumn_ "" then []
  else
    snd (fold_left
           (fun (acc : list string * list Value) (r : ResultRow) =>
              let value := Model.getValue (modelClass qb) (instance r) sourceColumn_ in
              if Js.nullish value then acc
              else
                let key := keyString value in
                if Str.mem key (fst acc) then acc
                else (fst acc ++ [key], snd acc ++ [value]))
           mainRows ([], [])).

Definition is_lower_or_digit (c : ascii) : bool :=
  let n := nat_of_ascii c in
  (Nat.leb 48 n && Nat.leb n 57) || (Nat.leb 97 n && Nat.leb n 122).

Definition is_upper (c : ascii) : bool :=
  let n := nat_of_ascii c in Nat.leb 65 n && Nat.leb n 90.

Definition to_lower (c : ascii) : ascii :=
  if is_upper c then ascii_of_nat (nat_of_ascii c + 32) else c.

(** [.replace(/([a-z0-9])([A-Z])/g, '$1_$2')] *)
Fixpoint camelBreaks (prev : option ascii) (l : list ascii) : list ascii :=
  match l with
  | [] => []
  | c :: r =>
      match prev with
      | Some p => if is_lower_or_digit p && is_upper c
                  then "_"%char :: c :: camelBreaks None r
                  else c :: camelBreaks (Some c) r
      | None => c :: camelBreaks (Some c) r
      end
  end.

(** [.replace(/[\s-]+/g, '_')] *)
Fixpoint squeezeSeparators (inRun : bool) (l : list ascii) : list ascii :=
  match l with
  | [] => []
  | c :: r =>
      if is_space c || Ascii.eqb c "-"%char
      then (if inRun then squeezeSeparators true r else "_"%char :: squeezeSeparators true r)
      else c :: squeezeSeparators false r
  end.

Fixpoint leadingUnderscores (l : list ascii) : list ascii * list ascii :=
  match l with
  | c :: r => if Ascii.eqb c "_"%char
              then let '(u, rest) := leadingUnderscores r in (c :: u, rest)
              else ([], l)
  | [] => ([], [])
  end.

(** [_normalizeColumnName(field)] *)
Definition _normalizeColumnName (field_ : string) : string :=
  let '(underscores, rest) := leadingUnderscores (Str.chars field_) in
  Str.of_chars (underscores ++ map to_lower (squeezeSeparators false (camelBreaks None rest))).

Definition filterClause (targetAlias : string) (f : JoinApplyFilter) (paramIndex : nat)
  : string * list Value :=
  let column_ := _normalizeColumnName (jf_field f) in
  if String.eqb column_ "_rev_deleted" &&
     match jf_value f with VBool false => true | _ => false end
  then (("(" ++ targetAlias ++ "._rev_deleted IS NULL OR " ++ targetAlias ++
         "._rev_deleted = false)")%string, [])
  else if match jf_operator f with Some "IS NULL" => true | _ => false end ||
          match jf_value f with VNull => true | _ => false end
  then ((targetAlias ++ "." ++ column_ ++ " IS NULL")%string, [])
  else if match jf_operator f with Some "IS NOT NULL" => true | _ => false end
  then ((targetAlias ++ "." ++ column_ ++ " IS NOT NULL")%string, [])
  else
    let operator := match jf_operator f with
                    | Some o => if String.eqb o "" then "=" else o
                    | None => "="
                    end in
    ((targetAlias ++ "." ++ column_ ++ " " ++ operator ++ " " ++
      Str.placeholder paramIndex)%string, [jf_value f]).

Fixpoint filterClauses (targetAlias : string) (fs : list JoinApplyFilter) (paramIndex : nat)
  : list string * list Value :=
  match fs with
  | [] => ([], [])
  | f :: r =>
      let '(clause, ps) := filterClause targetAlias f paramIndex in
      let '(clauses, more) := filterClauses targetAlias r (paramIndex + length ps) in
      (clause :: clauses, ps ++ more)
  end.

Definition joinSourceAlias : string := "_join_source_id".

Definition orEmpty (o : option string) : string :=
  match o with Some s => s | None => "undefined" end.

(** [_buildComplexJoinQuery(relationName, joinInfo, sourceValues, analysis)];
    the text is rendered on one line. *)
Definition _buildComplexJoinQuery (relationName : string) (ji : RelationJoinInfo)
           (sourceValues : list Value) (analysis : option JoinApplyAnalysis) : SqlCall :=
  let targetAlias := (relationName ++ "_target")%string in
  let throughAlias := (relationName ++ "_through")%string in
  let '(query_, firstWhere) :=
    match ji_type ji with
    | JoinThrough =>
        (("SELECT " ++ targetAlias ++ ".*, " ++ throughAlias ++ "." ++
          orEmpty (ji_joinTableSourceColumn ji) ++ " AS " ++ joinSourceAlias ++
          " FROM " ++ ji_table ji ++ " " ++ targetAlias ++
          " JOIN " ++ orEmpty (ji_joinTable ji) ++ " " ++ throughAlias ++
          " ON " ++ throughAlias ++ "." ++ orEmpty (ji_joinTableTargetColumn ji) ++ " = " ++
          targetAlias ++ "." ++ ji_targetColumn ji)%string,
         (throughAlias ++ "." ++ orEmpty (ji_joinTableSourceColumn ji) ++ " = ANY($1)")%string)
    | JoinDirect =>
        (("SELECT " ++ targetAlias ++ ".*, " ++ targetAlias ++ "." ++ ji_targetColumn ji ++
          " AS " ++ joinSourceAlias ++ " FROM " ++ ji_table ji ++ " " ++ targetAlias)%string,
         (targetAlias ++ "." ++ ji_targetColumn ji ++ " = ANY($1)")%string)
    end in
  let revisionClauses :=
    if ji_hasRevisions ji then
      [(targetAlias ++ "._old_rev_of IS NULL")%string;
       ("(" ++ targetAlias ++ "._rev_deleted IS NULL OR " ++ targetAlias ++
        "._rev_deleted = false)")%string]
    else [] in
  let '(applied, extraParams) :=
    match analysis with
    | Some a => filterClauses targetAlias (filters a) 2
    | None => ([], [])
    end in
  let orderClause :=
    match analysis with
    | Some a => match order a with
                | Some (f, dir) => (" ORDER BY " ++ targetAlias ++ "." ++
                                    _normalizeColumnName f ++ " " ++ direction_text dir)%string
                | None => ""
                end
    | None => ""
    end in
  let limitClause :=
    match analysis with
    | Some a => match limit_ a with
                | Some n => (" LIMIT " ++ Str.of_nat n)%string
                | None => ""
                end
    | None => ""
    end in
  let whereClauses := firstWhere :: revisionClauses ++ applied in
  {| statement := Text (query_ ++ " WHERE " ++ Str.join " AND " whereClauses ++
                        orderClause ++ limitClause)%string;
     params := VArr sourceValues :: extraParams |}.

(** [_applyJoinFieldOmissions(rows, fields)] *)
Definition _applyJoinFieldOmissions (rs : list Row) (fields : list string) : list Row :=
  map (fun row => fold_left (fun acc f => if String.eqb f "" then acc else Js.remove f acc)
                            fields row) rs.

Fixpoint vget {A} (k : Value) (m : list (Value * A)) : option A :=
  match m with
  | [] => None
  | (k', v) :: r => if Js.eqb k k' then Some v else vget k r
  end.

Fixpoint vset {A} (k : Value) (v : A) (m : list (Value * A)) : list (Value * A) :=
  match m with
  | [] => [(k, v)]
  | (k', v') :: r => if Js.eqb k k' then (k, v) :: r else (k', v') :: vset k v r
  end.

(** [_groupRelatedRows(rows, joinSourceAlias)] *)
Definition _groupRelatedRows (rs : list Row) : list (Value * list Row) :=
  fold_left
    (fun (grouped : list (Value * list Row)) (row : Row) =>
       match Js.get joinSourceAlias row with
       | None => grouped
       | Some key =>
           if Js.nullish key then grouped
           else
             let cloned := Js.remove joinSourceAlias row in
             let existing := match vget key grouped with Some l => l | None => [] end in
             vset key (existing ++ [cloned]) grouped
       end)
    rs [].

Fixpoint instantiateAll (R : option ModelClass) (rs : list Row) : Result (list Entity) :=
  match rs with
  | [] => Ok []
  | row :: rest =>
      match _instantiateRelated R row with
      | Throw t => Throw t
      | Ok e => match instantiateAll R rest with
                | Throw t => Throw t
                | Ok es => Ok (e :: es)
                end
      end
  end.

(** [_assignJoinResults(mainRows, relationName, joinInfo, groupedRows)] *)
Fixpoint _assignJoinResults (qb : QueryBuilder) (mainRows : list ResultRow)
         (relationName : string) (ji : RelationJoinInfo)
         (groupedRows : list (Value * list Row)) : Result (list ResultRow) :=
  match mainRows with
  | [] => Ok []
  | mainRow :: rest =>
      let RelatedModel := _getRelatedModel qb relationName ji in
      let expectsArray :=
        ji_isArray ji && match ji_cardinality ji with one => false | many => true end in
      let sourceColumn_ := Model.orDefault (ji_sourceColumn ji) "id" in
      let joinKey := Model.getValue (modelClass qb) (instance mainRow) sourceColumn_ in
      let related :=
        if Js.nullish joinKey then []
        else match vget joinKey groupedRows with Some l => l | None => [] end in
      let slot :=
        if expectsArray then
          ResultM.bind (instantiateAll RelatedModel related) (fun es => Ok (RelMany es))
        else match related with
             | [] => Ok RelNull
             | m :: _ => ResultM.bind (_instantiateRelated RelatedModel m)
                                      (fun e => Ok (RelOne e))
             end in
      match slot with
      | Throw t => Throw t
      | Ok v =>
          match _assignJoinResults qb rest relationName ji groupedRows with
          | Throw t => Throw t
          | Ok more =>
              Ok ({| instance := instance mainRow;
                     joined := Js.set relationName v (joined mainRow) |} :: more)
          end
      end
  end.

(** [_processComplexJoin(mainRows, relationName, joinSpec)] *)
Definition _processComplexJoin (qb : QueryBuilder) (mainRows : list ResultRow)
           (relationName : string) (joinSpec : ComplexJoinSpec) : Eff (list ResultRow) :=
  match mainRows with
  | [] => EffM.ret mainRows
  | _ =>
      let ji := joinInfo joinSpec in
      match _extractJoinSourceValues qb mainRows (ji_sourceColumn ji) with
      | [] => EffM.lift (_assignJoinResults qb mainRows relationName ji [])
      | sourceValues =>
          let analysis := _apply joinSpec in
          relatedResult <- DataAccessLayer.run_query (dal qb)
                             (_buildComplexJoinQuery relationName ji sourceValues analysis) ;;
          let relatedRows :=
            match analysis with
            | Some a => match removeFields a with
                        | [] => rows relatedResult
                        | fs => _applyJoinFieldOmissions (rows relatedResult) fs
                        end
            | None => rows relatedResult
            end in
          EffM.lift (_assignJoinResults qb mainRows relationName ji
                                        (_groupRelatedRows relatedRows))
      end
  end.

Fixpoint processComplexJoins (qb : QueryBuilder) (mainRows : list ResultRow)
         (l : list (string * ComplexJoinSpec)) : Eff (list ResultRow) :=
  match l with
  | [] => EffM.ret mainRows
  | (relationName, joinSpec) :: r =>
      rows1 <- _processComplexJoin qb mainRows relationName joinSpec ;;
      processComplexJoins qb rows1 r
  end.

(** [_runWithComplexJoins()] *)
Definition _runWithComplexJoins (qb : QueryBuilder) : Eff (list ResultRow) :=
  mainQuery <- EffM.lift (_buildSelectQuery qb) ;;
  mainResult <- DataAccessLayer.run_query (dal qb) mainQuery ;;
  mainRows <- EffM.lift (_processResults qb (rows mainResult)) ;;
  processComplexJoins qb mainRows (_complexJoins qb).

(** [run()] *)
Definition run (qb : QueryBuilder) : Eff (list ResultRow) :=
  EffM.rethrow Errors.convertPostgreSQLError
    match _complexJoins qb with
    | [] =>
        call <- EffM.lift (_buildSelectQuery qb) ;;
        result <- DataAccessLayer.run_query (dal qb) call ;;
        EffM.lift (_processResults qb (rows result))
    | _ => _runWithComplexJoins qb
    end.

(** [first()]: the builder keeps the limit it sets. *)
Definition first (qb : QueryBuilder) : Eff (option ResultRow * QueryBuilder) :=
  let qb' := limit qb 1 in
  results <- run qb' ;;
  EffM.ret (match results with r :: _ => Some r | [] => None end, qb').

(** [whereRelated(relationName, field, operator, value)] *)
Definition whereRelated (qb : QueryBuilder) (relationName field_ operator : string)
           (value : Value) : QueryBuilder :=
  match _getJoinInfo qb relationName with
  | None => qb
  | Some ji =>
      let qb1 := if Js.has relationName (_simpleJoins qb) then qb
                 else _addSimpleJoin qb relationName in
      let column_ := (ji_table ji ++ "." ++ _normalizeColumnName field_)%string in
      snd (_addWhereCondition qb1 column_ operator value no_predicate_options)
  end.

(** [orderByRelation(relationName, field, direction)] *)
Definition orderByRelation (qb : QueryBuilder) (relationName field_ : string)
           (dir : Direction) : QueryBuilder :=
  match _getJoinInfo qb relationName with
  | None => qb
  | Some ji =>
      let qb1 := if Js.has relationName (_simpleJoins qb) then qb
                 else _addSimpleJoin qb relationName in
      let targetTable_ :=
        match ji_joinTable ji with
        | Some jt => if String.eqb jt "" then ji_table ji else jt
        | None => ji_table ji
        end in
      if String.eqb targetTable_ "" then qb1
      else set_paging qb1
             (_orderBy qb1 ++ [(targetTable_ ++ "." ++ _normalizeColumnName field_ ++ " " ++
                                direction_text dir)%string])
             (_groupBy qb1) (_limit qb1) (_offset qb1)
  end.

Definition whereSuffix (w : string) : string :=
  if String.eqb w "" then "" else (" WHERE " ++ w)%string.

(** [_buildCountQuery()] *)
Definition _buildCountQuery (qb : QueryBuilder) : SqlCall :=
  let joins := match _joins qb with
               | [] => ""
               | js => (" " ++ Str.join " " js)%string
               end in
  let where_ := _buildWhereClause qb (match _joins qb with [] => false | _ => true end) in
  {| statement := Text ("SELECT COUNT(*) as count FROM " ++ tableName (modelClass qb) ++
                        joins ++ whereSuffix (fst where_))%string;
     params := snd where_ |}.

(** [_buildAggregateQuery(func, column)] *)
Definition _buildAggregateQuery (qb : QueryBuilder) (func column_ : string) : SqlCall :=
  let where_ := _buildWhereClause qb true in
  {| statement := Text ("SELECT " ++ func ++ "(" ++ column_ ++ ") as value FROM " ++
                        tableName (modelClass qb) ++ whereSuffix (fst where_))%string;
     params := snd where_ |}.

(** [_buildGroupedAggregateQuery(aggregateExpr)] *)
Definition _buildGroupedAggregateQuery (qb : QueryBuilder) (aggregateExpr : string)
  : Result SqlCall :=
  match _groupBy qb with
  | [] => Throw (TErr (Errors.Error "_buildGroupedAggregateQuery requires _groupBy to be set"))
  | groupByField :: _ =>
      let where_ := _buildWhereClause qb true in
      Ok {| statement :=
              Text ("SELECT " ++ groupByField ++ " as group_key, " ++ aggregateExpr ++
                    " as aggregate_value FROM " ++ tableName (modelClass qb) ++
                    whereSuffix (fst where_) ++ " GROUP BY " ++
                    Str.join ", " (_groupBy qb))%string;
            params := snd where_ |}
  end.

(** [_buildDeleteQuery()] *)
Definition _buildDeleteQuery (qb : QueryBuilder) : SqlCall :=
  let where_ := _buildWhereClause qb false in
  {| statement := Text ("DELETE FROM " ++ tableName (modelClass qb) ++
                        whereSuffix (fst where_))%string;
     params := snd where_ |}.

Definition digit_of (c : ascii) : option Z :=
  let n := nat_of_ascii c in
  if Nat.leb 48 n && Nat.leb n 57 then Some (Z.of_nat (n - 48)) else None.

Fixpoint leadingDigits (l : list ascii) (acc : option Z) : option Z :=
  match l with
  | [] => acc
  | c :: r =>
      match digit_of c with
      | Some d => leadingDigits r (Some (match acc with Some a => a * 10 + d | None => d end)%Z)
      | None => acc
      end
  end.

(** [Number.parseInt(String(v), 10)] on the shapes a count comes back in. *)
Definition parseInt (v : Value) : JsNum :=
  match v with
  | VNum n => n
  | VStr s =>
      match Str.chars s with
      | "-"%char :: r => match leadingDigits r None with
                         | Some z => NFin (- z)
                         | None => NNaN
                         end
      | l => match leadingDigits l None with
             | Some z => NFin z
             | None => NNaN
             end
      end
  | _ => NNaN
  end.

(** [count()] *)
Definition count (qb : QueryBuilder) : Eff JsNum :=
  EffM.rethrow Errors.convertPostgreSQLError
    (result <- DataAccessLayer.run_query (dal qb) (_buildCountQuery qb) ;;
     EffM.ret (match rows result with
               | row :: _ => match Js.prop "count" row with
                             | VUndef | VNull => NFin 0
                             | v => parseInt v
                             end
               | [] => NFin 0
               end)).

(** [_aggregateFunction(func, field)] *)
Definition _aggregateFunction (qb : QueryBuilder) (func field_ : string) : Eff Value :=
  EffM.rethrow Errors.convertPostgreSQLError
    (let column_ := if has_dot_or_paren field_ then field_
                    else (tableName (modelClass qb) ++ "." ++ field_)%string in
     result <- DataAccessLayer.run_query (dal qb) (_buildAggregateQuery qb func column_) ;;
     EffM.ret (match rows result with
               | row :: _ =>
                   match Js.prop "value" row with
                   | VUndef | VNull => VNull
                   | v => match parseInt v with
                          | NNaN => VNull
                          | n => VNum n
                          end
                   end
               | [] => VNull
               end)).

(** [average(field)] *)
Definition average (qb : QueryBuilder) (field_ : string) : Eff Value :=
  _aggregateFunction qb "AVG" field_.

(** [aggregateGrouped(func, { aggregateField })] *)
Definition aggregateGrouped (qb : QueryBuilder) (func : string)
           (aggregateField : option string) : Eff (list (string * JsNum)) :=
  EffM.rethrow Errors.convertPostgreSQLError
    match _groupBy qb with
    | [] => EffM.throw (Errors.Error "aggregateGrouped requires groupBy() to be called first")
    | _ =>
        let aggregateColumn :=
          match aggregateField with
          | Some f => if String.eqb f "" then "*"
                      else if has_dot_or_paren f then f
                      else (tableName (modelClass qb) ++ "." ++ _resolveFieldName qb f)%string
          | None => "*"
          end in
        let aggregateExpr := (func ++ "(" ++ aggregateColumn ++ ")")%string in
        call <- EffM.lift (_buildGroupedAggregateQuery qb aggregateExpr) ;;
        result <- DataAccessLayer.run_query (dal qb) call ;;
        EffM.ret
          (fold_left
             (fun acc row =>
                Js.set (keyString (Js.prop "group_key" row))
                       (match parseInt (Js.prop "aggregate_value" row) with
                        | NNaN => NFin 0
                        | n => n
                        end) acc)
             (rows result) [])
    end.

(** [delete()] *)
Definition delete (qb : QueryBuilder) : Eff nat :=
  EffM.rethrow Errors.convertPostgreSQLError
    (result <- DataAccessLayer.run_query (dal qb) (_buildDeleteQuery qb) ;;
     EffM.ret (rowCount result)).

(** [deleteById(id)] *)
Definition deleteById (qb : QueryBuilder) (id_ : Value) : Eff nat :=
  EffM.rethrow Errors.convertPostgreSQLError
    (result <- DataAccessLayer.run_query (dal qb)
                 {| statement := Text ("DELETE FROM " ++ tableName (modelClass qb) ++
                                       " WHERE id = $1")%string;
                    params := [id_] |} ;;
     EffM.ret (rowCount result)).

(** [remapRowToCamelCase(row, fieldMappings)] *)
Definition remapRowToCamelCase (row : Row) (fieldMappings : list (string * string)) : Row :=
  match fieldMappings with
  | [] => row
  | _ =>
      let reverseMapping :=
        fold_left (fun acc e => Js.set (snd e) (fst e) acc) fieldMappings [] in
      fold_left
        (fun remapped kv =>
           let camelKey := match Js.get (fst kv) reverseMapping with
                           | Some c => c
                           | None => fst kv
                           end in
           Js.set camelKey (snd kv) remapped)
        row []
  end.

Record IncrementResult := { inc_rowCount : nat; inc_rows : list Row }.

(** The schema key [increment] checks: the field itself when it is
    [in] the schema (declared, or inherited by the schema object) and not
    the empty name, otherwise the first mapping whose storage name is the
    resolved column or the field. *)
Definition incrementSchemaField (qb : QueryBuilder) (field_ dbField : string)
  : option string :=
  let found :=
    if Js.has_in field_ (schema (modelClass qb)) && negb (String.eqb field_ "")
    then Some field_
    else
      (fix scan (l : list (string * string)) : option string :=
         match l with
         | [] => None
         | (schemaKey, dbKey) :: r =>
             if String.eqb dbKey dbField || String.eqb dbKey field_ then Some schemaKey
             else scan r
         end) (_fieldMappings (modelClass qb)) in
  match found with
  | Some n => if String.eqb n "" then None else Some n
  | None => None
  end.

Fixpoint resolveReturning (qb : QueryBuilder) (cols : list string) : Result (list string) :=
  match cols with
  | [] => Ok []
  | column_ :: r =>
      let resolved := _resolveFieldName qb column_ in
      match _assertResolvedField qb resolved with
      | Throw t => Throw t
      | Ok _ => match resolveReturning qb r with
                | Throw t => Throw t
                | Ok rest => Ok (resolved :: rest)
                end
      end
  end.

(** The UPDATE text [increment] renders. *)
Definition incrementText (tn dbField amountPlaceholder whereSql : string)
           (resolvedColumns : list string) : string :=
  ("UPDATE " ++ tn ++ " SET " ++ dbField ++ " = " ++ dbField ++ " + " ++ amountPlaceholder ++
   " WHERE " ++ whereSql ++
   match resolvedColumns with
   | [] => ""
   | _ => " RETURNING " ++ Str.join ", " resolvedColumns
   end)%string.

(** [increment(field, amount, { returning })] *)
Definition increment (qb : QueryBuilder) (field_ : string) (amount : JsNum)
           (returning : option (list string)) : Eff IncrementResult :=
  if negb (Js.isFinite amount) then
    EffM.throw (Errors.TypeError "QueryBuilder.increment amount must be a finite number.")
  else
    match _joins qb with
    | _ :: _ =>
        EffM.throw (Errors.Error "QueryBuilder.increment does not support joined queries.")
    | [] =>
        let dbField := _resolveFieldName qb field_ in
        _ <- EffM.lift (_assertResolvedField qb dbField) ;;
        let fieldMappings := _fieldMappings (modelClass qb) in
        match incrementSchemaField qb field_ dbField with
        | None =>
            EffM.throw (Errors.TypeError
              ("QueryBuilder.increment could not resolve schema metadata for field '" ++
               field_ ++ "'.")%string)
        | Some schemaFieldName =>
            let numeric := match Js.get schemaFieldName (schema (modelClass qb)) with
                           | Some columnDef => Types.isNumberType columnDef
                           | None => false
                           end in
            if negb numeric then
              EffM.throw (Errors.TypeError
                ("QueryBuilder.increment requires a numeric schema field; '" ++
                 schemaFieldName ++ "' is not numeric.")%string)
            else
              let where_ := _buildWhereClause qb false in
              if String.eqb (fst where_) "" then
                EffM.throw (Errors.Error
                  "QueryBuilder.increment requires a WHERE clause to avoid full-table updates.")
              else
                let amountPlaceholder := Str.placeholder (S (length (snd where_))) in
                let params_ := snd where_ ++ [VNum amount] in
                let returningColumns := match returning with Some l => l | None => [] end in
                resolvedColumns <- EffM.lift (resolveReturning qb returningColumns) ;;
                result <- DataAccessLayer.run_query (dal qb)
                            {| statement :=
                                 Text (incrementText (tableName (modelClass qb)) dbField
                                         amountPlaceholder (fst where_) resolvedColumns);
                               params := params_ |} ;;
                EffM.ret {| inc_rowCount := rowCount result;
                            inc_rows :=
                              match returningColumns with
                              | [] => []
                              | _ => map (fun row => remapRowToCamelCase row fieldMappings)
                                         (rows result)
                              end |}
        end
    end.

(** [sample(count)] *)
Definition sample (qb : QueryBuilder) (count_ : Z) : Eff (list ResultRow * QueryBuilder) :=
  let qb' := set_paging qb ["RANDOM()"] (_groupBy qb) (Some count_) (_offset qb) in
  results <- run qb' ;;
  EffM.ret (results, qb').

End QueryBuilder.

(* ================================================================== *)
(** ** Predicate-literal facade (filter-where.ts) *)

Inductive BoundMode := open | closed.

(** The descriptors [createOperators] hands out, one constructor per
    helper, holding what the helper's [build] closure captures. *)
Inductive Operator :=
| OpNeq (value : Value)
| OpLt (value : Value)
| OpLte (value : Value)
| OpGt (value : Value)
| OpGte (value : Value)
| OpContainsAll (normalized : list Value)
| OpContainsAny (normalized : list Value)
| OpIn (normalized : list Value) (cast : option string)
| OpNotIn (normalized : list Value) (cast : option string)
| OpNot
| OpBetween (lower upper : Value) (leftBound rightBound : BoundMode)
| OpNotBetween (lower upper : Value) (leftBound rightBound : BoundMode)
| OpJsonContains (value : Value)
| OpIlike (pattern : string)
| OpLike (pattern : string)
| OpNotLike (pattern : string)
| OpNotIlike (pattern : string).

(** A value of a predicate literal: a plain value ([undefined] included)
    or an operator descriptor. *)
Inductive LiteralValue :=
| Plain (v : Value)
| Op (o : Operator).

Definition Literal := list (string * LiteralValue).

Record FilterWhereBuilder := {
  _builder : QueryBuilder;
  _hasRevisions : bool;
  _includeDeleted : bool;
  _includeStale : bool;
  _revisionFiltersApplied : bool
}.

Record ChronologicalFeedOptions := {
  cursorField : string;
  cursor : Value;
  direction : Direction;
  feed_limit : Z
}.

Record ChronologicalFeedPage := {
  page_rows : list ResultRow;
  hasMore : bool;
  nextCursor : Value
}.

Module FilterWhere.

(** [normalizeArrayValue(value)] *)
Definition normalizeArrayValue (value : Value) : list Value :=
  match value with
  | VArr l => l
  | v => [v]
  end.

(** [normalizeNonEmptyArrayValue(value)] *)
Definition normalizeNonEmptyArrayValue (value : list Value) : Result (list Value) :=
  match value with
  | [] => Throw (TErr (Errors.TypeError "FilterWhere ops.in requires at least one value."))
  | normalized => Ok normalized
  end.

(** The operator bag [createOperators()]. *)
Module ops.

Definition neq (value : Value) : Operator := OpNeq value.
Definition lt (value : Value) : Operator := OpLt value.
Definition lte (value : Value) : Operator := OpLte value.
Definition gt (value : Value) : Operator := OpGt value.
Definition gte (value : Value) : Operator := OpGte value.

Definition containsAll (value : Value) : Operator :=
  OpContainsAll (normalizeArrayValue value).

Definition containsAny (value : Value) : Operator :=
  OpContainsAny (normalizeArrayValue value).

Definition in_ (values : list Value) (cast_ : option string) : Result Operator :=
  match normalizeNonEmptyArrayValue values with
  | Throw t => Throw t
  | Ok normalized => Ok (OpIn normalized cast_)
  end.

Definition notIn (values : list Value) (cast_ : option string) : Result Operator :=
  match normalizeNonEmptyArrayValue values with
  | Throw t => Throw t
  | Ok normalized => Ok (OpNotIn normalized cast_)
  end.

Definition not_ : Operator := OpNot.

Definition between (lower upper : Value) (leftBound rightBound : option BoundMode)
  : Operator :=
  OpBetween lower upper
            (match leftBound with Some b => b | None => closed end)
            (match rightBound with Some b => b | None => closed end).

Definition notBetween (lower upper : Value) (leftBound rightBound : option BoundMode)
  : Operator :=
  OpNotBetween lower upper
               (match leftBound with Some b => b | None => closed end)
               (match rightBound with Some b => b | None => closed end).

Definition jsonContains (value : Value) : Operator := OpJsonContains value.
Definition ilike (pattern : string) : Operator := OpIlike pattern.
Definition like (pattern : string) : Operator := OpLike pattern.
Definition notLike (pattern : string) : Operator := OpNotLike pattern.
Definition notIlike (pattern : string) : Operator := OpNotIlike pattern.

End ops.

Definition quoteJson (s : string) : string :=
  (Str.dquote ++
   Str.of_chars (flat_map (fun c => if Ascii.eqb c Str.dquote_char || Ascii.eqb c "\"%char
                                    then ["\"%char; c] else [c]) (Str.chars s)) ++
   Str.dquote)%string.

(** [JSON.stringify(value)] on the JSON shapes a containment test is given;
    dates print their epoch and control characters are not escaped. *)
Fixpoint JSON_stringify (v : Value) : string :=
  match v with
  | VUndef | VNull => "null"
  | VBool true => "true"
  | VBool false => "false"
  | VNum (NFin z) => Str.of_Z z
  | VNum _ => "null"
  | VStr s => quoteJson s
  | VDate (Some t) => Str.of_Z t
  | VDate None => "null"
  | VArr l => ("[" ++ Str.join "," (map JSON_stringify l) ++ "]")%string
  | VObj l =>
      ("{" ++
       Str.join ","
         ((fix members (l : list (string * Value)) : list string :=
             match l with
             | [] => []
             | (k, VUndef) :: r => members r
             | (k, x) :: r => (quoteJson k ++ ":" ++ JSON_stringify x)%string :: members r
             end) l) ++ "}")%string
  end.

(** The two arms every simple helper's [build] has:
    [mutate ? builder._addWhereCondition(...) : builder._createPredicate(...)]. *)
Definition condition_ (builder : QueryBuilder) (field_ : string) (mutate : bool)
           (operator : string) (value : Value) (options : PredicateOptions)
  : option Predicate * QueryBuilder :=
  if mutate then
    let '(p, b) := QueryBuilder._addWhereCondition builder field_ operator value options in
    (Some p, b)
  else (Some (QueryBuilder._createPredicate builder field_ operator value options), builder).

(** [createGroupedPredicate(builder, field, mutate, left, right, conjunction)] *)
Definition createGroupedPredicate (builder : QueryBuilder) (field_ : string) (mutate : bool)
           (left : string * Value) (right : string * Value) (conjunction : Conjunction)
  : option Predicate * QueryBuilder :=
  let leftPredicate :=
    QueryBuilder._createPredicate builder field_ (fst left) (snd left)
                                  QueryBuilder.no_predicate_options in
  let rightPredicate :=
    QueryBuilder._createPredicate builder field_ (fst right) (snd right)
                                  QueryBuilder.no_predicate_options in
  let groupPredicate := Group conjunction [leftPredicate; rightPredicate] in
  (Some groupPredicate,
   if mutate then QueryBuilder.set_where builder (_where builder ++ [groupPredicate])
   else builder).

Definition castOptions (c : string) : PredicateOptions :=
  {| opt_table := None; serializeValue := None; cast := Some c; opt_valueTransform := None |}.

Definition wrapOptions (c : option string) : PredicateOptions :=
  {| opt_table := None; serializeValue := None; cast := None;
     opt_valueTransform := Some (TWrap c) |}.

(** [operator.build({ builder, field, mutate })] *)
Definition build (o : Operator) (builder : QueryBuilder) (field_ : string) (mutate : bool)
  : option Predicate * QueryBuilder :=
  let simple operator value :=
    condition_ builder field_ mutate operator value QueryBuilder.no_predicate_options in
  match o with
  | OpNeq value => simple "!=" value
  | OpLt value => simple "<" value
  | OpLte value => simple "<=" value
  | OpGt value => simple ">" value
  | OpGte value => simple ">=" value
  | OpContainsAll normalized =>
      match normalized with
      | [] => (None, builder)
      | _ => condition_ builder field_ mutate "@>" (VArr normalized) (castOptions "text[]")
      end
  | OpContainsAny normalized =>
      match normalized with
      | [] => (None, builder)
      | _ => condition_ builder field_ mutate "&&" (VArr normalized) (castOptions "text[]")
      end
  | OpIn normalized cast_ =>
      condition_ builder field_ mutate "= ANY" (VArr normalized) (wrapOptions cast_)
  | OpNotIn normalized cast_ =>
      condition_ builder field_ mutate "!= ALL" (VArr normalized) (wrapOptions cast_)
  | OpNot => simple "IS NOT" (VBool true)
  | OpBetween lower upper leftBound rightBound =>
      let leftOp := match leftBound with open => ">" | closed => ">=" end in
      let rightOp := match rightBound with open => "<" | closed => "<=" end in
      createGroupedPredicate builder field_ mutate (leftOp, lower) (rightOp, upper) AND
  | OpNotBetween lower upper leftBound rightBound =>
      let leftOp := match leftBound with open => "<=" | closed => "<" end in
      let rightOp := match rightBound with open => ">=" | closed => ">" end in
      createGroupedPredicate builder field_ mutate (leftOp, lower) (rightOp, upper) OR
  | OpJsonContains value =>
      condition_ builder field_ mutate "@>" value
        {| opt_table := None; serializeValue := Some (fun v => VStr (JSON_stringify v));
           cast := Some "jsonb"; opt_valueTransform := None |}
  | OpIlike pattern => simple "ILIKE" (VStr pattern)
  | OpLike pattern => simple "LIKE" (VStr pattern)
  | OpNotLike pattern => simple "NOT LIKE" (VStr pattern)
  | OpNotIlike pattern => simple "NOT ILIKE" (VStr pattern)
  end.

Definition with_builder (b : FilterWhereBuilder) (qb : QueryBuilder) : FilterWhereBuilder :=
  {| _builder := qb; _hasRevisions := _hasRevisions b;
     _includeDeleted := _includeDeleted b; _includeStale := _includeStale b;
     _revisionFiltersApplied := _revisionFiltersApplied b |}.

(** [new FilterWhereBuilder(builder, hasRevisions)] *)
Definition new (builder : QueryBuilder) (hasRevisions_ : bool) : FilterWhereBuilder :=
  {| _builder := builder; _hasRevisions := hasRevisions_; _includeDeleted := false;
     _includeStale := false; _revisionFiltersApplied := false |}.

(** The default revision guards still owed by a builder: nothing once
    applied or on an entity without revisions, otherwise the stale guard
    unless [includeStale] and the deleted guard unless [includeDeleted]. *)
Definition staleGuard (qb : QueryBuilder) : Predicate :=
  fst (QueryBuilder._addWhereCondition qb "_old_rev_of" "IS" VNull
         QueryBuilder.no_predicate_options).

Definition deletedGuard (qb : QueryBuilder) : Predicate :=
  fst (QueryBuilder._addWhereCondition qb "_rev_deleted" "=" (VBool false)
         QueryBuilder.no_predicate_options).

(** [_ensureRevisionFilters()] *)
Definition _ensureRevisionFilters (b : FilterWhereBuilder) : FilterWhereBuilder :=
  if _revisionFiltersApplied b then b
  else
    let applied qb :=
      {| _builder := qb; _hasRevisions := _hasRevisions b;
         _includeDeleted := _includeDeleted b; _includeStale := _includeStale b;
         _revisionFiltersApplied := true |} in
    if negb (_hasRevisions b) then applied (_builder b)
    else
      let qb1 :=
        if negb (_includeStale b)
        then snd (QueryBuilder._addWhereCondition (_builder b) "_old_rev_of" "IS" VNull
                    QueryBuilder.no_predicate_options)
        else _builder b in
      let qb2 :=
        if negb (_includeDeleted b)
        then snd (QueryBuilder._addWhereCondition qb1 "_rev_deleted" "=" (VBool false)
                    QueryBuilder.no_predicate_options)
        else qb1 in
      applied qb2.

(** [_createFieldPredicate(field, value, mutate)] and its twin
    [_createRevisionFieldPredicate]. *)
Definition _createFieldPredicate (b : FilterWhereBuilder) (field_ : string)
           (value : LiteralValue) (mutate : bool)
  : Result (option Predicate * FilterWhereBuilder) :=
  match value with
  | Plain VUndef => Ok (None, b)
  | _ =>
      let dbField := QueryBuilder._resolveFieldName (_builder b) field_ in
      match QueryBuilder._assertResolvedField (_builder b) dbField with
      | Throw t => Throw t
      | Ok _ =>
          let '(p, qb) :=
            match value with
            | Op o => build o (_builder b) dbField mutate
            | Plain v => condition_ (_builder b) dbField mutate "=" v
                                    QueryBuilder.no_predicate_options
            end in
          Ok (p, with_builder b qb)
      end
  end.

Fixpoint collectPredicates (b : FilterWhereBuilder) (literal : Literal)
  : Result (list Predicate) :=
  match literal with
  | [] => Ok []
  | (key, rawValue) :: r =>
      match _createFieldPredicate b key rawValue false with
      | Throw t => Throw t
      | Ok (p, _) =>
          match collectPredicates b r with
          | Throw t => Throw t
          | Ok ps => Ok (match p with Some x => x :: ps | None => ps end)
          end
      end
  end.

Fixpoint applyEach (b : FilterWhereBuilder) (literal : Literal) (mutate : bool)
  : Result FilterWhereBuilder :=
  match literal with
  | [] => Ok b
  | (key, rawValue) :: r =>
      match _createFieldPredicate b key rawValue mutate with
      | Throw t => Throw t
      | Ok (_, b') => applyEach b' r mutate
      end
  end.

(** [_applyLiteral(literal, mutate, conjunction)] *)
Definition _applyLiteral (b : FilterWhereBuilder) (literal : Literal) (mutate : bool)
           (conjunction : Conjunction) : Result FilterWhereBuilder :=
  match conjunction with
  | OR =>
      match collectPredicates b literal with
      | Throw t => Throw t
      | Ok [] => Ok b
      | Ok predicates =>
          Ok (with_builder b
                (QueryBuilder.set_where (_builder b)
                   (_where (_builder b) ++ [Group OR predicates])))
      end
  | AND => applyEach b literal mutate
  end.

(** [and(literal)] *)
Definition and (b : FilterWhereBuilder) (literal : Literal) : Result FilterWhereBuilder :=
  _applyLiteral b literal true AND.

(** [or(literal)] *)
Definition or (b : FilterWhereBuilder) (literal : Literal) : Result FilterWhereBuilder :=
  _applyLiteral b literal false OR.

(** [includeDeleted()] *)
Definition includeDeleted (b : FilterWhereBuilder) : FilterWhereBuilder :=
  {| _builder := _builder b; _hasRevisions := _hasRevisions b; _includeDeleted := true;
     _includeStale := _includeStale b;
     _revisionFiltersApplied := _revisionFiltersApplied b |}.

(** [includeStale()] *)
Definition includeStale (b : FilterWhereBuilder) : FilterWhereBuilder :=
  {| _builder := _builder b; _hasRevisions := _hasRevisions b;
     _includeDeleted := _includeDeleted b; _includeStale := true;
     _revisionFiltersApplied := _revisionFiltersApplied b |}.

(** [includeSensitive(fields)] *)
Definition includeSensitive (b : FilterWhereBuilder) (fields : list string)
  : FilterWhereBuilder :=
  with_builder b (QueryBuilder.includeSensitive (_builder b) fields).

(** [getAllRevisions(documentId)] *)
Definition getAllRevisions (b : FilterWhereBuilder) (documentId : Value)
  : FilterWhereBuilder :=
  with_builder (includeDeleted (includeStale b))
               (QueryBuilder.getAllRevisions (_builder b) documentId).

(** [getRevisionByRevId(revId, documentId)] *)
Definition getRevisionByRevId (b : FilterWhereBuilder) (revId documentId : Value)
  : FilterWhereBuilder :=
  let qb1 := snd (QueryBuilder._addWhereCondition (_builder b) "_rev_id" "=" revId
                    QueryBuilder.no_predicate_options) in
  let qb2 := QueryBuilder.getAllRevisions qb1 documentId in
  with_builder (includeDeleted (includeStale b)) (QueryBuilder.limit qb2 1).

(** [revisionData(literal)] *)
Definition revisionData (b : FilterWhereBuilder) (literal : Literal)
  : Result FilterWhereBuilder :=
  applyEach b literal true.

Definition resolved (b : FilterWhereBuilder) (field_ : string) : Result string :=
  let dbField := QueryBuilder._resolveFieldName (_builder b) field_ in
  ResultM.bind (QueryBuilder._assertResolvedField (_builder b) dbField) (fun _ => Ok dbField).

(** [orderBy(field, direction)] *)
Definition orderBy (b : FilterWhereBuilder) (field_ : string) (dir : Direction)
  : Result FilterWhereBuilder :=
  ResultM.bind (resolved b field_)
    (fun dbField => Ok (with_builder b (QueryBuilder.orderBy (_builder b) dbField dir))).

(** [orderByRelation(relation, field, direction)] *)
Definition orderByRelation (b : FilterWhereBuilder) (relation field_ : string)
           (dir : Direction) : FilterWhereBuilder :=
  with_builder b (QueryBuilder.orderByRelation (_builder b) relation field_ dir).

(** [limit(count)] *)
Definition limit (b : FilterWhereBuilder) (count_ : Z) : FilterWhereBuilder :=
  with_builder b (QueryBuilder.limit (_builder b) count_).

(** [offset(count)] *)
Definition offset (b : FilterWhereBuilder) (count_ : Z) : FilterWhereBuilder :=
  with_builder b (QueryBuilder.offset (_builder b) count_).

(** [getJoin(joinSpec)] *)
Definition getJoin (b : FilterWhereBuilder) (joinSpec : list (string * JoinRelationOptions))
  : FilterWhereBuilder :=
  match joinSpec with
  | [] => b
  | _ => with_builder b (QueryBuilder.getJoin (_builder b) joinSpec)
  end.

(** [whereIn(field, values, options)] *)
Definition whereIn (b : FilterWhereBuilder) (field_ : string) (values : Value)
           (cast_ : option string) : Result FilterWhereBuilder :=
  ResultM.bind (resolved b field_)
    (fun dbField => Ok (with_builder b (QueryBuilder.whereIn (_builder b) dbField values cast_))).

(** [whereRelated(relation, field, value, operator)] *)
Definition whereRelated (b : FilterWhereBuilder) (relation field_ : string) (value : Value)
           (operator : string) : FilterWhereBuilder :=
  with_builder b (QueryBuilder.whereRelated (_builder b) relation field_ operator value).

(** [groupBy(fields)] *)
Definition groupBy (b : FilterWhereBuilder) (fields : list string)
  : Result FilterWhereBuilder :=
  ResultM.bind
    (ResultM.foldM (fun acc f => ResultM.bind (resolved b f) (fun d => Ok (acc ++ [d])))
                   fields [])
    (fun resolvedFields =>
       Ok (with_builder b (QueryBuilder.groupBy (_builder b) resolvedFields))).

(** *** Execution methods; each answers with the builder as it leaves it. *)

(** [run()] *)
Definition run (b : FilterWhereBuilder) : Eff (list ResultRow * FilterWhereBuilder) :=
  let b1 := _ensureRevisionFilters b in
  results <- QueryBuilder.run (_builder b1) ;;
  EffM.ret (results, b1).

(** [first()] *)
Definition first (b : FilterWhereBuilder) : Eff (option ResultRow * FilterWhereBuilder) :=
  let b1 := _ensureRevisionFilters b in
  r <- QueryBuilder.first (_builder b1) ;;
  EffM.ret (fst r, with_builder b1 (snd r)).

(** [count()] *)
Definition count (b : FilterWhereBuilder) : Eff (JsNum * FilterWhereBuilder) :=
  let b1 := _ensureRevisionFilters b in
  n <- QueryBuilder.count (_builder b1) ;;
  EffM.ret (n, b1).

(** [average(field)] *)
Definition average (b : FilterWhereBuilder) (field_ : string)
  : Eff (Value * FilterWhereBuilder) :=
  let b1 := _ensureRevisionFilters b in
  dbField <- EffM.lift (resolved b1 field_) ;;
  v <- QueryBuilder.average (_builder b1) dbField ;;
  EffM.ret (v, b1).

(** [aggregateGrouped(func, options)] *)
Definition aggregateGrouped (b : FilterWhereBuilder) (func : string)
           (aggregateField : option string)
  : Eff (list (string * JsNum) * FilterWhereBuilder) :=
  let b1 := _ensureRevisionFilters b in
  resolvedField <-
    match aggregateField with
    | Some f => if String.eqb f "" then EffM.ret aggregateField
                else (d <- EffM.lift (resolved b1 f) ;; EffM.ret (Some d))
    | None => EffM.ret None
    end ;;
  m <- QueryBuilder.aggregateGrouped (_builder b1) func resolvedField ;;
  EffM.ret (m, b1).

(** [increment(field, { by, returning })] *)
Definition increment (b : FilterWhereBuilder) (field_ : string) (by_ : option JsNum)
           (returning : option (list string))
  : Eff (QueryBuilder.IncrementResult * FilterWhereBuilder) :=
  let b1 := _ensureRevisionFilters b in
  r <- QueryBuilder.increment (_builder b1) field_
         (match by_ with Some n => n | None => NFin 1 end) returning ;;
  EffM.ret (r, b1).

(** [delete()] *)
Definition delete (b : FilterWhereBuilder) : Eff (nat * FilterWhereBuilder) :=
  let b1 := _ensureRevisionFilters b in
  n <- QueryBuilder.delete (_builder b1) ;;
  EffM.ret (n, b1).

(** [deleteById(id)] *)
Definition deleteById (b : FilterWhereBuilder) (id_ : Value)
  : Eff (nat * FilterWhereBuilder) :=
  let b1 := _ensureRevisionFilters b in
  n <- QueryBuilder.deleteById (_builder b1) id_ ;;
  EffM.ret (n, b1).

(** [sample(count)] *)
Definition sample (b : FilterWhereBuilder) (count_ : Z)
  : Eff (list ResultRow * FilterWhereBuilder) :=
  let b1 := _ensureRevisionFilters b in
  r <- QueryBuilder.sample (_builder b1) count_ ;;
  EffM.ret (fst r, with_builder b1 (snd r)).

(** [chronologicalFeed(options)]; the limit arrives already floored. *)
Definition chronologicalFeed (b : FilterWhereBuilder) (options : ChronologicalFeedOptions)
  : Eff (ChronologicalFeedPage * FilterWhereBuilder) :=
  let normalizedLimit := Z.max 0 (feed_limit options) in
  let b1 := _ensureRevisionFilters b in
  if Z.eqb normalizedLimit 0 then
    EffM.ret ({| page_rows := []; hasMore := false; nextCursor := VUndef |}, b1)
  else
    dbField <- EffM.lift (resolved b1 (cursorField options)) ;;
    let qb1 :=
      if Js.nullish (cursor options) then _builder b1
      else snd (QueryBuilder._addWhereCondition (_builder b1) dbField
                  (match direction options with ASC => ">" | DESC => "<" end)
                  (cursor options) QueryBuilder.no_predicate_options) in
    let qb2 := QueryBuilder.orderBy qb1 dbField (direction options) in
    let qb3 := QueryBuilder.limit qb2 (normalizedLimit + 1) in
    results <- QueryBuilder.run qb3 ;;
    let more := Nat.ltb (Z.to_nat normalizedLimit) (length results) in
    let kept := if more then firstn (Z.to_nat normalizedLimit) results else results in
    let next :=
      if more then
        match rev kept with
        | last_ :: _ =>
            let cursorValue :=
              Model.getValue (modelClass qb3) (instance last_) (cursorField options) in
            if Js.nullish cursorValue then VUndef else cursorValue
        | [] => VUndef
        end
      else VUndef in
    EffM.ret ({| page_rows := kept; hasMore := more; nextCursor := next |},
              with_builder b1 qb3).

(** [createFilterWhereMethod(hasRevisions)]: the [filterWhere] static. *)
Definition filterWhere (hasRevisions_ : bool) (M : ModelClass) (d : Dal) (literal : Literal)
  : Result FilterWhereBuilder :=
  and (new (QueryBuilder.new M d) hasRevisions_) literal.

End FilterWhere.

(* ================================================================== *)
(** ** Revision handlers (revision.ts) *)

Module Revision.

Definition BASE_REVISION_FIELD_MAPPINGS : list (string * string) :=
  [("_revID", "_rev_id"); ("_revUser", "_rev_user"); ("_revDate", "_rev_date");
   ("_revTags", "_rev_tags"); ("_revDeleted", "_rev_deleted"); ("_oldRevOf", "_old_rev_of")].

(** [getRevisionFieldMappings()]; the summary feature flag is the
    presence of a summary schema. *)
Definition getRevisionFieldMappings (revSummary : option SchemaField)
  : list (string * string) :=
  match revSummary with
  | None => BASE_REVISION_FIELD_MAPPINGS
  | Some _ => BASE_REVISION_FIELD_MAPPINGS ++ [("_revSummary", "_rev_summary")]
  end.

Definition deletedError : JsError :=
  Errors.plain CError "RevisionDeletedError" "Revision has been deleted." None.

Definition staleError : JsError :=
  Errors.plain CError "RevisionStaleError" "Outdated revision." None.

(** [resolveRevisionUserId(user)] *)
Definition resolveRevisionUserId (user : option JsObject) : Value :=
  match user with
  | None => VNull
  | Some u => Js.prop "id" u
  end.

(** [new Date()] *)
Definition new_Date : Eff Value :=
  fun w => (Ok (VDate (Some (Date_now (host w) (draws w)))),
            {| host := host w; store := store w; journal := journal w;
               draws := S (draws w) |}).

(** [randomUUID()] *)
Definition draw_randomUUID : Eff string :=
  fun w => (Ok (randomUUID (host w) (draws w)),
            {| host := host w; store := store w; journal := journal w;
               draws := S (draws w) |}).

(** [getSchema()] *)
Definition getSchema (revSummary : option SchemaField) : list (string * SchemaField) :=
  [("_revUser", Types.required true (Types.uuid Types.types.string));
   ("_revDate", Types.required true Types.types.date);
   ("_revID", Types.required true (Types.uuid Types.types.string));
   ("_oldRevOf", Types.uuid Types.types.string);
   ("_revDeleted", Types.default (DLit (VBool false)) Types.types.boolean);
   ("_revTags", Types.default (DLit (VArr [])) (Types.types.array (Some Types.types.string)))]
  ++ match revSummary with
     | Some f => [("_revSummary", f)]
     | None => []
     end.

(** [initializeModel(options)] followed by the statics [createModel]
    attaches: revision schema merged over the declared one, the declared
    mappings registered before the revision ones, relations as already
    normalised by [defineRelation]. *)
Definition defineModel (namespace baseTable : string)
           (schema_ : list (string * SchemaField)) (camelToSnake : list (string * string))
           (hasRevisions_ : bool) (relations : list (string * NormalizedRelationConfig))
           (revSummary : option SchemaField) : ModelClass :=
  {| tableName := (namespace ++ baseTable)%string;
     schema := if hasRevisions_ then Js.assign schema_ (getSchema revSummary) else schema_;
     _fieldMappings :=
       fold_left (fun acc e => Js.set (fst e) (snd e) acc)
                 (camelToSnake ++
                  if hasRevisions_ then getRevisionFieldMappings revSummary else [])
                 [];
     _relations := relations;
     filterWhereStatic := Some hasRevisions_ |}.

(** [applyRevisionMetadata(instance, { user, date, tags, revId })] with
    the [date] already defaulted by the caller. *)
Definition applyRevisionMetadata (M : ModelClass) (inst : Instance)
           (user : option JsObject) (date : Value) (tags : Value) (revId : Value)
  : Eff Instance :=
  let resolvedUserId := resolveRevisionUserId user in
  if negb (Js.truthy resolvedUserId) then
    EffM.throw (Errors.ValidationError "Revision metadata requires a user ID" None)
  else
    fun w =>
      let timestamp :=
        match date with
        | VDate t => t
        | VStr s => Date_parse (host w) s
        | VNum (NFin z) => Some z
        | _ => None
        end in
      match timestamp with
      | None =>
          (Throw (TErr (Errors.ValidationError "Revision metadata requires a valid date" None)),
           w)
      | Some t =>
          let resolvedTags :=
            match tags with
            | VUndef | VNull => VArr []
            | VArr l => VArr l
            | v => VArr [v]
            end in
          (resolvedRevId <-
             (if Js.truthy revId then EffM.ret revId
              else (u <- draw_randomUUID ;; EffM.ret (VStr u))) ;;
           let i1 := Model.setProperty M inst "_revID" resolvedRevId in
           let i2 := Model.setProperty M i1 "_revUser" resolvedUserId in
           let i3 := Model.setProperty M i2 "_revDate" (VDate (Some t)) in
           let i4 := Model.setProperty M i3 "_revTags" resolvedTags in
           EffM.ret i4) w
      end.

(** The archived copy [newRevision] inserts: the current data with
    [_old_rev_of] set to the current id and the [id] property deleted. *)
Definition oldRevData (M : ModelClass) (currentRev : Instance) : JsObject :=
  Js.remove "id" (Js.set "_old_rev_of" (Model.id M currentRev) (_data currentRev)).

(** The [newRevision] handler of [getNewRevisionHandler(ModelClass)]. *)
Definition newRevisionHandler (d : Dal) (M : ModelClass) (currentRev : Instance)
           (user : option JsObject) (tags : Value) : Eff Instance :=
  let old := oldRevData M currentRev in
  let insertFields :=
    filter (fun key => match Js.prop key old with VUndef => false | _ => true end)
           (Js.keys old) in
  let insertValues := map (fun key => Js.prop key old) insertFields in
  _ <- DataAccessLayer.run_query d
         {| statement := InsertRow (tableName M) insertFields false;
            params := insertValues |} ;;
  metadataDate <- new_Date ;;
  applyRevisionMetadata M currentRev user metadataDate tags VNull.

(** [_ensureRevisionHandler(handlerName)]: the guard in front of both
    instance handlers. *)
Definition _ensureRevisionHandler (M : ModelClass) : Result unit :=
  if Js.has "_revID" (schema M) then Ok tt
  else Throw (TErr (Errors.Error
         ("Revision support is not enabled for " ++
          (if String.eqb (tableName M) "" then "Model" else tableName M))%string)).

(** [instance.newRevision(user, { tags })] *)
Definition newRevision (d : Dal) (M : ModelClass) (inst : Instance)
           (user : option JsObject) (tags : Value) : Eff Instance :=
  _ <- EffM.lift (_ensureRevisionHandler M) ;;
  newRevisionHandler d M inst user tags.

(** The [deleteAllRevisions] handler. *)
Definition deleteAllRevisionsHandler (d : Dal) (M : ModelClass) (this : Instance)
           (user : option JsObject) (tags : list Value) : Eff Instance :=
  let id_ := Model.id M this in
  let deletionTags := VArr (VStr "delete" :: tags) in
  rev_ <- newRevision d M this user deletionTags ;;
  let rev1 := Model.setProperty M rev_ "_revDeleted" (VBool true) in
  rev2 <- Model.save d M rev1 Model.no_options ;;
  _ <- DataAccessLayer.run_query d
         {| statement := MarkRevisionsDeleted (tableName M); params := [id_] |} ;;
  EffM.ret rev2.

(** [instance.deleteAllRevisions(user, { tags })] *)
Definition deleteAllRevisions (d : Dal) (M : ModelClass) (inst : Instance)
           (user : option JsObject) (tags : list Value) : Eff Instance :=
  _ <- EffM.lift (_ensureRevisionHandler M) ;;
  deleteAllRevisionsHandler d M inst user tags.

(** [isUUID.v4(id)] of the [is-uuid] package. *)
Definition isUUID_v4 (s : string) : bool := Types.uuid_shape "4" s.

Definition filterWhereMissing (M : ModelClass) : JsError :=
  Errors.Error ("Model " ++ Str.dquote ++ tableName M ++ Str.dquote ++
                " must expose filterWhere. Ensure defineModel() initialized this constructor.")%string.

(** [getNotStaleOrDeleted(id, joinOptions)] *)
Definition getNotStaleOrDeleted (d : Dal) (M : ModelClass) (id_ : string)
           (joinOptions : list (string * JoinRelationOptions)) : Eff ResultRow :=
  if negb (isUUID_v4 id_) then
    EffM.throw (Errors.InvalidUUIDError ("Invalid " ++ tableName M ++ " address format")%string)
  else
    match filterWhereStatic M with
    | None => EffM.throw (filterWhereMissing M)
    | Some hasRevisions_ =>
        b0 <- EffM.lift (FilterWhere.filterWhere hasRevisions_ M d []) ;;
        let b1 := FilterWhere.includeStale (FilterWhere.includeDeleted b0) in
        b2 <- EffM.lift (FilterWhere.whereIn b1 "id" (VArr [VStr id_]) (Some "uuid[]")) ;;
        let b3 := FilterWhere.getJoin b2 joinOptions in
        r <- FilterWhere.first b3 ;;
        match fst r with
        | None =>
            EffM.throw (Errors.DocumentNotFound
                          (tableName M ++ " with id " ++ id_ ++ " not found")%string)
        | Some data =>
            if Js.truthy (Js.prop "_rev_deleted" (_data (instance data)))
            then EffM.throw deletedError
            else if Js.truthy (Js.prop "_old_rev_of" (_data (instance data)))
            then EffM.throw staleError
            else EffM.ret data
        end
    end.

(** [createFirstRevision(user, { tags, date })] *)
Definition createFirstRevision (M : ModelClass) (user : option JsObject) (tags : Value)
           (date : option Value) : Eff Instance :=
  date_ <- match date with
           | Some v => EffM.ret v
           | None => new_Date
           end ;;
  firstRev <- EffM.lift (Model.construct M []) ;;
  applyRevisionMetadata M firstRev user date_ tags VNull.

(** [getMultipleNotStaleOrDeleted(ids)] *)
Definition getMultipleNotStaleOrDeleted (d : Dal) (M : ModelClass) (ids : list Value)
  : Result FilterWhereBuilder :=
  match filterWhereStatic M with
  | None => Throw (TErr (filterWhereMissing M))
  | Some hasRevisions_ =>
      ResultM.bind (FilterWhere.filterWhere hasRevisions_ M d [])
        (fun builder =>
           match ids with
           | [] => Ok (FilterWhere.limit builder 0)
           | _ => FilterWhere.whereIn builder "id" (VArr ids) (Some "uuid[]")
           end)
  end.

End Revision.

(* ================================================================== *)
(** ** A relational store for the storage collaborator

    The layer only knows storage through [query(text, params)]. This model
    gives the statements of the revision engine and the plain SELECT of the
    query builder their relational meaning: tables with a generated primary
    key [id], column defaults, three-valued predicates. Other statements
    are rejected as unsupported. Constraints other than the primary key on
    insertion are not modelled. *)

Module Postgres.

Definition hex_digit (n : nat) : ascii :=
  if Nat.ltb n 10 then ascii_of_nat (48 + n) else ascii_of_nat (87 + n).

Fixpoint hex_digits (width n : nat) : list ascii :=
  match width with
  | 0 => []
  | S w => hex_digits w (n / 16) ++ [hex_digit (n mod 16)]
  end.

(** [gen_random_uuid()], made deterministic: the n-th identity handed out. *)
Definition gen_random_uuid (n : nat) : string :=
  ("00000000-0000-4000-8000-" ++ Str.of_chars (hex_digits 12 n))%string.

(** A bound parameter as storage sees it: [undefined] binds NULL. *)
Definition toSql (v : Value) : Value :=
  match v with VUndef => VNull | _ => v end.

Definition columnValue (c : string) (row : Row) : Value := toSql (Js.prop c row).

Definition unsupported (what : string) : JsError :=
  Errors.PostgresError "0A000" ("unsupported: " ++ what)%string None None None.

Definition undefinedTable (t : string) : JsError :=
  Errors.PostgresError "42P01" ("relation " ++ Str.dquote ++ t ++ Str.dquote ++ " does not exist")%string
                       None None None.

Definition undefinedColumn (c : string) : JsError :=
  Errors.PostgresError "42703" ("column " ++ Str.dquote ++ c ++ Str.dquote ++ " does not exist")%string
                       None None (Some c).

Definition uniqueViolation (t : string) : JsError :=
  Errors.PostgresError "23505" "duplicate key value violates unique constraint"
                       (Some "Key (id) already exists.") (Some (t ++ "_pkey")%string) None.

Definition notNullViolation (c : string) : JsError :=
  Errors.PostgresError "23502" "null value violates not-null constraint" None None (Some c).

Definition set_table (st : Store) (name_ : string) (t : Table) (gen : nat) : Store :=
  {| tables := Js.set name_ t (tables st); generated := gen |}.

Definition with_records (t : Table) (rs : list Row) : Table :=
  {| columns := columns t; defaults := defaults t; records := rs |}.

Definition firstUnknown (t : Table) (fields : list string) : option string :=
  find (fun f => negb (Str.mem f (columns t))) fields.

(** Three-valued truth. *)
Inductive Tri := TT | FF | UU.

Definition tri_and (a b : Tri) : Tri :=
  match a, b with
  | FF, _ | _, FF => FF
  | TT, TT => TT
  | _, _ => UU
  end.

Definition tri_or (a b : Tri) : Tri :=
  match a, b with
  | TT, _ | _, TT => TT
  | FF, FF => FF
  | _, _ => UU
  end.

Definition tri_not (a : Tri) : Tri :=
  match a with TT => FF | FF => TT | UU => UU end.

Definition tri_of (b : bool) : Tri := if b then TT else FF.

(** [a = b] in SQL: unknown as soon as one side is NULL. *)
Definition sql_eq (a b : Value) : Tri :=
  match a, b with
  | VNull, _ | _, VNull => UU
  | _, _ => tri_of (Js.eqb a b)
  end.

Definition sql_lt (a b : Value) : option Tri :=
  match a, b with
  | VNull, _ | _, VNull => Some UU
  | VNum (NFin x), VNum (NFin y) => Some (tri_of (Z.ltb x y))
  | VDate (Some x), VDate (Some y) => Some (tri_of (Z.ltb x y))
  | _, _ => None
  end.

(** *** The uuid type

    A uuid column holds the text storage prints for it: thirty-two
    lower-case hexadecimal digits in groups of 8-4-4-4-12. An operand
    bound under a cast to [uuid] or [uuid[]] passes through the type's
    input routine, which reads the same value from other spellings (upper
    case, braces, hyphens after any group of four digits or none) and
    rejects anything else. *)

Definition lower_hex (c : ascii) : ascii :=
  let n := nat_of_ascii c in
  if Nat.leb 65 n && Nat.leb n 70 then ascii_of_nat (n + 32) else c.

(** The digit loop of the input routine: sixteen bytes of two digits
    each, a hyphen allowed after every second byte but the last, then the
    closing brace if one was opened and nothing more. *)
Fixpoint uuid_digits (bytes : nat) (braces : bool) (src : list ascii)
  : option (list ascii) :=
  match bytes with
  | 0 =>
      match src with
      | [] => if braces then None else Some []
      | [c] => if braces && Ascii.eqb c "}" then Some [] else None
      | _ => None
      end
  | S more =>
      match src with
      | a :: b :: r =>
          if Str.is_hex a && Str.is_hex b then
            let r' :=
              match r with
              | c :: r2 =>
                  if Nat.odd (15 - more) && negb (Nat.eqb more 0) && Ascii.eqb c "-"
                  then r2 else r
              | [] => r
              end in
            match uuid_digits more braces r' with
            | Some ds => Some (lower_hex a :: lower_hex b :: ds)
            | None => None
            end
          else None
      | _ => None
      end
  end.

(** A text read as a uuid and printed back: [None] when the input
    routine rejects it. *)
Definition uuid_in (s : string) : option string :=
  let digits :=
    match Str.chars s with
    | c :: r => if Ascii.eqb c "{" then uuid_digits 16 true r
                else uuid_digits 16 false (c :: r)
    | [] => None
    end in
  match digits with
  | Some ds =>
      Some (Str.of_chars
              (firstn 8 ds ++ "-"%char :: firstn 4 (skipn 8 ds) ++
               "-"%char :: firstn 4 (skipn 12 ds) ++
               "-"%char :: firstn 4 (skipn 16 ds) ++ "-"%char :: skipn 20 ds))
  | None => None
  end.

Definition invalidUuid (text : string) : JsError :=
  Errors.PostgresError "22P02"
    ("invalid input syntax for type uuid: " ++ Str.dquote ++ text ++ Str.dquote)%string
    None None None.

(** The cast a value transform writes after its placeholder. *)
Definition castOf (vt : option ValueTransform) : option string :=
  match vt with
  | Some (TCast c) => Some c
  | Some (TWrap (Some c)) => if String.eqb c "" then None else Some c
  | _ => None
  end.

(** One bound value under [::uuid]: NULL stays NULL, a text is read by
    the input routine; other values are outside the fragment. *)
Definition uuidOperand (x : Value) : Result Value :=
  match x with
  | VNull | VUndef => Ok VNull
  | VStr s =>
      match uuid_in s with
      | Some c => Ok (VStr c)
      | None => Throw (TErr (invalidUuid s))
      end
  | _ => Throw (TErr (unsupported "uuid operand"))
  end.

Fixpoint uuidOperands (l : list Value) : Result (list Value) :=
  match l with
  | [] => Ok []
  | x :: r =>
      match uuidOperand x with
      | Throw t => Throw t
      | Ok y => match uuidOperands r with
                | Throw t => Throw t
                | Ok ys => Ok (y :: ys)
                end
      end
  end.

(** The operand of a predicate as storage compares it: read as uuid
    under the casts [uuid] and [uuid[]], as bound under any other cast
    and under none. *)
Definition castOperand (vt : option ValueTransform) (value : option Value)
  : Result (option Value) :=
  match castOf vt, value with
  | Some "uuid[]", Some (VArr l) =>
      match uuidOperands l with
      | Ok l' => Ok (Some (VArr l'))
      | Throw t => Throw t
      end
  | Some "uuid", Some v =>
      match uuidOperand v with
      | Ok v' => Ok (Some v')
      | Throw t => Throw t
      end
  | _, _ => Ok value
  end.

(** The first operand of a WHERE clause that its cast rejects. The casts
    are applied when the parameters are bound, before any row is read. *)
Fixpoint castError (p : Predicate) : option Thrown :=
  match p with
  | Basic _ _ _ value vt =>
      match castOperand vt value with
      | Throw t => Some t
      | Ok _ => None
      end
  | Group _ preds =>
      (fix each (l : list Predicate) : option Thrown :=
         match l with
         | [] => None
         | q :: r => match castError q with
                     | Some t => Some t
                     | None => each r
                     end
         end) preds
  | Raw _ _ => None
  end.

Fixpoint castErrors (where_ : list Predicate) : option Thrown :=
  match where_ with
  | [] => None
  | p :: r => match castError p with
              | Some t => Some t
              | None => castErrors r
              end
  end.

(** The meaning of a basic predicate on a row; [None] when the operator
    is outside the fragment the model interprets. *)
Definition evalBasic (column_ operator : string) (value : option Value) (row : Row)
  : option Tri :=
  let c := columnValue column_ row in
  match operator, value with
  | "IS", Some VNull => Some (tri_of (match c with VNull => true | _ => false end))
  | "IS NOT", Some VNull => Some (tri_of (match c with VNull => false | _ => true end))
  | "=", Some v => Some (sql_eq c (toSql v))
  | "!=", Some v => Some (tri_not (sql_eq c (toSql v)))
  | "= ANY", Some (VArr l) =>
      Some (fold_left (fun acc x => tri_or acc (sql_eq c (toSql x))) l FF)
  | "!= ALL", Some (VArr l) =>
      Some (fold_left (fun acc x => tri_and acc (tri_not (sql_eq c (toSql x)))) l TT)
  | "<", Some v => sql_lt c (toSql v)
  | ">", Some v => sql_lt (toSql v) c
  | "<=", Some v => option_map tri_not (sql_lt (toSql v) c)
  | ">=", Some v => option_map tri_not (sql_lt c (toSql v))
  | _, _ => None
  end.

Fixpoint evalPredicate (table : string) (p : Predicate) (row : Row) {struct p}
  : option Tri :=
  match p with
  | Basic t column_ operator value vt =>
      match castOperand vt value with
      | Throw _ => None
      | Ok operand =>
          match t with
          | Some t' =>
              if String.eqb t' table then evalBasic column_ operator operand row else None
          | None => evalBasic column_ operator operand row
          end
      end
  | Group cj preds =>
      (fix each (l : list Predicate) (acc : Tri) : option Tri :=
         match l with
         | [] => Some acc
         | q :: r =>
             match evalPredicate table q row with
             | None => None
             | Some v => each r (match cj with AND => tri_and acc v | OR => tri_or acc v end)
             end
         end) preds (match cj with AND => TT | OR => FF end)
  | Raw _ _ => None
  end.

(** A row passes the WHERE clause when every predicate is true on it. *)
Fixpoint passes (table : string) (where_ : list Predicate) (row : Row) : option bool :=
  match where_ with
  | [] => Some true
  | p :: r =>
      match evalPredicate table p row with
      | None => None
      | Some v =>
          match passes table r row with
          | None => None
          | Some b => Some (match v with TT => b | _ => false end)
          end
      end
  end.

Fixpoint selectRows (table : string) (where_ : list Predicate) (rs : list Row)
  : option (list Row) :=
  match rs with
  | [] => Some []
  | row :: rest =>
      match passes table where_ row, selectRows table where_ rest with
      | Some b, Some more => Some (if b then row :: more else more)
      | _, _ => None
      end
  end.

Fixpoint projectOnto (acc : Row) (items : list SelectItem) (row : Row) : option Row :=
  match items with
  | [] => Some acc
  | Col _ c :: r => projectOnto (Js.set c (columnValue c row) acc) r row
  | ColAs _ c a :: r => projectOnto (Js.set a (columnValue c row) acc) r row
  | Expr _ :: _ => None
  end.

Definition project (items : list SelectItem) (row : Row) : option Row :=
  projectOnto [] items row.

Fixpoint projectAll (items : list SelectItem) (rs : list Row) : option (list Row) :=
  match rs with
  | [] => Some []
  | row :: rest =>
      match project items row, projectAll items rest with
      | Some x, Some more => Some (x :: more)
      | _, _ => None
      end
  end.

Definition paginate (l : option Z) (o : option Z) (rs : list Row) : list Row :=
  let skipped := match o with Some n => skipn (Z.to_nat n) rs | None => rs end in
  match l with Some n => firstn (Z.to_nat n) skipped | None => skipped end.

(** [SELECT items FROM table WHERE ... LIMIT ... OFFSET ...] *)
Definition select (st : Store) (q : SelectQuery) : Result QueryResult * Store :=
  match Js.get (sel_table q) (tables st) with
  | None => (Throw (TErr (undefinedTable (sel_table q))), st)
  | Some t =>
      match sel_joins q, sel_orderBy q with
      | [], [] =>
          match castErrors (sel_where q) with
          | Some rejected => (Throw rejected, st)
          | None =>
              match selectRows (sel_table q) (sel_where q) (records t) with
              | None => (Throw (TErr (unsupported "predicate")), st)
              | Some matching =>
                  match projectAll (sel_items q)
                                   (paginate (sel_limit q) (sel_offset q) matching) with
                  | None => (Throw (TErr (unsupported "select expression")), st)
                  | Some out => (Ok {| rows := out; rowCount := length out |}, st)
                  end
              end
          end
      | _, _ => (Throw (TErr (unsupported "joins and ordering")), st)
      end
  end.

(** The row an INSERT stores: every column of the table, from the bound
    value, the generated identity, the column default, or NULL. *)
Definition newRow (t : Table) (provided : JsObject) (fresh : string) : Row :=
  map (fun c =>
         (c, match Js.get c provided with
             | Some v => v
             | None =>
                 if String.eqb c "id" then VStr fresh
                 else match Js.get c (defaults t) with
                      | Some dv => dv
                      | None => VNull
                      end
             end))
      (columns t).

(** [INSERT INTO table (fields) VALUES (params) [RETURNING *]] *)
Definition insert (st : Store) (table : string) (fields : list string)
           (params_ : list Value) (returning : bool) : Result QueryResult * Store :=
  match Js.get table (tables st) with
  | None => (Throw (TErr (undefinedTable table)), st)
  | Some t =>
      match firstUnknown t fields with
      | Some c => (Throw (TErr (undefinedColumn c)), st)
      | None =>
          let provided :=
            fold_left (fun acc kv => Js.set (fst kv) (toSql (snd kv)) acc)
                      (combine fields params_) [] in
          let usesDefault := negb (Js.has "id" provided) in
          let row := newRow t provided (gen_random_uuid (generated st)) in
          let gen' := if usesDefault then S (generated st) else generated st in
          match columnValue "id" row with
          | VNull => (Throw (TErr (notNullViolation "id")), st)
          | idv =>
              if existsb (fun r => Js.eqb (columnValue "id" r) idv) (records t)
              then (Throw (TErr (uniqueViolation table)),
                    {| tables := tables st; generated := gen' |})
              else (Ok {| rows := if returning then [row] else []; rowCount := 1 |},
                    set_table st table (with_records t (records t ++ [row])) gen')
          end
      end
  end.

Definition assignColumns (assignments : JsObject) (row : Row) : Row :=
  fold_left (fun acc kv => Js.set (fst kv) (snd kv) acc) assignments row.

Definition matches (c : string) (v : Value) (row : Row) : bool :=
  match sql_eq (columnValue c row) (toSql v) with TT => true | _ => false end.

Definition updateWhere (c : string) (v : Value) (assignments : JsObject) (rs : list Row)
  : list Row :=
  map (fun row => if matches c v row then assignColumns assignments row else row) rs.

(** [UPDATE table SET fields = params WHERE id = last param RETURNING *] *)
Definition updateById (st : Store) (table : string) (fields : list string)
           (params_ : list Value) : Result QueryResult * Store :=
  match Js.get table (tables st) with
  | None => (Throw (TErr (undefinedTable table)), st)
  | Some t =>
      match firstUnknown t fields with
      | Some c => (Throw (TErr (undefinedColumn c)), st)
      | None =>
          let assignments :=
            fold_left (fun acc kv => Js.set (fst kv) (toSql (snd kv)) acc)
                      (combine fields params_) [] in
          let idv := nth (length fields) params_ VUndef in
          let rs := updateWhere "id" idv assignments (records t) in
          let returned :=
            map (assignColumns assignments) (filter (matches "id" idv) (records t)) in
          (Ok {| rows := returned; rowCount := length returned |},
           set_table st table (with_records t rs) (generated st))
      end
  end.

(** [UPDATE table SET _rev_deleted = true WHERE _old_rev_of = $1] *)
Definition markRevisionsDeleted (st : Store) (table : string) (params_ : list Value)
  : Result QueryResult * Store :=
  match Js.get table (tables st) with
  | None => (Throw (TErr (undefinedTable table)), st)
  | Some t =>
      let idv := nth 0 params_ VUndef in
      let rs := updateWhere "_old_rev_of" idv [("_rev_deleted", VBool true)] (records t) in
      (Ok {| rows := []; rowCount := length (filter (matches "_old_rev_of" idv) (records t)) |},
       set_table st table (with_records t rs) (generated st))
  end.

(** The collaborator's [query(text, params)]. *)
Definition exec (call : SqlCall) (st : Store) : Result QueryResult * Store :=
  match statement call with
  | InsertRow table fields returning => insert st table fields (params call) returning
  | UpdateById table fields => updateById st table fields (params call)
  | MarkRevisionsDeleted table => markRevisionsDeleted st table (params call)
  | Select q => select st q
  | Text _ => (Throw (TErr (unsupported "statement")), st)
  end.

(** A data-access layer over this store. *)
Definition dal (namespace : string) (byTable byKey : list (string * ModelClass)) : Dal :=
  {| schemaNamespace := namespace; query := exec;
     modelsByTable := byTable; modelsByKey := byKey |}.

End Postgres.

(* ================================================================== *)
(** ** Worked instances

    Small manifests and stores on which the statements below are
    evaluated. *)

Module Fixtures.

(** A host double: it parses no date text, hands out the storage
    model's identities, ticks once per reading of the clock and prints a
    date as its time value. *)
Definition hostOf (seed : nat) : Host :=
  {| Date_parse := fun _ => None;
     randomUUID := fun n => Postgres.gen_random_uuid (seed + n);
     Date_now := fun n => Z.of_nat n;
     Date_toString := fun t => Str.of_Z t |}.

Definition worldOf (st : Store) : World :=
  {| host := hostOf 4096; store := st; journal := []; draws := 0 |}.

Definition emptyStore : Store := {| tables := []; generated := 0 |}.

(** A storage double that answers every statement with the same rows. *)
Definition cannedDal (answer : list Row) (byTable : list (string * ModelClass)) : Dal :=
  {| schemaNamespace := "";
     query := fun _ st => (Ok {| rows := answer; rowCount := length answer |}, st);
     modelsByTable := byTable; modelsByKey := [] |}.

(** [counters(id, counter, label)], [counter] numeric, [viewCount] stored
    as [view_count]. *)
Definition Counters : ModelClass :=
  Revision.defineModel "" "counters"
    [("id", Types.types.string); ("counter", Types.types.number);
     ("viewCount", Types.types.number); ("label", Types.types.string)]
    [("viewCount", "view_count")] false [] None.

(** [users(id, name, password)], [password] sensitive and required. *)
Definition Users : ModelClass :=
  Revision.defineModel "" "users"
    [("id", Types.types.string);
     ("name", Types.required true Types.types.string);
     ("password", Types.sensitive true Types.types.string);
     ("team_id", Types.types.string)]
    [] false [] None.

Definition directRelation (target sourceCol targetCol : string) (c : Cardinality)
  : NormalizedRelationConfig :=
  {| targetTable := target; targetModelKey := target; sourceColumn := sourceCol;
     targetColumn := targetCol; hasRevisions := false; cardinality := c;
     isArray := match c with one => false | many => true end;
     through := None; joinType := JoinDirect; condition := None |}.

Definition throughRelation (target junction src tgt : string) : NormalizedRelationConfig :=
  {| targetTable := target; targetModelKey := target; sourceColumn := "id";
     targetColumn := "id"; hasRevisions := false; cardinality := many; isArray := true;
     through := Some {| through_table := junction; through_sourceColumn := src;
                        through_targetColumn := tgt; sourceCondition := None;
                        targetCondition := None |};
     joinType := JoinThrough; condition := None |}.

(** [teams(id, title, owner_id)] with a one-to-many relation [members]
    to [users] (on [users.team_id]), a to-one relation [owner] to [users]
    and a junction relation [tags]. *)
Definition Teams : ModelClass :=
  Revision.defineModel "" "teams"
    [("id", Types.types.string); ("title", Types.types.string);
     ("owner_id", Types.types.string)]
    [] false
    [("members", directRelation "users" "id" "team_id" many);
     ("owner", directRelation "users" "owner_id" "id" one);
     ("tags", throughRelation "tags" "team_tags" "team_id" "tag_id")]
    None.

(** A storage double that answers the builder's SELECT with one list of
    rows and every other statement with another. *)
Definition scriptedDal (selected other : list Row) (byTable : list (string * ModelClass))
  : Dal :=
  {| schemaNamespace := "";
     query := fun call st =>
                match statement call with
                | Select _ => (Ok {| rows := selected; rowCount := length selected |}, st)
                | _ => (Ok {| rows := other; rowCount := length other |}, st)
                end;
     modelsByTable := byTable; modelsByKey := [] |}.

Definition userRow (id_ name_ password team : string) : Row :=
  [("id", VStr id_); ("name", VStr name_); ("password", VStr password);
   ("team_id", VStr team)].

(** The revision-tracked table of the test fixture:
    [revisions(id, title, content, _rev_user, _rev_date, _rev_id,
    _old_rev_of, _rev_deleted DEFAULT FALSE, _rev_tags DEFAULT '{}')]. *)
Definition revisionsTable (rs : list Row) : Table :=
  {| columns := ["id"; "title"; "content"; "_rev_user"; "_rev_date"; "_rev_id";
                 "_old_rev_of"; "_rev_deleted"; "_rev_tags"];
     defaults := [("_rev_deleted", VBool false); ("_rev_tags", VArr [])];
     records := rs |}.

Definition Revisions : ModelClass :=
  Revision.defineModel "" "revisions"
    [("id", Types.uuid Types.types.string); ("title", Types.types.string);
     ("content", Types.types.string)]
    [] true [] None.

Definition revisionsDal : Dal :=
  Postgres.dal "" [("revisions", Revisions)] [("revisions", Revisions)].

Definition revisionsStore (rs : list Row) : Store :=
  {| tables := [("revisions", revisionsTable rs)]; generated := 0 |}.

Definition testUser : option JsObject :=
  Some [("id", VStr "11111111-1111-4111-8111-111111111111")].

(** A stored revision row. *)
Definition revisionRow (id_ : string) (oldRevOf : Value) (deleted : bool) : Row :=
  [("id", VStr id_); ("title", VStr "t"); ("content", VNull);
   ("_rev_user", VStr "11111111-1111-4111-8111-111111111111");
   ("_rev_date", VDate (Some 0%Z));
   ("_rev_id", VStr "22222222-2222-4222-8222-222222222222");
   ("_old_rev_of", oldRevOf); ("_rev_deleted", VBool deleted); ("_rev_tags", VArr [])].

(** A UUID of version 1: the id field's [uuid()] validator and the
    column take it, the version-4 test does not. *)
Definition v1Id : string := "aaaaaaaa-aaaa-1aaa-8aaa-aaaaaaaaaaa1".

Definition liveId : string := "aaaaaaaa-aaaa-4aaa-8aaa-aaaaaaaaaaa1".
Definition deletedId : string := "aaaaaaaa-aaaa-4aaa-8aaa-aaaaaaaaaaa2".
Definition archivedId : string := "aaaaaaaa-aaaa-4aaa-8aaa-aaaaaaaaaaa3".
Definition missingId : string := "aaaaaaaa-aaaa-4aaa-8aaa-aaaaaaaaaaa4".

(** A table holding a live row, a deleted live row and an archived row. *)
Definition mixedRows : World :=
  worldOf
    (revisionsStore
       [revisionRow liveId VNull false; revisionRow deletedId VNull true;
        revisionRow archivedId (VStr liveId) false]).

End Fixtures.


(* ================================================================== *)
(** ** The model registry (model-registry.ts), the layer's model
    bookkeeping (data-access-layer.ts) and the bootstrap helper
    (model-factory.ts) *)

Module ModelRegistry.

(** A model constructor as the registry sees it: an identity, compared
    with [!==] and never looked into. *)
Definition Ctor := nat.

(** The two maps of a registry, in insertion order. *)
Record Registry := {
  byTable : list (string * Ctor);
  byKey : list (string * Ctor)
}.

(** [new ModelRegistry(dal)] *)
Definition empty : Registry := {| byTable := []; byKey := [] |}.

Definition differs (existing : option Ctor) (model : Ctor) : bool :=
  match existing with
  | Some m => negb (Nat.eqb m model)
  | None => false
  end.

(** [register(tableName, model, { key })]; [model] is a constructor, so
    the check that it is a function passes. *)
Definition register (r : Registry) (tableName_ : string) (model : Ctor)
           (key : option string) : Result Registry :=
  if String.eqb tableName_ "" then
    Throw (TErr (Errors.Error "Model registry requires a valid tableName."))
  else
    let canonicalKey := match key with Some k => k | None => tableName_ end in
    if differs (Js.get tableName_ (byTable r)) model then
      Throw (TErr (Errors.Error
        ("Model '" ++ tableName_ ++ "' already registered on this DAL instance.")%string))
    else if differs (Js.get canonicalKey (byKey r)) model then
      Throw (TErr (Errors.Error
        ("Model registry key '" ++ canonicalKey ++
         "' already registered on this DAL instance.")%string))
    else
      Ok {| byTable := Js.set tableName_ model (byTable r);
            byKey := Js.set canonicalKey model (byKey r) |}.

(** [get(identifier)] *)
Definition get (r : Registry) (identifier : string) : option Ctor :=
  if String.eqb identifier "" then None
  else match Js.get identifier (byTable r) with
       | Some m => Some m
       | None => Js.get identifier (byKey r)
       end.

(** [has(identifier)] *)
Definition has (r : Registry) (identifier : string) : bool :=
  match get r identifier with Some _ => true | None => false end.

(** [listByKey()] and [listByTable()] *)
Definition listByKey (r : Registry) : list (string * Ctor) := byKey r.
Definition listByTable (r : Registry) : list (string * Ctor) := byTable r.

(** [clear()] *)
Definition clear (r : Registry) : Registry := empty.

(** [dal.createModel(name, schema, options)]; [made] is what
    [Model.createModel(name, schema, modelOptions, dal)] answers, a new
    constructor or what it throws. *)
Definition createModel (r : Registry) (name_ : string) (registryKey : option string)
           (made : Result Ctor) : Result (Ctor * Registry) :=
  let canonicalKey := match registryKey with Some k => k | None => name_ end in
  let existing :=
    match get r name_ with
    | Some m => Some m
    | None => if negb (String.eqb canonicalKey name_) then get r canonicalKey else None
    end in
  match existing with
  | Some _ =>
      Throw (TErr (Errors.Error ("Model '" ++ canonicalKey ++ "' already exists")%string))
  | None =>
      match made with
      | Throw t => Throw t
      | Ok ModelClass_ =>
          match register r name_ ModelClass_ (Some canonicalKey) with
          | Throw t => Throw t
          | Ok r' => Ok (ModelClass_, r')
          end
      end
  end.

(** [dal.getModel(name)] *)
Definition getModel (r : Registry) (name_ : string) : Result Ctor :=
  match get r name_ with
  | Some m => Ok m
  | None => Throw (TErr (Errors.Error ("Model '" ++ name_ ++ "' not found")%string))
  end.

(** *** [/Model '.*' not found/.test(message)] *)

Fixpoint prefixed (p s : list ascii) : bool :=
  match p, s with
  | [], _ => true
  | a :: p', b :: s' => Ascii.eqb a b && prefixed p' s'
  | _ :: _, [] => false
  end.

(** A line terminator starts here: LF, CR, or U+2028 or U+2029 in their
    UTF-8 bytes. These are what [.] does not match. *)
Definition lineTerminatorAt (s : list ascii) : bool :=
  match s with
  | [] => false
  | c :: r =>
      let n := nat_of_ascii c in
      Nat.eqb n 10 || Nat.eqb n 13 ||
      (Nat.eqb n 226 &&
       match r with
       | d :: e :: _ =>
           Nat.eqb (nat_of_ascii d) 128 &&
           (Nat.eqb (nat_of_ascii e) 168 || Nat.eqb (nat_of_ascii e) 169)
       | _ => false
       end)
  end.

(** [.*suffix], matched from the start of [s]. *)
Fixpoint dotStarThen (suffix s : list ascii) : bool :=
  prefixed suffix s ||
  match s with
  | [] => false
  | _ :: r => negb (lineTerminatorAt s) && dotStarThen suffix r
  end.

(** The pattern, searched for anywhere in [s]. *)
Fixpoint saysNotFound (s : list ascii) : bool :=
  (prefixed (Str.chars "Model '") s &&
   dotStarThen (Str.chars "' not found") (skipn 7 s)) ||
  match s with
  | [] => false
  | _ :: r => saysNotFound r
  end.

(** [error instanceof Error ? error.message : ''] *)
Definition messageOf (t : Thrown) : string :=
  match t with
  | TErr e => message e
  | TVal _ => ""
  end.

(** [safeGetModel(dal, key)] *)
Definition safeGetModel (r : Registry) (key : string) : Result (option Ctor) :=
  if String.eqb key "" then Ok None
  else
    match getModel r key with
    | Ok m => Ok (Some m)
    | Throw t =>
        if saysNotFound (Str.chars (messageOf t)) then Ok None else Throw t
    end.

(** The keys [getOrCreateModel] looks up, in the order of the [Set]. *)
Definition lookupKeys (tableName_ : string) (registryKey : option string) : list string :=
  let first :=
    match registryKey with
    | Some k => if String.eqb k "" then [] else [k]
    | None => []
    end in
  if String.eqb tableName_ "" then first
  else if Str.mem tableName_ first then first else first ++ [tableName_].

Fixpoint firstExisting (r : Registry) (keys_ : list string) : Result (option Ctor) :=
  match keys_ with
  | [] => Ok None
  | key :: rest =>
      match safeGetModel r key with
      | Throw t => Throw t
      | Ok (Some existing) => Ok (Some existing)
      | Ok None => firstExisting r rest
      end
  end.

(** What [getOrCreateModel] answers with. *)
Record GetOrCreateModelResult := { model : Ctor; isNew : bool }.

(** [getOrCreateModel(dal, tableName, schema, { registryKey, ... })] *)
Definition getOrCreateModel (r : Registry) (tableName_ : string)
           (registryKey : option string) (made : Result Ctor)
  : Result (GetOrCreateModelResult * Registry) :=
  match firstExisting r (lookupKeys tableName_ registryKey) with
  | Throw t => Throw t
  | Ok (Some existing) => Ok ({| model := existing; isNew := false |}, r)
  | Ok None =>
      match createModel r tableName_ registryKey made with
      | Throw t => Throw t
      | Ok (m, r') => Ok ({| model := m; isNew := true |}, r')
      end
  end.

End ModelRegistry.

(* ================================================================== *)
(** ** Multilingual strings (ml-string.ts) *)

(** The language provider of [runtime.ts]. *)
Record DalLanguageProvider := {
  getValidLanguagesAndUndetermined : list string;
  getFallbacks : string -> list string
}.

(** The first argument of [resolve]: one language or a priority list. *)
Inductive LangArg :=
| OneLang (lang_ : string)
| PriorityList (langs : list string).

Record ResolveResult := {
  res_str : Value;
  res_lang : string
}.

Record ResolveResultWithMetadata := {
  meta_str : Value;
  meta_lang : string;
  availableLanguages : list string;
  isPreferredLanguage : bool;
  preferredLanguages : list string
}.

Module MlString.

Section Resolving.

(** What a property read finds on the object's prototype when the object
    has no own property of that name. *)
Variable inherited : string -> option Value.
Variable languageProvider : DalLanguageProvider.

(** [strObj[code]] *)
Definition read (strObj : JsObject) (code_ : string) : Value :=
  match Js.get code_ strObj with
  | Some v => v
  | None => match inherited code_ with Some v => v | None => VUndef end
  end.

(** [hasValue(code)] *)
Definition hasValue (strObj : JsObject) (code_ : string) : bool :=
  match read strObj code_ with
  | VUndef => false
  | VStr s => negb (String.eqb s "")
  | _ => true
  end.

Definition priorities (lang_ : LangArg) : list string :=
  match lang_ with
  | OneLang l => [l]
  | PriorityList ls => ls
  end.

(** The fallback loop: entered only with a first priority. *)
Definition fallbackWithValue (strObj : JsObject) (ps : list string) : option string :=
  match ps with
  | [] => None
  | first :: _ => find (hasValue strObj) (getFallbacks languageProvider first)
  end.

(** [resolve(lang, strObj)]; [None] for [strObj] stands for [null] and
    [undefined], [None] as the answer for [undefined]. *)
Definition resolve (lang_ : LangArg) (strObj : option JsObject) : option ResolveResult :=
  match strObj with
  | None => None
  | Some o =>
      let answer code_ := Some {| res_str := read o code_; res_lang := code_ |} in
      match find (hasValue o) (priorities lang_) with
      | Some priority => answer priority
      | None =>
          match fallbackWithValue o (priorities lang_) with
          | Some fallbackLanguage => answer fallbackLanguage
          | None =>
              match filter (hasValue o) (Js.keys o) with
              | firstAvailable :: _ => answer firstAvailable
              | [] => None
              end
          end
      end
  end.

(** [resolveWithMetadata(lang, strObj)] *)
Definition resolveWithMetadata (lang_ : LangArg) (strObj : option JsObject)
  : option ResolveResultWithMetadata :=
  match strObj with
  | None => None
  | Some o =>
      let ps := priorities lang_ in
      let available := filter (hasValue o) (Js.keys o) in
      match available with
      | [] => None
      | firstAvailable :: _ =>
          let answer code_ preferred :=
            Some {| meta_str := read o code_; meta_lang := code_;
                    availableLanguages := available; isPreferredLanguage := preferred;
                    preferredLanguages := ps |} in
          match find (hasValue o) ps with
          | Some priority => answer priority true
          | None =>
              match fallbackWithValue o ps with
              | Some fallbackLanguage => answer fallbackLanguage (Str.mem fallbackLanguage ps)
              | None => answer firstAvailable false
              end
          end
      end
  end.

End Resolving.

End MlString.

(* ================================================================== *)
(** ** Pooled clients and transactions (data-access-layer.ts) *)

(** What a pooled client is asked to do. *)
Inductive ClientEvent :=
| Sent (text : string)
| Released.

(** The history of one client, oldest request first. *)
Definition Session := list ClientEvent.

(** A pooled client: what it answers to a statement, given what it has
    been asked so far. *)
Definition PoolClient := Session -> string -> Result QueryResult.

Module Connection.

(** [await client.query(text)] *)
Definition client_query (client : PoolClient) (text : string)
  : Session -> Result QueryResult * Session :=
  fun s => (client s text, s ++ [Sent text]).

(** [client.release()] *)
Definition client_release (s : Session) : Session := s ++ [Released].

Definition notConnected : JsError :=
  Errors.Error "DAL not connected. Call connect() first.".

(** [getConnection()]; [pool] is what [this.pool.connect()] answers when
    there is a pool. *)
Definition getConnection (connected : bool) (pool : option (Result PoolClient))
  : Result PoolClient :=
  if negb connected then Throw (TErr notConnected)
  else match pool with
       | None => Throw (TErr notConnected)
       | Some answer => answer
       end.

(** [transaction(callback)]: the [try] block, the [catch] block, then
    the [finally] block. *)
Definition transaction {T : Type} (connected : bool) (pool : option (Result PoolClient))
           (callback : PoolClient -> Session -> Result T * Session)
  : Session -> Result T * Session :=
  fun s =>
    match getConnection connected pool with
    | Throw t => (Throw t, s)
    | Ok client =>
        let attempted :=
          match client_query client "BEGIN" s with
          | (Throw t, s1) => (Throw t, s1)
          | (Ok _, s1) =>
              match callback client s1 with
              | (Throw t, s2) => (Throw t, s2)
              | (Ok result, s2) =>
                  match client_query client "COMMIT" s2 with
                  | (Throw t, s3) => (Throw t, s3)
                  | (Ok _, s3) => (Ok result, s3)
                  end
              end
          end in
        let handled :=
          match attempted with
          | (Ok result, s') => (Ok result, s')
          | (Throw error, s') =>
              match client_query client "ROLLBACK" s' with
              | (Throw t, s'') => (Throw t, s'')
              | (Ok _, s'') => (Throw error, s'')
              end
          end in
        (fst handled, client_release (snd handled))
    end.

End Connection.

(* ================================================================== *)
(** ** The static side of a model (model.ts) *)

Module ModelStatics.

(** What calling a static that was never attached throws. *)
Definition notAFunction (expression : string) : JsError :=
  Errors.TypeError (expression ++ " is not a function").

(** [this.filterWhere({}).includeDeleted().includeStale()] *)
Definition unguarded (d : Dal) (M : ModelClass) : Result FilterWhereBuilder :=
  match filterWhereStatic M with
  | None => Throw (TErr (notAFunction "this.filterWhere"))
  | Some hasRevisions_ =>
      ResultM.bind (FilterWhere.filterWhere hasRevisions_ M d [])
        (fun b => Ok (FilterWhere.includeStale (FilterWhere.includeDeleted b)))
  end.

(** [Model.get(id, { includeSensitive, ...joinOptions })] *)
Definition get (d : Dal) (M : ModelClass) (id_ : string)
           (includeSensitive : option (list string))
           (joinOptions : list (string * JoinRelationOptions)) : Eff ResultRow :=
  builder <- EffM.lift (unguarded d M) ;;
  b1 <- EffM.lift (FilterWhere.whereIn builder "id" (VArr [VStr id_])
                     (if Revision.isUUID_v4 id_ then Some "uuid[]" else None)) ;;
  let b2 :=
    match includeSensitive with
    | Some (f :: fs) => FilterWhere.includeSensitive b1 (f :: fs)
    | _ => b1
    end in
  let b3 := FilterWhere.getJoin b2 joinOptions in
  r <- FilterWhere.first b3 ;;
  match fst r with
  | None =>
      EffM.throw (Errors.DocumentNotFound
                    (tableName M ++ " with id " ++ id_ ++ " not found")%string)
  | Some result => EffM.ret result
  end.

(** [Model.getAll(...ids)] *)
Definition getAll (d : Dal) (M : ModelClass) (ids : list string) : Eff (list ResultRow) :=
  match ids with
  | [] => EffM.ret []
  | _ =>
      builder <- EffM.lift (unguarded d M) ;;
      b1 <- EffM.lift (FilterWhere.whereIn builder "id" (VArr (map VStr ids))
                         (if forallb Revision.isUUID_v4 ids then Some "uuid[]" else None)) ;;
      r <- FilterWhere.run b1 ;;
      EffM.ret (fst r)
  end.

(** [Model.create(data, options)] *)
Definition create (d : Dal) (M : ModelClass) (data : JsObject) (options : SaveOptions)
  : Eff Instance :=
  inst <- EffM.lift (Model.construct M data) ;;
  Model.save d M inst options.

(** [Model.update(id, data)] *)
Definition update (d : Dal) (M : ModelClass) (id_ : string) (data : JsObject)
  : Eff Instance :=
  found <- get d M id_ None [] ;;
  let inst := fold_left (fun i kv => Model.setValue M i (fst kv) (snd kv)) data
                        (instance found) in
  Model.save d M inst Model.no_options.

(** [Model.delete(id)] *)
Definition delete (d : Dal) (M : ModelClass) (id_ : string) : Eff bool :=
  result <- QueryBuilder.deleteById (QueryBuilder.new M d) (VStr id_) ;;
  EffM.ret (Nat.ltb 0 result).

End ModelStatics.

(* ================================================================== *)
(** ** Language fallbacks (runtime.ts) *)

(** What [Intl.Locale] tells about a language code: the [language] of
    the locale and the [script] of the maximized locale, or what the
    constructor throws. *)
Record IntlHost := {
  localeLanguage : string -> Result string;
  maximizedScript : string -> Result string;
  toLowerCase : string -> string
}.

Module Runtime.

Definition DEFAULT_SUPPORTED_LOCALES : list string :=
  ["en"; "ar"; "bn"; "de"; "eo"; "es"; "fi"; "fr"; "hi"; "hu"; "id"; "it"; "ja"; "ko";
   "lt"; "mk"; "nl"; "pl"; "pt"; "pt-PT"; "ru"; "sk"; "sl"; "sv"; "tr"; "uk"; "ur"; "zh";
   "zh-Hant"].

Section BuildFallbackMap.

Variable intl : IntlHost.

(** [getBase(code)]; the cache only saves the second computation. *)
Definition getBase (code_ : string) : string :=
  match localeLanguage intl code_ with
  | Ok language => if String.eqb language "" then toLowerCase intl code_ else language
  | Throw _ => toLowerCase intl code_
  end.

(** [getScript(code)] *)
Definition getScript (code_ : string) : option string :=
  match maximizedScript intl code_ with
  | Ok script => if String.eqb script "" then None else Some script
  | Throw _ => None
  end.

(** [append(code)] on the list being built; [seen] holds what the list
    holds. *)
Definition append (code_ : string) (fallbacks : list string) : list string :=
  if String.eqb code_ "" then fallbacks
  else if Str.mem code_ fallbacks then fallbacks
  else fallbacks ++ [code_].

Definition sameScript (a : option string) (script : string) : bool :=
  match a with
  | Some s => String.eqb s script
  | None => false
  end.

(** The body of the loop over the supported languages. *)
Definition fallbacksFor (minimalFallback : bool) (lang_ : string) : list string :=
  let supported := DEFAULT_SUPPORTED_LOCALES in
  let f1 := append "und" (append lang_ []) in
  let base := getBase lang_ in
  let f2 :=
    fold_left
      (fun fallbacks candidate =>
         if String.eqb candidate lang_ then fallbacks
         else if String.eqb (getBase candidate) base then append candidate fallbacks
         else fallbacks)
      supported f1 in
  let f3 := append "en" f2 in
  if minimalFallback then f3
  else
    let f4 :=
      match getScript lang_ with
      | Some script =>
          fold_left
            (fun fallbacks candidate =>
               if Str.mem candidate fallbacks then fallbacks
               else if sameScript (getScript candidate) script
                    then append candidate fallbacks
                    else fallbacks)
            supported f3
      | None => f3
      end in
    fold_left (fun fallbacks candidate => append candidate fallbacks) supported f4.

(** [buildFallbackMap({ minimalFallback })] *)
Definition buildFallbackMap (minimalFallback : bool) : list (string * list string) :=
  fold_left
    (fun result lang_ => Js.set lang_ (fallbacksFor minimalFallback lang_) result)
    DEFAULT_SUPPORTED_LOCALES [].

End BuildFallbackMap.

(** [DEFAULT_FALLBACKS] *)
Definition DEFAULT_FALLBACKS : list string :=
  Js.dedup ("en" :: "und" :: DEFAULT_SUPPORTED_LOCALES).

End Runtime.

(* ================================================================== *)
(** * Properties *)

(** ** Objects as association lists *)

Module JsFacts.

Lemma eqb_refl (a : string) : String.eqb a a = true.
Proof. apply String.eqb_refl. Qed.

Lemma eqb_false (a b : string) : a <> b -> String.eqb a b = false.
Proof. intro H. apply String.eqb_neq. exact H. Qed.

Lemma get_set_same {A} (k : string) (v : A) (o : list (string * A)) :
  Js.get k (Js.set k v o) = Some v.
Proof.
  induction o as [|[k' v'] r IH]; cbn.
  - rewrite eqb_refl. reflexivity.
  - destruct (String.eqb k k') eqn:E; cbn.
    + rewrite eqb_refl. reflexivity.
    + rewrite E. exact IH.
Qed.

Lemma get_set_other {A} (k k' : string) (v : A) (o : list (string * A)) :
  k <> k' -> Js.get k (Js.set k' v o) = Js.get k o.
Proof.
  intro Hne. induction o as [|[k0 v0] r IH]; cbn.
  - rewrite (eqb_false _ _ Hne). reflexivity.
  - destruct (String.eqb k' k0) eqn:E; cbn.
    + apply String.eqb_eq in E. subst k0. rewrite (eqb_false _ _ Hne). reflexivity.
    + destruct (String.eqb k k0); [reflexivity|exact IH].
Qed.

Lemma get_set {A} (k k' : string) (v : A) (o : list (string * A)) :
  Js.get k (Js.set k' v o) = if String.eqb k k' then Some v else Js.get k o.
Proof.
  destruct (String.eqb k k') eqn:E.
  - apply String.eqb_eq in E. subst. apply get_set_same.
  - apply String.eqb_neq in E. apply get_set_other. exact E.
Qed.

Lemma prop_set (k k' : string) (v : Value) (o : JsObject) :
  Js.prop k (Js.set k' v o) = if String.eqb k k' then v else Js.prop k o.
Proof. unfold Js.prop. rewrite get_set. destruct (String.eqb k k'); reflexivity. Qed.

Lemma get_remove_same {A} (k : string) (o : list (string * A)) :
  Js.get k (Js.remove k o) = None.
Proof.
  induction o as [|[k' v'] r IH]; cbn; [reflexivity|].
  destruct (String.eqb k k') eqn:E; cbn; [exact IH|]. rewrite E. exact IH.
Qed.

Lemma get_remove_other {A} (k k' : string) (o : list (string * A)) :
  k <> k' -> Js.get k (Js.remove k' o) = Js.get k o.
Proof.
  intro Hne. induction o as [|[k0 v0] r IH]; cbn; [reflexivity|].
  destruct (String.eqb k' k0) eqn:E; cbn.
  - apply String.eqb_eq in E. subst k0. rewrite (eqb_false _ _ Hne). exact IH.
  - destruct (String.eqb k k0); [reflexivity|exact IH].
Qed.

Lemma prop_remove (k k' : string) (o : JsObject) :
  Js.prop k (Js.remove k' o) = if String.eqb k k' then VUndef else Js.prop k o.
Proof.
  unfold Js.prop. destruct (String.eqb k k') eqn:E.
  - apply String.eqb_eq in E. subst. rewrite get_remove_same. reflexivity.
  - apply String.eqb_neq in E. rewrite (get_remove_other _ _ _ E). reflexivity.
Qed.

Lemma get_In {A} (k : string) (v : A) (o : list (string * A)) :
  Js.get k o = Some v -> In (k, v) o.
Proof.
  induction o as [|[k' v'] r IH]; cbn; [discriminate|].
  destruct (String.eqb k k') eqn:E.
  - apply String.eqb_eq in E. subst. intro H. inversion H. left. reflexivity.
  - intro H. right. apply IH. exact H.
Qed.

Lemma get_None_notin {A} (k : string) (o : list (string * A)) :
  Js.get k o = None <-> ~ In k (Js.keys o).
Proof.
  induction o as [|[k' v'] r IH]; cbn.
  - split; [intros _ []|reflexivity].
  - destruct (String.eqb k k') eqn:E.
    + apply String.eqb_eq in E. subst. split; [discriminate|]. intro H. exfalso. apply H.
      left. reflexivity.
    + apply String.eqb_neq in E. rewrite IH. split.
      * intros H [H1|H1]; [congruence|contradiction].
      * intros H H1. apply H. right. exact H1.
Qed.

Lemma In_get_nodup {A} (k : string) (v : A) (o : list (string * A)) :
  NoDup (Js.keys o) -> In (k, v) o -> Js.get k o = Some v.
Proof.
  induction o as [|[k' v'] r IH]; cbn; [intros _ []|].
  intros Hnd [Heq|Hin].
  - inversion Heq; subst. rewrite eqb_refl. reflexivity.
  - inversion Hnd as [|? ? Hnotin Hnd']; subst.
    destruct (String.eqb k k') eqn:E.
    + apply String.eqb_eq in E. subst. exfalso. apply Hnotin.
      change (In (fst (k', v)) (map fst r)). apply in_map. exact Hin.
    + apply IH; assumption.
Qed.

Lemma keys_set {A} (k : string) (v : A) (o : list (string * A)) :
  forall x, In x (Js.keys (Js.set k v o)) <-> x = k \/ In x (Js.keys o).
Proof.
  intro x. induction o as [|[k' v'] r IH]; cbn.
  - split; [intros [H|[]]; left; congruence | intros [H|[]]; left; congruence].
  - destruct (String.eqb k k') eqn:E; cbn.
    + apply String.eqb_eq in E. subst k'. split.
      * intros [H|H]; [left; congruence | right; right; exact H].
      * intros [H|[H|H]]; [left; congruence | left; exact H | right; exact H].
    + rewrite IH. split.
      * intros [H|[H|H]]; [right; left; exact H | left; exact H | right; right; exact H].
      * intros [H|[H|H]]; [right; left; exact H | left; exact H | right; right; exact H].
Qed.

Lemma mem_In (x : string) (l : list string) : Str.mem x l = true <-> In x l.
Proof.
  unfold Str.mem. rewrite existsb_exists. split.
  - intros [y [Hin Heq]]. apply String.eqb_eq in Heq. subst. exact Hin.
  - intro Hin. exists x. split; [exact Hin | apply String.eqb_refl].
Qed.

Lemma mem_false (x : string) (l : list string) : Str.mem x l = false <-> ~ In x l.
Proof.
  rewrite <- mem_In. destruct (Str.mem x l); split; congruence.
Qed.

End JsFacts.

(* ================================================================== *)
(** ** Instances: what the write path keeps *)

Module ModelFacts.

(** Folds that carry an invariant. *)
Lemma foldM_invariant {A S} (P : S -> Prop) (f : S -> A -> Result S) (l : list A) :
  forall s s',
    P s ->
    (forall x a b, In x l -> P a -> f a x = Ok b -> P b) ->
    ResultM.foldM f l s = Ok s' -> P s'.
Proof.
  induction l as [|x r IH]; intros s s' Hs Hstep Hfold; cbn in Hfold.
  - inversion Hfold; subst. exact Hs.
  - unfold ResultM.bind in Hfold. destruct (f s x) as [b|t] eqn:E; [|discriminate].
    apply (IH b s').
    + apply (Hstep x s b); [left; reflexivity | exact Hs | exact E].
    + intros y a c Hin. apply Hstep. right. exact Hin.
    + exact Hfold.
Qed.

Lemma fold_left_invariant {A S} (P : S -> Prop) (f : S -> A -> S) (l : list A) :
  forall s,
    P s ->
    (forall x a, In x l -> P a -> P (f a x)) ->
    P (fold_left f l s).
Proof.
  induction l as [|x r IH]; intros s Hs Hstep; cbn.
  - exact Hs.
  - apply IH.
    + apply Hstep; [left; reflexivity | exact Hs].
    + intros y a Hin. apply Hstep. right. exact Hin.
Qed.

Section Instances.

Variable M : ModelClass.

(** Only virtual fields have an entry among the virtual values. *)
Definition noStrayVirtuals (i : Instance) : Prop :=
  forall k, Model.schema_isVirtual M k = false -> Js.get k (_virtualFields i) = None.

Lemma getValue_stored (i : Instance) (k : string) :
  noStrayVirtuals i -> Model.schema_isVirtual M k = false ->
  Model.getValue M i k = Js.prop (Model._getDbFieldName M k) (_data i).
Proof.
  intros Hv Hk. unfold Model.getValue. rewrite (Hv k Hk). reflexivity.
Qed.

(** *** [setValue] *)

Lemma setValue_isNew (i : Instance) (k : string) (v : Value) :
  _isNew (Model.setValue M i k v) = _isNew i.
Proof. unfold Model.setValue. destruct (Model.schema_isVirtual M k); reflexivity. Qed.

Lemma setValue_originalData (i : Instance) (k : string) (v : Value) :
  _originalData (Model.setValue M i k v) = _originalData i.
Proof. unfold Model.setValue. destruct (Model.schema_isVirtual M k); reflexivity. Qed.

Lemma setValue_noStrayVirtuals (i : Instance) (k : string) (v : Value) :
  noStrayVirtuals i -> noStrayVirtuals (Model.setValue M i k v).
Proof.
  intros Hv k' Hk'. unfold Model.setValue.
  destruct (Model.schema_isVirtual M k) eqn:E; cbn [_virtualFields]; [|apply Hv; exact Hk'].
  rewrite JsFacts.get_set. destruct (String.eqb k' k) eqn:E'; [|apply Hv; exact Hk'].
  apply String.eqb_eq in E'. subst. congruence.
Qed.

Lemma setValue_prop (i : Instance) (k : string) (v : Value) (c : string) :
  Js.prop c (_data (Model.setValue M i k v))
  = if negb (Model.schema_isVirtual M k) && String.eqb c (Model._getDbFieldName M k)
    then v else Js.prop c (_data i).
Proof.
  unfold Model.setValue. destruct (Model.schema_isVirtual M k); cbn [_data negb andb].
  - reflexivity.
  - apply JsFacts.prop_set.
Qed.

Lemma add_In (x y : string) (s : list string) :
  In y (Js.add x s) <-> y = x \/ In y s.
Proof.
  unfold Js.add. destruct (Str.mem x s) eqn:E.
  - apply JsFacts.mem_In in E. split; [intro H; right; exact H|].
    intros [H|H]; [subst; exact E | exact H].
  - rewrite in_app_iff. cbn. split.
    + intros [H|[H|[]]]; [right; exact H | left; congruence].
    + intros [H|H]; [right; left; congruence | left; exact H].
Qed.

Lemma setValue_changed (i : Instance) (k : string) (v : Value) (c : string) :
  In c (_changed (Model.setValue M i k v)) <->
  (Model.schema_isVirtual M k = false /\ c = Model._getDbFieldName M k) \/ In c (_changed i).
Proof.
  unfold Model.setValue. destruct (Model.schema_isVirtual M k); cbn [_changed].
  - split; [intro H; right; exact H|]. intros [[H _]|H]; [discriminate|exact H].
  - rewrite add_In. split.
    + intros [H|H]; [left; split; [reflexivity|exact H] | right; exact H].
    + intros [[_ H]|H]; [left; exact H | right; exact H].
Qed.

(** *** [setProperty] *)

Lemma setProperty_isNew (i : Instance) (k : string) (v : Value) :
  _isNew (Model.setProperty M i k v) = _isNew i.
Proof. unfold Model.setProperty. destruct (Js.has k (schema M)); [apply setValue_isNew|reflexivity]. Qed.

Lemma setProperty_originalData (i : Instance) (k : string) (v : Value) :
  _originalData (Model.setProperty M i k v) = _originalData i.
Proof.
  unfold Model.setProperty. destruct (Js.has k (schema M));
    [apply setValue_originalData|reflexivity].
Qed.

Lemma setProperty_noStrayVirtuals (i : Instance) (k : string) (v : Value) :
  noStrayVirtuals i -> noStrayVirtuals (Model.setProperty M i k v).
Proof.
  intro H. unfold Model.setProperty. destruct (Js.has k (schema M));
    [apply setValue_noStrayVirtuals; exact H | exact H].
Qed.

Lemma setProperty_prop_other (i : Instance) (k : string) (v : Value) (c : string) :
  c <> Model._getDbFieldName M k ->
  Js.prop c (_data (Model.setProperty M i k v)) = Js.prop c (_data i).
Proof.
  intro Hne. unfold Model.setProperty. destruct (Js.has k (schema M)); [|reflexivity].
  rewrite setValue_prop. rewrite (JsFacts.eqb_false _ _ Hne).
  rewrite Bool.andb_false_r. reflexivity.
Qed.

Lemma setProperty_changed_other (i : Instance) (k : string) (v : Value) (c : string) :
  c <> Model._getDbFieldName M k ->
  (In c (_changed (Model.setProperty M i k v)) <-> In c (_changed i)).
Proof.
  intro Hne. unfold Model.setProperty. destruct (Js.has k (schema M)); [|reflexivity].
  rewrite setValue_changed. split; [|intro H; right; exact H].
  intros [[_ H]|H]; [contradiction|exact H].
Qed.

(** A declared, stored property is written to its column and marked
    changed. *)
Lemma setProperty_stored (i : Instance) (k : string) (v : Value) (f : SchemaField) :
  Js.get k (schema M) = Some f -> isVirtual (Types.base f) = false ->
  Js.prop (Model._getDbFieldName M k) (_data (Model.setProperty M i k v)) = v /\
  In (Model._getDbFieldName M k) (_changed (Model.setProperty M i k v)).
Proof.
  intros Hget Hnv. unfold Model.setProperty, Js.has. rewrite Hget.
  assert (Hs : Model.schema_isVirtual M k = false).
  { unfold Model.schema_isVirtual. rewrite Hget. exact Hnv. }
  split.
  - rewrite setValue_prop, Hs, JsFacts.eqb_refl. reflexivity.
  - apply setValue_changed. left. split; [exact Hs|reflexivity].
Qed.

(** *** [_detectInPlaceChanges] *)

(** What a pass over the schema may do to an instance without touching
    what is stored under any column: only the change set grows, and only
    by columns that satisfy [why]. *)
Definition marksOnly (why : string -> Prop) (i i' : Instance) : Prop :=
  noStrayVirtuals i' /\
  _isNew i' = _isNew i /\
  _originalData i' = _originalData i /\
  (forall c, Js.prop c (_data i') = Js.prop c (_data i)) /\
  (forall c, In c (_changed i') -> In c (_changed i) \/ why c) /\
  (forall c, In c (_changed i) -> In c (_changed i')).

Lemma marksOnly_refl (why : string -> Prop) (i : Instance) :
  noStrayVirtuals i -> marksOnly why i i.
Proof.
  intro H. repeat split; auto.
Qed.

Lemma detect_marksOnly (i : Instance) :
  noStrayVirtuals i ->
  marksOnly (fun c => Js.prop c (_originalData i) <> VUndef) i
            (Model._detectInPlaceChanges M i).
Proof.
  intro Hv. unfold Model._detectInPlaceChanges.
  destruct (_isNew i); [apply marksOnly_refl; exact Hv|].
  apply (fold_left_invariant
           (marksOnly (fun c => Js.prop c (_originalData i) <> VUndef) i)).
  - apply marksOnly_refl. exact Hv.
  - intros [k f] a _ (Hva & Hnew & Horig & Hdata & Hch & Hmono). cbn [fst snd].
    assert (Hkeep : marksOnly (fun c => Js.prop c (_originalData i) <> VUndef) i a)
      by (repeat split; assumption).
    destruct (negb (isVirtual (Types.base f)) && negb (Str.startsWith "_" k));
      [|exact Hkeep].
    destruct (Js.prop (Model._getDbFieldName M k) (_originalData a)) eqn:Eo;
      try exact Hkeep;
      (destruct (negb (deepEqual (Model.getValue M a k) _)); [|exact Hkeep]);
      (split; [apply setValue_noStrayVirtuals; exact Hva|];
       split; [rewrite setValue_isNew; exact Hnew|];
       split; [rewrite setValue_originalData; exact Horig|];
       split; [|split]);
      try (intro c; rewrite setValue_prop;
           destruct (Model.schema_isVirtual M k) eqn:Es; cbn [negb andb];
           [apply Hdata|];
           destruct (String.eqb c (Model._getDbFieldName M k)) eqn:Ec; [|apply Hdata];
           apply String.eqb_eq in Ec; subst c;
           rewrite (getValue_stored a k Hva Es); apply Hdata);
      try (intros c Hc; apply setValue_changed in Hc;
           destruct Hc as [[_ Hc]|Hc]; [|apply Hch; exact Hc];
           right; subst c; rewrite <- Horig, Eo; discriminate);
      try (intros c Hc; apply setValue_changed; right; apply Hmono; exact Hc).
Qed.

(** *** [_validate] *)

(** Validation accepts value [v] as it is in column [c]: whatever a
    stored field kept in [c] makes of [v], it equals [v], so [_validate]
    does not write it back. *)
Definition settled (c : string) (v : Value) : Prop :=
  forall k f, In (k, f) (schema M) -> isVirtual (Types.base f) = false ->
              Model._getDbFieldName M k = c ->
              forall h n v', Types.validate h f v n = Ok v' -> deepEqual v' v = true.

(** A column that a pass leaves alone. *)
Definition columnKept (c : string) (i i' : Instance) : Prop :=
  Js.prop c (_data i') = Js.prop c (_data i) /\
  (In c (_changed i') <-> In c (_changed i)).

Lemma validate_frame (h : Host) (i i' : Instance) :
  noStrayVirtuals i ->
  Model._validate h M i = Ok i' ->
  noStrayVirtuals i' /\ _isNew i' = _isNew i /\ _originalData i' = _originalData i /\
  (forall c, In c (_changed i) -> In c (_changed i')).
Proof.
  intros Hv Hval. unfold Model._validate in Hval.
  refine (foldM_invariant
            (fun a => noStrayVirtuals a /\ _isNew a = _isNew i /\
                      _originalData a = _originalData i /\
                      (forall c, In c (_changed i) -> In c (_changed a)))
            _ _ i i' _ _ Hval).
  - repeat split; auto.
  - intros [k f] a b _ (Hva & Hnew & Horig & Hmono) Hstep.
    destruct (negb (isVirtual (Types.base f))); [|inversion Hstep; subst; repeat split; auto].
    unfold ResultM.bind in Hstep.
    destruct (Types.validate h f (Model.getValue M a k) k) as [v'|t]; [|discriminate].
    destruct (negb (deepEqual v' (Model.getValue M a k)));
      inversion Hstep; subst; [|repeat split; auto].
    split; [apply setValue_noStrayVirtuals; exact Hva|].
    split; [rewrite setValue_isNew; exact Hnew|].
    split; [rewrite setValue_originalData; exact Horig|].
    intros c Hc. apply setValue_changed. right. apply Hmono. exact Hc.
Qed.

Lemma validate_keeps (h : Host) (c : string) (i i' : Instance) :
  noStrayVirtuals i ->
  settled c (Js.prop c (_data i)) ->
  Model._validate h M i = Ok i' ->
  columnKept c i i'.
Proof.
  intros Hv Hset Hval. unfold Model._validate in Hval.
  refine (proj2 (foldM_invariant
            (fun a => noStrayVirtuals a /\ columnKept c i a)
            _ _ i i' _ _ Hval)).
  - split; [exact Hv|]. split; [reflexivity|tauto].
  - intros [k f] a b Hin (Hva & Hdata & Hch) Hstep.
    destruct (negb (isVirtual (Types.base f))) eqn:Ef;
      [|inversion Hstep; subst; split; [exact Hva|split; assumption]].
    apply Bool.negb_true_iff in Ef.
    unfold ResultM.bind in Hstep.
    destruct (Types.validate h f (Model.getValue M a k) k) as [v'|t] eqn:Ev; [|discriminate].
    destruct (negb (deepEqual v' (Model.getValue M a k))) eqn:Ed;
      inversion Hstep; subst; [|split; [exact Hva|split; assumption]].
    split; [apply setValue_noStrayVirtuals; exact Hva|].
    destruct (Model.schema_isVirtual M k) eqn:Es.
    + split.
      * rewrite setValue_prop, Es. exact Hdata.
      * rewrite setValue_changed, Es. rewrite <- Hch.
        split; [intros [[Hf _]|H]; [discriminate|exact H] | intro H; right; exact H].
    + destruct (String.eqb c (Model._getDbFieldName M k)) eqn:Ec.
      * apply String.eqb_eq in Ec. exfalso.
        rewrite (getValue_stored a k Hva Es) in Ev, Ed.
        rewrite <- Ec, Hdata in Ev, Ed.
        rewrite (Hset k f Hin Ef (eq_sym Ec) _ _ _ Ev) in Ed. discriminate.
      * split.
        -- rewrite setValue_prop, Es, Ec. exact Hdata.
        -- rewrite setValue_changed, <- Hch. apply String.eqb_neq in Ec.
           split; [intros [[_ H]|H]; [contradiction|exact H] | intro H; right; exact H].
Qed.

(** *** [_trackOriginalValues] and [generateVirtualValues] *)

Lemma track_frame (i : Instance) :
  _data (Model._trackOriginalValues M i) = _data i /\
  _virtualFields (Model._trackOriginalValues M i) = _virtualFields i /\
  _changed (Model._trackOriginalValues M i) = _changed i /\
  _isNew (Model._trackOriginalValues M i) = _isNew i.
Proof.
  unfold Model._trackOriginalValues.
  apply (fold_left_invariant
           (fun a => _data a = _data i /\ _virtualFields a = _virtualFields i /\
                     _changed a = _changed i /\ _isNew a = _isNew i)).
  - repeat split.
  - intros [k f] a _ (H1 & H2 & H3 & H4). cbn [fst snd].
    destruct (negb (isVirtual (Types.base f))); cbn; repeat split; assumption.
Qed.

Lemma track_keeps_untracked (c : string) (i : Instance) :
  Js.is_object (Js.prop c (_data i)) = false ->
  Js.prop c (_originalData i) = VUndef ->
  Js.prop c (_originalData (Model._trackOriginalValues M i)) = VUndef.
Proof.
  intros Hobj Hundef. unfold Model._trackOriginalValues.
  refine (proj2 (fold_left_invariant
           (fun a => _data a = _data i /\ Js.prop c (_originalData a) = VUndef)
           _ _ i _ _)).
  - split; [reflexivity|exact Hundef].
  - intros [k f] a _ (Hd & Ho). cbn [fst snd].
    destruct (negb (isVirtual (Types.base f))); cbn [_data _originalData];
      [|split; assumption].
    split; [exact Hd|].
    destruct (Js.is_object (Js.prop (Model._getDbFieldName M k) (_data a))) eqn:Eobj.
    + rewrite JsFacts.prop_set.
      destruct (String.eqb c (Model._getDbFieldName M k)) eqn:Ec; [|exact Ho].
      apply String.eqb_eq in Ec. subst c. rewrite Hd in Eobj. congruence.
    + rewrite JsFacts.prop_remove.
      destruct (String.eqb c (Model._getDbFieldName M k)); [reflexivity|exact Ho].
Qed.

Lemma generateVirtualValues_frame (i i' : Instance) :
  NoDup (Js.keys (schema M)) ->
  noStrayVirtuals i ->
  Model.generateVirtualValues M i = Ok i' ->
  noStrayVirtuals i' /\ _data i' = _data i /\ _changed i' = _changed i /\
  _isNew i' = _isNew i /\ _originalData i' = _originalData i.
Proof.
  intros Hnd Hv Hgen. unfold Model.generateVirtualValues in Hgen.
  refine (foldM_invariant
            (fun a => noStrayVirtuals a /\ _data a = _data i /\ _changed a = _changed i /\
                      _isNew a = _isNew i /\ _originalData a = _originalData i)
            _ _ i i' _ _ Hgen).
  - repeat split; auto.
  - intros [k f] a b Hin (Hva & H1 & H2 & H3 & H4) Hstep. cbn [fst snd] in Hstep.
    destruct (isVirtual (Types.base f) && hasDefault (Types.base f)) eqn:Ef;
      [|inversion Hstep; subst; repeat split; assumption].
    apply Bool.andb_true_iff in Ef. destruct Ef as [Ef _].
    unfold ResultM.bind in Hstep.
    destruct (Model._resolveDefault a f) as [v|t]; [|discriminate].
    destruct v; inversion Hstep; subst; cbn [_data _changed _isNew _originalData];
      try (repeat split; assumption);
      (split; [|repeat split; assumption]);
      intros k' Hk'; cbn [_virtualFields]; rewrite JsFacts.get_set;
      (destruct (String.eqb k' k) eqn:Ek; [|apply Hva; exact Hk']);
      apply String.eqb_eq in Ek; subst k';
      unfold Model.schema_isVirtual in Hk';
      rewrite (JsFacts.In_get_nodup k f (schema M) Hnd Hin) in Hk'; congruence.
Qed.

(** *** [save] of an instance that is already stored *)

(** The columns [_update] keeps of the change set: a sensitive field is
    written only when the caller allows it. *)
Definition updatable (options : SaveOptions) (dbFieldName : string) : bool :=
  let schemaFieldName :=
    match Js.get dbFieldName
            (fold_left (fun acc e => Js.set (snd e) (fst e) acc) (_fieldMappings M) []) with
    | Some s => if String.eqb s "" then dbFieldName else s
    | None => dbFieldName
    end in
  if Str.mem schemaFieldName (Model.getSensitiveFieldNames M)
  then Str.mem schemaFieldName (updateSensitive options)
  else true.

Definition changedFields (options : SaveOptions) (i : Instance) : list string :=
  filter (updatable options) (_changed i).

(** The UPDATE [_update] sends for a validated instance. *)
Definition updateCall (options : SaveOptions) (i : Instance) : SqlCall :=
  {| statement := UpdateById (tableName M) (changedFields options i);
     params := map (fun key => Js.prop key (_data i)) (changedFields options i)
               ++ [Model.id M i] |}.

(** What [save] hands back, given the instance [_update] produced. *)
Definition settledFrom (i3 i' : Instance) : Prop :=
  _data i' = _data i3 /\ _changed i' = [] /\ _isNew i' = false /\
  noStrayVirtuals i' /\
  (forall c, Js.is_object (Js.prop c (_data i3)) = false ->
             Js.prop c (_originalData i3) = VUndef ->
             Js.prop c (_originalData i') = VUndef).

Lemma save_finish (i3 i' : Instance) :
  NoDup (Js.keys (schema M)) ->
  noStrayVirtuals i3 ->
  Model.generateVirtualValues M
    (Model._trackOriginalValues M
       {| _data := _data i3; _virtualFields := _virtualFields i3; _changed := [];
          _isNew := false; _originalData := _originalData i3 |}) = Ok i' ->
  settledFrom i3 i'.
Proof.
  intros Hnd Hv Hgen.
  set (i4 := {| _data := _data i3; _virtualFields := _virtualFields i3; _changed := [];
                _isNew := false; _originalData := _originalData i3 |}) in *.
  destruct (track_frame i4) as (Hd & Hvf & Hc & Hn).
  assert (Hv5 : noStrayVirtuals (Model._trackOriginalValues M i4)).
  { intros k Hk. rewrite Hvf. apply Hv. exact Hk. }
  destruct (generateVirtualValues_frame _ _ Hnd Hv5 Hgen) as (Hv' & Hd' & Hc' & Hn' & Ho').
  repeat split.
  - rewrite Hd', Hd. reflexivity.
  - rewrite Hc', Hc. reflexivity.
  - rewrite Hn', Hn. reflexivity.
  - exact Hv'.
  - intros c Hobj Hundef. rewrite Ho'. apply track_keeps_untracked; assumption.
Qed.

Lemma save_existing (d : Dal) (inst inst' : Instance) (options : SaveOptions)
      (w w' : World) :
  NoDup (Js.keys (schema M)) ->
  noStrayVirtuals inst ->
  _isNew inst = false ->
  Model.save d M inst options w = (Ok inst', w') ->
  exists i2,
    Model._validate (host w) M (Model._detectInPlaceChanges M inst) = Ok i2 /\
    ((changedFields options i2 = [] /\ w' = w /\ settledFrom i2 inst') \/
     (changedFields options i2 <> [] /\
      exists res st',
        query d (updateCall options i2) (store w) = (Ok res, st') /\
        rows res <> [] /\
        w' = {| host := host w; store := st';
                journal := journal w ++ [updateCall options i2]; draws := draws w |} /\
        settledFrom (Model.assignFirstRow i2 res) inst')).
Proof.
  intros Hnd Hv Hnew Hsave.
  unfold Model.save, EffM.rethrow in Hsave.
  unfold EffM.bind at 1 in Hsave. unfold EffM.lift at 1 in Hsave.
  destruct (Model._validate (host w) M (Model._detectInPlaceChanges M inst))
    as [i2|t] eqn:Hval; [|discriminate].
  exists i2. split; [reflexivity|].
  destruct (detect_marksOnly inst Hv) as (Hv1 & Hn1 & _).
  destruct (validate_frame _ _ _ Hv1 Hval) as (Hv2 & Hn2 & _).
  assert (Hnew2 : _isNew i2 = false) by congruence.
  rewrite Hnew2 in Hsave.
  unfold EffM.bind at 1 in Hsave.
  unfold Model._update in Hsave.
  fold (updatable options) in Hsave.
  fold (changedFields options i2) in Hsave.
  destruct (_changed i2) as [|c0 cs] eqn:Hch.
  - left. unfold changedFields. rewrite Hch. cbn [filter].
    unfold EffM.ret at 1 in Hsave. unfold EffM.lift in Hsave.
    destruct (Model.generateVirtualValues M _) as [i5|t] eqn:Hgen; [|discriminate].
    inversion Hsave; subst. split; [reflexivity|]. split; [reflexivity|].
    apply save_finish; assumption.
  - destruct (changedFields options i2) as [|f fs] eqn:Hcf.
    + left. split; [reflexivity|].
      unfold EffM.ret at 1 in Hsave. unfold EffM.lift in Hsave.
      destruct (Model.generateVirtualValues M _) as [i5|t] eqn:Hgen; [|discriminate].
      inversion Hsave; subst. split; [reflexivity|]. apply save_finish; assumption.
    + right. split; [discriminate|].
      unfold EffM.bind at 1 in Hsave. unfold EffM.lift at 1 in Hsave.
      destruct (Model.checkFieldNames M (f :: fs)) as [u|t]; [|discriminate].
      unfold EffM.bind at 1 in Hsave. unfold DataAccessLayer.run_query in Hsave.
      rewrite <- Hcf in Hsave.
      change {| statement := UpdateById (tableName M) (changedFields options i2);
                params := map (fun key => Js.prop key (_data i2)) (changedFields options i2)
                          ++ [Model.id M i2] |}
        with (updateCall options i2) in Hsave.
      destruct (query d _ (store w)) as [[res|t] st'] eqn:Hq; [|discriminate].
      exists res, st'. split; [reflexivity|].
      destruct (rows res) as [|row rest] eqn:Hrows; [discriminate|].
      split; [discriminate|].
      unfold EffM.ret at 1 in Hsave. unfold EffM.lift in Hsave.
      destruct (Model.generateVirtualValues M _) as [i5|t] eqn:Hgen; [|discriminate].
      inversion Hsave; subst. split; [reflexivity|].
      apply save_finish; [assumption| |exact Hgen].
      unfold Model.assignFirstRow. rewrite Hrows. exact Hv2.
Qed.

End Instances.

End ModelFacts.

(* ================================================================== *)
(** ** The store: what each statement does to the rows *)

Module StoreFacts.

Lemma toSql_idem (v : Value) : Postgres.toSql (Postgres.toSql v) = Postgres.toSql v.
Proof. destruct v; reflexivity. Qed.

Lemma value_eqb_str (a : Value) (s : string) : Js.eqb a (VStr s) = true <-> a = VStr s.
Proof.
  destruct a; cbn; try (split; [discriminate|discriminate]).
  - split; [intro H; apply String.eqb_eq in H; congruence|].
    intro H. inversion H. apply String.eqb_refl.
  - destruct t; split; discriminate.
Qed.

Lemma value_eqb_bool (a : Value) (b : bool) : Js.eqb a (VBool b) = true <-> a = VBool b.
Proof.
  destruct a; cbn; try (split; [discriminate|discriminate]).
  - split; [intro H; apply Bool.eqb_prop in H; congruence|].
    intro H. inversion H. destruct b; reflexivity.
  - destruct t; split; discriminate.
Qed.

Lemma matches_str (c s : string) (row : Row) :
  Postgres.matches c (VStr s) row = true <-> Postgres.columnValue c row = VStr s.
Proof.
  unfold Postgres.matches, Postgres.sql_eq. cbn [Postgres.toSql].
  split.
  - intro H. destruct (Postgres.columnValue c row) eqn:E; try discriminate;
      try (cbn in H; discriminate).
    + cbn in H. destruct (String.eqb s0 s) eqn:Es; [|discriminate].
      apply String.eqb_eq in Es. congruence.
    + cbn in H. destruct t; discriminate.
  - intro H. rewrite H. cbn. rewrite String.eqb_refl. reflexivity.
Qed.

Lemma matches_bool (c : string) (b : bool) (row : Row) :
  Postgres.matches c (VBool b) row = true <-> Postgres.columnValue c row = VBool b.
Proof.
  unfold Postgres.matches, Postgres.sql_eq. cbn [Postgres.toSql].
  split.
  - intro H. destruct (Postgres.columnValue c row) eqn:E; try discriminate;
      try (cbn in H; discriminate).
    + cbn in H. destruct (Bool.eqb b0 b) eqn:Eb; [|discriminate].
      apply Bool.eqb_prop in Eb. congruence.
    + cbn in H. destruct t; discriminate.
  - intro H. rewrite H. cbn. destruct b; reflexivity.
Qed.

(** *** Assignments *)

Lemma get_fold_set_other {A} (c : string) (l : list (string * A)) :
  forall acc, ~ In c (Js.keys l) ->
              Js.get c (fold_left (fun a kv => Js.set (fst kv) (snd kv) a) l acc)
              = Js.get c acc.
Proof.
  induction l as [|[k v] r IH]; intros acc Hnot; cbn; [reflexivity|].
  rewrite IH.
  - apply JsFacts.get_set_other. intro H. apply Hnot. left. cbn. congruence.
  - intro H. apply Hnot. right. exact H.
Qed.

Lemma get_fold_set_graph {A} (g : string -> A) (c : string) (ks : list string) :
  forall acc, In c ks ->
              Js.get c (fold_left (fun a kv => Js.set (fst kv) (snd kv) a)
                                  (map (fun k => (k, g k)) ks) acc)
              = Some (g c).
Proof.
  induction ks as [|k r IH]; intros acc Hin; [destruct Hin|]. cbn.
  destruct (in_dec string_dec c r) as [Hr|Hr].
  - apply IH. exact Hr.
  - destruct Hin as [Heq|Hin]; [|contradiction]. subst k.
    rewrite get_fold_set_other.
    + apply JsFacts.get_set_same.
    + unfold Js.keys. rewrite map_map. cbn. rewrite map_id. exact Hr.
Qed.

Lemma combine_graph {A} (g : string -> A) (ks : list string) :
  combine ks (map g ks) = map (fun k => (k, g k)) ks.
Proof. induction ks as [|k r IH]; cbn; [reflexivity|]. rewrite IH. reflexivity. Qed.

Lemma keys_combine_subset {A} (ks : list string) (vs : list A) (c : string) :
  In c (Js.keys (combine ks vs)) -> In c ks.
Proof.
  revert vs. induction ks as [|k r IH]; intros vs; cbn; [intros []|].
  destruct vs as [|v vs]; cbn; [intros []|].
  intros [H|H]; [left; exact H | right; apply (IH vs); exact H].
Qed.

Lemma columnValue_assign_other (c : string) (assignments : JsObject) (row : Row) :
  ~ In c (Js.keys assignments) ->
  Postgres.columnValue c (Postgres.assignColumns assignments row)
  = Postgres.columnValue c row.
Proof.
  intro H. unfold Postgres.columnValue, Postgres.assignColumns, Js.prop.
  rewrite (get_fold_set_other c assignments row H). reflexivity.
Qed.

Lemma keys_fold_set {A} (l : list (string * A)) :
  forall acc c,
    In c (Js.keys (fold_left (fun a kv => Js.set (fst kv) (snd kv) a) l acc)) ->
    In c (Js.keys l) \/ In c (Js.keys acc).
Proof.
  induction l as [|[k v] r IH]; intros acc c H; cbn in *; [right; exact H|].
  destruct (IH _ _ H) as [H1|H1]; [left; right; exact H1|].
  apply JsFacts.keys_set in H1. destruct H1 as [H1|H1];
    [left; left; congruence | right; exact H1].
Qed.

(** *** Rows under a map that keeps what a test looks at *)

Lemma filter_map_same {A} (p : A -> bool) (g : A -> A) (l : list A) :
  (forall x, In x l -> p (g x) = p x) ->
  length (filter p (map g l)) = length (filter p l).
Proof.
  induction l as [|x r IH]; intro H; cbn; [reflexivity|].
  rewrite (H x (or_introl eq_refl)).
  destruct (p x); cbn; rewrite IH; try reflexivity;
    intros y Hy; apply H; right; exact Hy.
Qed.

Lemma filter_app_length {A} (p : A -> bool) (l1 l2 : list A) :
  length (filter p (l1 ++ l2)) = length (filter p l1) + length (filter p l2).
Proof. rewrite filter_app, length_app. reflexivity. Qed.

Lemma filter_or_disjoint {A} (p q : A -> bool) (l : list A) :
  (forall x, In x l -> p x = true -> q x = false) ->
  length (filter (fun x => p x || q x) l) = length (filter p l) + length (filter q l).
Proof.
  induction l as [|x r IH]; intro H; cbn; [reflexivity|].
  assert (Hr : forall y, In y r -> p y = true -> q y = false)
    by (intros y Hy; apply H; right; exact Hy).
  specialize (IH Hr).
  destruct (p x) eqn:Ep; cbn.
  - rewrite (H x (or_introl eq_refl) Ep). cbn. rewrite IH. reflexivity.
  - destruct (q x); cbn; rewrite IH; lia.
Qed.

(** *** Tables *)

Lemma get_set_table (st : Store) (name_ : string) (t : Table) (gen : nat) :
  Js.get name_ (tables (Postgres.set_table st name_ t gen)) = Some t.
Proof. apply JsFacts.get_set_same. Qed.

Lemma firstUnknown_none (t : Table) (fields : list string) :
  Postgres.firstUnknown t fields = None -> forall f, In f fields -> In f (columns t).
Proof.
  unfold Postgres.firstUnknown. intros H f Hin.
  pose proof (find_none _ _ H f Hin) as Hf. cbn in Hf.
  apply Bool.negb_false_iff in Hf. apply JsFacts.mem_In. exact Hf.
Qed.

Lemma newRow_get (t : Table) (provided : JsObject) (fresh c : string) :
  In c (columns t) ->
  Js.get c (Postgres.newRow t provided fresh)
  = Some match Js.get c provided with
         | Some v => v
         | None => if String.eqb c "id" then VStr fresh
                   else match Js.get c (defaults t) with
                        | Some dv => dv
                        | None => VNull
                        end
         end.
Proof.
  unfold Postgres.newRow. induction (columns t) as [|c0 r IH]; [intros []|].
  intro Hin. cbn. destruct (String.eqb c c0) eqn:E.
  - apply String.eqb_eq in E. subst c0. reflexivity.
  - apply String.eqb_neq in E. destruct Hin as [H|H]; [congruence|]. apply IH. exact H.
Qed.

Lemma newRow_get_absent (t : Table) (provided : JsObject) (fresh c : string) :
  ~ In c (columns t) -> Js.get c (Postgres.newRow t provided fresh) = None.
Proof.
  intro H. apply JsFacts.get_None_notin. unfold Postgres.newRow, Js.keys.
  rewrite map_map. cbn. rewrite map_id. exact H.
Qed.

(** A successful INSERT appends exactly one row, built from the bound
    values, and that row's identity is new to the table. *)
Lemma insert_ok (st st' : Store) (table : string) (fields : list string)
      (params_ : list Value) (returning : bool) (res : QueryResult) :
  Postgres.insert st table fields params_ returning = (Ok res, st') ->
  exists t,
    Js.get table (tables st) = Some t /\
    (forall f, In f fields -> In f (columns t)) /\
    let provided :=
      fold_left (fun acc kv => Js.set (fst kv) (Postgres.toSql (snd kv)) acc)
                (combine fields params_) [] in
    let row := Postgres.newRow t provided (Postgres.gen_random_uuid (generated st)) in
    Postgres.columnValue "id" row <> VNull /\
    (forall r, In r (records t) ->
               Js.eqb (Postgres.columnValue "id" r) (Postgres.columnValue "id" row) = false) /\
    rows res = (if returning then [row] else []) /\
    tables st' = Js.set table (Postgres.with_records t (records t ++ [row])) (tables st).
Proof.
  unfold Postgres.insert. intro H.
  destruct (Js.get table (tables st)) as [t|] eqn:Et; [|discriminate].
  exists t. split; [reflexivity|].
  destruct (Postgres.firstUnknown t fields) eqn:Ef; [discriminate|].
  split; [apply firstUnknown_none; exact Ef|].
  cbv zeta in *.
  set (row := Postgres.newRow t _ _) in *.
  destruct (Postgres.columnValue "id" row) eqn:Eid; try discriminate;
    (destruct (existsb _ (records t)) eqn:Eex; [discriminate|]);
    inversion H; subst; clear H;
    (split; [discriminate|]);
    (split; [|split; reflexivity]);
    intros r Hr;
    destruct (Js.eqb (Postgres.columnValue "id" r) _) eqn:Er; try reflexivity;
    exfalso;
    assert (Hex : existsb (fun r0 => Js.eqb (Postgres.columnValue "id" r0) _) (records t) = true)
      by (apply existsb_exists; exists r; split; [exact Hr|exact Er]);
    rewrite Hex in Eex; discriminate.
Qed.

(** A successful UPDATE by id rewrites the matching rows in place and
    hands them back. *)
Lemma updateById_ok (st st' : Store) (table : string) (fields : list string)
      (params_ : list Value) (res : QueryResult) :
  Postgres.updateById st table fields params_ = (Ok res, st') ->
  exists t,
    Js.get table (tables st) = Some t /\
    let assignments :=
      fold_left (fun acc kv => Js.set (fst kv) (Postgres.toSql (snd kv)) acc)
                (combine fields params_) [] in
    let idv := nth (length fields) params_ VUndef in
    rows res = map (Postgres.assignColumns assignments)
                   (filter (Postgres.matches "id" idv) (records t)) /\
    tables st' = Js.set table
                   (Postgres.with_records t
                      (Postgres.updateWhere "id" idv assignments (records t)))
                   (tables st) /\
    generated st' = generated st.
Proof.
  unfold Postgres.updateById. intro H.
  destruct (Js.get table (tables st)) as [t|] eqn:Et; [|discriminate].
  exists t. split; [reflexivity|].
  destruct (Postgres.firstUnknown t fields) eqn:Ef; [discriminate|].
  inversion H; subst. cbn. repeat split.
Qed.

(** *** Bound values *)

(** The assignment a statement makes from its column list and the
    values bound to it. *)
Definition bound (fields : list string) (params_ : list Value) : JsObject :=
  fold_left (fun acc kv => Js.set (fst kv) (Postgres.toSql (snd kv)) acc)
            (combine fields params_) [].

Lemma fold_set_toSql (l : list (string * Value)) :
  forall acc,
    fold_left (fun a kv => Js.set (fst kv) (Postgres.toSql (snd kv)) a) l acc
    = fold_left (fun a kv => Js.set (fst kv) (snd kv) a)
                (map (fun kv => (fst kv, Postgres.toSql (snd kv))) l) acc.
Proof. induction l as [|[k v] r IH]; intro acc; cbn; [reflexivity|apply IH]. Qed.

Lemma combine_map_app {A} (g : string -> A) (ks : list string) (extra : list A) :
  combine ks (map g ks ++ extra) = map (fun k => (k, g k)) ks.
Proof. induction ks as [|k r IH]; cbn; [reflexivity|]. rewrite IH. reflexivity. Qed.

Lemma bound_get (g : string -> Value) (ks : list string) (extra : list Value) (c : string) :
  In c ks -> Js.get c (bound ks (map g ks ++ extra)) = Some (Postgres.toSql (g c)).
Proof.
  intro Hin. unfold bound. rewrite fold_set_toSql, combine_map_app, map_map. cbn [fst snd].
  apply (get_fold_set_graph (fun k => Postgres.toSql (g k))). exact Hin.
Qed.

Lemma bound_get_absent (ks : list string) (vs : list Value) (c : string) :
  ~ In c ks -> Js.get c (bound ks vs) = None.
Proof.
  intro Hnot. unfold bound. rewrite fold_set_toSql, get_fold_set_other; [reflexivity|].
  intro H. apply Hnot. unfold Js.keys in H. rewrite map_map in H. cbn [fst] in H.
  apply (keys_combine_subset ks vs). exact H.
Qed.

Lemma bound_keys (ks : list string) (vs : list Value) (c : string) :
  In c (Js.keys (bound ks vs)) -> In c ks.
Proof.
  intro H. destruct (in_dec string_dec c ks) as [Hin|Hnot]; [exact Hin|].
  exfalso. apply (proj1 (JsFacts.get_None_notin c (bound ks vs)));
    [apply bound_get_absent; exact Hnot | exact H].
Qed.

Lemma nth_after_map {A B} (g : A -> B) (l : list A) (x d : B) :
  nth (length l) (map g l ++ [x]) d = x.
Proof. induction l as [|a r IH]; cbn; [reflexivity|exact IH]. Qed.

Lemma keys_remove {A} (k : string) (o : list (string * A)) (x : string) :
  In x (Js.keys (Js.remove k o)) <-> x <> k /\ In x (Js.keys o).
Proof.
  induction o as [|[k' v'] r IH]; cbn; [tauto|].
  destruct (String.eqb k k') eqn:E.
  - apply String.eqb_eq in E. subst k'. rewrite IH. split.
    + intros [H1 H2]. split; [exact H1|right; exact H2].
    + intros [H1 [H2|H2]]; [congruence|split; assumption].
  - apply String.eqb_neq in E. cbn. rewrite IH. split.
    + intros [H|[H1 H2]]; [subst; split; [congruence|left; reflexivity]
                          | split; [exact H1|right; exact H2]].
    + intros [H1 [H2|H2]]; [left; exact H2 | right; split; assumption].
Qed.

Lemma nodup_keys_set {A} (k : string) (v : A) (o : list (string * A)) :
  NoDup (Js.keys o) -> NoDup (Js.keys (Js.set k v o)).
Proof.
  induction o as [|[k' v'] r IH]; cbn; intro H.
  - constructor; [intros []|constructor].
  - inversion H as [|? ? Hnot Hnd]; subst.
    destruct (String.eqb k k') eqn:E; cbn.
    + apply String.eqb_eq in E. subst k'. constructor; assumption.
    + apply String.eqb_neq in E. constructor; [|apply IH; exact Hnd].
      intro Hin. apply JsFacts.keys_set in Hin. destruct Hin as [Hin|Hin];
        [congruence|contradiction].
Qed.

Lemma nodup_keys_assign (assignments : JsObject) :
  forall row, NoDup (Js.keys row) ->
              NoDup (Js.keys (Postgres.assignColumns assignments row)).
Proof.
  unfold Postgres.assignColumns.
  induction assignments as [|[k v] r IH]; intros row H; cbn; [exact H|].
  apply IH. apply nodup_keys_set. exact H.
Qed.

(** [Object.assign] from a row without repeated keys. *)
Lemma get_assign {A} (source : list (string * A)) :
  NoDup (Js.keys source) ->
  forall target c,
    Js.get c (Js.assign target source)
    = match Js.get c source with Some v => Some v | None => Js.get c target end.
Proof.
  unfold Js.assign. induction source as [|[k v] r IH]; intros Hnd target c; cbn;
    [reflexivity|].
  inversion Hnd as [|? ? Hnot Hnd']; subst.
  rewrite (IH Hnd'). destruct (String.eqb c k) eqn:E.
  - apply String.eqb_eq in E. subst c.
    rewrite (proj2 (JsFacts.get_None_notin k r) Hnot). apply JsFacts.get_set_same.
  - destruct (Js.get c r); [reflexivity|].
    apply JsFacts.get_set_other. apply String.eqb_neq. exact E.
Qed.

Lemma nodup_keys_fold_set {A} (l : list (string * A)) :
  forall acc, NoDup (Js.keys acc) ->
              NoDup (Js.keys (fold_left (fun a kv => Js.set (fst kv) (snd kv) a) l acc)).
Proof.
  induction l as [|[k v] r IH]; intros acc H; cbn; [exact H|].
  apply IH. apply nodup_keys_set. exact H.
Qed.

Lemma bound_nodup (ks : list string) (vs : list Value) : NoDup (Js.keys (bound ks vs)).
Proof.
  unfold bound. rewrite fold_set_toSql. apply nodup_keys_fold_set. constructor.
Qed.

(** A column an assignment names holds the assigned value afterwards. *)
Lemma columnValue_assigned (c : string) (v : Value) (assignments : JsObject) (row : Row) :
  NoDup (Js.keys assignments) -> Js.get c assignments = Some v ->
  Postgres.columnValue c (Postgres.assignColumns assignments row) = Postgres.toSql v.
Proof.
  intros Hnd Hget. unfold Postgres.columnValue, Js.prop.
  change (Postgres.assignColumns assignments row) with (Js.assign row assignments).
  rewrite (get_assign assignments Hnd), Hget. reflexivity.
Qed.

Lemma toSql_str (v : Value) (s : string) : Postgres.toSql v = VStr s -> v = VStr s.
Proof. destruct v; cbn; congruence. Qed.

Lemma toSql_bool (v : Value) (b : bool) : Postgres.toSql v = VBool b -> v = VBool b.
Proof. destruct v; cbn; congruence. Qed.

Lemma toSql_null (v : Value) : Postgres.toSql v = VNull -> Js.nullish v = true.
Proof. destruct v; cbn; congruence. Qed.

Lemma prop_get (c : string) (o : JsObject) (v : Value) :
  Js.prop c o = v -> v <> VUndef -> Js.get c o = Some v.
Proof.
  unfold Js.prop. destruct (Js.get c o); intros H Hne; [congruence|].
  exfalso. apply Hne. symmetry. exact H.
Qed.

(** [Object.assign(data, row)], column by column. *)
Lemma prop_assign (row : Row) (data : JsObject) (c : string) :
  NoDup (Js.keys row) ->
  Js.prop c (Js.assign data row)
  = match Js.get c row with Some v => v | None => Js.prop c data end.
Proof.
  intro Hnd. unfold Js.prop. rewrite (get_assign row Hnd).
  destruct (Js.get c row); reflexivity.
Qed.

(** *** Texts the uuid type reads *)

Lemma hex_is_no_mark (c : ascii) :
  Str.is_hex c = true -> Ascii.eqb c "-" = false /\ Ascii.eqb c "{" = false.
Proof.
  destruct c as [[] [] [] [] [] [] [] []]; intro H; vm_compute in H; try discriminate;
    split; reflexivity.
Qed.

Lemma one_of_hex (digits : string) (c : ascii) :
  forallb Str.is_hex (Str.chars digits) = true ->
  Str.is_one_of digits c = true -> Str.is_hex c = true.
Proof.
  unfold Str.is_one_of. induction digits as [|d r IH]; cbn; [discriminate|].
  intros Hd Hc. apply andb_prop in Hd. destruct Hd as [Hd Hr].
  apply orb_prop in Hc. destruct Hc as [Hc|Hc]; [|exact (IH Hr Hc)].
  apply Ascii.eqb_eq in Hc. subst d. exact Hd.
Qed.

(** Whatever passes the UUID pattern of the type module, in either
    case, is a text storage reads as a uuid. *)
Lemma uuid_shape_read (versions s : string) :
  forallb Str.is_hex (Str.chars versions) = true ->
  Types.uuid_shape versions s = true -> exists c, Postgres.uuid_in s = Some c.
Proof.
  intro Hv. unfold Types.uuid_shape, Postgres.uuid_in.
  generalize (Str.chars s). intros l H.
  do 24 (destruct l as [|? l]; [discriminate H|]).
  repeat (apply andb_prop in H; let H' := fresh "F" in destruct H as [H H']).
  do 12 (destruct l as [|? l]; [discriminate|]).
  destruct l; [|discriminate].
  cbn [forallb] in *.
  repeat match goal with
         | F : _ && _ = true |- _ =>
             apply andb_prop in F; let F' := fresh "F" in destruct F as [F F']
         | F : Str.is_one_of versions _ = true |- _ => apply (one_of_hex _ _ Hv) in F
         | F : Str.is_one_of "89abAB" _ = true |- _ =>
             apply (one_of_hex "89abAB" _ eq_refl) in F
         end.
  repeat match goal with
         | F : Str.is_hex ?c = true |- _ =>
             destruct (hex_is_no_mark c F) as [? ?]; revert F
         end.
  intros.
  repeat (cbn [Postgres.uuid_digits andb negb Nat.odd Nat.even Nat.eqb Nat.sub];
          match goal with
          | F : ?x = _ |- context [?x] => rewrite F
          end).
  eexists. reflexivity.
Qed.

(** In particular the ids the guarded reads let through. *)
Lemma v4_read (id_ : string) :
  Revision.isUUID_v4 id_ = true -> exists c, Postgres.uuid_in id_ = Some c.
Proof. apply uuid_shape_read. reflexivity. Qed.

End StoreFacts.

(* ================================================================== *)
(** ** Revision-enabled models *)

Module RevisionModelFacts.

(** The columns that say which row is which, and the columns a new
    revision stamps. *)
Definition protected : list string := ["id"; "_old_rev_of"; "_rev_deleted"].
Definition stamped : list string := ["_rev_id"; "_rev_user"; "_rev_date"; "_rev_tags"].
Definition reserved : list string := protected ++ stamped.

(** What [defineModel] with [hasRevisions] yields for a declared schema
    that leaves the revision columns to the revision system: the revision
    schema and mappings are in place, [id] is the stored [id] column with a
    validator that only checks, no other declared field is kept in a
    reserved column, and column names are not themselves remapped. *)
Record RevisionModel (M : ModelClass) : Prop := {
  rm_schema_keys : NoDup (Js.keys (schema M));
  rm_mapping_keys : NoDup (Js.keys (_fieldMappings M));
  rm_revision_schema :
    forall k f, In (k, f) (Revision.getSchema None) -> In (k, f) (schema M);
  rm_revision_columns :
    forall k c, In (k, c) Revision.BASE_REVISION_FIELD_MAPPINGS ->
                Model._getDbFieldName M k = c;
  rm_id_column : Model._getDbFieldName M "id" = "id";
  rm_id_field :
    forall f, In ("id", f) (schema M) ->
              isVirtual (Types.base f) = false /\
              forall h v n v', Types.validate h f v n = Ok v' -> deepEqual v' v = true;
  rm_exclusive :
    forall k f, In (k, f) (schema M) -> In (Model._getDbFieldName M k) reserved ->
                k = "id" \/ In (k, f) (Revision.getSchema None);
  rm_columns_fixed :
    forall k, Model._getDbFieldName M (Model._getDbFieldName M k)
              = Model._getDbFieldName M k;
  rm_filterWhere : filterWhereStatic M = Some true
}.

(** *** Validators of the revision schema *)

Lemma deepEqual_nullish (v : Value) : Js.nullish v = true -> deepEqual v v = true.
Proof. destruct v; cbn; congruence. Qed.

Lemma after_ok {A} (r : Result unit) (k : Result A) (a : A) :
  Types.after r k = Ok a -> k = Ok a.
Proof. destruct r; cbn; [tauto|discriminate]. Qed.

Lemma validate_string_settled (b : TypeBase) (maxLength minLength : option nat)
      (enumValues : option (list string)) (h : Host) (v : Value) (n : string) (v' : Value) :
  Types.validate h (StringType b maxLength minLength enumValues) v n = Ok v' ->
  deepEqual v' v = true.
Proof.
  cbn. destruct (_required b && Js.nullish v); [discriminate|].
  destruct (Js.nullish v) eqn:En.
  - intro H. inversion H; subst. apply deepEqual_nullish. exact En.
  - destruct v; try discriminate.
    destruct (match maxLength with Some m => _ | None => false end); [discriminate|].
    destruct (match minLength with Some m => _ | None => false end); [discriminate|].
    destruct (match enumValues with Some vs => _ | None => false end); [discriminate|].
    intro H. apply after_ok in H. inversion H; subst. cbn. apply String.eqb_refl.
Qed.

Lemma validate_boolean_settled (b : TypeBase) (h : Host) (v : Value) (n : string)
      (v' : Value) :
  Types.validate h (BooleanType b) v n = Ok v' -> deepEqual v' v = true.
Proof.
  cbn. destruct (_required b && Js.nullish v); [discriminate|].
  destruct (Js.nullish v) eqn:En.
  - intro H. inversion H; subst. apply deepEqual_nullish. exact En.
  - destruct v; try discriminate.
    intro H. apply after_ok in H. inversion H; subst. cbn. destruct b0; reflexivity.
Qed.

Lemma validate_date_settled (b : TypeBase) (h : Host) (v : Value) (n : string)
      (v' : Value) :
  (forall s, v <> VStr s) ->
  Types.validate h (DateType b) v n = Ok v' -> deepEqual v' v = true.
Proof.
  intro Hns. cbn. destruct (_required b && Js.nullish v); [discriminate|].
  destruct (Js.nullish v) eqn:En.
  - intro H. inversion H; subst. apply deepEqual_nullish. exact En.
  - destruct v; try discriminate.
    + exfalso. apply (Hns s). reflexivity.
    + destruct t as [t|]; [|discriminate].
      intro H. apply after_ok in H. inversion H; subst. cbn. apply Z.eqb_refl.
Qed.

Lemma validate_array_settled (b : TypeBase) (et : SchemaField) (h : Host) (v : Value)
      (n : string) (v' : Value) :
  (forall x m y, Types.validate h et x m = Ok y -> deepEqual y x = true) ->
  Types.validate h (ArrayType b (Some et)) v n = Ok v' -> deepEqual v' v = true.
Proof.
  intro Het. cbn. destruct (_required b && Js.nullish v); [discriminate|].
  destruct (Js.nullish v) eqn:En.
  - intro H. inversion H; subst. apply deepEqual_nullish. exact En.
  - destruct v as [| | | | | | items |]; try discriminate.
    intro H. apply after_ok in H. clear En.
    assert (Hall : exists ys, v' = VArr ys /\ deepEqual (VArr ys) (VArr items) = true).
    { revert v' H. generalize 0.
      induction items as [|x r IH]; intros i v' H.
      - inversion H; subst. exists []. split; reflexivity.
      - destruct (Types.validate h et x _) as [y|t] eqn:Ey; [|discriminate].
        match type of H with
        | match ?e with _ => _ end = _ => destruct e as [ys|t] eqn:Er
        end; [|discriminate].
        destruct (IH (S i) ys Er) as (zs & Hzs & Heq). subst ys.
        inversion H; subst. exists (y :: zs). split; [reflexivity|].
        cbn in Heq. apply Bool.andb_true_iff in Heq. destruct Heq as [Hlen Hgo].
        cbn. rewrite Hlen, (Het _ _ _ Ey). cbn. exact Hgo. }
    destruct Hall as (ys & Hys & Heq). subst v'. exact Heq.
Qed.

(** Every field of the revision schema accepts a value as it is, a
    date given as text apart. *)
Lemma revision_schema_settled (k : string) (f : SchemaField) (h : Host) (v : Value)
      (n : string) (v' : Value) :
  In (k, f) (Revision.getSchema None) ->
  (k = "_revDate" -> forall s, v <> VStr s) ->
  Types.validate h f v n = Ok v' -> deepEqual v' v = true.
Proof.
  intros Hin Hdate.
  cbn in Hin.
  destruct Hin as [H|[H|[H|[H|[H|[H|[]]]]]]]; inversion H; subst; clear H.
  - apply validate_string_settled.
  - apply validate_date_settled. apply Hdate. reflexivity.
  - apply validate_string_settled.
  - apply validate_string_settled.
  - apply validate_boolean_settled.
  - apply validate_array_settled. intros x m y. apply validate_string_settled.
Qed.

Lemma revision_schema_stored (k : string) (f : SchemaField) :
  In (k, f) (Revision.getSchema None) ->
  isVirtual (Types.base f) = false /\ isSensitive (Types.base f) = false.
Proof.
  intro Hin. cbn in Hin.
  destruct Hin as [H|[H|[H|[H|[H|[H|[]]]]]]]; inversion H; subst; split; reflexivity.
Qed.

Section Model.

Variable M : ModelClass.
Hypothesis HM : RevisionModel M.

Lemma revision_field (k : string) (f : SchemaField) :
  In (k, f) (Revision.getSchema None) -> Js.get k (schema M) = Some f.
Proof.
  intro Hin. apply JsFacts.In_get_nodup; [apply (rm_schema_keys M HM)|].
  apply (rm_revision_schema M HM). exact Hin.
Qed.

Lemma id_stored : Model.schema_isVirtual M "id" = false.
Proof.
  unfold Model.schema_isVirtual. destruct (Js.get "id" (schema M)) as [f|] eqn:E; [|reflexivity].
  apply JsFacts.get_In in E. apply (rm_id_field M HM). exact E.
Qed.

Lemma model_id (i : Instance) (L : string) :
  ModelFacts.noStrayVirtuals M i -> Js.prop "id" (_data i) = VStr L ->
  Model.id M i = VStr L.
Proof.
  intros Hv Hid. unfold Model.id. destruct (Js.has "id" (schema M)).
  - rewrite (ModelFacts.getValue_stored M i "id" Hv id_stored).
    rewrite (rm_id_column M HM). exact Hid.
  - rewrite Hid. reflexivity.
Qed.

Lemma settled_reserved (c : string) (v : Value) :
  In c reserved -> (c = "_rev_date" -> forall s, v <> VStr s) ->
  ModelFacts.settled M c v.
Proof.
  intros Hc Hdate k f Hin Hnv Hdb h n v' Hval.
  assert (Hres : In (Model._getDbFieldName M k) reserved) by (rewrite Hdb; exact Hc).
  destruct (rm_exclusive M HM k f Hin Hres) as [Hk|Hk].
  - subst k. exact (proj2 (rm_id_field M HM f Hin) h v n v' Hval).
  - apply (revision_schema_settled k f h v n v' Hk); [|exact Hval].
    intro Hkd. subst k. apply Hdate. rewrite <- Hdb.
    apply (rm_revision_columns M HM). cbn. tauto.
Qed.

(** The reverse mapping [_update] builds. *)
Lemma reverse_mapping (c s : string) (l : list (string * string)) :
  forall acc,
    Js.get c (fold_left (fun a e => Js.set (snd e) (fst e) a) l acc) = Some s ->
    In (s, c) l \/ Js.get c acc = Some s.
Proof.
  induction l as [|[k v] r IH]; intros acc H; cbn in *; [right; exact H|].
  destruct (IH _ H) as [H1|H1]; [left; right; exact H1|].
  rewrite JsFacts.get_set in H1. destruct (String.eqb c v) eqn:E.
  - apply String.eqb_eq in E. inversion H1; subst. left. left. reflexivity.
  - right. exact H1.
Qed.

Lemma sensitive_names (s : string) :
  In s (Model.getSensitiveFieldNames M) ->
  exists f, In (s, f) (schema M) /\ isSensitive (Types.base f) = true.
Proof.
  unfold Model.getSensitiveFieldNames. intro H. apply in_map_iff in H.
  destruct H as [[k f] [Hk Hin]]. cbn in Hk. subst k. apply filter_In in Hin.
  exists f. exact Hin.
Qed.

Lemma reserved_fixed (c : string) :
  In c reserved -> Model._getDbFieldName M c = c.
Proof.
  intro Hc. cbn in Hc.
  destruct Hc as [H|[H|[H|[H|[H|[H|[H|[]]]]]]]]; subst c.
  - apply (rm_id_column M HM).
  - rewrite <- (rm_revision_columns M HM "_oldRevOf" "_old_rev_of") at 1 by (cbn; tauto).
    rewrite (rm_columns_fixed M HM). apply (rm_revision_columns M HM). cbn. tauto.
  - rewrite <- (rm_revision_columns M HM "_revDeleted" "_rev_deleted") at 1 by (cbn; tauto).
    rewrite (rm_columns_fixed M HM). apply (rm_revision_columns M HM). cbn. tauto.
  - rewrite <- (rm_revision_columns M HM "_revID" "_rev_id") at 1 by (cbn; tauto).
    rewrite (rm_columns_fixed M HM). apply (rm_revision_columns M HM). cbn. tauto.
  - rewrite <- (rm_revision_columns M HM "_revUser" "_rev_user") at 1 by (cbn; tauto).
    rewrite (rm_columns_fixed M HM). apply (rm_revision_columns M HM). cbn. tauto.
  - rewrite <- (rm_revision_columns M HM "_revDate" "_rev_date") at 1 by (cbn; tauto).
    rewrite (rm_columns_fixed M HM). apply (rm_revision_columns M HM). cbn. tauto.
  - rewrite <- (rm_revision_columns M HM "_revTags" "_rev_tags") at 1 by (cbn; tauto).
    rewrite (rm_columns_fixed M HM). apply (rm_revision_columns M HM). cbn. tauto.
Qed.

Lemma reserved_nonempty (c : string) : In c reserved -> c <> "".
Proof.
  intro Hc. cbn in Hc.
  destruct Hc as [H|[H|[H|[H|[H|[H|[H|[]]]]]]]]; subst c; discriminate.
Qed.

(** A revision column is always written by [_update]: no sensitive field
    stands behind it. *)
Lemma updatable_revision_column (options : SaveOptions) (c : string) :
  In c reserved -> c <> "id" -> ModelFacts.updatable M options c = true.
Proof.
  intros Hc Hnid. unfold ModelFacts.updatable.
  match goal with
  | |- (if Str.mem ?n _ then _ else _) = _ => set (name_ := n)
  end.
  destruct (Str.mem name_ (Model.getSensitiveFieldNames M)) eqn:Em; [|reflexivity].
  exfalso. apply JsFacts.mem_In in Em. destruct (sensitive_names _ Em) as (f & Hin & Hsens).
  assert (Hdb : Model._getDbFieldName M name_ = c).
  { unfold name_.
    destruct (Js.get c (fold_left _ (_fieldMappings M) [])) as [s|] eqn:Er;
      [|apply reserved_fixed; exact Hc].
    destruct (reverse_mapping _ _ _ _ Er) as [Hmap|Hmap]; [|discriminate].
    destruct (String.eqb s "") eqn:Es; [apply reserved_fixed; exact Hc|].
    unfold Model._getDbFieldName.
    rewrite (JsFacts.In_get_nodup s c _ (rm_mapping_keys M HM) Hmap).
    rewrite (JsFacts.eqb_false _ _ (reserved_nonempty c Hc)). reflexivity. }
  assert (Hres : In (Model._getDbFieldName M name_) reserved) by (rewrite Hdb; exact Hc).
  destruct (rm_exclusive M HM name_ f Hin Hres) as [Hk|Hk].
  - rewrite Hk in Hdb. rewrite (rm_id_column M HM) in Hdb. congruence.
  - destruct (revision_schema_stored _ _ Hk) as [_ Hns]. congruence.
Qed.

Lemma reserved_not_virtual (c : string) :
  In c reserved -> Model.schema_isVirtual M c = false.
Proof.
  intro Hc. unfold Model.schema_isVirtual.
  destruct (Js.get c (schema M)) as [f|] eqn:E; [|reflexivity].
  apply JsFacts.get_In in E.
  assert (Hres : In (Model._getDbFieldName M c) reserved)
    by (rewrite (reserved_fixed c Hc); exact Hc).
  destruct (rm_exclusive M HM c f E Hres) as [Hk|Hk].
  - subst c. apply (rm_id_field M HM f E).
  - apply (revision_schema_stored c f Hk).
Qed.

(** Every revision column is among the columns a query selects. *)
Lemma revision_column_selected (k c : string) (includeSensitive : list string) :
  In (k, c) Revision.BASE_REVISION_FIELD_MAPPINGS ->
  In c (Model.getColumnNames M includeSensitive).
Proof.
  intro Hmap.
  assert (Hf : exists f, In (k, f) (Revision.getSchema None)).
  { cbn in Hmap. destruct Hmap as [H|[H|[H|[H|[H|[H|[]]]]]]]; inversion H; subst;
      eexists; cbn; tauto. }
  destruct Hf as [f Hf].
  destruct (revision_schema_stored k f Hf) as [Hnv Hns].
  unfold Model.getColumnNames, Model._getFilteredColumnNames.
  rewrite <- (rm_revision_columns M HM k c Hmap).
  apply (in_map (fun e => Model._getDbFieldName M (fst e)) _ (k, f)).
  apply filter_In. split; [apply (rm_revision_schema M HM); exact Hf|].
  cbn [snd fst]. rewrite Hnv, Hns. reflexivity.
Qed.

Lemma selected_columns_fixed (includeSensitive : list string) (c : string) :
  In c (Model.getColumnNames M includeSensitive) -> Model._getDbFieldName M c = c.
Proof.
  unfold Model.getColumnNames, Model._getFilteredColumnNames. intro H.
  apply in_map_iff in H. destruct H as ([k f] & Hk & _). cbn [fst] in Hk. subst c.
  apply (rm_columns_fixed M HM).
Qed.

End Model.

End RevisionModelFacts.

(* ================================================================== *)
(** ** The fixture model is a revision-enabled model *)

Module FixtureFacts.

Lemma revisions_columns_fixed (k : string) :
  Model._getDbFieldName Fixtures.Revisions (Model._getDbFieldName Fixtures.Revisions k)
  = Model._getDbFieldName Fixtures.Revisions k.
Proof.
  unfold Model._getDbFieldName. cbn.
  repeat match goal with
         | |- context [String.eqb k ?s] => destruct (String.eqb k s) eqn:?; cbn
         end; first [reflexivity | discriminate].
Qed.

Lemma revisions_model : RevisionModelFacts.RevisionModel Fixtures.Revisions.
Proof.
  constructor.
  - cbn. repeat constructor; cbn; intuition discriminate.
  - cbn. repeat constructor; cbn; intuition discriminate.
  - intros k f H. cbn in H |- *. tauto.
  - intros k c H. cbn in H.
    destruct H as [H|[H|[H|[H|[H|[H|[]]]]]]]; inversion H; subst; reflexivity.
  - reflexivity.
  - intros f H. cbn in H.
    destruct H as [H|[H|[H|[H|[H|[H|[H|[H|[H|[]]]]]]]]]]; inversion H; subst.
    split; [reflexivity|]. intros h v n v'.
    apply RevisionModelFacts.validate_string_settled.
  - intros k f H Hres. cbn in H.
    destruct H as [H|[H|[H|[H|[H|[H|[H|[H|[H|[]]]]]]]]]]; inversion H; subst; clear H;
      try (left; reflexivity);
      try (right; cbn; tauto);
      exfalso; cbn in Hres; intuition discriminate.
  - exact revisions_columns_fixed.
  - reflexivity.
Qed.

End FixtureFacts.

(* ================================================================== *)
(** ** One logical document and its rows *)

Module LineageFacts.

Import RevisionModelFacts.

(** *** The statements of [newRevision] *)

(** The columns and values of the archived copy. *)
Definition archiveFields (M : ModelClass) (currentRev : Instance) : list string :=
  filter (fun key => match Js.prop key (Revision.oldRevData M currentRev) with
                     | VUndef => false
                     | _ => true
                     end)
         (Js.keys (Revision.oldRevData M currentRev)).

Definition archiveCall (M : ModelClass) (currentRev : Instance) : SqlCall :=
  {| statement := InsertRow (tableName M) (archiveFields M currentRev) false;
     params := map (fun key => Js.prop key (Revision.oldRevData M currentRev))
                   (archiveFields M currentRev) |}.

(** [tags == null ? [] : Array.isArray(tags) ? [...tags] : [tags]] *)
Definition resolvedTags (tags : Value) : Value :=
  match tags with
  | VUndef | VNull => VArr []
  | VArr l => VArr l
  | v => VArr [v]
  end.

(** The four assignments of [applyRevisionMetadata]. *)
Definition stamp (M : ModelClass) (inst : Instance) (revId userId date tags : Value)
  : Instance :=
  Model.setProperty M
    (Model.setProperty M
       (Model.setProperty M
          (Model.setProperty M inst "_revID" revId)
          "_revUser" userId)
       "_revDate" date)
    "_revTags" tags.

(** What a successful [newRevision] did: one INSERT of the archived
    copy, then the stamping of the instance with a revision id drawn
    after the timestamp. *)
Lemma newRevision_ok (d : Dal) (M : ModelClass) (inst rev_ : Instance)
      (user : option JsObject) (tags : Value) (w w1 : World) :
  Revision.newRevision d M inst user tags w = (Ok rev_, w1) ->
  exists res,
    query d (archiveCall M inst) (store w) = (Ok res, store w1) /\
    journal w1 = journal w ++ [archiveCall M inst] /\
    host w1 = host w /\
    draws w1 = S (S (draws w)) /\
    Js.truthy (Revision.resolveRevisionUserId user) = true /\
    rev_ = stamp M inst (VStr (randomUUID (host w) (S (draws w))))
                 (Revision.resolveRevisionUserId user)
                 (VDate (Some (Date_now (host w) (draws w))))
                 (resolvedTags tags).
Proof.
  unfold Revision.newRevision, Revision.newRevisionHandler.
  unfold EffM.bind at 1. unfold EffM.lift at 1.
  destruct (Revision._ensureRevisionHandler M); [|discriminate].
  fold (archiveFields M inst). fold (archiveCall M inst).
  unfold EffM.bind at 1. unfold DataAccessLayer.run_query.
  destruct (query d (archiveCall M inst) (store w)) as [[res|t] st1] eqn:Hq; [|discriminate].
  unfold EffM.bind at 1. unfold Revision.new_Date at 1. cbn [host store journal draws].
  unfold Revision.applyRevisionMetadata.
  destruct (Js.truthy (Revision.resolveRevisionUserId user)) eqn:Hu; cbn [negb];
    [|discriminate].
  cbn [host]. cbn [Js.truthy]. unfold EffM.bind, Revision.draw_randomUUID, EffM.ret.
  cbn [host store journal draws].
  intro H. inversion H; subst; clear H. exists res. cbn [store journal host draws].
  repeat split; reflexivity.
Qed.

(** *** Rows of one logical document *)

Definition hasId (L : string) (r : Row) : bool := Postgres.matches "id" (VStr L) r.

Definition archives (L : string) (r : Row) : bool :=
  Postgres.matches "_old_rev_of" (VStr L) r.

Definition isCurrent (r : Row) : bool :=
  match Postgres.columnValue "_old_rev_of" r with VNull => true | _ => false end.

Definition notDeleted (r : Row) : bool := Postgres.matches "_rev_deleted" (VBool false) r.

Definition isDeleted (r : Row) : bool := Postgres.matches "_rev_deleted" (VBool true) r.

(** Every physical row of the logical document: the row that carries the
    id and the rows archived under it. *)
Definition family (L : string) (rs : list Row) : list Row :=
  filter (fun r => hasId L r || archives L r) rs.

(** The rows of a table. *)
Definition rowsOf (table : string) (st : Store) : list Row :=
  match Js.get table (tables st) with
  | Some t => records t
  | None => []
  end.

(** A table holds logical document [L] with [n] archived revisions: one
    row carries the id, it is current and not deleted, and [n] rows are
    archived under the id. *)
Record Lineage (L : string) (n : nat) (rs : list Row) : Prop := {
  lin_one : length (filter (hasId L) rs) = 1;
  lin_live : forall r, In r rs -> hasId L r = true ->
                       isCurrent r = true /\ notDeleted r = true /\ NoDup (Js.keys r);
  lin_archived : length (filter (archives L) rs) = n
}.

(** What the spec counts, from a lineage. *)
Lemma lineage_counts (L : string) (n : nat) (rs : list Row) :
  Lineage L n rs ->
  length (filter (fun r => isCurrent r && notDeleted r) (family L rs)) = 1 /\
  length (filter (archives L) (family L rs)) = n /\
  length (family L rs) = n + 1.
Proof.
  intros [Hone Hlive Harch].
  assert (Hdisj : forall r, In r rs -> hasId L r = true -> archives L r = false).
  { intros r Hr Hid. destruct (Hlive r Hr Hid) as (Hcur & _).
    unfold isCurrent in Hcur. unfold archives.
    destruct (Postgres.matches "_old_rev_of" (VStr L) r) eqn:E; [|reflexivity].
    apply StoreFacts.matches_str in E. rewrite E in Hcur. discriminate. }
  assert (Hnotcur : forall r, archives L r = true -> isCurrent r = false).
  { intros r E. apply StoreFacts.matches_str in E. unfold isCurrent. rewrite E.
    reflexivity. }
  unfold family. split; [|split].
  - clear Harch. revert Hone Hlive Hdisj. induction rs as [|r rest IH]; intros Hone Hlive Hdisj.
    + discriminate.
    + cbn in Hone |- *. destruct (hasId L r) eqn:Eid.
      * cbn [orb]. cbn [filter].
        destruct (Hlive r (or_introl eq_refl) Eid) as (Hcur & Hnd & _).
        rewrite Hcur, Hnd. cbn [andb length]. f_equal.
        cbn in Hone. injection Hone as Hone.
        assert (Hnone : forall x, In x rest -> hasId L x = false).
        { intros x Hx. destruct (hasId L x) eqn:Ex; [|reflexivity].
          exfalso. clear - Hone Hx Ex. induction rest as [|y r' IHr]; [destruct Hx|].
          cbn in Hone. destruct (hasId L y) eqn:Ey; [discriminate|].
          destruct Hx as [Hx|Hx]; [congruence|]. apply IHr; assumption. }
        clear - Hnone Hnotcur. induction rest as [|y r' IHr]; [reflexivity|].
        cbn. rewrite (Hnone y (or_introl eq_refl)). cbn [orb].
        destruct (archives L y) eqn:Ea.
        -- cbn [filter]. rewrite (Hnotcur y Ea). cbn [andb].
           apply IHr. intros x Hx. apply Hnone. right. exact Hx.
        -- apply IHr. intros x Hx. apply Hnone. right. exact Hx.
      * cbn [orb]. destruct (archives L r) eqn:Ea.
        -- cbn [filter]. rewrite (Hnotcur r Ea). cbn [andb].
           apply IH; [exact Hone| |].
           ++ intros x Hx. apply Hlive. right. exact Hx.
           ++ intros x Hx. apply Hdisj. right. exact Hx.
        -- apply IH; [exact Hone| |].
           ++ intros x Hx. apply Hlive. right. exact Hx.
           ++ intros x Hx. apply Hdisj. right. exact Hx.
  - rewrite <- Harch. clear. induction rs as [|r rest IH]; [reflexivity|].
    cbn. destruct (hasId L r) eqn:Eid; cbn [orb].
    + cbn [filter]. destruct (archives L r); cbn [length]; rewrite IH; reflexivity.
    + destruct (archives L r) eqn:Ea; [|exact IH].
      cbn [filter]. rewrite Ea. cbn [length]. rewrite IH. reflexivity.
  - rewrite (StoreFacts.filter_or_disjoint (hasId L) (archives L) rs Hdisj).
    rewrite Hone, Harch. lia.
Qed.

(** *** The in-memory instance of the live row *)

Section Tracking.

Variable M : ModelClass.
Hypothesis HM : RevisionModel M.

(** The instance the caller holds for the live row of [L]: stored, with
    the row's identity columns as the row has them, no pending change and
    no tracked original under those columns. *)
Record Attached (L : string) (i : Instance) : Prop := {
  at_stored : _isNew i = false;
  at_id : Js.prop "id" (_data i) = VStr L;
  at_current : Js.nullish (Js.prop "_old_rev_of" (_data i)) = true;
  at_not_deleted : Js.prop "_rev_deleted" (_data i) = VBool false;
  at_clean : forall c, In c protected -> ~ In c (_changed i);
  at_untracked : forall c, In c protected -> Js.prop c (_originalData i) = VUndef;
  at_virtuals : ModelFacts.noStrayVirtuals M i
}.

(** A property the caller may edit between [newRevision] and [save]:
    one that is not kept in a reserved column. *)
Definition editable (k : string) : Prop := ~ In (Model._getDbFieldName M k) reserved.

Definition applyEdits (i : Instance) (edits : list (string * Value)) : Instance :=
  fold_left (fun a kv => Model.setProperty M a (fst kv) (snd kv)) edits i.

(** Column [c] holds [v] and is marked changed. *)
Definition pending (c : string) (v : Value) (i : Instance) : Prop :=
  Js.prop c (_data i) = v /\ In c (_changed i).

Lemma setProperty_kept (i : Instance) (k : string) (v : Value) (c : string) :
  c <> Model._getDbFieldName M k ->
  ModelFacts.columnKept c i (Model.setProperty M i k v).
Proof.
  intro Hne. split.
  - apply ModelFacts.setProperty_prop_other. exact Hne.
  - apply ModelFacts.setProperty_changed_other. exact Hne.
Qed.

Lemma columnKept_trans (c : string) (i1 i2 i3 : Instance) :
  ModelFacts.columnKept c i1 i2 -> ModelFacts.columnKept c i2 i3 ->
  ModelFacts.columnKept c i1 i3.
Proof.
  intros [H1 H2] [H3 H4]. split; [congruence|]. rewrite H4. exact H2.
Qed.

Lemma pending_kept (c : string) (v : Value) (i i' : Instance) :
  pending c v i -> ModelFacts.columnKept c i i' -> pending c v i'.
Proof.
  intros [H1 H2] [H3 H4]. split; [congruence|]. apply H4. exact H2.
Qed.

Lemma revision_property (k c : string) (f : SchemaField) (i : Instance) (v : Value) :
  In (k, c) Revision.BASE_REVISION_FIELD_MAPPINGS ->
  In (k, f) (Revision.getSchema None) ->
  pending c v (Model.setProperty M i k v).
Proof.
  intros Hmap Hf.
  rewrite <- (rm_revision_columns M HM k c Hmap).
  apply (ModelFacts.setProperty_stored M i k v f).
  - apply (revision_field M HM). exact Hf.
  - apply (revision_schema_stored k f Hf).
Qed.

Lemma revision_column (k c : string) :
  In (k, c) Revision.BASE_REVISION_FIELD_MAPPINGS -> Model._getDbFieldName M k = c.
Proof. apply (rm_revision_columns M HM). Qed.

(** The frame every write to a property keeps. *)
Definition sameFrame (i i' : Instance) : Prop :=
  ModelFacts.noStrayVirtuals M i' /\ _isNew i' = _isNew i /\
  _originalData i' = _originalData i.

Lemma sameFrame_refl (i : Instance) : ModelFacts.noStrayVirtuals M i -> sameFrame i i.
Proof. intro H. repeat split; auto. Qed.

Lemma sameFrame_trans (i1 i2 i3 : Instance) :
  sameFrame i1 i2 -> sameFrame i2 i3 -> sameFrame i1 i3.
Proof.
  intros (H1 & H2 & H3) (H4 & H5 & H6). split; [exact H4|]. split; congruence.
Qed.

Lemma setProperty_frame (i : Instance) (k : string) (v : Value) :
  ModelFacts.noStrayVirtuals M i -> sameFrame i (Model.setProperty M i k v).
Proof.
  intro Hv. split; [apply ModelFacts.setProperty_noStrayVirtuals; exact Hv|].
  split; [apply ModelFacts.setProperty_isNew | apply ModelFacts.setProperty_originalData].
Qed.

Lemma stamp_frame (i : Instance) (revId userId date tags : Value) :
  ModelFacts.noStrayVirtuals M i -> sameFrame i (stamp M i revId userId date tags).
Proof.
  intro Hv. unfold stamp.
  pose proof (setProperty_frame i "_revID" revId Hv) as F1.
  pose proof (setProperty_frame _ "_revUser" userId (proj1 F1)) as F2.
  pose proof (setProperty_frame _ "_revDate" date (proj1 F2)) as F3.
  pose proof (setProperty_frame _ "_revTags" tags (proj1 F3)) as F4.
  exact (sameFrame_trans _ _ _ (sameFrame_trans _ _ _ (sameFrame_trans _ _ _ F1 F2) F3) F4).
Qed.

Lemma stamp_kept (i : Instance) (revId userId date tags : Value) (c : string) :
  ~ In c stamped ->
  ModelFacts.columnKept c i (stamp M i revId userId date tags).
Proof.
  intro Hc. unfold stamp.
  assert (H1 : c <> Model._getDbFieldName M "_revID")
    by (rewrite (revision_column "_revID" "_rev_id") by (cbn; tauto);
        intro; subst; apply Hc; cbn; tauto).
  assert (H2 : c <> Model._getDbFieldName M "_revUser")
    by (rewrite (revision_column "_revUser" "_rev_user") by (cbn; tauto);
        intro; subst; apply Hc; cbn; tauto).
  assert (H3 : c <> Model._getDbFieldName M "_revDate")
    by (rewrite (revision_column "_revDate" "_rev_date") by (cbn; tauto);
        intro; subst; apply Hc; cbn; tauto).
  assert (H4 : c <> Model._getDbFieldName M "_revTags")
    by (rewrite (revision_column "_revTags" "_rev_tags") by (cbn; tauto);
        intro; subst; apply Hc; cbn; tauto).
  eapply columnKept_trans; [|apply setProperty_kept; exact H4].
  eapply columnKept_trans; [|apply setProperty_kept; exact H3].
  eapply columnKept_trans; [|apply setProperty_kept; exact H2].
  apply setProperty_kept; exact H1.
Qed.

Lemma stamp_pending (i : Instance) (revId userId date tags : Value) :
  let i' := stamp M i revId userId date tags in
  pending "_rev_id" revId i' /\ pending "_rev_user" userId i' /\
  pending "_rev_date" date i' /\ pending "_rev_tags" tags i'.
Proof.
  cbv zeta. unfold stamp.
  assert (Hne : forall k c c', In (k, c) Revision.BASE_REVISION_FIELD_MAPPINGS ->
                               c' <> c -> c' <> Model._getDbFieldName M k).
  { intros k c c' Hk Hc. rewrite (revision_column k c Hk). exact Hc. }
  split; [|split; [|split]].
  - eapply pending_kept; [|apply setProperty_kept; apply (Hne "_revTags" "_rev_tags");
                           [cbn; tauto|discriminate]].
    eapply pending_kept; [|apply setProperty_kept; apply (Hne "_revDate" "_rev_date");
                           [cbn; tauto|discriminate]].
    eapply pending_kept; [|apply setProperty_kept; apply (Hne "_revUser" "_rev_user");
                           [cbn; tauto|discriminate]].
    eapply revision_property; cbn; tauto.
  - eapply pending_kept; [|apply setProperty_kept; apply (Hne "_revTags" "_rev_tags");
                           [cbn; tauto|discriminate]].
    eapply pending_kept; [|apply setProperty_kept; apply (Hne "_revDate" "_rev_date");
                           [cbn; tauto|discriminate]].
    eapply revision_property; cbn; tauto.
  - eapply pending_kept; [|apply setProperty_kept; apply (Hne "_revTags" "_rev_tags");
                           [cbn; tauto|discriminate]].
    eapply revision_property; cbn; tauto.
  - eapply revision_property; cbn; tauto.
Qed.

Lemma applyEdits_kept (edits : list (string * Value)) (c : string) :
  In c reserved ->
  Forall (fun kv => editable (fst kv)) edits ->
  forall i, ModelFacts.noStrayVirtuals M i ->
            ModelFacts.columnKept c i (applyEdits i edits) /\ sameFrame i (applyEdits i edits).
Proof.
  intros Hc Hed. induction Hed as [|[k v] r Hk _ IH]; intros i Hv.
  - split; [split; [reflexivity|tauto] | apply sameFrame_refl; exact Hv].
  - cbn [applyEdits fold_left fst snd].
    pose proof (setProperty_frame i k v Hv) as F1.
    destruct (IH _ (proj1 F1)) as [K2 F2].
    split; [|exact (sameFrame_trans _ _ _ F1 F2)].
    eapply columnKept_trans; [|exact K2].
    apply setProperty_kept. intro Heq. apply Hk. cbn [fst]. rewrite <- Heq. exact Hc.
Qed.

(** *** The archived copy *)

Lemma oldRevData_prop (L : string) (i : Instance) (c : string) :
  Attached L i ->
  Js.prop c (Revision.oldRevData M i)
  = if String.eqb c "id" then VUndef
    else if String.eqb c "_old_rev_of" then VStr L
         else Js.prop c (_data i).
Proof.
  intro Hat. unfold Revision.oldRevData.
  rewrite (model_id M HM i L (at_virtuals L i Hat) (at_id L i Hat)).
  rewrite JsFacts.prop_remove, JsFacts.prop_set. reflexivity.
Qed.

Lemma archiveFields_spec (L : string) (i : Instance) :
  Attached L i ->
  ~ In "id" (archiveFields M i) /\ In "_old_rev_of" (archiveFields M i) /\
  forall c, In c (archiveFields M i) -> c <> "_old_rev_of" ->
            Js.prop c (Revision.oldRevData M i) = Js.prop c (_data i).
Proof.
  intro Hat. unfold archiveFields. split; [|split].
  - intro H. apply filter_In in H. destruct H as [_ H].
    rewrite (oldRevData_prop L i "id" Hat) in H. discriminate.
  - apply filter_In. split.
    + unfold Revision.oldRevData. apply StoreFacts.keys_remove. split; [discriminate|].
      apply JsFacts.keys_set. left. reflexivity.
    + rewrite (oldRevData_prop L i "_old_rev_of" Hat). reflexivity.
  - intros c Hc Hne. apply filter_In in Hc. destruct Hc as [_ Hc].
    rewrite (oldRevData_prop L i c Hat) in Hc |- *.
    destruct (String.eqb c "id"); [discriminate|].
    rewrite (JsFacts.eqb_false _ _ Hne). reflexivity.
Qed.

Lemma lineage_row (L : string) (n : nat) (rs : list Row) :
  Lineage L n rs -> exists r, In r rs /\ hasId L r = true.
Proof.
  intros [Hone _ _]. destruct (filter (hasId L) rs) as [|r rest] eqn:E; [discriminate|].
  exists r. apply filter_In. rewrite E. left. reflexivity.
Qed.

(** The INSERT of [newRevision], when storage accepts it, appends one
    row: archived under [L], with an identity storage generated, which is
    not [L], and with the instance's values in every column it bound. *)
Lemma archive_insert (L : string) (n : nat) (i : Instance) (t : Table) (st st1 : Store)
      (res : QueryResult) :
  Attached L i ->
  Js.get (tableName M) (tables st) = Some t ->
  Lineage L n (records t) ->
  Postgres.exec (archiveCall M i) st = (Ok res, st1) ->
  exists arch,
    tables st1
    = Js.set (tableName M) (Postgres.with_records t (records t ++ [arch])) (tables st) /\
    Postgres.columnValue "_old_rev_of" arch = VStr L /\
    Postgres.columnValue "id" arch = VStr (Postgres.gen_random_uuid (generated st)) /\
    Postgres.gen_random_uuid (generated st) <> L /\
    (forall c, In c (archiveFields M i) -> c <> "_old_rev_of" ->
               Postgres.columnValue c arch = Postgres.toSql (Js.prop c (_data i))).
Proof.
  intros Hat Ht Hlin Hexec.
  unfold Postgres.exec in Hexec. cbn [statement archiveCall params] in Hexec.
  destruct (StoreFacts.insert_ok _ _ _ _ _ _ _ Hexec) as (t0 & Ht0 & Hcols & Hrow).
  rewrite Ht in Ht0. inversion Ht0; subst t0. clear Ht0.
  cbv zeta in Hrow. destruct Hrow as (Hnn & Hnew & _ & Htab).
  destruct (archiveFields_spec L i Hat) as (Hnoid & Hold & Hcopy).
  set (fields := archiveFields M i) in *.
  set (g := fun key => Js.prop key (Revision.oldRevData M i)) in *.
  assert (Hb : forall c, In c fields ->
                 Js.get c (StoreFacts.bound fields (map g fields))
                 = Some (Postgres.toSql (g c))).
  { intros c Hc. rewrite <- (app_nil_r (map g fields)). apply StoreFacts.bound_get. exact Hc. }
  change (fold_left _ (combine fields (map g fields)) [])
    with (StoreFacts.bound fields (map g fields)) in *.
  set (arch := Postgres.newRow t (StoreFacts.bound fields (map g fields))
                 (Postgres.gen_random_uuid (generated st))) in *.
  assert (Hval : forall c, In c fields ->
                   Postgres.columnValue c arch = Postgres.toSql (g c)).
  { intros c Hc. unfold Postgres.columnValue, Js.prop, arch.
    rewrite (StoreFacts.newRow_get _ _ _ _ (Hcols c Hc)), (Hb c Hc).
    apply StoreFacts.toSql_idem. }
  assert (Hid : Postgres.columnValue "id" arch
                = VStr (Postgres.gen_random_uuid (generated st))).
  { destruct (in_dec string_dec "id" (columns t)) as [Hin|Hnot].
    - unfold Postgres.columnValue, Js.prop, arch.
      rewrite (StoreFacts.newRow_get _ _ _ _ Hin).
      rewrite (StoreFacts.bound_get_absent _ _ _ Hnoid). reflexivity.
    - exfalso. apply Hnn. unfold Postgres.columnValue, Js.prop, arch.
      rewrite (StoreFacts.newRow_get_absent _ _ _ _ Hnot). reflexivity. }
  exists arch. split; [exact Htab|].
  split; [rewrite (Hval _ Hold); unfold g;
          rewrite (oldRevData_prop L i "_old_rev_of" Hat); reflexivity|].
  split; [exact Hid|].
  split.
  - destruct (lineage_row L n _ Hlin) as (r & Hr & Hrid).
    apply StoreFacts.matches_str in Hrid.
    pose proof (Hnew r Hr) as Hne. rewrite Hrid, Hid in Hne.
    change (String.eqb L (Postgres.gen_random_uuid (generated st)) = false) in Hne.
    apply String.eqb_neq in Hne. congruence.
  - intros c Hc Hne. rewrite (Hval c Hc). unfold g. rewrite (Hcopy c Hc Hne). reflexivity.
Qed.

(** *** Saving the stamped instance *)

(** Before [save]: stored, carrying the id, with a revision id pending,
    a revision date that is a date, and no reserved column tracked for
    in-place changes unless it is already marked changed. *)
Record Stamped (L : string) (i : Instance) : Prop := {
  st_stored : _isNew i = false;
  st_id : Js.prop "id" (_data i) = VStr L;
  st_virtuals : ModelFacts.noStrayVirtuals M i;
  st_revision : In "_rev_id" (_changed i);
  st_date : forall s, Js.prop "_rev_date" (_data i) <> VStr s;
  st_tracked : forall c, In c reserved ->
                         In c (_changed i) \/ Js.prop c (_originalData i) = VUndef
}.

Lemma save_stamped (d : Dal) (L : string) (i inst' : Instance) (w w' : World) :
  Stamped L i ->
  Model.save d M i Model.no_options w = (Ok inst', w') ->
  exists i2 res,
    (forall c, In c reserved -> ModelFacts.columnKept c i i2) /\
    ModelFacts.noStrayVirtuals M i2 /\
    _originalData i2 = _originalData i /\
    Model.id M i2 = VStr L /\
    query d (ModelFacts.updateCall M Model.no_options i2) (store w) = (Ok res, store w') /\
    rows res <> [] /\
    journal w' = journal w ++ [ModelFacts.updateCall M Model.no_options i2] /\
    host w' = host w /\ draws w' = draws w /\
    ModelFacts.settledFrom M (Model.assignFirstRow i2 res) inst'.
Proof.
  intros [Hst Hid Hv Hrev Hdate Htr] Hsave.
  destruct (ModelFacts.save_existing M d i inst' Model.no_options w w'
              (rm_schema_keys M HM) Hv Hst Hsave) as (i2 & Hval & Hcases).
  destruct (ModelFacts.detect_marksOnly M i Hv) as (Hv1 & Hn1 & Ho1 & Hd1 & Hc1 & Hm1).
  destruct (ModelFacts.validate_frame M _ _ _ Hv1 Hval) as (Hv2 & Hn2 & Ho2 & Hm2).
  assert (Hkept : forall c, In c reserved -> ModelFacts.columnKept c i i2).
  { intros c Hc. apply (columnKept_trans c i (Model._detectInPlaceChanges M i) i2).
    - split; [apply Hd1|]. split; [|apply Hm1].
      intro H. destruct (Hc1 c H) as [H'|H']; [exact H'|].
      destruct (Htr c Hc) as [H''|H'']; [exact H''|contradiction].
    - apply (ModelFacts.validate_keeps M (host w) c _ i2 Hv1); [|exact Hval].
      apply (settled_reserved M HM); [exact Hc|].
      intros Hcd s. subst c. rewrite Hd1. apply Hdate. }
  assert (Hrev2 : In "_rev_id" (ModelFacts.changedFields M Model.no_options i2)).
  { unfold ModelFacts.changedFields. apply filter_In. split.
    - apply (proj2 (Hkept "_rev_id" ltac:(cbn; tauto))). exact Hrev.
    - apply (updatable_revision_column M HM); [cbn; tauto|discriminate]. }
  destruct Hcases as [(Hnil & _)|(_ & res & st' & Hq & Hrows & Hw & Hfin)].
  { rewrite Hnil in Hrev2. destruct Hrev2. }
  exists i2, res. subst w'. cbn [store journal host draws].
  split; [exact Hkept|]. split; [exact Hv2|]. split; [congruence|].
  split; [apply (model_id M HM i2 L Hv2);
          rewrite (proj1 (Hkept "id" ltac:(cbn; tauto))); exact Hid|].
  split; [exact Hq|]. split; [exact Hrows|].
  split; [reflexivity|]. split; [reflexivity|]. split; [reflexivity|]. exact Hfin.
Qed.

(** *** The UPDATE by id *)

(** The assignment the UPDATE of [_update] makes. *)
Definition assignments (options : SaveOptions) (i : Instance) : JsObject :=
  StoreFacts.bound (ModelFacts.changedFields M options i)
                   (params (ModelFacts.updateCall M options i)).

Lemma assignments_get (options : SaveOptions) (i : Instance) (c : string) :
  In c (ModelFacts.changedFields M options i) ->
  Js.get c (assignments options i) = Some (Postgres.toSql (Js.prop c (_data i))).
Proof.
  intro Hc. unfold assignments, ModelFacts.updateCall. cbn [params].
  apply (StoreFacts.bound_get (fun key => Js.prop key (_data i))). exact Hc.
Qed.

Lemma assignments_keys (options : SaveOptions) (i : Instance) (c : string) :
  In c (Js.keys (assignments options i)) -> In c (_changed i).
Proof.
  intro H. apply StoreFacts.bound_keys in H. unfold ModelFacts.changedFields in H.
  apply filter_In in H. apply H.
Qed.

Lemma update_rows (L : string) (options : SaveOptions) (i : Instance) (t : Table)
      (st st' : Store) (res : QueryResult) :
  Postgres.exec (ModelFacts.updateCall M options i) st = (Ok res, st') ->
  Js.get (tableName M) (tables st) = Some t ->
  Model.id M i = VStr L ->
  tables st'
  = Js.set (tableName M)
      (Postgres.with_records t
         (Postgres.updateWhere "id" (VStr L) (assignments options i) (records t)))
      (tables st) /\
  rows res = map (Postgres.assignColumns (assignments options i))
                 (filter (hasId L) (records t)) /\
  generated st' = generated st.
Proof.
  intros Hexec Ht Hid. unfold Postgres.exec in Hexec.
  cbn [statement ModelFacts.updateCall] in Hexec.
  destruct (StoreFacts.updateById_ok _ _ _ _ _ _ Hexec) as (t0 & Ht0 & Hrows & Htab & Hgen).
  rewrite Ht in Ht0. inversion Ht0; subst t0. clear Ht0.
  cbv zeta in Hrows, Htab. unfold assignments, StoreFacts.bound.
  unfold ModelFacts.updateCall in *. cbn [params] in *.
  rewrite StoreFacts.nth_after_map, Hid in Hrows, Htab. rewrite Hid.
  split; [exact Htab|]. split; [exact Hrows|exact Hgen].
Qed.

End Tracking.

(** *** Lineages under the statements of a revision *)

Lemma updated_row (c : string) (v : Value) (asg : JsObject) (rs : list Row) (r' : Row) :
  In r' (Postgres.updateWhere c v asg rs) ->
  exists r, In r rs /\
            r' = if Postgres.matches c v r then Postgres.assignColumns asg r else r.
Proof.
  unfold Postgres.updateWhere. intro H. apply in_map_iff in H.
  destruct H as (r & Hr & Hin). exists r. split; [exact Hin|symmetry; exact Hr].
Qed.

Lemma column_after_update (k c : string) (v : Value) (asg : JsObject) (r : Row) :
  ~ In k (Js.keys asg) ->
  Postgres.columnValue k
    (if Postgres.matches c v r then Postgres.assignColumns asg r else r)
  = Postgres.columnValue k r.
Proof.
  intro H. destruct (Postgres.matches c v r); [|reflexivity].
  apply StoreFacts.columnValue_assign_other. exact H.
Qed.

Lemma matches_after_update (k c : string) (u v : Value) (asg : JsObject) (r : Row) :
  ~ In k (Js.keys asg) ->
  Postgres.matches k u
    (if Postgres.matches c v r then Postgres.assignColumns asg r else r)
  = Postgres.matches k u r.
Proof.
  intro H. destruct (Postgres.matches c v r); [|reflexivity].
  unfold Postgres.matches. rewrite (StoreFacts.columnValue_assign_other k asg r H).
  reflexivity.
Qed.

Lemma filter_updateWhere (p : Row -> bool) (c : string) (v : Value) (asg : JsObject)
      (rs : list Row) :
  (forall r, p (if Postgres.matches c v r then Postgres.assignColumns asg r else r) = p r) ->
  length (filter p (Postgres.updateWhere c v asg rs)) = length (filter p rs).
Proof.
  intro H. unfold Postgres.updateWhere. apply StoreFacts.filter_map_same.
  intros r _. apply H.
Qed.

Lemma lineage_update (L : string) (n : nat) (rs : list Row) (asg : JsObject) :
  Lineage L n rs ->
  (forall c, In c protected -> ~ In c (Js.keys asg)) ->
  Lineage L n (Postgres.updateWhere "id" (VStr L) asg rs).
Proof.
  intros [Hone Hlive Harch] Havoid.
  assert (Hid : forall r, hasId L (if Postgres.matches "id" (VStr L) r
                                   then Postgres.assignColumns asg r else r) = hasId L r).
  { intro r. unfold hasId. apply matches_after_update. apply Havoid. cbn. tauto. }
  assert (Hold : forall r, Postgres.columnValue "_old_rev_of"
                             (if Postgres.matches "id" (VStr L) r
                              then Postgres.assignColumns asg r else r)
                           = Postgres.columnValue "_old_rev_of" r).
  { intro r. apply column_after_update. apply Havoid. cbn. tauto. }
  constructor.
  - rewrite (filter_updateWhere (hasId L)); [exact Hone|exact Hid].
  - intros r' Hr' Hid'. destruct (updated_row _ _ _ _ _ Hr') as (r & Hr & Heq). subst r'.
    rewrite Hid in Hid'. destruct (Hlive r Hr Hid') as (Hcur & Hnd & Hkeys).
    split; [unfold isCurrent; rewrite Hold; exact Hcur|].
    split; [unfold notDeleted; rewrite matches_after_update;
            [exact Hnd | apply Havoid; cbn; tauto]|].
    destruct (Postgres.matches "id" (VStr L) r); [|exact Hkeys].
    apply StoreFacts.nodup_keys_assign. exact Hkeys.
  - rewrite (filter_updateWhere (archives L)); [exact Harch|].
    intro r. unfold archives. apply matches_after_update. apply Havoid. cbn. tauto.
Qed.

Lemma lineage_append (L x : string) (n : nat) (rs : list Row) (arch : Row) :
  Lineage L n rs ->
  Postgres.columnValue "id" arch = VStr x -> x <> L ->
  Postgres.columnValue "_old_rev_of" arch = VStr L ->
  Lineage L (S n) (rs ++ [arch]).
Proof.
  intros [Hone Hlive Harch] Hid Hne Hold.
  assert (Hnot : hasId L arch = false).
  { destruct (hasId L arch) eqn:E; [|reflexivity].
    apply StoreFacts.matches_str in E. congruence. }
  assert (Hyes : archives L arch = true) by (apply StoreFacts.matches_str; exact Hold).
  constructor.
  - rewrite StoreFacts.filter_app_length. cbn. rewrite Hnot. cbn. lia.
  - intros r Hr Hrid. apply in_app_iff in Hr. destruct Hr as [Hr|[Hr|[]]].
    + apply Hlive; assumption.
    + subst r. congruence.
  - rewrite StoreFacts.filter_app_length. cbn. rewrite Hyes. cbn. lia.
Qed.

(** *** One revision cycle *)

(** [rev = await doc.newRevision(user, { tags })], the caller's edits,
    [await rev.save()]. *)
Definition reviseAndSave (d : Dal) (M : ModelClass) (inst : Instance)
           (user : option JsObject) (tags : Value) (edits : list (string * Value))
  : Eff Instance :=
  rev_ <- Revision.newRevision d M inst user tags ;;
  Model.save d M (applyEdits M rev_ edits) Model.no_options.

Section Cycle.

Variable M : ModelClass.
Hypothesis HM : RevisionModel M.

Lemma stamped_after_edits (L : string) (inst : Instance) (revId userId tags : Value)
      (t : Z) (edits : list (string * Value)) :
  Attached M L inst ->
  Forall (fun kv => editable M (fst kv)) edits ->
  let i := applyEdits M (stamp M inst revId userId (VDate (Some t)) tags) edits in
  Stamped M L i /\
  (forall c, In c protected -> ModelFacts.columnKept c inst i) /\
  _originalData i = _originalData inst /\
  pending "_rev_id" revId i /\ pending "_rev_user" userId i /\
  pending "_rev_date" (VDate (Some t)) i /\ pending "_rev_tags" tags i.
Proof.
  intros Hat Hed. cbv zeta.
  set (i1 := stamp M inst revId userId (VDate (Some t)) tags).
  pose proof (stamp_frame M inst revId userId (VDate (Some t)) tags
                (at_virtuals M L inst Hat)) as F1. fold i1 in F1.
  assert (Hk : forall c, In c reserved ->
                 ModelFacts.columnKept c i1 (applyEdits M i1 edits) /\
                 sameFrame M i1 (applyEdits M i1 edits)).
  { intros c Hc. apply (applyEdits_kept M edits c Hc Hed i1 (proj1 F1)). }
  destruct (Hk "id" ltac:(cbn; tauto)) as [_ F2].
  pose proof (sameFrame_trans M _ _ _ F1 F2) as (Hv & Hn & Ho).
  assert (Hprot : forall c, In c protected ->
                    ModelFacts.columnKept c inst (applyEdits M i1 edits)).
  { intros c Hc. eapply columnKept_trans.
    - apply (stamp_kept M HM inst revId userId (VDate (Some t)) tags c).
      cbn in Hc |- *. intuition (subst; discriminate).
    - apply Hk. unfold reserved. apply in_or_app. left. exact Hc. }
  destruct (stamp_pending M HM inst revId userId (VDate (Some t)) tags)
    as (P1 & P2 & P3 & P4). fold i1 in P1, P2, P3, P4.
  assert (Q1 := pending_kept _ _ _ _ P1 (proj1 (Hk "_rev_id" ltac:(cbn; tauto)))).
  assert (Q2 := pending_kept _ _ _ _ P2 (proj1 (Hk "_rev_user" ltac:(cbn; tauto)))).
  assert (Q3 := pending_kept _ _ _ _ P3 (proj1 (Hk "_rev_date" ltac:(cbn; tauto)))).
  assert (Q4 := pending_kept _ _ _ _ P4 (proj1 (Hk "_rev_tags" ltac:(cbn; tauto)))).
  split; [|repeat split; try assumption; try apply Q1; try apply Q2; try apply Q3;
           try apply Q4; try (apply Hprot; assumption)].
  constructor.
  - rewrite Hn. apply (at_stored M L inst Hat).
  - rewrite (proj1 (Hprot "id" ltac:(cbn; tauto))). apply (at_id M L inst Hat).
  - exact Hv.
  - apply Q1.
  - intro s. rewrite (proj1 Q3). discriminate.
  - intros c Hc. unfold reserved in Hc. apply in_app_or in Hc. destruct Hc as [Hc|Hc].
    + right. rewrite Ho. apply (at_untracked M L inst Hat). exact Hc.
    + left. cbn in Hc. destruct Hc as [H|[H|[H|[H|[]]]]]; subst c;
        [apply Q1|apply Q2|apply Q3|apply Q4].
Qed.

Variable d : Dal.
Hypothesis Hd : query d = Postgres.exec.

(** What one successful cycle does, for the live row of [L] in a table
    [t] that holds [n] archived revisions of it: [archive] is the row the
    INSERT appended, [update] the UPDATE that followed and [assigned] the
    assignment it made. *)
Record Revised (L : string) (n : nat) (inst : Instance) (user : option JsObject)
       (tags : Value) (w : World) (t : Table) (inst' : Instance) (w' : World)
       (archive : Row) (update : SqlCall) (assigned : JsObject) : Prop := {
  rv_table :
    exists t', Js.get (tableName M) (tables (store w')) = Some t' /\
               records t' = Postgres.updateWhere "id" (VStr L) assigned
                              (records t ++ [archive]);
  rv_journal : journal w' = journal w ++ [archiveCall M inst; update];
  rv_insert_columns :
    ~ In "id" (archiveFields M inst) /\ In "_old_rev_of" (archiveFields M inst);
  rv_archive_marker : Postgres.columnValue "_old_rev_of" archive = VStr L;
  rv_archive_id :
    Postgres.columnValue "id" archive
    = VStr (Postgres.gen_random_uuid (generated (store w))) /\
    Postgres.gen_random_uuid (generated (store w)) <> L;
  rv_archive_copy :
    forall c, In c (archiveFields M inst) -> c <> "_old_rev_of" ->
              Postgres.columnValue c archive = Postgres.toSql (Js.prop c (_data inst));
  rv_update_by_id :
    exists fields values,
      update = {| statement := UpdateById (tableName M) fields;
                  params := values ++ [VStr L] |} /\
      forall c, In c protected -> ~ In c fields;
  rv_identity : forall c, In c protected -> ~ In c (Js.keys assigned);
  rv_stamp :
    Js.get "_rev_id" assigned = Some (VStr (randomUUID (host w) (S (draws w)))) /\
    Js.get "_rev_user" assigned
    = Some (Postgres.toSql (Revision.resolveRevisionUserId user)) /\
    Js.get "_rev_date" assigned = Some (VDate (Some (Date_now (host w) (draws w)))) /\
    Js.get "_rev_tags" assigned = Some (resolvedTags tags);
  rv_assigned_keys : NoDup (Js.keys assigned);
  rv_lineage :
    forall t', Js.get (tableName M) (tables (store w')) = Some t' ->
               Lineage L (S n) (records t');
  rv_attached : Attached M L inst';
  rv_host : host w' = host w
}.

Lemma attached_after_save (L : string) (i2 inst' : Instance) (res : QueryResult)
      (asg : JsObject) (rs : list Row) (n : nat) :
  Lineage L n rs ->
  (forall c, In c protected -> ~ In c (Js.keys asg)) ->
  rows res = map (Postgres.assignColumns asg) (filter (hasId L) rs) ->
  rows res <> [] ->
  Js.nullish (Js.prop "_old_rev_of" (_data i2)) = true ->
  (forall c, In c protected -> Js.prop c (_originalData i2) = VUndef) ->
  ModelFacts.settledFrom M (Model.assignFirstRow i2 res) inst' ->
  Attached M L inst'.
Proof.
  intros Hlin Havoid Hrows Hne Hold Hun (Hdat & Hc & Hn & Hv & Ho).
  unfold Model.assignFirstRow in Hdat, Ho.
  destruct (rows res) as [|row rest] eqn:Er; [contradiction|].
  destruct (filter (hasId L) rs) as [|r0 more] eqn:Ef; [discriminate|].
  cbn [map] in Hrows. inversion Hrows as [[Hrow Hrest]]. clear Hrows Hrest.
  assert (Hin : In r0 (filter (hasId L) rs)) by (rewrite Ef; left; reflexivity).
  apply filter_In in Hin. destruct Hin as [Hr0 Hid0].
  destruct (lin_live L n rs Hlin r0 Hr0 Hid0) as (Hcur & Hnd & Hkeys).
  assert (Hnk : NoDup (Js.keys row))
    by (rewrite Hrow; apply StoreFacts.nodup_keys_assign; exact Hkeys).
  assert (Hcol : forall c, In c protected ->
                   Postgres.columnValue c row = Postgres.columnValue c r0).
  { intros c Hc'. rewrite Hrow. apply StoreFacts.columnValue_assign_other.
    apply Havoid. exact Hc'. }
  cbn [Model.with_data _data _originalData] in Hdat, Ho.
  assert (Pid : Js.prop "id" (_data inst') = VStr L).
  { rewrite Hdat, (StoreFacts.prop_assign row _ "id" Hnk).
    pose proof (Hcol "id" ltac:(cbn; tauto)) as H.
    apply StoreFacts.matches_str in Hid0. rewrite Hid0 in H.
    unfold Postgres.columnValue in H. apply StoreFacts.toSql_str in H.
    rewrite (StoreFacts.prop_get _ _ _ H ltac:(discriminate)). reflexivity. }
  assert (Pold : Js.nullish (Js.prop "_old_rev_of" (_data inst')) = true).
  { rewrite Hdat, (StoreFacts.prop_assign row _ "_old_rev_of" Hnk).
    pose proof (Hcol "_old_rev_of" ltac:(cbn; tauto)) as H.
    unfold isCurrent in Hcur.
    destruct (Postgres.columnValue "_old_rev_of" r0) eqn:E; try discriminate.
    unfold Postgres.columnValue in H. apply StoreFacts.toSql_null in H.
    unfold Js.prop in H. destruct (Js.get "_old_rev_of" row); [exact H|exact Hold]. }
  assert (Pdel : Js.prop "_rev_deleted" (_data inst') = VBool false).
  { rewrite Hdat, (StoreFacts.prop_assign row _ "_rev_deleted" Hnk).
    pose proof (Hcol "_rev_deleted" ltac:(cbn; tauto)) as H.
    apply StoreFacts.matches_bool in Hnd. rewrite Hnd in H.
    unfold Postgres.columnValue in H. apply StoreFacts.toSql_bool in H.
    rewrite (StoreFacts.prop_get _ _ _ H ltac:(discriminate)). reflexivity. }
  constructor; try assumption.
  - intros c _. rewrite Hc. intros [].
  - intros c Hc'. apply Ho; [|apply Hun; exact Hc'].
    rewrite <- Hdat. cbn in Hc'. destruct Hc' as [H|[H|[H|[]]]]; subst c.
    + rewrite Pid. reflexivity.
    + destruct (Js.prop "_old_rev_of" (_data inst')); try discriminate; reflexivity.
    + rewrite Pdel. reflexivity.
Qed.

Lemma revise_step (L : string) (n : nat) (inst inst' : Instance)
      (user : option JsObject) (tags : Value) (edits : list (string * Value))
      (w w' : World) (t : Table) :
  Attached M L inst ->
  Js.get (tableName M) (tables (store w)) = Some t ->
  Lineage L n (records t) ->
  Forall (fun kv => editable M (fst kv)) edits ->
  reviseAndSave d M inst user tags edits w = (Ok inst', w') ->
  exists archive update assigned,
    Revised L n inst user tags w t inst' w' archive update assigned.
Proof.
  intros Hat Ht Hlin Hed Hrun.
  unfold reviseAndSave in Hrun. unfold EffM.bind at 1 in Hrun.
  destruct (Revision.newRevision d M inst user tags w) as [[rev_|e] w1] eqn:Hnew;
    [|discriminate].
  destruct (newRevision_ok d M inst rev_ user tags w w1 Hnew)
    as (res1 & Hq1 & Hj1 & Hh1 & Hdr1 & Huser & Hrev).
  rewrite Hd in Hq1.
  destruct (archive_insert M HM L n inst t (store w) (store w1) res1 Hat Ht Hlin Hq1)
    as (arch & Htab1 & Hmark & Harchid & Hfresh & Hcopy).
  subst rev_.
  set (revId := VStr (randomUUID (host w) (S (draws w)))) in *.
  set (userId := Revision.resolveRevisionUserId user) in *.
  set (now := Date_now (host w) (draws w)) in *.
  destruct (stamped_after_edits L inst revId userId (resolvedTags tags) now edits Hat Hed)
    as (Hst & Hprot & Horig & P1 & P2 & P3 & P4).
  set (i := applyEdits M (stamp M inst revId userId (VDate (Some now)) (resolvedTags tags))
                       edits) in *.
  destruct (save_stamped M HM d L i inst' w1 w' Hst Hrun)
    as (i2 & res2 & Hkept & Hv2 & Ho2 & Hid2 & Hq2 & Hrows2 & Hj2 & Hh2 & Hdr2 & Hfin).
  rewrite Hd in Hq2.
  set (t1 := Postgres.with_records t (records t ++ [arch])) in *.
  assert (Ht1 : Js.get (tableName M) (tables (store w1)) = Some t1)
    by (rewrite Htab1; apply JsFacts.get_set_same).
  destruct (update_rows M L Model.no_options i2 t1 (store w1) (store w') res2 Hq2 Ht1 Hid2)
    as (Htab2 & Hres2 & _).
  set (asg := assignments M Model.no_options i2) in *.
  assert (Havoid : forall c, In c protected -> ~ In c (Js.keys asg)).
  { intros c Hc Hin. apply (assignments_keys M) in Hin.
    assert (Hres : In c reserved) by (unfold reserved; apply in_or_app; left; exact Hc).
    apply (proj2 (Hkept c Hres)) in Hin. apply (proj2 (Hprot c Hc)) in Hin.
    exact (at_clean M L inst Hat c Hc Hin). }
  assert (Hpend : forall c v, In c stamped -> pending c v i ->
                    Js.get c asg = Some (Postgres.toSql v)).
  { intros c v Hc [Hval Hch].
    assert (Hres : In c reserved) by (unfold reserved; apply in_or_app; right; exact Hc).
    destruct (Hkept c Hres) as [Hk1 Hk2].
    unfold asg. rewrite (assignments_get M Model.no_options i2 c).
    - rewrite Hk1, Hval. reflexivity.
    - unfold ModelFacts.changedFields. apply filter_In. split; [apply Hk2; exact Hch|].
      apply (updatable_revision_column M HM); [exact Hres|].
      cbn in Hc. intuition (subst; discriminate). }
  assert (Hlin1 : Lineage L (S n) (records t1)).
  { apply (lineage_append L _ n (records t) arch Hlin Harchid Hfresh Hmark). }
  assert (Hlin2 : Lineage L (S n) (Postgres.updateWhere "id" (VStr L) asg (records t1))).
  { apply lineage_update; assumption. }
  exists arch, (ModelFacts.updateCall M Model.no_options i2), asg.
  constructor.
  - eexists. split; [rewrite Htab2; apply JsFacts.get_set_same|reflexivity].
  - rewrite Hj2, Hj1, <- app_assoc. reflexivity.
  - destruct (archiveFields_spec M HM L inst Hat) as (H1 & H2 & _). split; assumption.
  - exact Hmark.
  - split; assumption.
  - exact Hcopy.
  - exists (ModelFacts.changedFields M Model.no_options i2),
           (map (fun key => Js.prop key (_data i2))
                (ModelFacts.changedFields M Model.no_options i2)).
    split; [unfold ModelFacts.updateCall; rewrite Hid2; reflexivity|].
    intros c Hc Hin. unfold ModelFacts.changedFields in Hin. apply filter_In in Hin.
    destruct Hin as [Hin _].
    assert (Hres : In c reserved) by (unfold reserved; apply in_or_app; left; exact Hc).
    apply (proj2 (Hkept c Hres)) in Hin. apply (proj2 (Hprot c Hc)) in Hin.
    exact (at_clean M L inst Hat c Hc Hin).
  - exact Havoid.
  - split; [exact (Hpend "_rev_id" _ ltac:(cbn; tauto) P1)|].
    split; [exact (Hpend "_rev_user" _ ltac:(cbn; tauto) P2)|].
    split; [exact (Hpend "_rev_date" _ ltac:(cbn; tauto) P3)|].
    rewrite (Hpend "_rev_tags" _ ltac:(cbn; tauto) P4). destruct tags; reflexivity.
  - apply StoreFacts.bound_nodup.
  - intros t' Ht'. rewrite Htab2, JsFacts.get_set_same in Ht'. inversion Ht'; subst t'.
    exact Hlin2.
  - apply (attached_after_save L i2 inst' res2 asg (records t1) (S n) Hlin1 Havoid Hres2
             Hrows2).
    + rewrite (proj1 (Hkept "_old_rev_of" ltac:(cbn; tauto))).
      rewrite (proj1 (Hprot "_old_rev_of" ltac:(cbn; tauto))).
      apply (at_current M L inst Hat).
    + intros c Hc. rewrite Ho2, Horig. apply (at_untracked M L inst Hat c Hc).
    + exact Hfin.
  - congruence.
Qed.

End Cycle.

End LineageFacts.

(* ================================================================== *)
(** ** Reading rows back *)

Module QueryFacts.

(** *** Hydration *)

(** No default of the schema throws. *)
Definition DefaultsTotal (M : ModelClass) : Prop :=
  forall k f i, In (k, f) (schema M) -> exists v, Model._resolveDefault i f = Ok v.

Lemma foldM_total {A S} (f : S -> A -> Result S) (l : list A) :
  (forall x s, In x l -> exists s', f s x = Ok s') ->
  forall s, exists s', ResultM.foldM f l s = Ok s'.
Proof.
  induction l as [|x r IH]; intros H s; cbn.
  - exists s. reflexivity.
  - destruct (H x s (or_introl eq_refl)) as [s1 E]. rewrite E. cbn.
    apply IH. intros y s2 Hy. apply H. right. exact Hy.
Qed.

Lemma applyDefaults_total (M : ModelClass) (data : JsObject) (i : Instance) :
  DefaultsTotal M -> exists i', Model._applyDefaults M data i = Ok i'.
Proof.
  intro HD. unfold Model._applyDefaults. apply foldM_total.
  intros [k f] s Hin. cbv zeta.
  destruct (isVirtual (Types.base f) || negb (hasDefault (Types.base f)));
    [eexists; reflexivity|].
  destruct (Js.has k data || _); [eexists; reflexivity|].
  destruct (HD k f s Hin) as [v Ev]. rewrite Ev. cbn.
  destruct v; eexists; reflexivity.
Qed.

Lemma generateVirtualValues_total (M : ModelClass) (i : Instance) :
  DefaultsTotal M -> exists i', Model.generateVirtualValues M i = Ok i'.
Proof.
  intro HD. unfold Model.generateVirtualValues. apply foldM_total.
  intros [k f] s Hin. cbv zeta. cbn [fst snd].
  destruct (isVirtual (Types.base f) && hasDefault (Types.base f));
    [|eexists; reflexivity].
  destruct (HD k f s Hin) as [v Ev]. rewrite Ev. cbn.
  destruct v; eexists; reflexivity.
Qed.

Lemma createInstance_total (M : ModelClass) (data : JsObject) :
  DefaultsTotal M -> exists i, Model._createInstance M data = Ok i.
Proof.
  intro HD. unfold Model._createInstance, Model.construct.
  destruct (applyDefaults_total M data Model.empty_instance HD) as [i0 E0].
  rewrite E0. cbn [ResultM.bind].
  match goal with
  | |- context [Model.generateVirtualValues M ?x] =>
      destruct (generateVirtualValues_total M x HD) as [i2 E2]
  end.
  rewrite E2. cbn [ResultM.bind]. eexists. reflexivity.
Qed.

Lemma generateVirtualValues_data (M : ModelClass) (i i' : Instance) :
  Model.generateVirtualValues M i = Ok i' -> _data i' = _data i.
Proof.
  unfold Model.generateVirtualValues.
  apply (ModelFacts.foldM_invariant (fun a => _data a = _data i)); [reflexivity|].
  intros [k f] a b _ Ha Hstep. cbn [fst snd] in Hstep.
  destruct (isVirtual (Types.base f) && hasDefault (Types.base f));
    [|inversion Hstep; subst; exact Ha].
  unfold ResultM.bind in Hstep. destruct (Model._resolveDefault a f) as [v|t]; [|discriminate].
  destruct v; inversion Hstep; subst; exact Ha.
Qed.

Section Hydration.

Variable M : ModelClass.

Lemma assigned_elsewhere (c : string) (l : list (string * Value)) :
  forall acc,
    ~ In c (Js.keys l) ->
    (forall k, In k (Js.keys l) -> Model._getDbFieldName M k = k) ->
    Js.prop c (_data (fold_left (fun a kv => Model.setValue M a (fst kv) (snd kv)) l acc))
    = Js.prop c (_data acc).
Proof.
  induction l as [|[k v] r IH]; intros acc Hnot Hfix; cbn; [reflexivity|].
  rewrite IH.
  - rewrite ModelFacts.setValue_prop. rewrite (Hfix k (or_introl eq_refl)).
    assert (Hne : c <> k) by (intro; subst; apply Hnot; left; reflexivity).
    rewrite (JsFacts.eqb_false _ _ Hne), Bool.andb_false_r. reflexivity.
  - intro H. apply Hnot. right. exact H.
  - intros k' Hk'. apply Hfix. right. exact Hk'.
Qed.

Lemma assigned_from_row (c : string) (l : list (string * Value)) :
  forall acc,
    NoDup (Js.keys l) ->
    (forall k, In k (Js.keys l) -> Model._getDbFieldName M k = k) ->
    In c (Js.keys l) -> Model.schema_isVirtual M c = false ->
    Js.prop c (_data (fold_left (fun a kv => Model.setValue M a (fst kv) (snd kv)) l acc))
    = Js.prop c l.
Proof.
  induction l as [|[k v] r IH]; intros acc Hnd Hfix Hin Hnv; [destruct Hin|].
  inversion Hnd as [|? ? Hnot Hnd']; subst. cbn [fold_left fst snd].
  unfold Js.prop at 2. cbn [Js.get]. destruct (String.eqb c k) eqn:E.
  - apply String.eqb_eq in E. subst k.
    rewrite assigned_elsewhere; [|exact Hnot|intros k' Hk'; apply Hfix; right; exact Hk'].
    rewrite ModelFacts.setValue_prop, Hnv, (Hfix c (or_introl eq_refl)), JsFacts.eqb_refl.
    reflexivity.
  - apply String.eqb_neq in E. destruct Hin as [Hin|Hin]; [cbn in Hin; congruence|].
    apply IH; try assumption. intros k' Hk'. apply Hfix. right. exact Hk'.
Qed.

(** A hydrated instance carries, under each stored column of the row,
    what the row has there. *)
Lemma hydrated_prop (row : Row) (i : Instance) (c : string) :
  Model._createInstance M row = Ok i ->
  NoDup (Js.keys row) ->
  (forall k, In k (Js.keys row) -> Model._getDbFieldName M k = k) ->
  In c (Js.keys row) -> Model.schema_isVirtual M c = false ->
  Js.prop c (_data i) = Js.prop c row /\ _isNew i = false /\ _changed i = [].
Proof.
  unfold Model._createInstance, Model.construct, ResultM.bind.
  destruct (Model._applyDefaults M row Model.empty_instance) as [i0|t]; [|discriminate].
  destruct (Model.generateVirtualValues M _) as [i2|t] eqn:E2; [|discriminate].
  intros H Hnd Hfix Hin Hnv. inversion H; subst. clear H.
  match goal with
  | |- context [Model._trackOriginalValues M ?x] =>
      destruct (ModelFacts.track_frame M x) as (Hd & _ & Hc & Hn)
  end.
  rewrite Hd, Hc, Hn. cbn [_data _changed _isNew].
  rewrite (generateVirtualValues_data M _ _ E2).
  split; [|split; reflexivity].
  apply assigned_from_row; assumption.
Qed.

End Hydration.

(** *** SELECT over one table *)

(** A row as a SELECT of the listed columns returns it. *)
Definition projected (cols : list string) (row : Row) : Row :=
  fold_left (fun acc c => Js.set c (Postgres.columnValue c row) acc) cols [].

Lemma projectOnto_columns (table : string) (cols : list string) (row : Row) :
  forall acc,
    Postgres.projectOnto acc (map (Col table) cols) row
    = Some (fold_left (fun a c => Js.set c (Postgres.columnValue c row) a) cols acc).
Proof. induction cols as [|c r IH]; intro acc; cbn; [reflexivity|apply IH]. Qed.

Lemma projectAll_columns (table : string) (cols : list string) (rs : list Row) :
  Postgres.projectAll (map (Col table) cols) rs = Some (map (projected cols) rs).
Proof.
  induction rs as [|row rest IH]; cbn; [reflexivity|].
  unfold Postgres.project. rewrite projectOnto_columns, IH. reflexivity.
Qed.

Lemma projected_as_graph (cols : list string) (row : Row) :
  projected cols row
  = fold_left (fun a kv => Js.set (fst kv) (snd kv) a)
              (map (fun c => (c, Postgres.columnValue c row)) cols) [].
Proof.
  unfold projected. generalize (@nil (string * Value)).
  induction cols as [|c r IH]; intro acc; cbn; [reflexivity|apply IH].
Qed.

Lemma projected_get (cols : list string) (row : Row) (c : string) :
  In c cols -> Js.get c (projected cols row) = Some (Postgres.columnValue c row).
Proof.
  intro H. rewrite projected_as_graph.
  apply (StoreFacts.get_fold_set_graph (fun c => Postgres.columnValue c row)). exact H.
Qed.

Lemma projected_keys (cols : list string) (row : Row) (c : string) :
  In c (Js.keys (projected cols row)) -> In c cols.
Proof.
  rewrite projected_as_graph. intro H. apply StoreFacts.keys_fold_set in H.
  destruct H as [H|[]]. unfold Js.keys in H. rewrite map_map in H. cbn in H.
  rewrite map_id in H. exact H.
Qed.

Lemma projected_nodup (cols : list string) (row : Row) :
  NoDup (Js.keys (projected cols row)).
Proof. rewrite projected_as_graph. apply StoreFacts.nodup_keys_fold_set. constructor. Qed.

(** A predicate whose operand its cast rejects has a value on no row. *)
Lemma rejected_operand_evaluates_nowhere (table : string) (row : Row) :
  forall p t, Postgres.castError p = Some t -> Postgres.evalPredicate table p row = None.
Proof.
  fix IH 1. intros [tb c o v vt|cj preds|sql vs] t H.
  - cbn in H |- *. destruct (Postgres.castOperand vt v); [discriminate|reflexivity].
  - cbn [Postgres.castError] in H. cbn [Postgres.evalPredicate].
    generalize (match cj with AND => Postgres.TT | OR => Postgres.FF end).
    revert H. induction preds as [|q r IHr]; intros H acc; [discriminate|].
    destruct (Postgres.castError q) as [t'|] eqn:Eq.
    + rewrite (IH q t' Eq). reflexivity.
    + destruct (Postgres.evalPredicate table q row); [apply IHr; exact H|reflexivity].
  - discriminate.
Qed.

Lemma passes_accepts_operands (table : string) (where_ : list Predicate) (row : Row)
      (b : bool) :
  Postgres.passes table where_ row = Some b -> Postgres.castErrors where_ = None.
Proof.
  revert b. induction where_ as [|p r IH]; intros b H; [reflexivity|].
  cbn [Postgres.passes] in H. cbn [Postgres.castErrors].
  destruct (Postgres.castError p) as [t|] eqn:Ep.
  - rewrite (rejected_operand_evaluates_nowhere table row p t Ep) in H. discriminate.
  - destruct (Postgres.evalPredicate table p row); [|discriminate].
    destruct (Postgres.passes table r row) as [b'|] eqn:Er; [|discriminate].
    exact (IH b' eq_refl).
Qed.

(** What a WHERE clause selects from the rows of a table: storage
    accepts every operand under its cast, and keeps the rows on which
    every predicate is true. *)
Definition selects (table : string) (where_ : list Predicate) (rs sel : list Row) : Prop :=
  Postgres.castErrors where_ = None /\ Postgres.selectRows table where_ rs = Some sel.

Lemma selectRows_filter (table : string) (where_ : list Predicate) (p : Row -> bool)
      (rs : list Row) :
  (forall row, Postgres.passes table where_ row = Some (p row)) ->
  selects table where_ rs (filter p rs).
Proof.
  intro H. split; [exact (passes_accepts_operands table where_ [] _ (H []))|].
  induction rs as [|row rest IH]; cbn; [reflexivity|].
  rewrite H, IH. reflexivity.
Qed.

(** *** [run] of a builder without joins or ordering *)

Definition plain (qb : QueryBuilder) : Prop :=
  _select qb = ["*"] /\ _joins qb = [] /\ _simpleJoins qb = [] /\
  _complexJoins qb = [] /\ _orderBy qb = [].

(** Result [res] is row [row], hydrated. *)
Definition hydrates (M : ModelClass) (res : ResultRow) (row : Row) : Prop :=
  Model._createInstance M row = Ok (instance res) /\ joined res = [].

Lemma processResults_plain (qb : QueryBuilder) (rs : list Row) :
  _simpleJoins qb = [] -> DefaultsTotal (modelClass qb) ->
  exists results, QueryBuilder._processResults qb rs = Ok results /\
                  Forall2 (hydrates (modelClass qb)) results rs.
Proof.
  intros Hsj HD. induction rs as [|row rest IH].
  - exists []. split; [reflexivity|constructor].
  - destruct IH as (more & Hmore & Hall).
    destruct (createInstance_total (modelClass qb) row HD) as [i Hi].
    exists ({| instance := i; joined := [] |} :: more).
    cbn [QueryBuilder._processResults]. rewrite Hsj, Hi. cbn. rewrite Hmore.
    split; [reflexivity|]. constructor; [split; [exact Hi|reflexivity]|exact Hall].
Qed.

(** The SELECT a plain builder sends. *)
Definition selectCall (qb : QueryBuilder) : SqlCall :=
  {| statement :=
       Select {| sel_items :=
                   map (Col (tableName (modelClass qb)))
                       (Model.getColumnNames (modelClass qb) (_includeSensitive qb));
                 sel_table := tableName (modelClass qb); sel_joins := [];
                 sel_where := _where qb; sel_orderBy := [];
                 sel_limit := _limit qb; sel_offset := _offset qb |};
     params := snd (QueryBuilder._buildWhereClause qb true) |}.

Lemma run_plain (qb : QueryBuilder) (w : World) (t : Table) (sel : list Row) :
  plain qb -> query (dal qb) = Postgres.exec ->
  DefaultsTotal (modelClass qb) ->
  Js.get (tableName (modelClass qb)) (tables (store w)) = Some t ->
  selects (tableName (modelClass qb)) (_where qb) (records t) sel ->
  exists results,
    QueryBuilder.run qb w
    = (Ok results,
       {| host := host w; store := store w; journal := journal w ++ [selectCall qb];
          draws := draws w |}) /\
    Forall2 (hydrates (modelClass qb)) results
            (map (projected (Model.getColumnNames (modelClass qb) (_includeSensitive qb)))
                 (Postgres.paginate (_limit qb) (_offset qb) sel)).
Proof.
  intros (Hsel & Hj & Hsj & Hcj & Hob) Hq HD Ht (Hcast & Hrows).
  destruct (processResults_plain qb
              (map (projected (Model.getColumnNames (modelClass qb) (_includeSensitive qb)))
                   (Postgres.paginate (_limit qb) (_offset qb) sel)) Hsj HD)
    as (results & Hres & Hall).
  exists results. split; [|exact Hall].
  unfold QueryBuilder.run, EffM.rethrow. rewrite Hcj.
  unfold EffM.bind at 1. unfold EffM.lift at 1.
  assert (Hb : QueryBuilder._buildSelectQuery qb = Ok (selectCall qb)).
  { unfold QueryBuilder._buildSelectQuery, QueryBuilder.selectItems, selectCall.
    rewrite Hsel, Hj, Hob. reflexivity. }
  rewrite Hb. unfold EffM.bind at 1. unfold DataAccessLayer.run_query. rewrite Hq.
  unfold Postgres.exec. cbn [statement selectCall].
  unfold Postgres.select. cbn [sel_table sel_joins sel_orderBy sel_where sel_items
                               sel_limit sel_offset].
  rewrite Ht, Hcast, Hrows, projectAll_columns. unfold EffM.lift. cbn [rows]. rewrite Hres.
  reflexivity.
Qed.

(** A plain builder one of whose operands storage rejects under its
    cast: the SELECT is sent, storage raises its error, and [run] throws
    what [convertPostgreSQLError] makes of it. *)
Lemma run_rejected (qb : QueryBuilder) (w : World) (t : Table) (rejected : Thrown) :
  plain qb -> query (dal qb) = Postgres.exec ->
  Js.get (tableName (modelClass qb)) (tables (store w)) = Some t ->
  Postgres.castErrors (_where qb) = Some rejected ->
  QueryBuilder.run qb w
  = (Throw (TErr (Errors.convertPostgreSQLError rejected)),
     {| host := host w; store := store w; journal := journal w ++ [selectCall qb];
        draws := draws w |}).
Proof.
  intros (Hsel & Hj & Hsj & Hcj & Hob) Hq Ht Hcast.
  unfold QueryBuilder.run, EffM.rethrow. rewrite Hcj.
  unfold EffM.bind at 1. unfold EffM.lift at 1.
  assert (Hb : QueryBuilder._buildSelectQuery qb = Ok (selectCall qb)).
  { unfold QueryBuilder._buildSelectQuery, QueryBuilder.selectItems, selectCall.
    rewrite Hsel, Hj, Hob. reflexivity. }
  rewrite Hb. unfold EffM.bind at 1. unfold DataAccessLayer.run_query. rewrite Hq.
  unfold Postgres.exec. cbn [statement selectCall].
  unfold Postgres.select. cbn [sel_table sel_joins sel_orderBy sel_where sel_items
                               sel_limit sel_offset].
  rewrite Ht, Hcast. reflexivity.
Qed.

(** The fixture model has literal defaults only. *)
Lemma revisions_defaults_total : DefaultsTotal Fixtures.Revisions.
Proof.
  intros k f i H. cbn in H.
  destruct H as [H|[H|[H|[H|[H|[H|[H|[H|[H|[]]]]]]]]]]; inversion H; subst;
    eexists; reflexivity.
Qed.

End QueryFacts.

(* ================================================================== *)
(** ** The guarded lookup *)

Module GuardedFacts.

Import RevisionModelFacts LineageFacts.

(** The builder [getNotStaleOrDeleted] executes for a well-formed id:
    [filterWhere({}).includeDeleted().includeStale().whereIn('id', [id],
    { cast: 'uuid[]' })], as [first()] limits it. *)
Definition guardedLookup (d : Dal) (M : ModelClass) (id_ : string) : QueryBuilder :=
  QueryBuilder.limit
    (QueryBuilder.whereIn (QueryBuilder.new M d) (Model._getDbFieldName M "id")
       (VArr [VStr id_]) (Some "uuid[]")) 1.

(** What the guarded read makes of the rows the lookup fetched. *)
Definition classify (M : ModelClass) (id_ : string) (fetched : Result (list ResultRow))
  : Result ResultRow :=
  match fetched with
  | Throw t => Throw t
  | Ok [] =>
      Throw (TErr (Errors.DocumentNotFound
                     (tableName M ++ " with id " ++ id_ ++ " not found")%string))
  | Ok (data :: _) =>
      if Js.truthy (Js.prop "_rev_deleted" (_data (instance data)))
      then Throw (TErr Revision.deletedError)
      else if Js.truthy (Js.prop "_old_rev_of" (_data (instance data)))
      then Throw (TErr Revision.staleError)
      else Ok data
  end.

(** The predicate [whereIn('id', [id], { cast: 'uuid[]' })] adds. *)
Definition idPredicate (id_ : string) : Predicate :=
  Basic None "id" "= ANY" (Some (VArr [VStr id_])) (Some (TWrap (Some "uuid[]"))).

Lemma resolves_id (M : ModelClass) (d : Dal) :
  Model._getDbFieldName M "id" = "id" ->
  FilterWhere.resolved (FilterWhere.new (QueryBuilder.new M d) true) "id" = Ok "id".
Proof.
  intro H. unfold FilterWhere.resolved, QueryBuilder._assertResolvedField,
             QueryBuilder._resolveFieldName. cbn [_builder FilterWhere.new modelClass
                                                   QueryBuilder.new].
  rewrite H. cbn. rewrite H. reflexivity.
Qed.

Lemma guardedLookup_where (d : Dal) (M : ModelClass) (id_ : string) :
  Model._getDbFieldName M "id" = "id" ->
  _where (guardedLookup d M id_) = [idPredicate id_].
Proof.
  intro H. unfold guardedLookup. rewrite H. cbn.
  unfold QueryBuilder._resolvePredicateColumn, QueryBuilder._resolveFieldName. cbn.
  rewrite H. reflexivity.
Qed.

(** For a well-formed id the guarded read is the classification of what
    the lookup fetches. *)
Lemma guarded_read_classifies (d : Dal) (M : ModelClass) (id_ : string) (w : World)
      (hasRevisions_ : bool) :
  Revision.isUUID_v4 id_ = true ->
  filterWhereStatic M = Some hasRevisions_ ->
  Model._getDbFieldName M "id" = "id" ->
  Revision.getNotStaleOrDeleted d M id_ [] w
  = (classify M id_ (fst (QueryBuilder.run (guardedLookup d M id_) w)),
     snd (QueryBuilder.run (guardedLookup d M id_) w)).
Proof.
  intros Hok Hfw Hid.
  unfold Revision.getNotStaleOrDeleted. rewrite Hok, Hfw. cbn [negb].
  unfold EffM.bind at 1. unfold EffM.lift at 1.
  cbn [FilterWhere.filterWhere FilterWhere.and FilterWhere._applyLiteral
       FilterWhere.applyEach].
  assert (Hb : FilterWhere.whereIn
                 (FilterWhere.includeStale
                    (FilterWhere.includeDeleted
                       (FilterWhere.new (QueryBuilder.new M d) hasRevisions_)))
                 "id" (VArr [VStr id_]) (Some "uuid[]")
               = Ok (FilterWhere.with_builder
                       (FilterWhere.includeStale
                          (FilterWhere.includeDeleted
                             (FilterWhere.new (QueryBuilder.new M d) hasRevisions_)))
                       (QueryBuilder.whereIn (QueryBuilder.new M d) "id"
                          (VArr [VStr id_]) (Some "uuid[]")))).
  { unfold FilterWhere.whereIn, FilterWhere.resolved, QueryBuilder._assertResolvedField,
      QueryBuilder._resolveFieldName.
    cbn [_builder FilterWhere.new FilterWhere.includeStale FilterWhere.includeDeleted
         modelClass QueryBuilder.new].
    rewrite Hid. cbn. rewrite Hid. reflexivity. }
  unfold EffM.bind at 1. unfold EffM.lift at 1. rewrite Hb.
  unfold guardedLookup. rewrite Hid.
  cbn [FilterWhere.getJoin]. unfold FilterWhere.first, FilterWhere._ensureRevisionFilters.
  cbn [_revisionFiltersApplied FilterWhere.with_builder FilterWhere.includeStale
       FilterWhere.includeDeleted FilterWhere.new _hasRevisions _includeStale
       _includeDeleted _builder negb].
  destruct hasRevisions_; cbn [negb _builder];
    unfold QueryBuilder.first, EffM.bind, EffM.ret;
    destruct (QueryBuilder.run _ w) as [[results|t] w'];
    cbn [fst snd classify]; try reflexivity;
    destruct results as [|data rest]; cbn [fst]; try reflexivity;
    destruct (Js.truthy (Js.prop "_rev_deleted" _)); try reflexivity;
    destruct (Js.truthy (Js.prop "_old_rev_of" _)); reflexivity.
Qed.

(** Under a hydrated result, the revision columns read what the row has. *)
Lemma hydrated_revision_columns (M : ModelClass) (res : ResultRow) (row : Row) :
  RevisionModel M ->
  QueryFacts.hydrates M res (QueryFacts.projected (Model.getColumnNames M []) row) ->
  Js.prop "_old_rev_of" (_data (instance res)) = Postgres.columnValue "_old_rev_of" row /\
  Js.prop "_rev_deleted" (_data (instance res)) = Postgres.columnValue "_rev_deleted" row.
Proof.
  intros HM [Hh _].
  assert (Hone : forall k c, In (k, c) Revision.BASE_REVISION_FIELD_MAPPINGS ->
                   Js.prop c (_data (instance res)) = Postgres.columnValue c row).
  { intros k c Hmap.
    pose proof (revision_column_selected M HM k c [] Hmap) as Hsel.
    destruct (QueryFacts.hydrated_prop M _ _ c Hh) as (Hp & _).
    - apply QueryFacts.projected_nodup.
    - intros k' Hk'. apply QueryFacts.projected_keys in Hk'.
      apply (selected_columns_fixed M HM [] k' Hk').
    - match goal with
      | |- In c ?l => destruct (in_dec string_dec c l) as [Hin|Hnot]; [exact Hin|]
      end.
      exfalso. apply JsFacts.get_None_notin in Hnot.
      rewrite (QueryFacts.projected_get _ row c Hsel) in Hnot. discriminate.
    - apply (reserved_not_virtual M HM). cbn in Hmap |- *.
      destruct Hmap as [H|[H|[H|[H|[H|[H|[]]]]]]]; inversion H; subst; tauto.
    - rewrite Hp. unfold Js.prop. rewrite (QueryFacts.projected_get _ row c Hsel).
      reflexivity. }
  split; [apply (Hone "_oldRevOf"); cbn; tauto | apply (Hone "_revDeleted"); cbn; tauto].
Qed.

(** *** The guarded read over the store *)

(** The rows an id names: those whose [id] column holds the uuid the
    text spells, in whatever spelling it comes. *)
Definition names (L : string) (row : Row) : bool :=
  match Postgres.uuid_in L with
  | Some c => hasId c row
  | None => false
  end.

Lemma names_canonical (L : string) (row : Row) :
  Postgres.uuid_in L = Some L -> names L row = hasId L row.
Proof. intro H. unfold names. rewrite H. reflexivity. Qed.

Lemma passes_id_predicate (table L : string) (row : Row) :
  Revision.isUUID_v4 L = true ->
  Postgres.passes table [idPredicate L] row = Some (names L row).
Proof.
  intro Hok. destruct (StoreFacts.v4_read L Hok) as [c Hc].
  unfold idPredicate, names, hasId, Postgres.matches.
  cbn [Postgres.passes Postgres.evalPredicate Postgres.castOperand Postgres.castOf
       String.eqb Ascii.eqb Bool.eqb Postgres.uuidOperands Postgres.uuidOperand].
  rewrite Hc. unfold Postgres.evalBasic. cbn [fold_left Postgres.toSql].
  destruct (Postgres.sql_eq _ _); reflexivity.
Qed.

(** What a guarded read answers, by the first row the id names. *)
Definition verdict (M : ModelClass) (L : string) (rs : list Row) (answer : Result ResultRow)
  : Prop :=
  match filter (names L) rs with
  | [] =>
      answer = Throw (TErr (Errors.DocumentNotFound
                              (tableName M ++ " with id " ++ L ++ " not found")%string))
  | row :: _ =>
      if Js.truthy (Postgres.columnValue "_rev_deleted" row)
      then answer = Throw (TErr Revision.deletedError)
      else if Js.truthy (Postgres.columnValue "_old_rev_of" row)
           then answer = Throw (TErr Revision.staleError)
           else exists res,
               answer = Ok res /\
               QueryFacts.hydrates M res
                 (QueryFacts.projected (Model.getColumnNames M []) row)
  end.

Lemma guarded_read_on_store (M : ModelClass) (d : Dal) (L : string) (w : World)
      (t : Table) :
  RevisionModel M -> QueryFacts.DefaultsTotal M -> query d = Postgres.exec ->
  Revision.isUUID_v4 L = true ->
  Js.get (tableName M) (tables (store w)) = Some t ->
  exists answer w',
    Revision.getNotStaleOrDeleted d M L [] w = (answer, w') /\
    store w' = store w /\
    journal w' = journal w ++ [QueryFacts.selectCall (guardedLookup d M L)] /\
    verdict M L (records t) answer.
Proof.
  intros HM HD Hd Hok Ht.
  rewrite (guarded_read_classifies d M L w true Hok (rm_filterWhere M HM)
             (rm_id_column M HM)).
  assert (Hw : _where (guardedLookup d M L) = [idPredicate L])
    by (apply guardedLookup_where; apply (rm_id_column M HM)).
  assert (Hplain : QueryFacts.plain (guardedLookup d M L)).
  { unfold guardedLookup. rewrite (rm_id_column M HM). repeat split. }
  destruct (QueryFacts.run_plain (guardedLookup d M L) w t
              (filter (names L) (records t)) Hplain)
    as (results & Hrun & Hall).
  - unfold guardedLookup. rewrite (rm_id_column M HM). exact Hd.
  - unfold guardedLookup. rewrite (rm_id_column M HM). exact HD.
  - unfold guardedLookup. rewrite (rm_id_column M HM). exact Ht.
  - rewrite Hw. apply QueryFacts.selectRows_filter. intro row.
    unfold guardedLookup. rewrite (rm_id_column M HM). apply passes_id_predicate.
    exact Hok.
  - rewrite Hrun. cbn [fst snd]. eexists. eexists. split; [reflexivity|].
    split; [reflexivity|]. split; [reflexivity|].
    assert (Hl : _limit (guardedLookup d M L) = Some 1%Z /\
                 _offset (guardedLookup d M L) = None /\
                 _includeSensitive (guardedLookup d M L) = [] /\
                 modelClass (guardedLookup d M L) = M).
    { unfold guardedLookup. rewrite (rm_id_column M HM). repeat split. }
    destruct Hl as (Hl & Ho & Hi & Hm). rewrite Hl, Ho, Hi, Hm in Hall.
    unfold verdict. cbn [Postgres.paginate] in Hall.
    change (Z.to_nat 1) with 1 in Hall.
    destruct (filter (names L) (records t)) as [|row rest].
    + inversion Hall; subst. reflexivity.
    + cbn [firstn map] in Hall. inversion Hall as [|res ? more ? Hh Hmore]; subst.
      inversion Hmore; subst.
      destruct (hydrated_revision_columns M res row HM Hh) as [H1 H2].
      cbn [classify]. rewrite H1, H2.
      destruct (Js.truthy (Postgres.columnValue "_rev_deleted" row)); [reflexivity|].
      destruct (Js.truthy (Postgres.columnValue "_old_rev_of" row)); [reflexivity|].
      exists res. split; [reflexivity|exact Hh].
Qed.

End GuardedFacts.

(* ================================================================== *)
(** ** A saved first revision on the fixture table *)

Module ScenarioFacts.

Import RevisionModelFacts LineageFacts.

(** The first revision of a document, saved: [createFirstRevision] then
    [save]. *)
Definition firstRevision (d : Dal) (M : ModelClass) (user : option JsObject)
           (fields : list (string * Value)) : Eff Instance :=
  inst <- Revision.createFirstRevision M user VUndef None ;;
  Model.save d M (applyEdits M inst fields) Model.no_options.

(** The id storage hands to the first row of an empty table. *)
Definition docId : string := Postgres.gen_random_uuid 0.

(** The first revision, created and saved on the empty table. *)
Definition firstSaved : Result Instance * World :=
  firstRevision Fixtures.revisionsDal Fixtures.Revisions Fixtures.testUser
                [("title", VStr "v1")] (Fixtures.worldOf (Fixtures.revisionsStore [])).

Definition savedInstance : Instance :=
  match fst firstSaved with Ok i => i | Throw _ => Model.empty_instance end.

Lemma savedInstance_attached : Attached Fixtures.Revisions docId savedInstance.
Proof.
  assert (E : savedInstance
              = {| _data := _data savedInstance; _virtualFields := [];
                   _changed := []; _isNew := false;
                   _originalData := [("_rev_date", VDate (Some 0%Z));
                                     ("_rev_tags", VArr [])] |})
    by (vm_compute; reflexivity).
  constructor.
  - rewrite E. reflexivity.
  - vm_compute. reflexivity.
  - vm_compute. reflexivity.
  - vm_compute. reflexivity.
  - intros c _. rewrite E. intros [].
  - intros c Hc. rewrite E. cbn in Hc. destruct Hc as [H|[H|[H|[]]]]; subst c; reflexivity.
  - intros k _. rewrite E. reflexivity.
Qed.

Lemma firstSaved_lineage :
  exists t, Js.get "revisions" (tables (store (snd firstSaved))) = Some t /\
            Lineage docId 0 (records t).
Proof.
  eexists. split; [vm_compute; reflexivity|].
  constructor.
  - vm_compute. reflexivity.
  - intros r Hr _. cbn in Hr. destruct Hr as [Hr|[]]. subst r.
    split; [vm_compute; reflexivity|]. split; [vm_compute; reflexivity|].
    cbn. repeat constructor; cbn; intuition discriminate.
  - vm_compute. reflexivity.
Qed.

End ScenarioFacts.

(* ================================================================== *)
(** ** Operator misuse: empty set membership *)

Module OperatorFacts.

Definition emptyInError : JsError :=
  Errors.TypeError "FilterWhere ops.in requires at least one value.".

(** C9. [ops.in([])] and [ops.notIn([])] throw the helper's [TypeError] as
    soon as they are evaluated: the helpers take no builder and no store, and
    whatever was going to consume the descriptor (attaching it to a builder,
    executing a query) is never reached, so the world, and with it the
    journal of issued statements, is the one before the call. *)
Theorem empty_in_throws_at_call_site :
  forall (cast_ : option string),
    FilterWhere.ops.in_ [] cast_ = Throw (TErr emptyInError) /\
    FilterWhere.ops.notIn [] cast_ = Throw (TErr emptyInError) /\
    forall (A : Type) (use : Operator -> Eff A) (w : World),
      (o <- EffM.lift (FilterWhere.ops.in_ [] cast_) ;; use o) w
      = (Throw (TErr emptyInError), w) /\
      (o <- EffM.lift (FilterWhere.ops.notIn [] cast_) ;; use o) w
      = (Throw (TErr emptyInError), w).
Proof.
  intros cast_. repeat split; reflexivity.
Qed.

Lemma with_builder_same (b : FilterWhereBuilder) :
  FilterWhere.with_builder b (_builder b) = b.
Proof. destruct b; reflexivity. Qed.

(** A field passes the resolution guard of the facade. *)
Definition resolves (b : FilterWhereBuilder) (f : string) : Prop :=
  QueryBuilder._assertResolvedField (_builder b)
    (QueryBuilder._resolveFieldName (_builder b) f)
  = Ok (QueryBuilder._resolveFieldName (_builder b) f).

(** C10. [ops.containsAll([])] and [ops.containsAny([])] are descriptors,
    not errors; their [build] answers [null] and leaves the builder as it
    was, in both the mutating and the detached mode. A literal that uses
    one on a field that passes the resolution guard therefore adds nothing:
    [and] and [or] return the builder unchanged, and [filterWhere] with
    such a literal on an entity without revisions yields the same SELECT as
    the empty literal, with no predicate at all, which every row of a table
    passes. *)
Theorem empty_contains_adds_no_predicate :
  forall (b : FilterWhereBuilder) (f : string) (o : Operator),
    o = FilterWhere.ops.containsAll (VArr []) \/
    o = FilterWhere.ops.containsAny (VArr []) ->
    resolves b f ->
    (forall qb fld m, FilterWhere.build o qb fld m = (None, qb)) /\
    FilterWhere.and b [(f, Op o)] = Ok b /\
    FilterWhere.or b [(f, Op o)] = Ok b /\
    (forall M d,
        _builder b = QueryBuilder.new M d ->
        FilterWhere.filterWhere false M d [(f, Op o)] = FilterWhere.filterWhere false M d [] /\
        _where (_builder (FilterWhere._ensureRevisionFilters
                            (FilterWhere.new (QueryBuilder.new M d) false))) = [] /\
        forall rs, Postgres.selectRows (tableName M) [] rs = Some rs).
Proof.
  intros b f o Ho Hres.
  assert (Hb : forall qb fld m, FilterWhere.build o qb fld m = (None, qb)).
  { destruct Ho; subst; reflexivity. }
  split; [exact Hb|].
  unfold FilterWhere.and, FilterWhere.or, FilterWhere._applyLiteral.
  cbn [FilterWhere.applyEach FilterWhere.collectPredicates].
  unfold FilterWhere._createFieldPredicate. unfold resolves in Hres.
  rewrite !Hres, !Hb, with_builder_same.
  split; [reflexivity|]. split; [reflexivity|].
  intros M d HM. split; [|split].
  - unfold FilterWhere.filterWhere, FilterWhere.and, FilterWhere._applyLiteral.
    cbn [FilterWhere.applyEach]. unfold FilterWhere._createFieldPredicate.
    rewrite HM in Hres. cbn [FilterWhere.new _builder].
    rewrite Hres, Hb. reflexivity.
  - reflexivity.
  - induction rs as [|r rs IH]; [reflexivity|].
    cbn [Postgres.selectRows Postgres.passes]. rewrite IH. reflexivity.
Qed.

(** On [teams], the storage column [title] passes the resolution guard. *)
Lemma empty_contains_adds_no_predicate_witness :
  let b := FilterWhere.new (QueryBuilder.new Fixtures.Teams (Fixtures.cannedDal [] [])) false in
  FilterWhere.and b [("title", Op (FilterWhere.ops.containsAll (VArr [])))] = Ok b.
Proof.
  intro b.
  refine (proj1 (proj2 (empty_contains_adds_no_predicate b "title"
                          (FilterWhere.ops.containsAll (VArr []))
                          (or_introl eq_refl) _))).
  vm_compute. reflexivity.
Defined.

End OperatorFacts.

(* ================================================================== *)
(** ** Error translation at the save boundary *)

Module SaveFacts.

(** A fresh [users] record whose required [name] was never set. *)
Definition namelessUser : Instance :=
  match Model.construct Fixtures.Users [("password", VStr "hunter2")] with
  | Ok i => i
  | Throw _ => Model.empty_instance
  end.

Definition nameRequired : JsError :=
  Errors.ValidationError "name is required" None.

(** Whatever [_validate] throws inside [save] is handed to
    [convertPostgreSQLError]; no statement has been issued by then. *)
Lemma save_rethrows_validation_failure :
  forall (d : Dal) (M : ModelClass) (inst : Instance) (options : SaveOptions)
         (w : World) (t : Thrown),
    Model._validate (host w) M (Model._detectInPlaceChanges M inst) = Throw t ->
    Model.save d M inst options w = (Throw (TErr (Errors.convertPostgreSQLError t)), w).
Proof.
  intros d M inst options w t Hv.
  unfold Model.save, EffM.rethrow, EffM.bind, EffM.lift.
  rewrite Hv. reflexivity.
Qed.

(** A [ValidationError] raised by a schema validator carries the code
    [VALIDATION_ERROR], which is none of the storage vendor's codes, so the
    mapping wraps it as a [QueryError]. *)
Lemma convert_wraps_ValidationError :
  forall (msg : string) (fld : option string),
    Errors.convertPostgreSQLError (TErr (Errors.ValidationError msg fld))
    = Errors.QueryError msg (Some (Errors.ValidationError msg fld)).
Proof. reflexivity. Qed.

(** C7, evaluated on the code. Saving a [users] record whose required
    [name] is missing: the schema's [validate] rejects the field with a
    [ValidationError], no statement reaches storage, and the error
    [save] surfaces is a [QueryError] wrapping that [ValidationError] -
    not an error of the [ValidationError] kind. *)
Theorem save_surfaces_QueryError_for_rejected_field :
  forall (d : Dal) (w : World),
    Types.validate (host w) (Types.required true Types.types.string) VUndef "name"
    = Throw (TErr nameRequired) /\
    Model.save d Fixtures.Users namelessUser Model.no_options w
    = (Throw (TErr (Errors.QueryError "name is required" (Some nameRequired))), w) /\
    cls (Errors.QueryError "name is required" (Some nameRequired)) <> CValidationError.
Proof.
  intros d w. split; [reflexivity|]. split.
  - rewrite (save_rethrows_validation_failure d Fixtures.Users namelessUser
               Model.no_options w (TErr nameRequired)); reflexivity.
  - discriminate.
Qed.

End SaveFacts.

(* ================================================================== *)
(** ** Relation helpers *)

Module RelationFacts.








End RelationFacts.

(* ================================================================== *)
(** ** Atomic increment *)

Module IncrementFacts.

(** The schema entry [increment] resolves for the field is numeric. *)
Definition numericField (qb : QueryBuilder) (field_ : string) : bool :=
  match QueryBuilder.incrementSchemaField qb field_
          (QueryBuilder._resolveFieldName qb field_) with
  | Some schemaFieldName =>
      match Js.get schemaFieldName (schema (modelClass qb)) with
      | Some columnDef => Types.isNumberType columnDef
      | None => false
      end
  | None => false
  end.

(** The field passes the double-resolution guard. *)
Definition resolvedField (qb : QueryBuilder) (field_ : string) : Prop :=
  QueryBuilder._assertResolvedField qb (QueryBuilder._resolveFieldName qb field_)
  = Ok (QueryBuilder._resolveFieldName qb field_).

(** The UPDATE [increment] sends. *)
Definition incrementCall (qb : QueryBuilder) (field_ : string) (amount : JsNum)
           (resolvedColumns : list string) : SqlCall :=
  let where_ := QueryBuilder._buildWhereClause qb false in
  {| statement :=
       Text (QueryBuilder.incrementText (tableName (modelClass qb))
               (QueryBuilder._resolveFieldName qb field_)
               (Str.placeholder (S (length (snd where_)))) (fst where_) resolvedColumns);
     params := snd where_ ++ [VNum amount] |}.

(** A [counters] builder scoped by [id = 'x']. *)
Definition scopedCounters : QueryBuilder :=
  snd (QueryBuilder._addWhereCondition
         (QueryBuilder.new Fixtures.Counters
            (Fixtures.cannedDal [[("view_count", VNum (NFin 2))]] []))
         "id" "=" (VStr "x") QueryBuilder.no_predicate_options).

(** With a WHERE predicate present, a numeric field and no joins, an
    increment by [NaN] issues nothing: the amount guard throws first. *)
Lemma increment_by_NaN_issues_nothing :
  fst (QueryBuilder._buildWhereClause scopedCounters false) = "id = $1" /\
  numericField scopedCounters "counter" = true /\
  _joins scopedCounters = [] /\
  QueryBuilder.increment scopedCounters "counter" NNaN None
                         (Fixtures.worldOf Fixtures.emptyStore)
  = (Throw (TErr (Errors.TypeError "QueryBuilder.increment amount must be a finite number.")),
     Fixtures.worldOf Fixtures.emptyStore).
Proof. repeat split; reflexivity. Qed.

Lemma where_of_no_predicates (qb : QueryBuilder) :
  _where qb = [] -> fst (QueryBuilder._buildWhereClause qb false) = "".
Proof.
  intro H. unfold QueryBuilder._buildWhereClause, Sql.buildWhere. rewrite H. reflexivity.
Qed.

(** Every refusal of [increment] leaves the world as it found it. *)
Lemma increment_refusals :
  forall (qb : QueryBuilder) (field_ : string) (amount : JsNum)
         (returning : option (list string)) (w : World),
    _where qb = [] \/ _joins qb <> [] \/ numericField qb field_ = false \/
    Js.isFinite amount = false ->
    exists e, QueryBuilder.increment qb field_ amount returning w = (Throw (TErr e), w).
Proof.
  intros qb field_ amount returning w H.
  unfold QueryBuilder.increment.
  destruct (Js.isFinite amount) eqn:Hfin; cbn [negb]; [|eexists; reflexivity].
  destruct (_joins qb) as [|j js] eqn:Hj; [|eexists; reflexivity].
  unfold EffM.bind, EffM.lift.
  destruct (QueryBuilder._assertResolvedField qb (QueryBuilder._resolveFieldName qb field_))
    as [x|t] eqn:Ha.
  2:{ unfold QueryBuilder._assertResolvedField in Ha.
      destruct (QueryBuilder.has_dot_or_paren _); [discriminate|].
      destruct (negb _); [|discriminate]. inversion Ha; subst. eexists; reflexivity. }
  unfold numericField in H.
  destruct (QueryBuilder.incrementSchemaField qb field_ _) as [n|] eqn:Hs;
    [|eexists; reflexivity].
  destruct (match Js.get n (schema (modelClass qb)) with
            | Some columnDef => Types.isNumberType columnDef
            | None => false
            end) eqn:Hnum; cbn [negb]; [|eexists; reflexivity].
  destruct H as [H|[H|[H|H]]]; try congruence.
  rewrite (where_of_no_predicates qb H). cbn. eexists; reflexivity.
Qed.

(** C6, as the code has it. [increment] throws, with the world (store
    and journal) untouched, when no WHERE predicate is present, when joins
    are active, when the field's schema entry is not numeric and also when
    the amount is not a finite number. With a finite amount, no joins and
    a field that passes the resolution guard, a non-numeric schema entry
    is refused by an error that names it; and when moreover the RETURNING
    names resolve, the schema entry is numeric and the WHERE clause is not
    empty, exactly one statement is journalled: the parameterized UPDATE
    [SET col = col + $n WHERE ...] whose last parameter is the amount, and
    the rows that come back are remapped to logical names when RETURNING
    was asked for. *)
Theorem increment_contract :
  forall (qb : QueryBuilder) (field_ : string) (amount : JsNum)
         (returning : option (list string)) (w : World),
    (* refusals *)
    (_where qb = [] \/ _joins qb <> [] \/ numericField qb field_ = false \/
     Js.isFinite amount = false ->
     exists e, QueryBuilder.increment qb field_ amount returning w = (Throw (TErr e), w)) /\
    (Js.isFinite amount = true -> _joins qb = [] -> resolvedField qb field_ ->
     (forall n def,
         QueryBuilder.incrementSchemaField qb field_ (QueryBuilder._resolveFieldName qb field_)
         = Some n ->
         Js.get n (schema (modelClass qb)) = Some def ->
         Types.isNumberType def = false ->
         QueryBuilder.increment qb field_ amount returning w
         = (Throw (TErr (Errors.TypeError
              ("QueryBuilder.increment requires a numeric schema field; '" ++ n ++
               "' is not numeric."))), w)) /\
     (* the update *)
     (forall resolvedColumns,
         QueryBuilder.resolveReturning qb (match returning with Some l => l | None => [] end)
         = Ok resolvedColumns ->
         numericField qb field_ = true ->
         fst (QueryBuilder._buildWhereClause qb false) <> "" ->
         let call := incrementCall qb field_ amount resolvedColumns in
         journal (snd (QueryBuilder.increment qb field_ amount returning w))
         = journal w ++ [call] /\
         forall res st,
           query (dal qb) call (store w) = (Ok res, st) ->
           fst (QueryBuilder.increment qb field_ amount returning w)
           = Ok {| QueryBuilder.inc_rowCount := rowCount res;
                   QueryBuilder.inc_rows :=
                     match returning with
                     | Some (_ :: _) =>
                         map (fun row => QueryBuilder.remapRowToCamelCase row
                                           (_fieldMappings (modelClass qb))) (rows res)
                     | _ => []
                     end |})).
Proof.
  intros qb field_ amount returning w.
  split; [apply increment_refusals|].
  intros Hfin Hj Hres. unfold resolvedField in Hres.
  split.
  - intros n def Hs Hg Hn. unfold QueryBuilder.increment.
    rewrite Hfin, Hj. cbn [negb]. unfold EffM.bind, EffM.lift. rewrite Hres, Hs, Hg, Hn.
    reflexivity.
  - intros resolvedColumns Hret Hnum Hw call. unfold numericField in Hnum.
    unfold QueryBuilder.increment.
    rewrite Hfin, Hj. cbn [negb]. unfold EffM.bind, EffM.lift. rewrite Hres.
    destruct (QueryBuilder.incrementSchemaField qb field_ _) as [n|]; [|discriminate].
    rewrite Hnum. cbn [negb].
    apply String.eqb_neq in Hw. rewrite Hw. rewrite Hret.
    unfold DataAccessLayer.run_query. fold (incrementCall qb field_ amount resolvedColumns).
    fold call. destruct (query (dal qb) call (store w)) as [r st] eqn:Q.
    destruct r as [res|t]; cbn [journal snd fst]; split; try reflexivity.
    + intros res0 st0 Heq. inversion Heq; subst. unfold EffM.ret. cbn [fst].
      destruct returning as [[|c cs]|]; reflexivity.
    + intros res0 st0 Heq. discriminate.
Qed.

(** [increment('viewCount', 1, { returning: ['viewCount'] })] scoped by
    [id = 'x']: one UPDATE, and the returned [view_count] comes back as
    [viewCount]; the same call on an unscoped builder is refused. *)
Lemma increment_contract_witness :
  let w := Fixtures.worldOf Fixtures.emptyStore in
  let r := QueryBuilder.increment scopedCounters "viewCount" (NFin 1)
                                  (Some ["viewCount"]) w in
  (map (fun c => (Sql.text (statement c), params c)) (journal (snd r))
   = [("UPDATE counters SET view_count = view_count + $2 WHERE id = $1 RETURNING view_count",
       [VStr "x"; VNum (NFin 1)])] /\
   fst r = Ok {| QueryBuilder.inc_rowCount := 1;
                 QueryBuilder.inc_rows := [[("viewCount", VNum (NFin 2))]] |}) /\
  exists e,
    QueryBuilder.increment (QueryBuilder.new Fixtures.Counters (dal scopedCounters))
                           "viewCount" (NFin 1) None w
    = (Throw (TErr e), w).
Proof.
  intros w r. split.
  - pose proof (increment_contract scopedCounters "viewCount" (NFin 1) (Some ["viewCount"]) w)
      as [_ H].
    destruct (H eq_refl eq_refl eq_refl) as [_ H'].
    destruct (H' ["view_count"] eq_refl eq_refl ltac:(vm_compute; discriminate)) as [Hj Hr].
    split.
    + unfold r. rewrite Hj. reflexivity.
    + unfold r. rewrite (Hr {| rows := [[("view_count", VNum (NFin 2))]]; rowCount := 1 |}
                            (store w) eq_refl). reflexivity.
  - exact (proj1 (increment_contract
                    (QueryBuilder.new Fixtures.Counters (dal scopedCounters))
                    "viewCount" (NFin 1) None w) (or_introl eq_refl)).
Defined.

End IncrementFacts.

(* ================================================================== *)
(** ** Columns of joined queries *)

Module JoinFacts.

(** One team, and one user row as the batched statement returns it. *)
Definition joinDal : Dal :=
  Fixtures.scriptedDal
    [[("id", VStr "t1"); ("title", VStr "Core"); ("owner_id", VStr "u1")]]
    [("_join_source_id", VStr "t1") :: Fixtures.userRow "u1" "Ada" "s3cret" "t1"]
    [("users", Fixtures.Users); ("teams", Fixtures.Teams)].

(** [Team.getJoin({ members: true })] and [Team.getJoin({ owner: true })]. *)
Definition membersJoin : QueryBuilder :=
  QueryBuilder.getJoin (QueryBuilder.new Fixtures.Teams joinDal) [("members", JoinTrue)].
Definition ownerJoin : QueryBuilder :=
  QueryBuilder.getJoin (QueryBuilder.new Fixtures.Teams joinDal) [("owner", JoinTrue)].

Definition statementTexts (w : World) : list string :=
  map (fun c => Sql.text (statement c)) (journal w).

(** The instances a result row carries under a relation name. *)
Definition relatedData (relationName : string) (r : ResultRow) : list JsObject :=
  match Js.get relationName (joined r) with
  | Some (RelMany es) =>
      flat_map (fun e => match e with EInstance i => [_data i] | _ => [] end) es
  | Some (RelOne (EInstance i)) => [_data i]
  | _ => []
  end.

(** C5 does not hold of the batched path. [password] is a sensitive field
    of [users] and is not among its safe columns; the inline join on
    [owner] enumerates the safe columns of both tables; but the batched
    statement for the many-relation [members] selects
    [members_target.*], and the member that [run] attaches carries the
    password the storage returned. *)
Theorem batched_join_selects_every_column :
  let w := Fixtures.worldOf Fixtures.emptyStore in
  let r := QueryBuilder.run membersJoin w in
  Model.getSensitiveFieldNames Fixtures.Users = ["password"] /\
  Model.getSafeColumnNames Fixtures.Users = ["id"; "name"; "team_id"] /\
  (exists call q,
      QueryBuilder._buildSelectQuery ownerJoin = Ok call /\
      statement call = Select q /\
      sel_items q = [Col "teams" "id"; Col "teams" "title"; Col "teams" "owner_id";
                     ColAs "users" "id" "owner_id"; ColAs "users" "name" "owner_name";
                     ColAs "users" "team_id" "owner_team_id"]) /\
  statementTexts (snd r)
  = ["SELECT teams.id, teams.title, teams.owner_id FROM teams";
     "SELECT members_target.*, members_target.team_id AS _join_source_id FROM users members_target WHERE members_target.team_id = ANY($1)"] /\
  (exists row, fst r = Ok [row] /\
               relatedData "members" row
               = [[("id", VStr "u1"); ("name", VStr "Ada"); ("password", VStr "s3cret");
                   ("team_id", VStr "t1")]]).
Proof.
  cbv zeta. split; [reflexivity|]. split; [reflexivity|]. split.
  - eexists. eexists. split; [reflexivity|]. split; reflexivity.
  - split; [reflexivity|]. eexists. split; reflexivity.
Qed.

End JoinFacts.

(* ================================================================== *)
(** ** Guarded reads *)

Module GuardedReadFacts.

Import GuardedFacts.

(** A table whose one row is live and has a version-1 UUID for id. *)
Definition v1World : World :=
  Fixtures.worldOf
    (Fixtures.revisionsStore [Fixtures.revisionRow Fixtures.v1Id VNull false]).

(** C4 as stated fails on a well-formed UUID of another version than 4.
    The id passes the [uuid()] validator of the id field, storage reads it
    as a uuid, and the row that carries it is live ([Model.get], which has
    no guard, returns it); but the guarded read neither fetches nor
    returns it: it throws [InvalidUUIDError] and sends nothing. *)
Lemma well_formed_v1_id_is_refused :
  Types.uuid_validator (VStr Fixtures.v1Id) = Ok true /\
  Postgres.uuid_in Fixtures.v1Id = Some Fixtures.v1Id /\
  (exists res w',
      ModelStatics.get Fixtures.revisionsDal Fixtures.Revisions Fixtures.v1Id None [] v1World
      = (Ok res, w') /\
      _data (instance res) = Fixtures.revisionRow Fixtures.v1Id VNull false) /\
  Revision.getNotStaleOrDeleted Fixtures.revisionsDal Fixtures.Revisions Fixtures.v1Id []
                                v1World
  = (Throw (TErr (Errors.InvalidUUIDError "Invalid revisions address format")), v1World) /\
  ~ (exists res w',
        Revision.getNotStaleOrDeleted Fixtures.revisionsDal Fixtures.Revisions
                                      Fixtures.v1Id [] v1World
        = (Ok res, w')).
Proof.
  split; [reflexivity|]. split; [vm_compute; reflexivity|]. split; [|split].
  - eexists. eexists. split; vm_compute; reflexivity.
  - vm_compute. reflexivity.
  - intros (res & w' & H). vm_compute in H. discriminate.
Qed.

(** C4, as the code has it. An id that is not a version-4 UUID, a
    well-formed UUID of another version included, is refused with
    [InvalidUUIDError] and the world, journal included, is as before:
    nothing was sent to storage. For a version-4 UUID, in either case of
    its digits (on a model whose [id] property is the [id] column), the
    lookup carries the id predicate alone - neither revision guard,
    whether or not the entity has revisions - and the outcome is decided
    by what it fetches: nothing fetched throws [DocumentNotFound], a first
    row whose deleted flag is set throws the [RevisionDeletedError], else
    one whose archived-marker is set throws the [RevisionStaleError], else
    that row is returned. Over the relational store, on a revision-enabled
    model, that is decided by the first row of the table whose id is the
    uuid the text spells, whatever its revision columns say; the read
    sends one SELECT and leaves the store as it was. *)
Theorem guarded_read_contract :
  forall (d : Dal) (M : ModelClass) (id_ : string) (w : World),
    (Revision.isUUID_v4 id_ = false ->
     forall joinOptions,
       Revision.getNotStaleOrDeleted d M id_ joinOptions w
       = (Throw (TErr (Errors.InvalidUUIDError
                         ("Invalid " ++ tableName M ++ " address format"))), w) /\
       cls (Errors.InvalidUUIDError ("Invalid " ++ tableName M ++ " address format"))
       = CInvalidUUIDError) /\
    (Revision.isUUID_v4 id_ = true ->
     forall hasRevisions_,
       filterWhereStatic M = Some hasRevisions_ ->
       Model._getDbFieldName M "id" = "id" ->
       _where (guardedLookup d M id_) = [idPredicate id_] /\
       Revision.getNotStaleOrDeleted d M id_ [] w
       = (classify M id_ (fst (QueryBuilder.run (guardedLookup d M id_) w)),
          snd (QueryBuilder.run (guardedLookup d M id_) w))) /\
    (Revision.isUUID_v4 id_ = true ->
     RevisionModelFacts.RevisionModel M -> QueryFacts.DefaultsTotal M ->
     query d = Postgres.exec ->
     forall t,
       Js.get (tableName M) (tables (store w)) = Some t ->
       exists answer w',
         Revision.getNotStaleOrDeleted d M id_ [] w = (answer, w') /\
         store w' = store w /\
         journal w' = journal w ++ [QueryFacts.selectCall (guardedLookup d M id_)] /\
         verdict M id_ (records t) answer).
Proof.
  intros d M id_ w. split; [|split].
  3:{ intros Hok HM HD Hd t Ht. apply (guarded_read_on_store M d id_ w t); assumption. }
  - intros Hbad joinOptions. unfold Revision.getNotStaleOrDeleted. rewrite Hbad.
    split; reflexivity.
  - intros Hok hasRevisions_ Hfw Hid. split; [apply guardedLookup_where; exact Hid|].
    apply (guarded_read_classifies d M id_ w hasRevisions_ Hok Hfw Hid).
Qed.

(** The outcomes on the fixture table: a live row, asked for in lower
    and in upper case, a deleted one, an archived one, and an id that
    matches nothing; and an id that is no UUID. *)
Definition outcome (id_ : string) : Result JsObject :=
  match fst (Revision.getNotStaleOrDeleted Fixtures.revisionsDal Fixtures.Revisions
               id_ [] Fixtures.mixedRows) with
  | Ok r => Ok (_data (instance r))
  | Throw t => Throw t
  end.

Lemma guarded_read_contract_witness :
  outcome Fixtures.liveId = Ok (Fixtures.revisionRow Fixtures.liveId VNull false) /\
  outcome "AAAAAAAA-AAAA-4AAA-8AAA-AAAAAAAAAAA1"
  = Ok (Fixtures.revisionRow Fixtures.liveId VNull false) /\
  outcome Fixtures.deletedId = Throw (TErr Revision.deletedError) /\
  outcome Fixtures.archivedId = Throw (TErr Revision.staleError) /\
  outcome Fixtures.missingId
  = Throw (TErr (Errors.DocumentNotFound
                   ("revisions with id " ++ Fixtures.missingId ++ " not found"))) /\
  Revision.getNotStaleOrDeleted Fixtures.revisionsDal Fixtures.Revisions "not-a-uuid" []
                                Fixtures.mixedRows
  = (Throw (TErr (Errors.InvalidUUIDError "Invalid revisions address format")), Fixtures.mixedRows).
Proof.
  assert (H : forall id_, Revision.isUUID_v4 id_ = true ->
                outcome id_
                = match classify Fixtures.Revisions id_
                          (fst (QueryBuilder.run
                                  (guardedLookup Fixtures.revisionsDal Fixtures.Revisions id_)
                                  Fixtures.mixedRows)) with
                  | Ok r => Ok (_data (instance r))
                  | Throw t => Throw t
                  end).
  { intros id_ Hok. unfold outcome.
    rewrite (proj2 (proj1 (proj2 (guarded_read_contract Fixtures.revisionsDal
                                    Fixtures.Revisions id_ Fixtures.mixedRows))
                             Hok true eq_refl eq_refl)).
    reflexivity. }
  split; [rewrite (H Fixtures.liveId eq_refl); vm_compute; reflexivity|].
  split; [rewrite (H "AAAAAAAA-AAAA-4AAA-8AAA-AAAAAAAAAAA1" eq_refl); vm_compute;
          reflexivity|].
  split; [rewrite (H Fixtures.deletedId eq_refl); vm_compute; reflexivity|].
  split; [rewrite (H Fixtures.archivedId eq_refl); vm_compute; reflexivity|].
  split; [rewrite (H Fixtures.missingId eq_refl); vm_compute; reflexivity|].
  exact (proj1 (proj1 (guarded_read_contract Fixtures.revisionsDal Fixtures.Revisions
                         "not-a-uuid" Fixtures.mixedRows) eq_refl [])).
Defined.

End GuardedReadFacts.


(* ================================================================== *)
(** ** The revision invariant *)

Module RevisionFacts.

Import RevisionModelFacts LineageFacts ScenarioFacts.

(** One cycle as the caller writes it: who revises, the tags, and the
    properties edited before [save]. *)
Record Cycle := {
  cycle_user : option JsObject;
  cycle_tags : Value;
  cycle_edits : list (string * Value)
}.

(** Successive [newRevision]+[save] cycles on the instance the caller
    holds. *)
Fixpoint reviseRepeatedly (d : Dal) (M : ModelClass) (inst : Instance)
         (cycles : list Cycle) : Eff Instance :=
  match cycles with
  | [] => EffM.ret inst
  | c :: rest =>
      inst' <- reviseAndSave d M inst (cycle_user c) (cycle_tags c) (cycle_edits c) ;;
      reviseRepeatedly d M inst' rest
  end.

Definition editsAllowed (M : ModelClass) (c : Cycle) : Prop :=
  Forall (fun kv => editable M (fst kv)) (cycle_edits c).

Lemma reviseRepeatedly_lineage (M : ModelClass) (d : Dal) (L : string) :
  RevisionModel M -> query d = Postgres.exec ->
  forall (cycles : list Cycle) (n : nat) (inst inst' : Instance) (w w' : World) (t : Table),
    Attached M L inst ->
    Js.get (tableName M) (tables (store w)) = Some t ->
    Lineage L n (records t) ->
    Forall (editsAllowed M) cycles ->
    reviseRepeatedly d M inst cycles w = (Ok inst', w') ->
    Attached M L inst' /\
    exists t', Js.get (tableName M) (tables (store w')) = Some t' /\
               Lineage L (n + length cycles) (records t').
Proof.
  intros HM Hd. induction cycles as [|c rest IH]; intros n inst inst' w w' t Hat Ht Hlin Hall Hrun.
  - cbn in Hrun. inversion Hrun; subst. split; [exact Hat|].
    exists t. split; [exact Ht|]. rewrite Nat.add_0_r. exact Hlin.
  - cbn [reviseRepeatedly] in Hrun. unfold EffM.bind at 1 in Hrun.
    destruct (reviseAndSave d M inst (cycle_user c) (cycle_tags c) (cycle_edits c) w)
      as [[i1|e] w1] eqn:Hstep; [|discriminate].
    inversion Hall as [|? ? Hc Hrest]; subst.
    destruct (revise_step M HM d Hd L n inst i1 _ _ _ w w1 t Hat Ht Hlin Hc Hstep)
      as (archive & update & assigned & R).
    destruct R as [(t1 & Ht1 & _) _ _ _ _ _ _ _ _ _ Hlin1 Hat1 _].
    destruct (IH (S n) i1 inst' w1 w' t1 Hat1 Ht1 (Hlin1 t1 Ht1) Hrest Hrun)
      as (Hat' & t' & Ht' & Hlin').
    split; [exact Hat'|]. exists t'. split; [exact Ht'|].
    cbn [length]. rewrite Nat.add_succ_r. exact Hlin'.
Qed.

(** *** The scenario on the fixture table *)

Definition edit (title : string) : Cycle :=
  {| cycle_user := Fixtures.testUser; cycle_tags := VArr [VStr "edit"];
     cycle_edits := [("title", VStr title)] |}.

(** The first revision followed by the given cycles. *)
Definition afterCycles (cycles : list Cycle) : Result Instance * World :=
  reviseRepeatedly Fixtures.revisionsDal Fixtures.Revisions savedInstance cycles
                   (snd firstSaved).

Definition rowsAfter (cycles : list Cycle) : list Row :=
  rowsOf "revisions" (store (snd (afterCycles cycles))).

(** C1 as stated fails at [N = 1]. After the first revision is saved and
    one [newRevision]+[save] cycle has succeeded, the table holds two rows
    for the document, one of them archived under its id: the claim's
    [N - 1 = 0] archived rows and [N = 1] rows in all are both off by
    one. *)
Lemma one_cycle_leaves_two_rows :
  let N := 1 in
  (exists i w, firstSaved = (Ok i, w) /\ rowsOf "revisions" (store w) <> [] /\
               length (family docId (rowsOf "revisions" (store w))) = 1) /\
  (exists i w, afterCycles [edit "v2"] = (Ok i, w)) /\
  length (filter (archives docId) (rowsAfter [edit "v2"])) = 1 /\
  length (family docId (rowsAfter [edit "v2"])) = 2 /\
  ~ (length (filter (archives docId) (rowsAfter [edit "v2"])) = N - 1 /\
     length (family docId (rowsAfter [edit "v2"])) = N).
Proof.
  cbv zeta. split; [|split; [|split; [|split]]].
  - eexists. eexists. split; [vm_compute; reflexivity|].
    split; [vm_compute; discriminate | vm_compute; reflexivity].
  - eexists. eexists. vm_compute. reflexivity.
  - vm_compute. reflexivity.
  - vm_compute. reflexivity.
  - intros [H _]. vm_compute in H. discriminate.
Qed.

(** C1, as the code has it. On a revision-enabled model, over the
    relational store, for the live row of logical id [L]: every successful
    [newRevision]+[save] cycle sends one INSERT that does not name the
    [id] column and binds [_old_rev_of] to [L], so that storage appends one
    row under an identity of its own, archived under [L] and holding the
    instance's values; then one UPDATE by id that leaves [id],
    [_old_rev_of] and [_rev_deleted] alone and writes the fresh revision
    id, user, date and tags to the row in place. Hence, starting from the
    one live row of a saved first revision, after [N] successful cycles
    the document has exactly one row that is current and not deleted,
    exactly [N] rows archived under [L], and [N + 1] rows in all. *)
Theorem revision_cycles_archive_one_row_each :
  forall (M : ModelClass) (d : Dal) (L : string),
    RevisionModel M -> query d = Postgres.exec ->
    (forall n inst user tags edits w t inst' w',
        Attached M L inst ->
        Js.get (tableName M) (tables (store w)) = Some t ->
        Lineage L n (records t) ->
        Forall (fun kv => editable M (fst kv)) edits ->
        reviseAndSave d M inst user tags edits w = (Ok inst', w') ->
        exists archive update assigned,
          Revised M L n inst user tags w t inst' w' archive update assigned) /\
    (forall cycles inst w t inst' w',
        Attached M L inst ->
        Js.get (tableName M) (tables (store w)) = Some t ->
        Lineage L 0 (records t) ->
        Forall (editsAllowed M) cycles ->
        reviseRepeatedly d M inst cycles w = (Ok inst', w') ->
        let rs := rowsOf (tableName M) (store w') in
        let N := length cycles in
        length (filter (fun r => isCurrent r && notDeleted r) (family L rs)) = 1 /\
        length (filter (archives L) (family L rs)) = N /\
        length (family L rs) = N + 1).
Proof.
  intros M d L HM Hd. split.
  - intros n inst user tags edits w t inst' w'. apply (revise_step M HM d Hd).
  - intros cycles inst w t inst' w' Hat Ht Hlin Hall Hrun.
    destruct (reviseRepeatedly_lineage M d L HM Hd cycles 0 inst inst' w w' t
                Hat Ht Hlin Hall Hrun) as (_ & t' & Ht' & Hlin').
    cbv zeta. unfold rowsOf. rewrite Ht'. apply lineage_counts. exact Hlin'.
Qed.

Lemma edits_allowed (title : string) : editsAllowed Fixtures.Revisions (edit title).
Proof.
  unfold editsAllowed, edit. cbn. constructor; [|constructor].
  unfold editable. cbn. intuition discriminate.
Qed.

(** Two cycles on the fixture: one live row, two archived, three in all. *)
Lemma revision_cycles_archive_one_row_each_witness :
  let rs := rowsAfter [edit "v2"; edit "v3"] in
  length (filter (fun r => isCurrent r && notDeleted r) (family docId rs)) = 1 /\
  length (filter (archives docId) (family docId rs)) = 2 /\
  length (family docId rs) = 3.
Proof.
  destruct firstSaved_lineage as (t & Ht & Hlin).
  refine (proj2 (revision_cycles_archive_one_row_each
                   Fixtures.Revisions Fixtures.revisionsDal docId
                   FixtureFacts.revisions_model eq_refl)
                [edit "v2"; edit "v3"] savedInstance (snd firstSaved) t
                (match fst (afterCycles [edit "v2"; edit "v3"]) with
                 | Ok i => i
                 | Throw _ => Model.empty_instance
                 end)
                (snd (afterCycles [edit "v2"; edit "v3"]))
                savedInstance_attached Ht Hlin _ _).
  - constructor; [apply edits_allowed|]. constructor; [apply edits_allowed|constructor].
  - vm_compute. reflexivity.
Defined.

End RevisionFacts.

(* ================================================================== *)
(** ** Default revision filtering *)

Module FilterFacts.

Import RevisionModelFacts LineageFacts GuardedFacts.

(** One call of a chaining method of the filter builder. *)
Inductive ChainCall :=
| CallAnd (literal : Literal)
| CallOr (literal : Literal)
| CallIncludeDeleted
| CallIncludeStale
| CallIncludeSensitive (fields : list string)
| CallGetAllRevisions (documentId : Value)
| CallGetRevisionByRevId (revId documentId : Value)
| CallRevisionData (literal : Literal)
| CallOrderBy (field_ : string) (dir : Direction)
| CallOrderByRelation (relation field_ : string) (dir : Direction)
| CallLimit (count_ : Z)
| CallOffset (count_ : Z)
| CallGetJoin (joinSpec : list (string * JoinRelationOptions))
| CallWhereIn (field_ : string) (values : Value) (cast_ : option string)
| CallWhereRelated (relation field_ : string) (value : Value) (operator : string)
| CallGroupBy (fields : list string).

Definition call (b : FilterWhereBuilder) (c : ChainCall) : Result FilterWhereBuilder :=
  match c with
  | CallAnd literal => FilterWhere.and b literal
  | CallOr literal => FilterWhere.or b literal
  | CallIncludeDeleted => Ok (FilterWhere.includeDeleted b)
  | CallIncludeStale => Ok (FilterWhere.includeStale b)
  | CallIncludeSensitive fields => Ok (FilterWhere.includeSensitive b fields)
  | CallGetAllRevisions documentId => Ok (FilterWhere.getAllRevisions b documentId)
  | CallGetRevisionByRevId revId documentId =>
      Ok (FilterWhere.getRevisionByRevId b revId documentId)
  | CallRevisionData literal => FilterWhere.revisionData b literal
  | CallOrderBy field_ dir => FilterWhere.orderBy b field_ dir
  | CallOrderByRelation relation field_ dir =>
      Ok (FilterWhere.orderByRelation b relation field_ dir)
  | CallLimit count_ => Ok (FilterWhere.limit b count_)
  | CallOffset count_ => Ok (FilterWhere.offset b count_)
  | CallGetJoin joinSpec => Ok (FilterWhere.getJoin b joinSpec)
  | CallWhereIn field_ values cast_ => FilterWhere.whereIn b field_ values cast_
  | CallWhereRelated relation field_ value operator =>
      Ok (FilterWhere.whereRelated b relation field_ value operator)
  | CallGroupBy fields => FilterWhere.groupBy b fields
  end.

(** A chain of calls, left to right. *)
Definition chain (b : FilterWhereBuilder) (calls : list ChainCall)
  : Result FilterWhereBuilder :=
  ResultM.foldM call calls b.

Definition liftsDeleted (c : ChainCall) : bool :=
  match c with
  | CallIncludeDeleted | CallGetAllRevisions _ | CallGetRevisionByRevId _ _ => true
  | _ => false
  end.

Definition liftsStale (c : ChainCall) : bool :=
  match c with
  | CallIncludeStale | CallGetAllRevisions _ | CallGetRevisionByRevId _ _ => true
  | _ => false
  end.

(** The guards [_ensureRevisionFilters] still owes a builder. *)
Definition owedGuards (b : FilterWhereBuilder) : list Predicate :=
  if _revisionFiltersApplied b || negb (_hasRevisions b) then []
  else
    (if _includeStale b then []
     else [Basic None (QueryBuilder._resolveFieldName (_builder b) "_old_rev_of")
                 "IS" (Some VNull) None])
    ++ (if _includeDeleted b then []
        else [Basic None (QueryBuilder._resolveFieldName (_builder b) "_rev_deleted")
                    "=" (Some (VBool false)) (Some TIdentity)]).

(** Same flags, possibly another query builder. *)
Definition sameFlags (b b' : FilterWhereBuilder) : Prop :=
  _hasRevisions b' = _hasRevisions b /\
  _includeDeleted b' = _includeDeleted b /\
  _includeStale b' = _includeStale b /\
  _revisionFiltersApplied b' = _revisionFiltersApplied b.

Lemma sameFlags_refl (b : FilterWhereBuilder) : sameFlags b b.
Proof. repeat split. Qed.

Lemma sameFlags_with_builder (b : FilterWhereBuilder) (qb : QueryBuilder) :
  sameFlags b (FilterWhere.with_builder b qb).
Proof. repeat split. Qed.

Lemma createFieldPredicate_flags (b b' : FilterWhereBuilder) (field_ : string)
      (value : LiteralValue) (mutate : bool) (p : option Predicate) :
  FilterWhere._createFieldPredicate b field_ value mutate = Ok (p, b') -> sameFlags b b'.
Proof.
  unfold FilterWhere._createFieldPredicate.
  destruct value as [v|o].
  - destruct v;
      try (intro H; inversion H; subst; apply sameFlags_refl);
      (destruct (QueryBuilder._assertResolvedField _ _); [|discriminate]);
      (destruct (FilterWhere.condition_ _ _ _ _ _ _) as [q qb]);
      intro H; inversion H; subst; apply sameFlags_with_builder.
  - destruct (QueryBuilder._assertResolvedField _ _); [|discriminate].
    destruct (FilterWhere.build _ _ _ _) as [q qb].
    intro H. inversion H; subst. apply sameFlags_with_builder.
Qed.

Lemma sameFlags_trans (b1 b2 b3 : FilterWhereBuilder) :
  sameFlags b1 b2 -> sameFlags b2 b3 -> sameFlags b1 b3.
Proof.
  intros (H1 & H2 & H3 & H4) (H5 & H6 & H7 & H8). repeat split; congruence.
Qed.

Lemma applyEach_flags (literal : Literal) (mutate : bool) :
  forall b b', FilterWhere.applyEach b literal mutate = Ok b' -> sameFlags b b'.
Proof.
  induction literal as [|[k v] r IH]; intros b b' H; cbn in H.
  - inversion H; subst. apply sameFlags_refl.
  - destruct (FilterWhere._createFieldPredicate b k v mutate) as [[p b1]|t] eqn:E;
      [|discriminate].
    apply (sameFlags_trans b b1 b'); [|apply IH; exact H].
    apply (createFieldPredicate_flags b b1 k v mutate p E).
Qed.

Lemma applyLiteral_flags (b b' : FilterWhereBuilder) (literal : Literal) (mutate : bool)
      (cj : Conjunction) :
  FilterWhere._applyLiteral b literal mutate cj = Ok b' -> sameFlags b b'.
Proof.
  unfold FilterWhere._applyLiteral. destruct cj.
  - apply applyEach_flags.
  - destruct (FilterWhere.collectPredicates b literal) as [[|p ps]|t];
      intro H; inversion H; subst;
      [apply sameFlags_refl | apply sameFlags_with_builder].
Qed.

(** What one call does to the flags: only the [include] calls (and the
    all-revisions lookups) touch them, and none touches the marker of
    applied filters. *)
Lemma call_flags (b b' : FilterWhereBuilder) (c : ChainCall) :
  call b c = Ok b' ->
  _hasRevisions b' = _hasRevisions b /\
  _revisionFiltersApplied b' = _revisionFiltersApplied b /\
  _includeDeleted b' = _includeDeleted b || liftsDeleted c /\
  _includeStale b' = _includeStale b || liftsStale c.
Proof.
  assert (Hsame : sameFlags b b' ->
                  liftsDeleted c = false -> liftsStale c = false ->
                  _hasRevisions b' = _hasRevisions b /\
                  _revisionFiltersApplied b' = _revisionFiltersApplied b /\
                  _includeDeleted b' = _includeDeleted b || liftsDeleted c /\
                  _includeStale b' = _includeStale b || liftsStale c).
  { intros (H1 & H2 & H3 & H4) Hd Hs. rewrite Hd, Hs, !Bool.orb_false_r. tauto. }
  destruct c; cbn [call]; intro H.
  - apply Hsame; [|reflexivity|reflexivity]. apply (applyLiteral_flags _ _ _ _ _ H).
  - apply Hsame; [|reflexivity|reflexivity]. apply (applyLiteral_flags _ _ _ _ _ H).
  - inversion H; subst. cbn. rewrite Bool.orb_true_r, Bool.orb_false_r. tauto.
  - inversion H; subst. cbn. rewrite Bool.orb_true_r, Bool.orb_false_r. tauto.
  - inversion H; subst. apply Hsame; [apply sameFlags_with_builder|reflexivity|reflexivity].
  - inversion H; subst. cbn. rewrite !Bool.orb_true_r. tauto.
  - inversion H; subst. cbn. rewrite !Bool.orb_true_r. tauto.
  - apply Hsame; [|reflexivity|reflexivity]. apply (applyEach_flags _ _ _ _ H).
  - apply Hsame; [|reflexivity|reflexivity].
    unfold FilterWhere.orderBy, ResultM.bind in H.
    destruct (FilterWhere.resolved b field_); inversion H; subst.
    apply sameFlags_with_builder.
  - inversion H; subst. apply Hsame; [apply sameFlags_with_builder|reflexivity|reflexivity].
  - inversion H; subst. apply Hsame; [apply sameFlags_with_builder|reflexivity|reflexivity].
  - inversion H; subst. apply Hsame; [apply sameFlags_with_builder|reflexivity|reflexivity].
  - inversion H; subst. apply Hsame; [|reflexivity|reflexivity].
    unfold FilterWhere.getJoin. destruct joinSpec;
      [apply sameFlags_refl|apply sameFlags_with_builder].
  - apply Hsame; [|reflexivity|reflexivity].
    unfold FilterWhere.whereIn, ResultM.bind in H.
    destruct (FilterWhere.resolved b field_); inversion H; subst.
    apply sameFlags_with_builder.
  - inversion H; subst. apply Hsame; [apply sameFlags_with_builder|reflexivity|reflexivity].
  - apply Hsame; [|reflexivity|reflexivity].
    unfold FilterWhere.groupBy, ResultM.bind in H.
    destruct (ResultM.foldM _ fields []); inversion H; subst.
    apply sameFlags_with_builder.
Qed.

Lemma chain_flags (calls : list ChainCall) :
  forall b b',
    chain b calls = Ok b' ->
    _hasRevisions b' = _hasRevisions b /\
    _revisionFiltersApplied b' = _revisionFiltersApplied b /\
    _includeDeleted b' = _includeDeleted b || existsb liftsDeleted calls /\
    _includeStale b' = _includeStale b || existsb liftsStale calls.
Proof.
  unfold chain. induction calls as [|c r IH]; intros b b' H; cbn in H.
  - inversion H; subst. cbn. rewrite !Bool.orb_false_r. tauto.
  - unfold ResultM.bind in H. destruct (call b c) as [b1|t] eqn:E; [|discriminate].
    destruct (call_flags b b1 c E) as (H1 & H2 & H3 & H4).
    destruct (IH b1 b' H) as (H5 & H6 & H7 & H8).
    cbn [existsb]. rewrite H5, H6, H7, H8, H1, H2, H3, H4, !Bool.orb_assoc. tauto.
Qed.

(** *** Injection at execution *)

Lemma set_where_same (qb : QueryBuilder) : QueryBuilder.set_where qb (_where qb) = qb.
Proof. destruct qb; reflexivity. Qed.

Lemma ensure_applied (b : FilterWhereBuilder) :
  _revisionFiltersApplied (FilterWhere._ensureRevisionFilters b) = true.
Proof.
  unfold FilterWhere._ensureRevisionFilters.
  destruct (_revisionFiltersApplied b) eqn:E; [exact E|].
  destruct (negb (_hasRevisions b)); reflexivity.
Qed.

Lemma ensure_idempotent (b : FilterWhereBuilder) :
  FilterWhere._ensureRevisionFilters (FilterWhere._ensureRevisionFilters b)
  = FilterWhere._ensureRevisionFilters b.
Proof.
  unfold FilterWhere._ensureRevisionFilters at 1. rewrite ensure_applied. reflexivity.
Qed.

(** [_ensureRevisionFilters] appends the owed guards to the predicates
    and changes nothing else of the query. *)
Lemma ensure_spec (b : FilterWhereBuilder) :
  let b1 := FilterWhere._ensureRevisionFilters b in
  _builder b1 = QueryBuilder.set_where (_builder b) (_where (_builder b) ++ owedGuards b) /\
  _hasRevisions b1 = _hasRevisions b /\
  _includeDeleted b1 = _includeDeleted b /\
  _includeStale b1 = _includeStale b.
Proof.
  cbv zeta. unfold FilterWhere._ensureRevisionFilters, owedGuards.
  destruct (_revisionFiltersApplied b) eqn:Ea; cbn [orb].
  - rewrite app_nil_r, set_where_same. repeat split.
  - destruct (_hasRevisions b) eqn:Eh; cbn [negb _builder _hasRevisions _includeDeleted
                                              _includeStale].
    + destruct (_includeStale b), (_includeDeleted b); cbn [negb app];
        repeat split;
        try (rewrite app_nil_r, set_where_same; reflexivity);
        destruct (_builder b); cbn; rewrite <- ?app_assoc; reflexivity.
    + rewrite app_nil_r, set_where_same. repeat split.
Qed.

(** Each execution method runs the builder with the guards in place:
    executing [b] is executing [_ensureRevisionFilters b]. *)
Lemma executions_run_guarded (b : FilterWhereBuilder) (w : World) :
  let g := FilterWhere._ensureRevisionFilters b in
  FilterWhere.run b w = FilterWhere.run g w /\
  FilterWhere.first b w = FilterWhere.first g w /\
  FilterWhere.count b w = FilterWhere.count g w /\
  (forall field_, FilterWhere.average b field_ w = FilterWhere.average g field_ w) /\
  FilterWhere.delete b w = FilterWhere.delete g w /\
  (forall n, FilterWhere.sample b n w = FilterWhere.sample g n w) /\
  (forall func field_,
      FilterWhere.aggregateGrouped b func field_ w
      = FilterWhere.aggregateGrouped g func field_ w) /\
  (forall options,
      FilterWhere.chronologicalFeed b options w = FilterWhere.chronologicalFeed g options w).
Proof.
  cbv zeta.
  unfold FilterWhere.run, FilterWhere.first, FilterWhere.count, FilterWhere.average,
    FilterWhere.delete, FilterWhere.sample, FilterWhere.aggregateGrouped,
    FilterWhere.chronologicalFeed.
  rewrite ensure_idempotent. repeat split.
Qed.

(** *** What the guarded query returns *)

(** The rows a builder with the given [include] flags lets through. *)
Definition visible (includeDeleted includeStale : bool) (r : Row) : bool :=
  (includeStale || isCurrent r) && (includeDeleted || notDeleted r).

Lemma passes_owed_guards (M : ModelClass) (b : FilterWhereBuilder) (row : Row) :
  RevisionModel M -> modelClass (_builder b) = M ->
  _hasRevisions b = true -> _revisionFiltersApplied b = false ->
  Postgres.passes (tableName M) (owedGuards b) row
  = Some (visible (_includeDeleted b) (_includeStale b) row).
Proof.
  intros HM Hm Hh Ha. unfold owedGuards, QueryBuilder._resolveFieldName.
  rewrite Ha, Hh, Hm. cbn [orb negb].
  rewrite (reserved_fixed M HM "_old_rev_of") by (cbn; tauto).
  rewrite (reserved_fixed M HM "_rev_deleted") by (cbn; tauto).
  unfold visible, isCurrent, notDeleted, Postgres.matches.
  destruct (_includeStale b), (_includeDeleted b); cbn [app orb andb Postgres.passes
    Postgres.evalPredicate Postgres.castOperand Postgres.castOf];
    unfold Postgres.evalBasic; cbn [Postgres.toSql].
  - reflexivity.
  - destruct (Postgres.sql_eq _ _); reflexivity.
  - destruct (Postgres.columnValue "_old_rev_of" row); reflexivity.
  - destruct (Postgres.columnValue "_old_rev_of" row);
      destruct (Postgres.sql_eq _ _); reflexivity.
Qed.

Lemma Forall2_length_eq {A B} (R : A -> B -> Prop) (l1 : list A) (l2 : list B) :
  Forall2 R l1 l2 -> length l1 = length l2.
Proof. induction 1; cbn; congruence. Qed.

Lemma Forall2_map_r {A B C} (R : A -> C -> Prop) (g : B -> C) (l1 : list A) (l2 : list B) :
  Forall2 R l1 (map g l2) -> Forall2 (fun a b => R a (g b)) l1 l2.
Proof.
  revert l1. induction l2 as [|y r IH]; intros l1 H; inversion H; subst; constructor.
  - assumption.
  - apply IH. assumption.
Qed.

Lemma Forall2_Forall_l {A B} (R : A -> B -> Prop) (P : A -> Prop) (Q : B -> Prop)
      (l1 : list A) (l2 : list B) :
  Forall2 R l1 l2 -> Forall Q l2 -> (forall a b, R a b -> Q b -> P a) -> Forall P l1.
Proof.
  intros H HQ Hstep. induction H as [|a b r1 r2 Hab _ IH]; constructor.
  - inversion HQ; subst. apply (Hstep a b); assumption.
  - apply IH. inversion HQ; assumption.
Qed.

(** A fresh builder with its [include] flags set, run over the store:
    the results are exactly the visible rows of the table, hydrated from
    the selected columns, in table order. *)
Lemma guarded_run (M : ModelClass) (d : Dal) (b : FilterWhereBuilder) (w : World)
      (t : Table) :
  RevisionModel M -> QueryFacts.DefaultsTotal M -> query d = Postgres.exec ->
  _builder b = QueryBuilder.new M d ->
  _hasRevisions b = true -> _revisionFiltersApplied b = false ->
  Js.get (tableName M) (tables (store w)) = Some t ->
  exists results w',
    FilterWhere.run b w = (Ok (results, FilterWhere._ensureRevisionFilters b), w') /\
    store w' = store w /\
    journal w'
    = journal w ++ [QueryFacts.selectCall (_builder (FilterWhere._ensureRevisionFilters b))] /\
    Forall2 (fun res row =>
               QueryFacts.hydrates M res
                 (QueryFacts.projected (Model.getColumnNames M []) row))
            results
            (filter (visible (_includeDeleted b) (_includeStale b)) (records t)).
Proof.
  intros HM HD Hd Hb Hh Ha Ht.
  destruct (ensure_spec b) as (Hb1 & _). cbv zeta in Hb1.
  set (g := FilterWhere._ensureRevisionFilters b) in *.
  assert (Hw : _where (_builder g) = owedGuards b) by (rewrite Hb1, Hb; reflexivity).
  assert (Hplain : QueryFacts.plain (_builder g))
    by (rewrite Hb1, Hb; repeat split).
  assert (Hmc : modelClass (_builder g) = M) by (rewrite Hb1, Hb; reflexivity).
  assert (Hdal : query (dal (_builder g)) = Postgres.exec)
    by (rewrite Hb1, Hb; exact Hd).
  assert (Hlim : _limit (_builder g) = None /\ _offset (_builder g) = None /\
                 _includeSensitive (_builder g) = [])
    by (rewrite Hb1, Hb; repeat split).
  destruct Hlim as (Hl & Ho & Hi).
  destruct (QueryFacts.run_plain (_builder g) w t
              (filter (visible (_includeDeleted b) (_includeStale b)) (records t))
              Hplain Hdal)
    as (results & Hrun & Hall).
  - rewrite Hmc. exact HD.
  - rewrite Hmc. exact Ht.
  - rewrite Hmc, Hw. apply QueryFacts.selectRows_filter. intro row.
    apply passes_owed_guards; try assumption. rewrite Hb. reflexivity.
  - exists results. eexists. unfold FilterWhere.run. fold g.
    unfold EffM.bind. rewrite Hrun. unfold EffM.ret.
    split; [reflexivity|]. split; [reflexivity|]. split; [reflexivity|].
    rewrite Hmc, Hl, Ho, Hi in Hall. cbn [Postgres.paginate] in Hall.
    apply Forall2_map_r. exact Hall.
Qed.

Definition isInclude (c : ChainCall) : Prop :=
  c = CallIncludeDeleted \/ c = CallIncludeStale.

Lemma include_calls_keep_query (calls : list ChainCall) :
  Forall isInclude calls ->
  forall b, exists b', chain b calls = Ok b' /\ _builder b' = _builder b.
Proof.
  unfold chain. induction 1 as [|c r Hc _ IH]; intro b.
  - exists b. split; reflexivity.
  - cbn [ResultM.foldM]. destruct Hc as [Hc|Hc]; subst c; cbn [call ResultM.bind].
    + destruct (IH (FilterWhere.includeDeleted b)) as (b' & H1 & H2).
      exists b'. split; [exact H1|exact H2].
    + destruct (IH (FilterWhere.includeStale b)) as (b' & H1 & H2).
      exists b'. split; [exact H1|exact H2].
Qed.

(** A result that is a current, not deleted row. *)
Definition isLiveResult (res : ResultRow) : Prop :=
  Js.prop "_old_rev_of" (_data (instance res)) = VNull /\
  Js.prop "_rev_deleted" (_data (instance res)) = VBool false.

(** *** What each execution sends *)

(** The journal only grows: what a computation sent. *)
Definition grows {A} (m : Eff A) (w : World) (sent : list SqlCall) : Prop :=
  journal (snd (m w)) = journal w ++ sent.

Lemma processComplexJoins_grows (qb : QueryBuilder) (l : list (string * ComplexJoinSpec)) :
  forall (mainRows : list ResultRow) (w : World),
  exists sent, grows (QueryBuilder.processComplexJoins qb mainRows l) w sent.
Proof.
  unfold grows. induction l as [|[relationName joinSpec] r IH]; intros mainRows w.
  - exists []. cbn. rewrite app_nil_r. reflexivity.
  - cbn [QueryBuilder.processComplexJoins]. unfold EffM.bind at 1.
    assert (H1 : exists sent1,
               journal (snd (QueryBuilder._processComplexJoin qb mainRows relationName
                               joinSpec w)) = journal w ++ sent1).
    { unfold QueryBuilder._processComplexJoin.
      destruct mainRows as [|m ms]; [exists []; cbn; rewrite app_nil_r; reflexivity|].
      destruct (QueryBuilder._extractJoinSourceValues qb (m :: ms) _) as [|v vs].
      - exists []. cbn. rewrite app_nil_r. reflexivity.
      - unfold EffM.bind, DataAccessLayer.run_query, EffM.lift.
        destruct (query (dal qb) _ (store w)) as [[res|t] st]; eexists; reflexivity. }
    destruct H1 as [sent1 H1].
    destruct (QueryBuilder._processComplexJoin qb mainRows relationName joinSpec w)
      as [[rows1|t] w1]; cbn [snd] in H1.
    + destruct (IH rows1 w1) as [sent2 H2]. exists (sent1 ++ sent2).
      rewrite H2, H1, app_assoc. reflexivity.
    + exists sent1. exact H1.
Qed.

(** [QueryBuilder.run] sends the SELECT it builds, first. *)
Lemma run_sends (qb : QueryBuilder) (w : World) (call : SqlCall) :
  QueryBuilder._buildSelectQuery qb = Ok call ->
  exists rest, grows (QueryBuilder.run qb) w (call :: rest).
Proof.
  intro Hb. unfold grows, QueryBuilder.run, EffM.rethrow.
  destruct (_complexJoins qb) as [|j js] eqn:Hcj.
  - exists []. unfold EffM.bind, EffM.lift, DataAccessLayer.run_query. rewrite Hb.
    destruct (query (dal qb) call (store w)) as [[res|t] st]; cbn [snd journal].
    + destruct (QueryBuilder._processResults qb (rows res)); reflexivity.
    + reflexivity.
  - unfold QueryBuilder._runWithComplexJoins.
    unfold EffM.bind at 1. unfold EffM.lift at 1. rewrite Hb.
    unfold EffM.bind at 1. unfold DataAccessLayer.run_query.
    destruct (query (dal qb) call (store w)) as [[res|t] st];
      [|exists []; reflexivity].
    unfold EffM.bind at 1. unfold EffM.lift at 1.
    destruct (QueryBuilder._processResults qb (rows res)) as [mainRows|t];
      [|exists []; reflexivity].
    rewrite Hcj.
    match goal with
    | |- context [QueryBuilder.processComplexJoins qb mainRows ?l ?w1] =>
        destruct (processComplexJoins_grows qb l mainRows w1) as [rest Hrest];
        unfold grows in Hrest;
        destruct (QueryBuilder.processComplexJoins qb mainRows l w1) as [[out|t] w2]
    end; exists rest; cbn [snd journal] in Hrest |- *; rewrite Hrest, <- app_assoc;
      reflexivity.
Qed.

Lemma select_carries_where (qb : QueryBuilder) (call : SqlCall) :
  QueryBuilder._buildSelectQuery qb = Ok call ->
  exists q, statement call = Select q /\ sel_where q = _where qb /\
            sel_limit q = _limit qb /\ sel_table q = tableName (modelClass qb).
Proof.
  unfold QueryBuilder._buildSelectQuery.
  destruct (QueryBuilder.selectItems qb) as [items|t]; [|discriminate].
  intro H. inversion H; subst call. eexists. repeat split.
Qed.

(** The predicates an execution runs with: the builder's own, then the
    guards it still owed. *)
Definition guardedWhere (b : FilterWhereBuilder) : list Predicate :=
  _where (_builder b) ++ owedGuards b.

Lemma ensure_where (b : FilterWhereBuilder) :
  _builder (FilterWhere._ensureRevisionFilters b)
  = QueryBuilder.set_where (_builder b) (guardedWhere b).
Proof. exact (proj1 (ensure_spec b)). Qed.

(** A SELECT whose WHERE clause is [where_]. *)
Definition selectsWhere (where_ : list Predicate) (call : SqlCall) : Prop :=
  exists q, statement call = Select q /\ sel_where q = where_.


(** The statements of the count, delete and aggregate methods. *)
Lemma count_sends (b : FilterWhereBuilder) (w : World) :
  grows (FilterWhere.count b) w
        [QueryBuilder._buildCountQuery
           (QueryBuilder.set_where (_builder b) (guardedWhere b))].
Proof.
  unfold grows, FilterWhere.count, EffM.bind, QueryBuilder.count, EffM.rethrow, EffM.bind,
    DataAccessLayer.run_query. rewrite ensure_where.
  destruct (query _ _ (store w)) as [[res|t] st]; reflexivity.
Qed.

Lemma delete_sends (b : FilterWhereBuilder) (w : World) :
  grows (FilterWhere.delete b) w
        [QueryBuilder._buildDeleteQuery
           (QueryBuilder.set_where (_builder b) (guardedWhere b))].
Proof.
  unfold grows, FilterWhere.delete, EffM.bind, QueryBuilder.delete, EffM.rethrow, EffM.bind,
    DataAccessLayer.run_query. rewrite ensure_where.
  destruct (query _ _ (store w)) as [[res|t] st]; reflexivity.
Qed.

(** The column [_aggregateFunction] aggregates over. *)
Definition aggregated (qb : QueryBuilder) (field_ : string) : string :=
  if QueryBuilder.has_dot_or_paren field_ then field_
  else (tableName (modelClass qb) ++ "." ++ field_)%string.

Lemma average_sends (b : FilterWhereBuilder) (field_ dbField : string) (w : World) :
  FilterWhere.resolved (FilterWhere._ensureRevisionFilters b) field_ = Ok dbField ->
  grows (FilterWhere.average b field_) w
        [QueryBuilder._buildAggregateQuery
           (QueryBuilder.set_where (_builder b) (guardedWhere b)) "AVG"
           (aggregated (_builder b) dbField)].
Proof.
  intro Hr. unfold grows, FilterWhere.average. unfold EffM.bind at 1. unfold EffM.lift at 1.
  rewrite Hr. unfold EffM.bind, QueryBuilder.average, QueryBuilder._aggregateFunction,
    EffM.rethrow, EffM.bind, DataAccessLayer.run_query. rewrite ensure_where.
  destruct (query _ _ (store w)) as [[res|t] st]; reflexivity.
Qed.

(** The aggregate expression of [aggregateGrouped]. *)
Definition groupedExpression (qb : QueryBuilder) (func : string)
           (aggregateField : option string) : string :=
  (func ++ "(" ++
   match aggregateField with
   | Some f => if String.eqb f "" then "*"
               else if QueryBuilder.has_dot_or_paren f then f
               else (tableName (modelClass qb) ++ "." ++ QueryBuilder._resolveFieldName qb f)
   | None => "*"
   end ++ ")")%string.

(** The field [aggregateGrouped] aggregates over, resolved. *)
Definition resolvedAggregate (b : FilterWhereBuilder) (aggregateField : option string)
  : Result (option string) :=
  match aggregateField with
  | Some f =>
      if String.eqb f "" then Ok aggregateField
      else ResultM.bind (FilterWhere.resolved (FilterWhere._ensureRevisionFilters b) f)
                        (fun dbField => Ok (Some dbField))
  | None => Ok None
  end.

Lemma aggregateGrouped_sends (b : FilterWhereBuilder) (func : string)
      (aggregateField resolvedField : option string) (w : World) (call : SqlCall) :
  resolvedAggregate b aggregateField = Ok resolvedField ->
  QueryBuilder._buildGroupedAggregateQuery
    (QueryBuilder.set_where (_builder b) (guardedWhere b))
    (groupedExpression (_builder b) func resolvedField) = Ok call ->
  grows (FilterWhere.aggregateGrouped b func aggregateField) w [call].
Proof.
  intros Hr Hc. unfold grows, FilterWhere.aggregateGrouped.
  unfold EffM.bind at 1.
  assert (Hres : (match aggregateField with
                  | Some f =>
                      if String.eqb f "" then EffM.ret aggregateField
                      else EffM.bind
                             (EffM.lift (FilterWhere.resolved
                                           (FilterWhere._ensureRevisionFilters b) f))
                             (fun d => EffM.ret (Some d))
                  | None => EffM.ret None
                  end) w = (Ok resolvedField, w)).
  { unfold resolvedAggregate in Hr. destruct aggregateField as [f|].
    - destruct (String.eqb f ""); [inversion Hr; reflexivity|].
      unfold EffM.bind, EffM.lift, EffM.ret.
      destruct (FilterWhere.resolved _ f) as [dbField|t]; [|discriminate].
      cbn in Hr. inversion Hr. reflexivity.
    - inversion Hr. reflexivity. }
  rewrite Hres.
  unfold EffM.bind, QueryBuilder.aggregateGrouped, EffM.rethrow.
  rewrite ensure_where.
  unfold QueryBuilder._buildGroupedAggregateQuery in Hc.
  cbn [_groupBy QueryBuilder.set_where] in Hc |- *.
  destruct (_groupBy (_builder b)) as [|gf gfs] eqn:Eg; [discriminate|].
  unfold EffM.bind at 1. unfold EffM.lift at 1.
  unfold QueryBuilder._buildGroupedAggregateQuery.
  cbn [_groupBy QueryBuilder.set_where]. rewrite Eg.
  unfold groupedExpression in Hc.
  unfold QueryBuilder._resolveFieldName in Hc |- *.
  cbn [modelClass QueryBuilder.set_where] in Hc |- *.
  inversion Hc; subst call.
  unfold EffM.bind, DataAccessLayer.run_query.
  destruct (query _ _ (store w)) as [[res|t] st]; reflexivity.
Qed.

(** The SELECT of [run], [first] and [sample]. *)
Lemma run_sends_guarded (b : FilterWhereBuilder) (w : World) (call : SqlCall) :
  QueryBuilder._buildSelectQuery (QueryBuilder.set_where (_builder b) (guardedWhere b))
  = Ok call ->
  selectsWhere (guardedWhere b) call /\
  exists rest, grows (FilterWhere.run b) w (call :: rest).
Proof.
  intro Hc. split.
  - destruct (select_carries_where _ _ Hc) as (q & Hq & Hw & _). exists q. split; assumption.
  - destruct (run_sends _ w call Hc) as [rest Hrest]. exists rest.
    unfold grows in *. unfold FilterWhere.run, EffM.bind. rewrite ensure_where.
    destruct (QueryBuilder.run _ w) as [[res|t] w1]; exact Hrest.
Qed.

Lemma first_sends_guarded (b : FilterWhereBuilder) (w : World) (call : SqlCall) :
  QueryBuilder._buildSelectQuery
    (QueryBuilder.limit (QueryBuilder.set_where (_builder b) (guardedWhere b)) 1)
  = Ok call ->
  selectsWhere (guardedWhere b) call /\
  exists rest, grows (FilterWhere.first b) w (call :: rest).
Proof.
  intro Hc. split.
  - destruct (select_carries_where _ _ Hc) as (q & Hq & Hw & _). exists q. split; assumption.
  - destruct (run_sends _ w call Hc) as [rest Hrest]. exists rest.
    unfold grows in *. unfold FilterWhere.first, EffM.bind, QueryBuilder.first, EffM.bind.
    rewrite ensure_where.
    destruct (QueryBuilder.run _ w) as [[res|t] w1]; exact Hrest.
Qed.

Lemma sample_sends_guarded (b : FilterWhereBuilder) (n : Z) (w : World) (call : SqlCall) :
  QueryBuilder._buildSelectQuery
    (QueryBuilder.set_paging (QueryBuilder.set_where (_builder b) (guardedWhere b))
       ["RANDOM()"] (_groupBy (_builder b)) (Some n) (_offset (_builder b)))
  = Ok call ->
  selectsWhere (guardedWhere b) call /\
  exists rest, grows (FilterWhere.sample b n) w (call :: rest).
Proof.
  intro Hc. split.
  - destruct (select_carries_where _ _ Hc) as (q & Hq & Hw & _). exists q. split; assumption.
  - destruct (run_sends _ w call Hc) as [rest Hrest]. exists rest.
    unfold grows in *. unfold FilterWhere.sample, EffM.bind, QueryBuilder.sample, EffM.bind.
    rewrite ensure_where. cbn [_groupBy _offset QueryBuilder.set_where].
    destruct (QueryBuilder.run _ w) as [[res|t] w1]; exact Hrest.
Qed.

(** The builder [chronologicalFeed] runs: the guarded one, with the
    cursor predicate if a cursor is given, ordered and limited. *)
Definition feedBuilder (b : FilterWhereBuilder) (options : ChronologicalFeedOptions)
           (dbField : string) : QueryBuilder :=
  let gb := QueryBuilder.set_where (_builder b) (guardedWhere b) in
  let qb1 :=
    if Js.nullish (cursor options) then gb
    else snd (QueryBuilder._addWhereCondition gb dbField
                (match direction options with ASC => ">" | DESC => "<" end)
                (cursor options) QueryBuilder.no_predicate_options) in
  QueryBuilder.limit (QueryBuilder.orderBy qb1 dbField (direction options))
                     (Z.max 0 (feed_limit options) + 1).

Lemma feedBuilder_where (b : FilterWhereBuilder) (options : ChronologicalFeedOptions)
      (dbField : string) :
  exists pagePredicate,
    _where (feedBuilder b options dbField) = guardedWhere b ++ pagePredicate /\
    length pagePredicate = if Js.nullish (cursor options) then 0 else 1.
Proof.
  unfold feedBuilder. cbv zeta. destruct (Js.nullish (cursor options)).
  - exists []. rewrite app_nil_r. split; reflexivity.
  - eexists. split; [|shelve].
    unfold QueryBuilder._addWhereCondition. cbn [snd]. reflexivity.
    Unshelve. reflexivity.
Qed.

Lemma feed_sends_guarded (b : FilterWhereBuilder) (options : ChronologicalFeedOptions)
      (dbField : string) (w : World) (call : SqlCall) :
  (0 < feed_limit options)%Z ->
  FilterWhere.resolved (FilterWhere._ensureRevisionFilters b) (cursorField options)
  = Ok dbField ->
  QueryBuilder._buildSelectQuery (feedBuilder b options dbField) = Ok call ->
  (exists q pagePredicate,
      statement call = Select q /\ sel_where q = guardedWhere b ++ pagePredicate) /\
  exists rest, grows (FilterWhere.chronologicalFeed b options) w (call :: rest).
Proof.
  intros Hpos Hr Hc. split.
  - destruct (select_carries_where _ _ Hc) as (q & Hq & Hw & _).
    destruct (feedBuilder_where b options dbField) as (pp & Hpp & _).
    exists q, pp. split; [exact Hq|]. rewrite Hw. exact Hpp.
  - destruct (run_sends _ w call Hc) as [rest Hrest]. exists rest.
    unfold grows in *. unfold FilterWhere.chronologicalFeed.
    assert (Hz : Z.eqb (Z.max 0 (feed_limit options)) 0 = false)
      by (apply Z.eqb_neq; lia).
    rewrite Hz. unfold EffM.bind at 1. unfold EffM.lift at 1. rewrite Hr.
    unfold EffM.bind. rewrite ensure_where. fold (feedBuilder b options dbField).
    destruct (QueryBuilder.run _ w) as [[res|t] w1]; exact Hrest.
Qed.

(** With a limit of zero the feed sends nothing. *)
Lemma feed_of_nothing (b : FilterWhereBuilder) (options : ChronologicalFeedOptions)
      (w : World) :
  (feed_limit options <= 0)%Z ->
  FilterWhere.chronologicalFeed b options w
  = (Ok ({| page_rows := []; hasMore := false; nextCursor := VUndef |},
         FilterWhere._ensureRevisionFilters b), w).
Proof.
  intro H. unfold FilterWhere.chronologicalFeed.
  assert (Hz : Z.eqb (Z.max 0 (feed_limit options)) 0 = true) by (apply Z.eqb_eq; lia).
  rewrite Hz. reflexivity.
Qed.

(** *** Once only *)

Lemma settled_is_fixed (x : FilterWhereBuilder) :
  _revisionFiltersApplied x = true -> FilterWhere._ensureRevisionFilters x = x.
Proof. intro Hx. unfold FilterWhere._ensureRevisionFilters. rewrite Hx. reflexivity. Qed.

(** Every execution method hands back a builder that owes no guard: the
    next execution of it adds nothing. *)
Lemma every_execution_settles (b : FilterWhereBuilder) (w : World) :
  (forall r b' w', FilterWhere.run b w = (Ok (r, b'), w') ->
                   FilterWhere._ensureRevisionFilters b' = b' /\ owedGuards b' = []) /\
  (forall r b' w', FilterWhere.first b w = (Ok (r, b'), w') ->
                   FilterWhere._ensureRevisionFilters b' = b' /\ owedGuards b' = []) /\
  (forall r b' w', FilterWhere.count b w = (Ok (r, b'), w') ->
                   FilterWhere._ensureRevisionFilters b' = b' /\ owedGuards b' = []) /\
  (forall field_ r b' w', FilterWhere.average b field_ w = (Ok (r, b'), w') ->
                   FilterWhere._ensureRevisionFilters b' = b' /\ owedGuards b' = []) /\
  (forall r b' w', FilterWhere.delete b w = (Ok (r, b'), w') ->
                   FilterWhere._ensureRevisionFilters b' = b' /\ owedGuards b' = []) /\
  (forall n r b' w', FilterWhere.sample b n w = (Ok (r, b'), w') ->
                   FilterWhere._ensureRevisionFilters b' = b' /\ owedGuards b' = []) /\
  (forall func field_ r b' w',
      FilterWhere.aggregateGrouped b func field_ w = (Ok (r, b'), w') ->
      FilterWhere._ensureRevisionFilters b' = b' /\ owedGuards b' = []) /\
  (forall options r b' w',
      FilterWhere.chronologicalFeed b options w = (Ok (r, b'), w') ->
      FilterWhere._ensureRevisionFilters b' = b' /\ owedGuards b' = []).
Proof.
  assert (Hs : forall x, _revisionFiltersApplied x = true ->
                 FilterWhere._ensureRevisionFilters x = x /\ owedGuards x = []).
  { intros x Hx. split; [exact (settled_is_fixed x Hx)|].
    unfold owedGuards. rewrite Hx. reflexivity. }
  pose proof (ensure_applied b) as Hg.
  split; [|split; [|split; [|split; [|split; [|split; [|split]]]]]].
  - intros r b' w'. unfold FilterWhere.run, EffM.bind, EffM.ret.
    destruct (QueryBuilder.run _ w) as [[x|t] w1]; intro H; inversion H; subst.
    apply Hs. exact Hg.
  - intros r b' w'. unfold FilterWhere.first, EffM.bind, EffM.ret.
    destruct (QueryBuilder.first _ w) as [[x|t] w1]; intro H; inversion H; subst.
    apply Hs. exact Hg.
  - intros r b' w'. unfold FilterWhere.count, EffM.bind, EffM.ret.
    destruct (QueryBuilder.count _ w) as [[x|t] w1]; intro H; inversion H; subst.
    apply Hs. exact Hg.
  - intros field_ r b' w'. unfold FilterWhere.average, EffM.bind, EffM.ret, EffM.lift.
    destruct (FilterWhere.resolved _ field_) as [f|t]; [|discriminate].
    destruct (QueryBuilder.average _ f w) as [[x|t] w1]; intro H; inversion H; subst.
    apply Hs. exact Hg.
  - intros r b' w'. unfold FilterWhere.delete, EffM.bind, EffM.ret.
    destruct (QueryBuilder.delete _ w) as [[x|t] w1]; intro H; inversion H; subst.
    apply Hs. exact Hg.
  - intros n r b' w'. unfold FilterWhere.sample, EffM.bind, EffM.ret.
    destruct (QueryBuilder.sample _ n w) as [[x|t] w1]; intro H; inversion H; subst.
    apply Hs. exact Hg.
  - intros func field_ r b' w'. unfold FilterWhere.aggregateGrouped.
    unfold EffM.bind at 1.
    match goal with
    | |- match ?m w with _ => _ end = _ -> _ =>
        destruct (m w) as [[rf|t] w0]; [|discriminate]
    end.
    unfold EffM.bind, EffM.ret.
    destruct (QueryBuilder.aggregateGrouped _ func rf w0) as [[x|t] w1];
      intro H; inversion H; subst. apply Hs. exact Hg.
  - intros options r b' w'. unfold FilterWhere.chronologicalFeed.
    destruct (Z.eqb (Z.max 0 (feed_limit options)) 0).
    + unfold EffM.ret. intro H. inversion H; subst. apply Hs. exact Hg.
    + unfold EffM.bind at 1. unfold EffM.lift at 1.
      destruct (FilterWhere.resolved _ (cursorField options)) as [f|t]; [|discriminate].
      unfold EffM.bind, EffM.ret.
      destruct (QueryBuilder.run _ w) as [[x|t] w1]; intro H; inversion H; subst.
      apply Hs. exact Hg.
Qed.

(** [first] over the store: the first row the remaining guards let
    through, or nothing. *)
Lemma guarded_first (M : ModelClass) (d : Dal) (b : FilterWhereBuilder) (w : World)
      (t : Table) :
  RevisionModel M -> QueryFacts.DefaultsTotal M -> query d = Postgres.exec ->
  _builder b = QueryBuilder.new M d ->
  _hasRevisions b = true -> _revisionFiltersApplied b = false ->
  Js.get (tableName M) (tables (store w)) = Some t ->
  exists answer b' w',
    FilterWhere.first b w = (Ok (answer, b'), w') /\ store w' = store w /\
    match filter (visible (_includeDeleted b) (_includeStale b)) (records t) with
    | [] => answer = None
    | row :: _ =>
        exists res,
          answer = Some res /\
          QueryFacts.hydrates M res (QueryFacts.projected (Model.getColumnNames M []) row)
    end.
Proof.
  intros HM HD Hd Hb Hh Ha Ht.
  pose proof (ensure_where b) as Hg. unfold guardedWhere in Hg. rewrite Hb in Hg.
  cbn [_where QueryBuilder.new app] in Hg.
  set (qb := QueryBuilder.limit
               (QueryBuilder.set_where (QueryBuilder.new M d) (owedGuards b)) 1).
  destruct (QueryFacts.run_plain qb w t
              (filter (visible (_includeDeleted b) (_includeStale b)) (records t)))
    as (results & Hrun & Hall).
  - repeat split.
  - exact Hd.
  - exact HD.
  - exact Ht.
  - apply QueryFacts.selectRows_filter. intro row.
    apply passes_owed_guards; try assumption. rewrite Hb. reflexivity.
  - unfold FilterWhere.first, EffM.bind, QueryBuilder.first, EffM.bind. rewrite Hg.
    fold qb. rewrite Hrun. unfold EffM.ret. cbn [fst snd].
    eexists. eexists. eexists. split; [reflexivity|]. split; [reflexivity|].
    cbn [Postgres.paginate _limit _offset qb QueryBuilder.limit QueryBuilder.set_paging
         QueryBuilder.set_where QueryBuilder.new modelClass _includeSensitive] in Hall.
    change (Z.to_nat 1) with 1 in Hall.
    destruct (filter _ (records t)) as [|row rest].
    + inversion Hall; subst. reflexivity.
    + cbn [firstn map] in Hall. inversion Hall as [|res ? more ? Hh' Hmore]; subst.
      exists res. split; [reflexivity|exact Hh'].
Qed.

(** C3. (1) [filterWhere(literal)] and every chain of builder calls leave
    the marker of applied filters unset; the [include] flags a chain ends
    with depend only on whether an [include] call (or an all-revisions
    lookup) occurs in it, wherever it stands. (2) [_ensureRevisionFilters]
    appends to the predicates exactly the guards still owed -
    [_old_rev_of IS NULL] unless [includeStale], [_rev_deleted = false]
    unless [includeDeleted], nothing when the entity has no revisions or
    the filters were applied - and applying it twice is applying it once.
    (3) Each execution method works on the builder so guarded, and what
    it sends to storage says so: [count], [delete], [average] and
    [aggregateGrouped] send the one statement the query builder renders
    from the builder's predicates followed by the owed guards; [run],
    [first] and [sample] send, first, the SELECT whose WHERE clause is
    those predicates; [chronologicalFeed] sends the SELECT whose WHERE
    clause is those predicates and the cursor predicate after them, and
    nothing for a limit of zero. (4) The builder every execution hands
    back owes nothing more, so that a second execution adds no guard.
    (5) Over the relational store, on a revision-enabled model, a fresh
    builder with any [include] calls, in any order, returns exactly the
    rows the remaining guards let through, whatever rows the table holds,
    and [first] the first of them; so [filterWhere({})] returns exactly
    the current, not deleted rows. *)
Theorem default_guards_injected_once_at_execution :
  (forall hasRevisions_ M d literal b,
      FilterWhere.filterWhere hasRevisions_ M d literal = Ok b ->
      _revisionFiltersApplied b = false /\ _hasRevisions b = hasRevisions_ /\
      _includeDeleted b = false /\ _includeStale b = false) /\
  (forall hasRevisions_ M d,
      FilterWhere.filterWhere hasRevisions_ M d []
      = Ok (FilterWhere.new (QueryBuilder.new M d) hasRevisions_) /\
      _where (QueryBuilder.new M d) = []) /\
  (forall b calls b',
      chain b calls = Ok b' ->
      _hasRevisions b' = _hasRevisions b /\
      _revisionFiltersApplied b' = _revisionFiltersApplied b /\
      _includeDeleted b' = _includeDeleted b || existsb liftsDeleted calls /\
      _includeStale b' = _includeStale b || existsb liftsStale calls) /\
  (forall b,
      let g := FilterWhere._ensureRevisionFilters b in
      _builder g = QueryBuilder.set_where (_builder b) (_where (_builder b) ++ owedGuards b) /\
      _revisionFiltersApplied g = true /\
      owedGuards g = [] /\
      FilterWhere._ensureRevisionFilters g = g) /\
  (forall b w,
      let g := FilterWhere._ensureRevisionFilters b in
      FilterWhere.run b w = FilterWhere.run g w /\
      FilterWhere.first b w = FilterWhere.first g w /\
      FilterWhere.count b w = FilterWhere.count g w /\
      (forall field_, FilterWhere.average b field_ w = FilterWhere.average g field_ w) /\
      FilterWhere.delete b w = FilterWhere.delete g w /\
      (forall n, FilterWhere.sample b n w = FilterWhere.sample g n w) /\
      (forall func field_,
          FilterWhere.aggregateGrouped b func field_ w
          = FilterWhere.aggregateGrouped g func field_ w) /\
      (forall options,
          FilterWhere.chronologicalFeed b options w
          = FilterWhere.chronologicalFeed g options w)) /\
  (forall b w,
      let guarded := QueryBuilder.set_where (_builder b) (guardedWhere b) in
      grows (FilterWhere.count b) w [QueryBuilder._buildCountQuery guarded] /\
      grows (FilterWhere.delete b) w [QueryBuilder._buildDeleteQuery guarded] /\
      (forall field_ dbField,
          FilterWhere.resolved (FilterWhere._ensureRevisionFilters b) field_ = Ok dbField ->
          grows (FilterWhere.average b field_) w
                [QueryBuilder._buildAggregateQuery guarded "AVG"
                   (aggregated (_builder b) dbField)]) /\
      (forall func aggregateField resolvedField call,
          resolvedAggregate b aggregateField = Ok resolvedField ->
          QueryBuilder._buildGroupedAggregateQuery
            guarded (groupedExpression (_builder b) func resolvedField) = Ok call ->
          grows (FilterWhere.aggregateGrouped b func aggregateField) w [call]) /\
      (forall call,
          QueryBuilder._buildSelectQuery guarded = Ok call ->
          selectsWhere (guardedWhere b) call /\
          exists rest, grows (FilterWhere.run b) w (call :: rest)) /\
      (forall call,
          QueryBuilder._buildSelectQuery (QueryBuilder.limit guarded 1) = Ok call ->
          selectsWhere (guardedWhere b) call /\
          exists rest, grows (FilterWhere.first b) w (call :: rest)) /\
      (forall n call,
          QueryBuilder._buildSelectQuery
            (QueryBuilder.set_paging guarded ["RANDOM()"] (_groupBy (_builder b)) (Some n)
                                     (_offset (_builder b))) = Ok call ->
          selectsWhere (guardedWhere b) call /\
          exists rest, grows (FilterWhere.sample b n) w (call :: rest)) /\
      (forall options dbField call,
          (0 < feed_limit options)%Z ->
          FilterWhere.resolved (FilterWhere._ensureRevisionFilters b) (cursorField options)
          = Ok dbField ->
          QueryBuilder._buildSelectQuery (feedBuilder b options dbField) = Ok call ->
          (exists q pagePredicate,
              statement call = Select q /\
              sel_where q = guardedWhere b ++ pagePredicate) /\
          exists rest, grows (FilterWhere.chronologicalFeed b options) w (call :: rest)) /\
      (forall options,
          (feed_limit options <= 0)%Z ->
          grows (FilterWhere.chronologicalFeed b options) w [])) /\
  (forall b w,
      (forall r b' w', FilterWhere.run b w = (Ok (r, b'), w') ->
                       FilterWhere._ensureRevisionFilters b' = b' /\ owedGuards b' = []) /\
      (forall r b' w', FilterWhere.first b w = (Ok (r, b'), w') ->
                       FilterWhere._ensureRevisionFilters b' = b' /\ owedGuards b' = []) /\
      (forall r b' w', FilterWhere.count b w = (Ok (r, b'), w') ->
                       FilterWhere._ensureRevisionFilters b' = b' /\ owedGuards b' = []) /\
      (forall field_ r b' w', FilterWhere.average b field_ w = (Ok (r, b'), w') ->
                       FilterWhere._ensureRevisionFilters b' = b' /\ owedGuards b' = []) /\
      (forall r b' w', FilterWhere.delete b w = (Ok (r, b'), w') ->
                       FilterWhere._ensureRevisionFilters b' = b' /\ owedGuards b' = []) /\
      (forall n r b' w', FilterWhere.sample b n w = (Ok (r, b'), w') ->
                       FilterWhere._ensureRevisionFilters b' = b' /\ owedGuards b' = []) /\
      (forall func field_ r b' w',
          FilterWhere.aggregateGrouped b func field_ w = (Ok (r, b'), w') ->
          FilterWhere._ensureRevisionFilters b' = b' /\ owedGuards b' = []) /\
      (forall options r b' w',
          FilterWhere.chronologicalFeed b options w = (Ok (r, b'), w') ->
          FilterWhere._ensureRevisionFilters b' = b' /\ owedGuards b' = [])) /\
  (forall M d calls w t,
      RevisionModel M -> QueryFacts.DefaultsTotal M -> query d = Postgres.exec ->
      Forall isInclude calls ->
      Js.get (tableName M) (tables (store w)) = Some t ->
      exists b results w',
        chain (FilterWhere.new (QueryBuilder.new M d) true) calls = Ok b /\
        FilterWhere.run b w = (Ok (results, FilterWhere._ensureRevisionFilters b), w') /\
        Forall2 (fun res row =>
                   QueryFacts.hydrates M res
                     (QueryFacts.projected (Model.getColumnNames M []) row))
                results
                (filter (visible (existsb liftsDeleted calls) (existsb liftsStale calls))
                        (records t)) /\
        (exists answer b' w'',
            FilterWhere.first b w = (Ok (answer, b'), w'') /\
            match filter (visible (existsb liftsDeleted calls) (existsb liftsStale calls))
                         (records t) with
            | [] => answer = None
            | row :: _ =>
                exists res,
                  answer = Some res /\
                  QueryFacts.hydrates M res
                    (QueryFacts.projected (Model.getColumnNames M []) row)
            end) /\
        (calls = [] ->
         length results
         = length (filter (fun r => isCurrent r && notDeleted r) (records t)) /\
         Forall isLiveResult results)).
Proof.
  split; [|split; [|split; [|split; [|split; [|split; [|split]]]]]].
  - intros hr M d literal b H. unfold FilterWhere.filterWhere, FilterWhere.and in H.
    destruct (applyLiteral_flags _ _ _ _ _ H) as (H1 & H2 & H3 & H4).
    cbn in H1, H2, H3, H4. tauto.
  - intros hr M d. split; reflexivity.
  - intros b calls b'. apply chain_flags.
  - intro b. cbv zeta. destruct (ensure_spec b) as (H1 & _). cbv zeta in H1.
    split; [exact H1|]. split; [apply ensure_applied|].
    split; [unfold owedGuards; rewrite ensure_applied; reflexivity|apply ensure_idempotent].
  - intros b w. apply executions_run_guarded.
  - intros b w. cbv zeta.
    split; [apply count_sends|]. split; [apply delete_sends|].
    split; [intros field_ dbField; apply average_sends|].
    split; [intros func aggregateField resolvedField call; apply aggregateGrouped_sends|].
    split; [intro call; apply run_sends_guarded|].
    split; [intro call; apply first_sends_guarded|].
    split; [intros n call; apply sample_sends_guarded|].
    split; [intros options dbField call; apply feed_sends_guarded|].
    intros options Hl. unfold grows. rewrite (feed_of_nothing b options w Hl).
    cbn [snd]. rewrite app_nil_r. reflexivity.
  - intros b w. apply every_execution_settles.
  - intros M d calls w t HM HD Hd Hinc Ht.
    destruct (include_calls_keep_query calls Hinc (FilterWhere.new (QueryBuilder.new M d) true))
      as (b & Hchain & Hqb).
    destruct (chain_flags calls _ b Hchain) as (Hh & Ha & Hdel & Hst).
    cbn [FilterWhere.new _hasRevisions _revisionFiltersApplied _includeDeleted
         _includeStale _builder orb] in Hh, Ha, Hdel, Hst, Hqb.
    destruct (guarded_run M d b w t HM HD Hd Hqb Hh Ha Ht)
      as (results & w' & Hrun & _ & _ & Hall).
    destruct (guarded_first M d b w t HM HD Hd Hqb Hh Ha Ht)
      as (answer & b' & w'' & Hfirst & _ & Hanswer).
    rewrite Hdel, Hst in Hall, Hanswer.
    exists b, results, w'. split; [exact Hchain|]. split; [exact Hrun|].
    split; [exact Hall|].
    split; [exists answer, b', w''; split; [exact Hfirst|exact Hanswer]|].
    intro Hnil. subst calls. cbn [existsb] in Hall.
    split; [apply (Forall2_length_eq _ _ _ Hall)|].
    apply (Forall2_Forall_l _ isLiveResult
             (fun r => visible false false r = true) _ _ Hall).
    + apply Forall_forall. intros r Hr. apply filter_In in Hr. apply Hr.
    + intros res row Hhyd Hvis.
      destruct (hydrated_revision_columns M res row HM Hhyd) as [H1 H2].
      unfold visible in Hvis. cbn [orb] in Hvis. apply Bool.andb_true_iff in Hvis.
      destruct Hvis as [Hcur Hnd]. unfold isLiveResult. rewrite H1, H2. split.
      * unfold isCurrent in Hcur.
        destruct (Postgres.columnValue "_old_rev_of" row); try discriminate; reflexivity.
      * apply StoreFacts.matches_bool. exact Hnd.
Qed.

(** [filterWhere({})] over a live row, a deleted live row and an
    archived row: [run] has one result, the live row; [count] sends the
    counting statement with both guards in its WHERE clause, and [delete]
    after [includeDeleted()] the deleting statement with the one guard
    left. *)
Lemma default_guards_injected_once_at_execution_witness :
  let b := FilterWhere.new (QueryBuilder.new Fixtures.Revisions Fixtures.revisionsDal)
                           true in
  (exists results b' w',
      FilterWhere.run b Fixtures.mixedRows = (Ok (results, b'), w') /\
      length results = 1 /\ Forall isLiveResult results /\
      map (fun r => Js.prop "id" (_data (instance r))) results = [VStr Fixtures.liveId]) /\
  journal (snd (FilterWhere.count b Fixtures.mixedRows))
  = [{| statement :=
          Text ("SELECT COUNT(*) as count FROM revisions " ++
                "WHERE _old_rev_of IS NULL AND _rev_deleted = $1");
        params := [VBool false] |}] /\
  journal (snd (FilterWhere.delete (FilterWhere.includeDeleted b) Fixtures.mixedRows))
  = [{| statement := Text "DELETE FROM revisions WHERE _old_rev_of IS NULL";
        params := [] |}].
Proof.
  intro b. split; [|split].
  - destruct (proj2 (proj2 (proj2 (proj2 (proj2 (proj2 (proj2
                default_guards_injected_once_at_execution))))))
                Fixtures.Revisions Fixtures.revisionsDal [] Fixtures.mixedRows
                (Fixtures.revisionsTable
                   [Fixtures.revisionRow Fixtures.liveId VNull false;
                    Fixtures.revisionRow Fixtures.deletedId VNull true;
                    Fixtures.revisionRow Fixtures.archivedId (VStr Fixtures.liveId) false])
                FixtureFacts.revisions_model QueryFacts.revisions_defaults_total
                eq_refl (Forall_nil _) eq_refl)
      as (b1 & results & w' & Hchain & Hrun & _ & _ & Hlive).
    cbn in Hchain. inversion Hchain; subst b1. clear Hchain.
    destruct (Hlive eq_refl) as [Hlen Hall].
    exists results. eexists. exists w'. split; [exact Hrun|].
    split; [exact Hlen|]. split; [exact Hall|].
    assert (E : match fst (FilterWhere.run b Fixtures.mixedRows) with
                | Ok (rs, _) => map (fun r => Js.prop "id" (_data (instance r))) rs
                | Throw _ => []
                end = [VStr Fixtures.liveId])
      by (vm_compute; reflexivity).
    fold b in Hrun. rewrite Hrun in E. exact E.
  - pose proof (proj1 (proj1 (proj2 (proj2 (proj2 (proj2 (proj2
                  default_guards_injected_once_at_execution)))))
                  b Fixtures.mixedRows)) as H.
    unfold grows in H. rewrite H. vm_compute. reflexivity.
  - pose proof (proj1 (proj2 (proj1 (proj2 (proj2 (proj2 (proj2 (proj2
                  default_guards_injected_once_at_execution)))))
                  (FilterWhere.includeDeleted b) Fixtures.mixedRows))) as H.
    unfold grows in H. rewrite H. vm_compute. reflexivity.
Defined.

(** What the other execution methods send on the same table: the
    averaging and the grouped statement with both guards, and the SELECTs
    of [first], [sample] and [chronologicalFeed], whose WHERE clauses are
    the two guards, followed for the feed by the cursor predicate. *)
Example executions_send_guarded_statements :
  let b := FilterWhere.new (QueryBuilder.new Fixtures.Revisions Fixtures.revisionsDal)
                           true in
  let guards := [Basic None "_old_rev_of" "IS" (Some VNull) None;
                 Basic None "_rev_deleted" "=" (Some (VBool false)) (Some TIdentity)] in
  let selected (w : World) :=
    map (fun c => match statement c with
                  | Select q => Some (sel_where q, sel_limit q, sel_orderBy q)
                  | _ => None
                  end) (journal w) in
  journal (snd (FilterWhere.average b "title" Fixtures.mixedRows))
  = [{| statement :=
          Text ("SELECT AVG(revisions.title) as value FROM revisions WHERE " ++
                "revisions._old_rev_of IS NULL AND revisions._rev_deleted = $1");
        params := [VBool false] |}] /\
  match FilterWhere.groupBy b ["title"] with
  | Ok grouped =>
      journal (snd (FilterWhere.aggregateGrouped grouped "COUNT" None Fixtures.mixedRows))
  | Throw _ => []
  end
  = [{| statement :=
          Text ("SELECT revisions.title as group_key, COUNT(*) as aggregate_value " ++
                "FROM revisions WHERE revisions._old_rev_of IS NULL AND " ++
                "revisions._rev_deleted = $1 GROUP BY revisions.title");
        params := [VBool false] |}] /\
  selected (snd (FilterWhere.first b Fixtures.mixedRows))
  = [Some (guards, Some 1%Z, [])] /\
  selected (snd (FilterWhere.sample b 3 Fixtures.mixedRows))
  = [Some (guards, Some 3%Z, ["RANDOM()"])] /\
  selected (snd (FilterWhere.chronologicalFeed b
                   {| cursorField := "_revDate"; cursor := VDate (Some 5%Z);
                      direction := DESC; feed_limit := 2 |} Fixtures.mixedRows))
  = [Some (guards ++ [Basic None "_rev_date" "<" (Some (VDate (Some 5%Z)))
                            (Some TIdentity)],
           Some 3%Z, ["revisions._rev_date DESC"])].
Proof.
  cbv zeta.
  split; [vm_compute; reflexivity|]. split; [vm_compute; reflexivity|].
  split; [vm_compute; reflexivity|]. split; [vm_compute; reflexivity|].
  vm_compute. reflexivity.
Qed.

End FilterFacts.

(* ================================================================== *)
(** ** Deleting all revisions *)

Module DeletionFacts.

Import RevisionModelFacts LineageFacts GuardedFacts.

(** The bulk UPDATE that closes [deleteAllRevisions]. *)
Definition markCall (M : ModelClass) (L : string) : SqlCall :=
  {| statement := MarkRevisionsDeleted (tableName M); params := [VStr L] |}.

Definition markedDeleted : JsObject := [("_rev_deleted", VBool true)].

(** The rows of a lineage after the UPDATE by id that marks the live row
    deleted and the bulk UPDATE that marks the archived ones. *)
Lemma deletion_rows (L : string) (n : nat) (rs : list Row) (asg : JsObject) :
  Lineage L n rs ->
  ~ In "id" (Js.keys asg) -> ~ In "_old_rev_of" (Js.keys asg) ->
  NoDup (Js.keys asg) -> Js.get "_rev_deleted" asg = Some (VBool true) ->
  let rs3 := Postgres.updateWhere "_old_rev_of" (VStr L) markedDeleted
               (Postgres.updateWhere "id" (VStr L) asg rs) in
  (forall r, In r rs3 -> hasId L r || archives L r = true -> isDeleted r = true) /\
  length (filter (hasId L) rs3) = 1 /\
  (forall r, In r rs3 -> hasId L r = true -> isCurrent r = true) /\
  length (family L rs3) = n + 1.
Proof.
  intros Hlin Hid Hold Hnd Hdel. cbv zeta.
  assert (Hmid : ~ In "id" (Js.keys markedDeleted)) by (cbn; intuition discriminate).
  assert (Hmold : ~ In "_old_rev_of" (Js.keys markedDeleted))
    by (cbn; intuition discriminate).
  assert (Hrow : forall r3,
             In r3 (Postgres.updateWhere "_old_rev_of" (VStr L) markedDeleted
                      (Postgres.updateWhere "id" (VStr L) asg rs)) ->
             exists r1, In r1 rs /\ hasId L r3 = hasId L r1 /\
                        archives L r3 = archives L r1 /\
                        (hasId L r1 = true -> isCurrent r3 = true /\ isDeleted r3 = true) /\
                        (archives L r1 = true -> isDeleted r3 = true)).
  { intros r3 H3. destruct (updated_row _ _ _ _ _ H3) as (r2 & H2 & E3).
    destruct (updated_row _ _ _ _ _ H2) as (r1 & H1 & E2).
    exists r1. split; [exact H1|].
    assert (A1 : hasId L r2 = hasId L r1)
      by (subst r2; apply matches_after_update; exact Hid).
    assert (A2 : archives L r2 = archives L r1)
      by (subst r2; apply matches_after_update; exact Hold).
    assert (A3 : hasId L r3 = hasId L r2)
      by (subst r3; apply matches_after_update; exact Hmid).
    assert (A4 : archives L r3 = archives L r2)
      by (subst r3; apply matches_after_update; exact Hmold).
    split; [congruence|]. split; [congruence|]. split.
    - intro Hh. destruct (lin_live L n rs Hlin r1 H1 Hh) as (Hcur & _ & _).
      assert (Hna : archives L r1 = false).
      { destruct (archives L r1) eqn:E; [|reflexivity].
        apply StoreFacts.matches_str in E. unfold isCurrent in Hcur. rewrite E in Hcur.
        discriminate. }
      assert (E2' : r2 = Postgres.assignColumns asg r1).
      { rewrite E2. unfold hasId in Hh. rewrite Hh. reflexivity. }
      assert (E3' : r3 = r2).
      { rewrite Hna in A2. unfold archives in A2. rewrite E3, A2. reflexivity. }
      rewrite E3', E2'. split.
      + unfold isCurrent.
        rewrite (StoreFacts.columnValue_assign_other "_old_rev_of" asg r1 Hold).
        exact Hcur.
      + apply StoreFacts.matches_bool.
        apply (StoreFacts.columnValue_assigned "_rev_deleted" (VBool true) asg r1 Hnd Hdel).
    - intro Ha. rewrite <- A2 in Ha. unfold archives in Ha. rewrite Ha in E3.
      rewrite E3. apply StoreFacts.matches_bool.
      apply (StoreFacts.columnValue_assigned "_rev_deleted" (VBool true) markedDeleted r2).
      + cbn. repeat constructor. intros [].
      + reflexivity. }
  assert (Hcount : forall p,
             (forall r, p (if Postgres.matches "id" (VStr L) r
                           then Postgres.assignColumns asg r else r) = p r) ->
             (forall r, p (if Postgres.matches "_old_rev_of" (VStr L) r
                           then Postgres.assignColumns markedDeleted r else r) = p r) ->
             length (filter p (Postgres.updateWhere "_old_rev_of" (VStr L) markedDeleted
                                 (Postgres.updateWhere "id" (VStr L) asg rs)))
             = length (filter p rs)).
  { intros p H1 H2. rewrite (filter_updateWhere p _ _ _ _ H2).
    apply (filter_updateWhere p _ _ _ _ H1). }
  split; [|split; [|split]].
  - intros r3 H3 Hfam. destruct (Hrow r3 H3) as (r1 & _ & E1 & E2 & Hh & Ha).
    rewrite E1, E2 in Hfam. apply Bool.orb_true_iff in Hfam.
    destruct Hfam as [H|H]; [apply (Hh H)|apply (Ha H)].
  - rewrite Hcount; [apply (lin_one L n rs Hlin)| |];
      intro r; unfold hasId; apply matches_after_update; assumption.
  - intros r3 H3 Hh. destruct (Hrow r3 H3) as (r1 & _ & E1 & _ & Hh1 & _).
    rewrite E1 in Hh. apply (Hh1 Hh).
  - unfold family. rewrite Hcount.
    + apply (lineage_counts L n rs Hlin).
    + intro r. unfold hasId, archives. rewrite !matches_after_update by assumption.
      reflexivity.
    + intro r. unfold hasId, archives. rewrite !matches_after_update by assumption.
      reflexivity.
Qed.

Section Deletion.

Variable M : ModelClass.
Hypothesis HM : RevisionModel M.

(** The instance [deleteAllRevisions] saves: stamped, and marked
    deleted. *)
Lemma stamped_for_deletion (L : string) (inst : Instance) (revId userId tags : Value)
      (t : Z) :
  Attached M L inst ->
  let i := Model.setProperty M (stamp M inst revId userId (VDate (Some t)) tags)
                             "_revDeleted" (VBool true) in
  Stamped M L i /\
  (forall c, In c ["id"; "_old_rev_of"] -> ModelFacts.columnKept c inst i) /\
  _originalData i = _originalData inst /\
  pending "_rev_id" revId i /\ pending "_rev_tags" tags i /\
  pending "_rev_deleted" (VBool true) i.
Proof.
  intros Hat. cbv zeta.
  set (i1 := stamp M inst revId userId (VDate (Some t)) tags).
  pose proof (stamp_frame M inst revId userId (VDate (Some t)) tags
                (at_virtuals M L inst Hat)) as F1. fold i1 in F1.
  pose proof (setProperty_frame M i1 "_revDeleted" (VBool true) (proj1 F1)) as F2.
  pose proof (sameFrame_trans M _ _ _ F1 F2) as (Hv & Hn & Ho).
  assert (Hcol : Model._getDbFieldName M "_revDeleted" = "_rev_deleted")
    by (apply (rm_revision_columns M HM); cbn; tauto).
  assert (Hk : forall c, c <> "_rev_deleted" ->
                 ModelFacts.columnKept c i1 (Model.setProperty M i1 "_revDeleted" (VBool true))).
  { intros c Hc. apply setProperty_kept. rewrite Hcol. exact Hc. }
  assert (Hprot : forall c, In c ["id"; "_old_rev_of"] ->
                    ModelFacts.columnKept c inst
                      (Model.setProperty M i1 "_revDeleted" (VBool true))).
  { intros c Hc. eapply columnKept_trans.
    - apply (stamp_kept M HM inst revId userId (VDate (Some t)) tags c).
      cbn in Hc |- *. intuition (subst; discriminate).
    - apply Hk. cbn in Hc. intuition (subst; discriminate). }
  destruct (stamp_pending M HM inst revId userId (VDate (Some t)) tags)
    as (P1 & P2 & P3 & P4). fold i1 in P1, P2, P3, P4.
  assert (Q1 := pending_kept _ _ _ _ P1 (Hk "_rev_id" ltac:(discriminate))).
  assert (Q2 := pending_kept _ _ _ _ P2 (Hk "_rev_user" ltac:(discriminate))).
  assert (Q3 := pending_kept _ _ _ _ P3 (Hk "_rev_date" ltac:(discriminate))).
  assert (Q4 := pending_kept _ _ _ _ P4 (Hk "_rev_tags" ltac:(discriminate))).
  assert (Q5 : pending "_rev_deleted" (VBool true)
                 (Model.setProperty M i1 "_revDeleted" (VBool true))).
  { eapply (revision_property M HM "_revDeleted" "_rev_deleted"); cbn; tauto. }
  split; [|split; [exact Hprot|split; [exact Ho|split; [exact Q1|split; [exact Q4|exact Q5]]]]].
  constructor.
  - rewrite Hn. apply (at_stored M L inst Hat).
  - rewrite (proj1 (Hprot "id" ltac:(cbn; tauto))). apply (at_id M L inst Hat).
  - exact Hv.
  - apply Q1.
  - intro s. rewrite (proj1 Q3). discriminate.
  - intros c Hc. cbn in Hc.
    destruct Hc as [H|[H|[H|[H|[H|[H|[H|[]]]]]]]]; subst c.
    + right. rewrite Ho. apply (at_untracked M L inst Hat). cbn. tauto.
    + right. rewrite Ho. apply (at_untracked M L inst Hat). cbn. tauto.
    + left. apply Q5.
    + left. apply Q1.
    + left. apply Q2.
    + left. apply Q3.
    + left. apply Q4.
Qed.

Variable d : Dal.
Hypothesis Hd : query d = Postgres.exec.

(** What a successful [deleteAllRevisions] did, for the live row of [L]
    in a table [t] holding [n] archived revisions of it: [archive] is the
    row its [newRevision] appended, [update] the UPDATE of its [save] and
    [assigned] the assignment that UPDATE made. *)
Record Deleted (L : string) (n : nat) (inst : Instance) (tags : list Value)
       (w : World) (t : Table) (rev_ : Instance) (w' : World)
       (archive : Row) (update : SqlCall) (assigned : JsObject) : Prop := {
  dl_table :
    exists t', Js.get (tableName M) (tables (store w')) = Some t' /\
               records t' = Postgres.updateWhere "_old_rev_of" (VStr L) markedDeleted
                              (Postgres.updateWhere "id" (VStr L) assigned
                                 (records t ++ [archive]));
  dl_journal : journal w' = journal w ++ [archiveCall M inst; update; markCall M L];
  dl_archive : Postgres.columnValue "_old_rev_of" archive = VStr L;
  dl_update :
    exists fields values,
      update = {| statement := UpdateById (tableName M) fields;
                  params := values ++ [VStr L] |};
  dl_assigned :
    Js.get "_rev_deleted" assigned = Some (VBool true) /\
    Js.get "_rev_tags" assigned = Some (VArr (VStr "delete" :: tags)) /\
    Js.get "_rev_id" assigned = Some (VStr (randomUUID (host w) (S (draws w)))) /\
    ~ In "id" (Js.keys assigned) /\ ~ In "_old_rev_of" (Js.keys assigned);
  dl_all_deleted :
    forall r, In r (rowsOf (tableName M) (store w')) ->
              hasId L r || archives L r = true -> isDeleted r = true;
  dl_one : length (filter (hasId L) (rowsOf (tableName M) (store w'))) = 1;
  dl_current :
    forall r, In r (rowsOf (tableName M) (store w')) -> hasId L r = true ->
              isCurrent r = true;
  dl_family : length (family L (rowsOf (tableName M) (store w'))) = n + 2;
  dl_returned :
    _isNew rev_ = false /\ Js.prop "id" (_data rev_) = VStr L /\
    Js.prop "_rev_deleted" (_data rev_) = VBool true /\
    Js.prop "_rev_tags" (_data rev_) = VArr (VStr "delete" :: tags)
}.

Lemma markRevisionsDeleted_ok (st : Store) (t : Table) (L : string) :
  Js.get (tableName M) (tables st) = Some t ->
  exists res,
    Postgres.exec (markCall M L) st
    = (Ok res,
       Postgres.set_table st (tableName M)
         (Postgres.with_records t
            (Postgres.updateWhere "_old_rev_of" (VStr L) markedDeleted (records t)))
         (generated st)).
Proof.
  intro Ht. unfold Postgres.exec, markCall. cbn [statement params].
  unfold Postgres.markRevisionsDeleted. rewrite Ht. cbn [nth]. eexists. reflexivity.
Qed.

(** One successful [deleteAllRevisions], step by step. *)
Lemma delete_step (L : string) (n : nat) (inst rev_ : Instance)
      (user : option JsObject) (tags : list Value) (w w' : World) (t : Table) :
  Attached M L inst ->
  Js.get (tableName M) (tables (store w)) = Some t ->
  Lineage L n (records t) ->
  Revision.deleteAllRevisions d M inst user tags w = (Ok rev_, w') ->
  exists archive update assigned,
    Deleted L n inst tags w t rev_ w' archive update assigned.
Proof.
  intros Hat Ht Hlin Hrun.
  unfold Revision.deleteAllRevisions, Revision.deleteAllRevisionsHandler in Hrun.
  unfold EffM.bind at 1, EffM.lift at 1 in Hrun.
  destruct (Revision._ensureRevisionHandler M); [|discriminate].
  rewrite (model_id M HM inst L (at_virtuals M L inst Hat) (at_id M L inst Hat)) in Hrun.
  fold (markCall M L) in Hrun.
  unfold EffM.bind at 1 in Hrun.
  destruct (Revision.newRevision d M inst user (VArr (VStr "delete" :: tags)) w)
    as [[rev0|e] w1] eqn:Hnew; [|discriminate].
  destruct (newRevision_ok d M inst rev0 user _ w w1 Hnew)
    as (res1 & Hq1 & Hj1 & Hh1 & Hdr1 & Huser & Hrev).
  rewrite Hd in Hq1.
  destruct (archive_insert M HM L n inst t (store w) (store w1) res1 Hat Ht Hlin Hq1)
    as (arch & Htab1 & Hmark & Harchid & Hfresh & Hcopy).
  subst rev0. cbn [resolvedTags] in Hrun.
  set (revId := VStr (randomUUID (host w) (S (draws w)))) in *.
  set (userId := Revision.resolveRevisionUserId user) in *.
  set (now := Date_now (host w) (draws w)) in *.
  destruct (stamped_for_deletion L inst revId userId (VArr (VStr "delete" :: tags)) now Hat)
    as (Hst & Hprot & Horig & P1 & P4 & P5).
  set (i := Model.setProperty M
              (stamp M inst revId userId (VDate (Some now)) (VArr (VStr "delete" :: tags)))
              "_revDeleted" (VBool true)) in *.
  unfold EffM.bind at 1 in Hrun.
  destruct (Model.save d M i Model.no_options w1) as [[rev2|e] w2] eqn:Hsave;
    [|discriminate].
  destruct (save_stamped M HM d L i rev2 w1 w2 Hst Hsave)
    as (i2 & res2 & Hkept & Hv2 & Ho2 & Hid2 & Hq2 & Hrows2 & Hj2 & Hh2 & Hdr2 & Hfin).
  rewrite Hd in Hq2.
  set (t1 := Postgres.with_records t (records t ++ [arch])) in *.
  assert (Ht1 : Js.get (tableName M) (tables (store w1)) = Some t1)
    by (rewrite Htab1; apply JsFacts.get_set_same).
  destruct (update_rows M L Model.no_options i2 t1 (store w1) (store w2) res2 Hq2 Ht1 Hid2)
    as (Htab2 & Hres2 & _).
  set (asg := assignments M Model.no_options i2) in *.
  set (t2 := Postgres.with_records t1 (Postgres.updateWhere "id" (VStr L) asg (records t1)))
    in *.
  assert (Ht2 : Js.get (tableName M) (tables (store w2)) = Some t2)
    by (rewrite Htab2; apply JsFacts.get_set_same).
  destruct (markRevisionsDeleted_ok (store w2) t2 L Ht2) as (res3 & Hmarked).
  unfold EffM.bind at 1, DataAccessLayer.run_query in Hrun.
  rewrite Hd, Hmarked in Hrun. unfold EffM.ret in Hrun.
  inversion Hrun; subst rev_ w'. clear Hrun.
  assert (Havoid : forall c, In c ["id"; "_old_rev_of"] -> ~ In c (Js.keys asg)).
  { intros c Hc Hin. apply (assignments_keys M) in Hin.
    assert (Hres : In c reserved) by (cbn in Hc |- *; tauto).
    apply (proj2 (Hkept c Hres)) in Hin. apply (proj2 (Hprot c Hc)) in Hin.
    apply (at_clean M L inst Hat c); [cbn in Hc |- *; tauto|exact Hin]. }
  assert (Hpend : forall c v, In c reserved -> c <> "id" -> pending c v i ->
                    Js.get c asg = Some (Postgres.toSql v)).
  { intros c v Hres Hnid [Hval Hch].
    destruct (Hkept c Hres) as [Hk1 Hk2].
    unfold asg. rewrite (assignments_get M Model.no_options i2 c).
    - rewrite Hk1, Hval. reflexivity.
    - unfold ModelFacts.changedFields. apply filter_In. split; [apply Hk2; exact Hch|].
      apply (updatable_revision_column M HM); assumption. }
  assert (A1 : Js.get "_rev_deleted" asg = Some (VBool true))
    by (apply (Hpend "_rev_deleted" (VBool true)); [cbn; tauto|discriminate|exact P5]).
  assert (A2 : Js.get "_rev_tags" asg = Some (VArr (VStr "delete" :: tags)))
    by (apply (Hpend "_rev_tags" (VArr (VStr "delete" :: tags)));
        [cbn; tauto|discriminate|exact P4]).
  assert (A3 : Js.get "_rev_id" asg = Some revId)
    by (apply (Hpend "_rev_id" revId); [cbn; tauto|discriminate|exact P1]).
  assert (Hnd : NoDup (Js.keys asg)) by apply StoreFacts.bound_nodup.
  assert (Hlin1 : Lineage L (S n) (records t1)).
  { apply (lineage_append L _ n (records t) arch Hlin Harchid Hfresh Hmark). }
  destruct (deletion_rows L (S n) (records t1) asg Hlin1
              (Havoid "id" ltac:(cbn; tauto)) (Havoid "_old_rev_of" ltac:(cbn; tauto))
              Hnd A1) as (R1 & R2 & R3 & R4).
  assert (Hrows : forall st tbl g,
             rowsOf (tableName M) (Postgres.set_table st (tableName M) tbl g)
             = records tbl).
  { intros st tbl g. unfold rowsOf, Postgres.set_table. cbn [tables].
    rewrite JsFacts.get_set_same. reflexivity. }
  exists arch, (ModelFacts.updateCall M Model.no_options i2), asg.
  constructor; cbn [store journal host draws].
  - eexists. split; [unfold Postgres.set_table; cbn [tables]; apply JsFacts.get_set_same|].
    reflexivity.
  - rewrite Hj2, Hj1, <- !app_assoc. reflexivity.
  - exact Hmark.
  - exists (ModelFacts.changedFields M Model.no_options i2),
           (map (fun key => Js.prop key (_data i2))
                (ModelFacts.changedFields M Model.no_options i2)).
    unfold ModelFacts.updateCall. rewrite Hid2. reflexivity.
  - split; [exact A1|]. split; [exact A2|]. split; [exact A3|].
    split; apply Havoid; cbn; tauto.
  - rewrite Hrows. exact R1.
  - rewrite Hrows. exact R2.
  - rewrite Hrows. exact R3.
  - rewrite Hrows. cbn [records Postgres.with_records]. fold t1.
    change (records t ++ [arch]) with (records t1). rewrite R4. lia.
  - destruct Hfin as (Hdat & _ & Hn & _).
    split; [exact Hn|].
    unfold Model.assignFirstRow in Hdat.
    destruct (rows res2) as [|row rest] eqn:Er; [contradiction|].
    destruct (filter (hasId L) (records t1)) as [|r0 more] eqn:Ef; [discriminate|].
    cbn [map] in Hres2. inversion Hres2 as [[Hrow Hrest]]. clear Hres2 Hrest.
    assert (Hin : In r0 (filter (hasId L) (records t1)))
      by (rewrite Ef; left; reflexivity).
    apply filter_In in Hin. destruct Hin as [Hr0 Hid0].
    destruct (lin_live L (S n) (records t1) Hlin1 r0 Hr0 Hid0) as (_ & _ & Hkeys).
    assert (Hnk : NoDup (Js.keys row))
      by (rewrite Hrow; apply StoreFacts.nodup_keys_assign; exact Hkeys).
    assert (Hget : forall c v, Js.get c asg = Some v -> Js.get c row = Some v).
    { intros c v Hc. rewrite Hrow.
      change (Postgres.assignColumns asg r0) with (Js.assign r0 asg).
      rewrite (StoreFacts.get_assign asg Hnd), Hc. reflexivity. }
    cbn [Model.with_data _data] in Hdat. rewrite Hdat.
    rewrite !(StoreFacts.prop_assign row _ _ Hnk).
    rewrite (Hget _ _ A1), (Hget _ _ A2).
    split; [|split; reflexivity].
    pose proof (StoreFacts.columnValue_assign_other "id" asg r0
                  (Havoid "id" ltac:(cbn; tauto))) as H.
    rewrite <- Hrow in H. apply StoreFacts.matches_str in Hid0. rewrite Hid0 in H.
    unfold Postgres.columnValue in H. apply StoreFacts.toSql_str in H.
    rewrite (StoreFacts.prop_get _ _ _ H ltac:(discriminate)). reflexivity.
Qed.

End Deletion.

(** A document whose id is a version-1 UUID: its first revision,
    created with that id and saved on the empty table, and then
    deleted. *)
Definition v1Saved : Result Instance * World :=
  ScenarioFacts.firstRevision Fixtures.revisionsDal Fixtures.Revisions Fixtures.testUser
    [("id", VStr Fixtures.v1Id); ("title", VStr "v1")]
    (Fixtures.worldOf (Fixtures.revisionsStore [])).

Definition v1Instance : Instance :=
  match fst v1Saved with Ok i => i | Throw _ => Model.empty_instance end.

Definition v1Deleted : Result Instance * World :=
  Revision.deleteAllRevisions Fixtures.revisionsDal Fixtures.Revisions v1Instance
    Fixtures.testUser [] (snd v1Saved).

(** C2 as stated fails on a live instance whose id is a UUID of another
    version than 4. The document is saved and is the one live row of the
    table; [deleteAllRevisions] succeeds, returns the deletion revision
    and leaves every row of the document deleted; but the guarded read of
    the id does not throw the revision-deleted error: it refuses the id
    with [InvalidUUIDError] before it looks anything up. *)
Lemma deleted_v1_document_is_refused_not_reported_deleted :
  Types.uuid_validator (VStr Fixtures.v1Id) = Ok true /\
  (exists i w, v1Saved = (Ok i, w) /\
               map (fun r => (Postgres.columnValue "id" r,
                              Postgres.columnValue "_old_rev_of" r,
                              Postgres.columnValue "_rev_deleted" r))
                   (rowsOf "revisions" (store w))
               = [(VStr Fixtures.v1Id, VNull, VBool false)]) /\
  (exists rev_ w',
      v1Deleted = (Ok rev_, w') /\
      Js.prop "id" (_data rev_) = VStr Fixtures.v1Id /\
      Js.prop "_rev_deleted" (_data rev_) = VBool true /\
      Js.prop "_rev_tags" (_data rev_) = VArr [VStr "delete"] /\
      length (family Fixtures.v1Id (rowsOf "revisions" (store w'))) = 2 /\
      forallb isDeleted (family Fixtures.v1Id (rowsOf "revisions" (store w'))) = true /\
      Revision.getNotStaleOrDeleted Fixtures.revisionsDal Fixtures.Revisions Fixtures.v1Id [] w'
      = (Throw (TErr (Errors.InvalidUUIDError "Invalid revisions address format")), w')) /\
  ~ (exists w'',
        Revision.getNotStaleOrDeleted Fixtures.revisionsDal Fixtures.Revisions Fixtures.v1Id []
                                      (snd v1Deleted)
        = (Throw (TErr Revision.deletedError), w'')).
Proof.
  split; [reflexivity|]. split; [|split].
  - eexists. eexists. split; vm_compute; reflexivity.
  - eexists. eexists. split; [vm_compute; reflexivity|].
    repeat (split; [vm_compute; reflexivity|]). vm_compute. reflexivity.
  - intros [w'' H]. vm_compute in H. discriminate.
Qed.

(** C2, as the code has it. On a revision-enabled model over the
    relational store, for the live instance of a document of logical id
    [L], held in a table with [n] archived revisions of it: a successful
    [deleteAllRevisions(user, {tags})] sends three statements, the INSERT
    of [newRevision] that archives one more row under [L], the UPDATE by
    id of [save], which writes the fresh revision id, the tags
    [['delete', ...tags]] and [_rev_deleted = true] to the live row and
    leaves [id] and [_old_rev_of] alone, and the bulk UPDATE that sets
    [_rev_deleted = true] on every row whose [_old_rev_of] is [L]; the
    instance it returns is the saved deletion revision. Afterwards every
    row that carries [L] as its id or as its [_old_rev_of] is deleted.
    What [getNotStaleOrDeleted(L)] then answers depends on the id: when
    [L] is a version-4 UUID (spelled as storage prints its ids, which is
    how the table holds it) it throws the revision-deleted error without
    changing the store; when [L] is anything else it throws
    [InvalidUUIDError] and sends nothing. *)
Theorem delete_all_revisions_marks_every_row :
  forall (M : ModelClass) (d : Dal) (L : string) (n : nat) (inst rev_ : Instance)
         (user : option JsObject) (tags : list Value) (w w' : World) (t : Table),
    RevisionModel M -> QueryFacts.DefaultsTotal M -> query d = Postgres.exec ->
    Attached M L inst ->
    Js.get (tableName M) (tables (store w)) = Some t ->
    Lineage L n (records t) ->
    Revision.deleteAllRevisions d M inst user tags w = (Ok rev_, w') ->
    (exists archive update assigned,
        Deleted M L n inst tags w t rev_ w' archive update assigned) /\
    (Revision.isUUID_v4 L = true -> Postgres.uuid_in L = Some L ->
     exists w'',
       Revision.getNotStaleOrDeleted d M L [] w'
       = (Throw (TErr Revision.deletedError), w'') /\
       store w'' = store w' /\
       journal w'' = journal w' ++ [QueryFacts.selectCall (guardedLookup d M L)]) /\
    (Revision.isUUID_v4 L = false ->
     Revision.getNotStaleOrDeleted d M L [] w'
     = (Throw (TErr (Errors.InvalidUUIDError
                       ("Invalid " ++ tableName M ++ " address format"))), w')).
Proof.
  intros M d L n inst rev_ user tags w w' t HM HD Hd Hat Ht Hlin Hrun.
  destruct (delete_step M HM d Hd L n inst rev_ user tags w w' t Hat Ht Hlin Hrun)
    as (archive & update & assigned & D).
  split; [exists archive, update, assigned; exact D|]. split.
  - intros Hok Hcanon.
    destruct D as [(t' & Ht' & _) _ _ _ _ Hall Hone _ _ _].
    destruct (guarded_read_on_store M d L w' t' HM HD Hd Hok Ht')
      as (answer & w'' & Hread & Hstore & Hjournal & Hverdict).
    exists w''. split; [|split; [exact Hstore|exact Hjournal]].
    rewrite Hread. f_equal.
    unfold rowsOf in Hall, Hone. rewrite Ht' in Hall, Hone.
    unfold verdict in Hverdict.
    rewrite (filter_ext (names L) (hasId L)
               (fun r => names_canonical L r Hcanon)) in Hverdict.
    destruct (filter (hasId L) (records t')) as [|row rest] eqn:Ef; [discriminate|].
    assert (Hin : In row (filter (hasId L) (records t')))
      by (rewrite Ef; left; reflexivity).
    apply filter_In in Hin. destruct Hin as [Hrow Hid].
    assert (Hdel : isDeleted row = true)
      by (apply Hall; [exact Hrow|rewrite Hid; reflexivity]).
    apply StoreFacts.matches_bool in Hdel. rewrite Hdel in Hverdict. exact Hverdict.
  - intro Hbad. unfold Revision.getNotStaleOrDeleted. rewrite Hbad. reflexivity.
Qed.

(** The saved first revision of the fixture, deleted with one extra
    tag. *)
Definition afterDeletion : Result Instance * World :=
  Revision.deleteAllRevisions Fixtures.revisionsDal Fixtures.Revisions
    ScenarioFacts.savedInstance Fixtures.testUser [VStr "cleanup"]
    (snd ScenarioFacts.firstSaved).

Definition deletionRevision : Instance :=
  match fst afterDeletion with Ok i => i | Throw _ => Model.empty_instance end.

(** On the fixture the deletion succeeds, and the guarded read of the
    document's id then throws the revision-deleted error. *)
Lemma delete_all_revisions_marks_every_row_witness :
  exists w'',
    Revision.getNotStaleOrDeleted Fixtures.revisionsDal Fixtures.Revisions
                                  ScenarioFacts.docId [] (snd afterDeletion)
    = (Throw (TErr Revision.deletedError), w'') /\
    store w'' = store (snd afterDeletion) /\
    journal w''
    = journal (snd afterDeletion)
      ++ [QueryFacts.selectCall
            (guardedLookup Fixtures.revisionsDal Fixtures.Revisions ScenarioFacts.docId)].
Proof.
  destruct ScenarioFacts.firstSaved_lineage as (t & Ht & Hlin).
  refine (proj1 (proj2 (delete_all_revisions_marks_every_row
                   Fixtures.Revisions Fixtures.revisionsDal ScenarioFacts.docId 0
                   ScenarioFacts.savedInstance deletionRevision Fixtures.testUser
                   [VStr "cleanup"] (snd ScenarioFacts.firstSaved) (snd afterDeletion) t
                   FixtureFacts.revisions_model QueryFacts.revisions_defaults_total eq_refl
                   ScenarioFacts.savedInstance_attached Ht Hlin _)) _ _).
  - vm_compute. reflexivity.
  - vm_compute. reflexivity.
  - vm_compute. reflexivity.
Defined.

End DeletionFacts.

(* ================================================================== *)
(** ** Schema types: what validation throws and what it returns *)

Module ValidationFacts.

(** A field built from the classes of the type module alone, element
    types included. *)
Fixpoint builtin (f : SchemaField) : bool :=
  match f with
  | CustomField _ _ => false
  | ArrayType _ (Some elementType) => builtin elementType
  | _ => true
  end.

Definition isValidationError (t : Thrown) : Prop :=
  exists e, t = TErr e /\ cls e = CValidationError.

(** The validators [validate] may run on a field: its own and those of
    its element types. *)
Fixpoint validatorsOf (f : SchemaField) : list (Value -> Result bool) :=
  validators (Types.base f)
  ++ match f with
     | ArrayType _ (Some elementType) => validatorsOf elementType
     | _ => []
     end.

(** [t] is what [String(error)] threw on a non-error that one of the
    validators throws. *)
Definition conversionThrew (h : Host) (vs : list (Value -> Result bool)) (t : Thrown)
  : Prop :=
  exists v x thrown,
    In v vs /\ v x = Throw (TVal thrown) /\ Types.ToString h thrown = Throw t.

(** What [validate] lets out: a [ValidationError], or what the
    conversion of a thrown non-error to text threw. *)
Definition escapes (h : Host) (vs : list (Value -> Result bool)) (t : Thrown) : Prop :=
  isValidationError t \/ conversionThrew h vs t.

Lemma escapes_more (h : Host) (vs more : list (Value -> Result bool)) (t : Thrown) :
  (forall v, In v vs -> In v more) -> escapes h vs t -> escapes h more t.
Proof.
  intros Hsub [H|(v & x & thrown & Hin & Hv & Hs)]; [left; exact H|].
  right. exists v, x, thrown. split; [apply Hsub; exact Hin|].
  split; assumption.
Qed.

(** On the values of the embedding, which carry no functions, the
    conversion throws nothing but the [TypeError] of [ToPrimitive]. *)
Lemma ToString_throws (h : Host) :
  forall (v : Value) (t : Thrown),
    Types.ToString h v = Throw t -> t = TErr Types.noPrimitive.
Proof.
  fix IH 1. intros v t.
  destruct v as [| |[|]|[z| |[|]]|s|[u|]|l|o]; cbn [Types.ToString]; try discriminate.
  - match goal with
    | |- match ?F l with _ => _ end = _ -> _ =>
        cut (forall t', F l = Throw t' -> t' = TErr Types.noPrimitive)
    end.
    { intros Hl H.
      match type of H with
      | match ?e with _ => _ end = _ => destruct e as [ts|t'] eqn:El
      end; [discriminate|].
      inversion H; subst t'. exact (Hl t eq_refl). }
    clear t. revert l. fix IHl 1. intros [|x r] t' H; [discriminate|].
    cbn [Types.ToString] in H.
    destruct (match x with VUndef | VNull => Ok "" | _ => Types.ToString h x end)
      as [text|t''] eqn:Ex.
    + match type of H with
      | match ?e with _ => _ end = _ => destruct e as [rest|t3] eqn:Er
      end; [discriminate|].
      inversion H; subst. exact (IHl r _ Er).
    + inversion H; subst.
      assert (Ex' : Types.ToString h x = Throw t')
        by (destruct x; try discriminate; exact Ex).
      exact (IH x _ Ex').
  - destruct (Js.has "toString" o); [|discriminate].
    intro H. inversion H. reflexivity.
Qed.

Lemma invalid_is_ValidationError {A} (msg : string) (t : Thrown) :
  @Types.invalid A msg = Throw t -> isValidationError t.
Proof.
  unfold Types.invalid. intro H. inversion H; subst. eexists. split; reflexivity.
Qed.

Lemma runValidators_throws (h : Host) (vs : list (Value -> Result bool)) (value : Value)
      (fieldName : string) (t : Thrown) :
  Types.runValidators h vs value fieldName = Throw t -> escapes h vs t.
Proof.
  induction vs as [|v rest IH]; cbn [Types.runValidators]; [discriminate|].
  destruct (v value) as [[|]|[e|thrown]] eqn:Ev.
  - intro H. apply (escapes_more h rest); [intros u Hu; right; exact Hu|exact (IH H)].
  - intro H. inversion H; subst. left. eexists. split; reflexivity.
  - destruct (cls e) eqn:Ec; intro H; inversion H; subst; left; eexists; split;
      first [reflexivity | exact Ec].
  - destruct (Types.ToString h thrown) as [text|t'] eqn:Es; intro H; inversion H; subst.
    + left. eexists. split; reflexivity.
    + right. exists v, value, thrown.
      split; [left; reflexivity|]. split; assumption.
Qed.

Lemma after_throws {A} (r : Result unit) (k : Result A) (t : Thrown) :
  Types.after r k = Throw t -> r = Throw t \/ (r = Ok tt /\ k = Throw t).
Proof.
  destruct r as [[]|t']; cbn; intro H; [right; split; [reflexivity|exact H]|].
  left. inversion H; subst. reflexivity.
Qed.

Lemma own_validators (f : SchemaField) (v : Value -> Result bool) :
  In v (validators (Types.base f)) -> In v (validatorsOf f).
Proof. intro H. destruct f; cbn [validatorsOf]; apply in_or_app; left; exact H. Qed.

Ltac validation_error f :=
  match goal with
  | H : Types.invalid _ = Throw _ |- _ => left; exact (invalid_is_ValidationError _ _ H)
  | H : Types.after _ _ = Throw _ |- _ =>
      apply after_throws in H; destruct H as [H|[_ H]];
      [exact (escapes_more _ _ _ _ (own_validators f) (runValidators_throws _ _ _ _ _ H))
      |try discriminate]
  | H : Ok _ = Throw _ |- _ => discriminate
  end.

(** Whatever a custom validator does (answer [false], throw an error of
    any class, throw a value that is no error), [validate] on a field of
    the built-in classes lets out a [ValidationError] or, in one case
    only, what [String(error)] threw: a validator of the field threw a
    non-error, and converting it to the text of the message failed. *)
Theorem validate_throws_ValidationError_or_failed_conversion :
  forall (h : Host) (f : SchemaField) (value : Value) (fieldName : string) (t : Thrown),
    builtin f = true ->
    Types.validate h f value fieldName = Throw t ->
    isValidationError t \/ conversionThrew h (validatorsOf f) t.
Proof.
  intro h. change (forall f value fieldName t, builtin f = true ->
                     Types.validate h f value fieldName = Throw t ->
                     escapes h (validatorsOf f) t).
  fix IH 1. intros f value fieldName t Hb.
  destruct f as [b|b mx mn en|b mn mx isInt|b|b|b et|b|b|b v]; cbn [builtin] in Hb;
    try discriminate; cbn [Types.validate Types.base];
    (destruct (_required b && Js.nullish value); [intro H; validation_error f0|]);
    (destruct (Js.nullish value); [discriminate|]).
  - intro H. validation_error (AnyType b).
  - destruct value; try (intro H; solve [validation_error (StringType b mx mn en)]).
    destruct (match mx with Some m => Nat.ltb m (String.length s) | None => false end);
      [intro H; validation_error (StringType b mx mn en)|].
    destruct (match mn with Some m => Nat.ltb (String.length s) m | None => false end);
      [intro H; validation_error (StringType b mx mn en)|].
    destruct (match en with Some vs => negb (Str.mem s vs) | None => false end);
      intro H; validation_error (StringType b mx mn en).
  - destruct value as [| | |[z| |]| | | |];
      try (intro H; solve [validation_error (NumberType b mn mx isInt)]).
    destruct (match mn with Some m => Z.ltb z m | None => false end);
      [intro H; validation_error (NumberType b mn mx isInt)|].
    destruct (match mx with Some m => Z.ltb m z | None => false end);
      intro H; validation_error (NumberType b mn mx isInt).
  - destruct value; intro H; validation_error (BooleanType b).
  - destruct value as [| | | |s|[u|]| |];
      try (intro H; solve [validation_error (DateType b)]).
    destruct (Date_parse h s); intro H; validation_error (DateType b).
  - destruct value as [| | | | | |items|];
      try (intro H; solve [validation_error (ArrayType b et)]).
    intro H. validation_error (ArrayType b et).
    destruct et as [et|]; [|discriminate].
    apply (escapes_more h (validatorsOf et));
      [intros u Hu; cbn [validatorsOf]; apply in_or_app; right; exact Hu|].
    revert H. generalize 0.
    induction items as [|x r IHr]; intros i H; [discriminate|].
    destruct (Types.validate h et x _) as [y|t'] eqn:Ey.
    + match type of H with
      | match ?e with _ => _ end = _ => destruct e as [ys|t''] eqn:Er
      end.
      * destruct ys; discriminate.
      * inversion H; subst. exact (IHr (S i) Er).
    + inversion H; subst. exact (IH et x _ t Hb Ey).
  - destruct value; intro H; validation_error (ObjectType b).
  - intro H. validation_error (VirtualType b).
Qed.

(** A string field whose validator throws an object that carries a
    [toString] property of its own: the conversion finds nothing to call,
    and the caller sees its [TypeError], not a [ValidationError]. *)
Lemma validate_throws_ValidationError_or_failed_conversion_witness :
  let h := Fixtures.hostOf 0 in
  let f := Types.validator
             (fun _ => Throw (TVal (VObj [("toString", VNum (NFin 1%Z))])))
             Types.types.string in
  Types.validate h f (VStr "Ada") "name" = Throw (TErr Types.noPrimitive) /\
  cls Types.noPrimitive = CTypeError /\
  (isValidationError (TErr Types.noPrimitive) \/
   conversionThrew h (validatorsOf f) (TErr Types.noPrimitive)).
Proof.
  intros h f. split; [reflexivity|]. split; [reflexivity|].
  exact (validate_throws_ValidationError_or_failed_conversion
           h f (VStr "Ada") "name" _ eq_refl eq_refl).
Defined.

(** With a validator that throws a plain [Error], or a value [String]
    converts, the caller sees a [ValidationError] that carries the text. *)
Example validate_reports_what_was_thrown :
  let h := Fixtures.hostOf 0 in
  Types.validate h (Types.validator (fun _ => Throw (TErr (Errors.Error "boom")))
                      Types.types.date) (VDate (Some 0%Z)) "when"
  = Throw (TErr (Errors.ValidationError "Validation error for when: boom" None)) /\
  Types.validate h (Types.validator
                      (fun _ => Throw (TVal (VArr [VNum (NFin 1%Z); VNull; VStr "x"])))
                      Types.types.object) (VObj []) "meta"
  = Throw (TErr (Errors.ValidationError "Validation error for meta: 1,,x" None)) /\
  Types.validate h (Types.validator (fun _ => Throw (TVal (VObj [("reason", VNull)])))
                      Types.types.object) (VDate (Some 0%Z)) "meta"
  = Throw (TErr (Errors.ValidationError
                   "Validation error for meta: [object Object]" None)).
Proof. repeat split. Qed.

(** The element loop of [ArrayType.validate]. *)
Definition validateElements (h : Host) (elementType : SchemaField) (fieldName : string)
  : nat -> list Value -> Result Value :=
  fix each (i : nat) (l : list Value) : Result Value :=
    match l with
    | [] => Ok (VArr [])
    | x :: r =>
        match Types.validate h elementType x
                (fieldName ++ "[" ++ Str.of_nat i ++ "]")%string with
        | Throw t => Throw t
        | Ok y =>
            match each (S i) r with
            | Ok (VArr ys) => Ok (VArr (y :: ys))
            | other => other
            end
        end
    end.

Lemma validate_array (h : Host) (b : TypeBase) (elementType : SchemaField)
      (items : list Value) (fieldName : string) :
  Types.validate h (ArrayType b (Some elementType)) (VArr items) fieldName
  = Types.after (Types.runValidators h (validators b) (VArr items) fieldName)
                (validateElements h elementType fieldName 0 items).
Proof.
  cbn [Types.validate Types.base Js.nullish]. rewrite Bool.andb_false_r. reflexivity.
Qed.

Lemma validateElements_idempotent (h : Host) (elementType : SchemaField)
      (fieldName : string) :
  (forall x m y, Types.validate h elementType x m = Ok y ->
                 Types.validate h elementType y m = Ok y) ->
  forall items i out,
    validateElements h elementType fieldName i items = Ok out ->
    exists ys, out = VArr ys /\
               validateElements h elementType fieldName i ys = Ok (VArr ys).
Proof.
  intro Het. induction items as [|x r IHr]; intros i out H.
  - cbn in H. inversion H; subst. exists []. split; reflexivity.
  - cbn [validateElements] in H. fold (validateElements h elementType fieldName) in H.
    destruct (Types.validate h elementType x _) as [y|t] eqn:Ey; [|discriminate].
    destruct (validateElements h elementType fieldName (S i) r) as [rest|t] eqn:Er;
      [|discriminate].
    destruct (IHr (S i) rest Er) as (ys & E & Hys). subst rest.
    inversion H; subst. exists (y :: ys). split; [reflexivity|].
    cbn [validateElements]. fold (validateElements h elementType fieldName).
    rewrite (Het _ _ _ Ey), Hys. reflexivity.
Qed.

(** A field whose validation can be run again on its own result: the
    built-in classes, where an array with an element type carries no
    validator of its own (an array's validators see the value as it was
    given, before its elements are normalized). *)
Fixpoint renormalizable (f : SchemaField) : bool :=
  match f with
  | CustomField _ _ => false
  | ArrayType b (Some elementType) =>
      match validators b with
      | [] => renormalizable elementType
      | _ :: _ => false
      end
  | _ => true
  end.

Ltac unchanged H :=
  apply RevisionModelFacts.after_ok in H; inversion H; subst; reflexivity.

(** Validation is a normalization: the value [validate] returns (the
    value itself, a [Date] parsed from text, an array of normalized
    elements) is accepted by the same field under the same name, and comes
    back as it is. *)
Theorem validate_is_idempotent :
  forall (h : Host) (f : SchemaField) (value : Value) (fieldName : string)
         (normalized : Value),
    renormalizable f = true ->
    Types.validate h f value fieldName = Ok normalized ->
    Types.validate h f normalized fieldName = Ok normalized.
Proof.
  intro h.
  fix IH 1. intros f value fieldName normalized Hs H.
  destruct f as [b|b mx mn en|b mn mx isInt|b|b|b et|b|b|b v]; cbn [renormalizable] in Hs;
    try discriminate.
  1-4, 7-8:
    assert (E : normalized = value);
    [ cbn [Types.validate Types.base] in H;
      destruct (_required b && Js.nullish value); [discriminate|];
      destruct (Js.nullish value); [inversion H; reflexivity|]
    | subst normalized; exact H ].
  - unchanged H.
  - destruct value; try discriminate.
    destruct (match mx with Some m => Nat.ltb m (String.length s) | None => false end);
      [discriminate|].
    destruct (match mn with Some m => Nat.ltb (String.length s) m | None => false end);
      [discriminate|].
    destruct (match en with Some vs => negb (Str.mem s vs) | None => false end);
      [discriminate|]. unchanged H.
  - destruct value as [| | |[z| |]| | | |]; try discriminate.
    destruct (match mn with Some m => Z.ltb z m | None => false end); [discriminate|].
    destruct (match mx with Some m => Z.ltb m z | None => false end); [discriminate|].
    unchanged H.
  - destruct value; try discriminate. unchanged H.
  - destruct value; try discriminate; unchanged H.
  - unchanged H.
  - (* dates *)
    cbn [Types.validate Types.base] in H |- *.
    destruct (Js.nullish value) eqn:En.
    { destruct (_required b && true) eqn:Er; [discriminate|].
      inversion H; subst. rewrite En, Er. reflexivity. }
    rewrite Bool.andb_false_r in H.
    assert (Hn : exists u, normalized = VDate (Some u) /\
                           Types.after (Types.runValidators h (validators b) (VDate (Some u))
                                          fieldName)
                                       (Ok (VDate (Some u))) = Ok normalized).
    { destruct value as [| | | |s|[u|]| |]; try discriminate.
      - destruct (Date_parse h s) as [u|]; [|discriminate].
        exists u. split; [|exact H]. apply RevisionModelFacts.after_ok in H.
        inversion H. reflexivity.
      - exists u. split; [|exact H]. apply RevisionModelFacts.after_ok in H.
        inversion H. reflexivity. }
    destruct Hn as (u & E & Hu). subst normalized.
    cbn [Js.nullish]. rewrite Bool.andb_false_r. exact Hu.
  - (* arrays *)
    cbn [Types.validate Types.base] in H.
    destruct (Js.nullish value) eqn:En.
    { destruct (_required b && true) eqn:Er; [discriminate|].
      inversion H; subst. cbn [Types.validate Types.base]. rewrite En, Er. reflexivity. }
    rewrite Bool.andb_false_r in H.
    destruct value as [| | | | | |items|]; try discriminate.
    destruct et as [et|].
    + destruct (validators b) as [|v0 vs] eqn:Ev; [|discriminate].
      cbn [Types.runValidators Types.after] in H.
      change (validateElements h et fieldName 0 items = Ok normalized) in H.
      destruct (validateElements_idempotent h et fieldName (fun x m y => IH et x m y Hs)
                  items 0 normalized H) as (ys & E & Hys).
      subst normalized. rewrite validate_array. rewrite Ev. exact Hys.
    + assert (E : normalized = VArr items)
        by (apply RevisionModelFacts.after_ok in H; inversion H; reflexivity).
      subst normalized.
      cbn [Types.validate Types.base Js.nullish]. rewrite Bool.andb_false_r.
      destruct (Types.runValidators h (validators b) (VArr items) fieldName); [|discriminate].
      reflexivity.
Qed.

(** An array of dates, one given as text: the normalized array validates
    to itself. *)
Lemma validate_is_idempotent_witness :
  let h := {| Date_parse := fun _ => Some 5%Z; randomUUID := fun _ => "";
              Date_now := fun _ => 0%Z; Date_toString := fun _ => "" |} in
  let f := Types.types.array (Some Types.types.date) in
  Types.validate h f (VArr [VStr "1970-01-01T00:00:00.005Z"; VDate (Some 1%Z)]) "seen"
  = Ok (VArr [VDate (Some 5%Z); VDate (Some 1%Z)]) /\
  Types.validate h f (VArr [VDate (Some 5%Z); VDate (Some 1%Z)]) "seen"
  = Ok (VArr [VDate (Some 5%Z); VDate (Some 1%Z)]).
Proof.
  intros h f. split; [reflexivity|].
  exact (validate_is_idempotent h f
           (VArr [VStr "1970-01-01T00:00:00.005Z"; VDate (Some 1%Z)]) "seen" _
           eq_refl eq_refl).
Defined.

End ValidationFacts.

(* ================================================================== *)
(** ** Error conversion *)

Module ConversionFacts.

(** The [code] discriminants of the classes [convertPostgreSQLError]
    returns. *)
Definition dalCodes : list (option string) :=
  [None; Some "CONSTRAINT_ERROR"; Some "VALIDATION_ERROR"; Some "CONNECTION_ERROR";
   Some "QUERY_ERROR"].

Lemma converted_code (pgError : Thrown) :
  In (code (Errors.convertPostgreSQLError pgError)) dalCodes.
Proof.
  unfold Errors.convertPostgreSQLError. destruct pgError as [error|v]; [|cbn; tauto].
  cbv zeta.
  repeat match goal with
         | |- context [match ?x with _ => _ end] => destruct x
         end; cbn; tauto.
Qed.

(** The conversion is keyed on the storage vendor's codes only; what it
    returns carries a code of the layer's own. Converting a converted
    error therefore never gives it back: the second conversion falls to
    the default branch and wraps the first result, message kept, in a
    [QueryError]. *)
Theorem converting_twice_wraps_in_QueryError :
  forall (pgError : Thrown),
    let first := Errors.convertPostgreSQLError pgError in
    Errors.convertPostgreSQLError (TErr first)
    = Errors.QueryError (message first) (Some first).
Proof.
  intros pgError first. pose proof (converted_code pgError) as Hc. fold first in Hc.
  unfold Errors.convertPostgreSQLError at 1. cbv zeta.
  cbn in Hc. destruct Hc as [H|[H|[H|[H|[H|[]]]]]]; rewrite <- H; reflexivity.
Qed.

End ConversionFacts.

(* ================================================================== *)
(** ** Change tracking: the snapshot and the comparison *)

Module TrackingFacts.

Fixpoint distinct (l : list string) : bool :=
  match l with
  | [] => true
  | x :: r => negb (Str.mem x r) && distinct r
  end.

Lemma distinct_NoDup (l : list string) : distinct l = true -> NoDup l.
Proof.
  induction l as [|x r IH]; cbn; intro H; [constructor|].
  apply Bool.andb_true_iff in H. destruct H as [Hx Hr].
  constructor; [|apply IH; exact Hr].
  apply JsFacts.mem_false. destruct (Str.mem x r); [discriminate|reflexivity].
Qed.

(** A value as JSON and storage hand it over: no [NaN], no invalid
    [Date], and no object with a repeated key, at any depth. *)
Fixpoint regular (v : Value) : bool :=
  match v with
  | VNum NNaN => false
  | VDate None => false
  | VArr l => forallb regular l
  | VObj l =>
      distinct (map fst l) &&
      (fix all (l : list (string * Value)) : bool :=
         match l with
         | [] => true
         | (_, x) :: r => regular x && all r
         end) l
  | _ => true
  end.

(** [deepEqual] answers [true] on a regular value and its copy. *)
Lemma deepEqual_refl : forall v, regular v = true -> deepEqual v v = true.
Proof.
  fix IH 1. intros v Hv.
  destruct v as [| |b|n|s|t|l|l]; cbn [deepEqual]; try reflexivity.
  - destruct b; reflexivity.
  - destruct n as [z| |p]; cbn in Hv |- *; [apply Z.eqb_refl|discriminate|].
    destruct p; reflexivity.
  - apply String.eqb_refl.
  - destruct t as [z|]; [apply Z.eqb_refl|discriminate].
  - rewrite Nat.eqb_refl. cbn [andb]. cbn [regular] in Hv.
    induction l as [|x r IHr]; [reflexivity|].
    cbn [forallb] in Hv. apply Bool.andb_true_iff in Hv. destruct Hv as [Hx Hr].
    rewrite (IH x Hx). cbn [andb]. exact (IHr Hr).
  - rewrite Nat.eqb_refl. cbn [andb]. cbn [regular] in Hv.
    apply Bool.andb_true_iff in Hv. destruct Hv as [Hd Hall].
    apply distinct_NoDup in Hd.
    assert (Hsub : forall kv, In kv l -> In kv l) by (intros kv H; exact H).
    revert Hall Hsub. generalize l at 1 2 5. intro l0.
    induction l0 as [|[k x] r IHr]; intros Hall Hsub; [reflexivity|].
    apply Bool.andb_true_iff in Hall. destruct Hall as [Hx Hr].
    rewrite (JsFacts.In_get_nodup k x l Hd (Hsub (k, x) (or_introl eq_refl))).
    rewrite (IH x Hx). cbn [andb].
    apply (IHr Hr). intros kv H. apply Hsub. right. exact H.
Qed.

Section Snapshot.

Variable M : ModelClass.
Hypothesis Hschema : NoDup (Js.keys (schema M)).

(** What [_trackOriginalValues] keeps for a column: the value when it is
    an object, an array or a date, nothing otherwise. *)
Definition snapshotOf (v : Value) : Value := if Js.is_object v then v else VUndef.

Definition tracks (c : string) (l : list (string * SchemaField)) : bool :=
  existsb (fun e => negb (isVirtual (Types.base (snd e))) &&
                    String.eqb (Model._getDbFieldName M (fst e)) c) l.

Definition trackStep (i : Instance) (e : string * SchemaField) : Instance :=
  if negb (isVirtual (Types.base (snd e))) then
    let dbFieldName := Model._getDbFieldName M (fst e) in
    let value := Js.prop dbFieldName (_data i) in
    {| _data := _data i; _virtualFields := _virtualFields i;
       _changed := _changed i; _isNew := _isNew i;
       _originalData :=
         if Js.is_object value then Js.set dbFieldName value (_originalData i)
         else Js.remove dbFieldName (_originalData i) |}
  else i.

Lemma track_fold (l : list (string * SchemaField)) :
  forall i,
    let i' := fold_left trackStep l i in
    _data i' = _data i /\ _virtualFields i' = _virtualFields i /\
    _changed i' = _changed i /\ _isNew i' = _isNew i /\
    forall c, Js.prop c (_originalData i')
              = if tracks c l then snapshotOf (Js.prop c (_data i))
                else Js.prop c (_originalData i).
Proof.
  induction l as [|e r IH]; intro i; cbn zeta.
  - repeat split; reflexivity.
  - cbn [fold_left]. destruct (IH (trackStep i e)) as (Hd & Hv & Hc & Hn & Ho).
    assert (Hframe : _data (trackStep i e) = _data i /\
                     _virtualFields (trackStep i e) = _virtualFields i /\
                     _changed (trackStep i e) = _changed i /\
                     _isNew (trackStep i e) = _isNew i)
      by (unfold trackStep; destruct (negb (isVirtual (Types.base (snd e))));
          repeat split; reflexivity).
    destruct Hframe as (Fd & Fv & Fc & Fn).
    split; [congruence|]. split; [congruence|]. split; [congruence|]. split; [congruence|].
    intro c. rewrite Ho, Fd. unfold tracks. cbn [existsb]. fold (tracks c r).
    destruct (tracks c r); [rewrite Bool.orb_true_r; reflexivity|].
    rewrite Bool.orb_false_r. unfold trackStep.
    destruct (negb (isVirtual (Types.base (snd e)))); cbn [andb]; [|reflexivity].
    cbn [_originalData]. rewrite String.eqb_sym.
    destruct (Js.is_object (Js.prop (Model._getDbFieldName M (fst e)) (_data i))) eqn:Eo.
    + rewrite JsFacts.prop_set.
      destruct (String.eqb c (Model._getDbFieldName M (fst e))) eqn:Ec; [|reflexivity].
      apply String.eqb_eq in Ec. subst c. unfold snapshotOf. rewrite Eo. reflexivity.
    + rewrite JsFacts.prop_remove.
      destruct (String.eqb c (Model._getDbFieldName M (fst e))) eqn:Ec; [|reflexivity].
      apply String.eqb_eq in Ec. subst c. unfold snapshotOf. rewrite Eo. reflexivity.
Qed.

Lemma track_spec (i : Instance) :
  let i' := Model._trackOriginalValues M i in
  _data i' = _data i /\ _virtualFields i' = _virtualFields i /\
  _changed i' = _changed i /\ _isNew i' = _isNew i /\
  forall c, Js.prop c (_originalData i')
            = if tracks c (schema M) then snapshotOf (Js.prop c (_data i))
              else Js.prop c (_originalData i).
Proof. exact (track_fold (schema M) i). Qed.

Lemma stored_field (k : string) (f : SchemaField) :
  In (k, f) (schema M) -> isVirtual (Types.base f) = false ->
  Model.schema_isVirtual M k = false /\ tracks (Model._getDbFieldName M k) (schema M) = true.
Proof.
  intros Hin Hf. split.
  - unfold Model.schema_isVirtual. rewrite (JsFacts.In_get_nodup k f _ Hschema Hin).
    exact Hf.
  - unfold tracks. apply existsb_exists. exists (k, f). split; [exact Hin|].
    cbn [fst snd]. rewrite Hf, String.eqb_refl. reflexivity.
Qed.

End Snapshot.

(** Right after the snapshot is taken, the comparison finds nothing: an
    instance whose stored values are regular and that nobody touched is
    left as it is by [_detectInPlaceChanges], change set included. *)
Theorem fresh_snapshot_detects_no_change :
  forall (M : ModelClass) (i : Instance),
    NoDup (Js.keys (schema M)) ->
    ModelFacts.noStrayVirtuals M i ->
    (forall c, regular (Js.prop c (_data i)) = true) ->
    Model._detectInPlaceChanges M (Model._trackOriginalValues M i)
    = Model._trackOriginalValues M i.
Proof.
  intros M i Hschema Hv Hreg.
  destruct (track_spec M i) as (Hd & Hvf & _ & _ & Ho).
  set (i1 := Model._trackOriginalValues M i) in *.
  assert (Hv1 : ModelFacts.noStrayVirtuals M i1)
    by (intros k Hk; rewrite Hvf; apply Hv; exact Hk).
  unfold Model._detectInPlaceChanges. destruct (_isNew i1); [reflexivity|].
  apply (ModelFacts.fold_left_invariant (fun s => s = i1)); [reflexivity|].
  intros [k f] a Hin Ha. subst a. cbn [fst snd].
  destruct (isVirtual (Types.base f)) eqn:Ef; cbn [negb andb]; [reflexivity|].
  destruct (negb (Str.startsWith "_" k)); [|reflexivity].
  destruct (stored_field M Hschema k f Hin Ef) as [Hk Htr].
  rewrite (Ho (Model._getDbFieldName M k)), Htr.
  rewrite (ModelFacts.getValue_stored M i1 k Hv1 Hk), Hd.
  unfold snapshotOf.
  pose proof (deepEqual_refl _ (Hreg (Model._getDbFieldName M k))) as Hrefl.
  destruct (Js.prop (Model._getDbFieldName M k) (_data i)); cbn [Js.is_object];
    try reflexivity; rewrite Hrefl; reflexivity.
Qed.

(** [profiles(id, settings, labels)]: a JSON object and an array next to
    the key. *)
Definition Profiles : ModelClass :=
  {| tableName := "profiles";
     schema := [("id", Types.types.string); ("settings", Types.types.object);
                ("labels", Types.types.array None)];
     _fieldMappings := []; _relations := []; filterWhereStatic := Some false |}.

Definition storedProfile (settings : Value) : Instance :=
  {| _data := [("id", VStr "p1"); ("settings", settings);
               ("labels", VArr [VStr "a"; VStr "b"])];
     _virtualFields := []; _changed := []; _isNew := false; _originalData := [] |}.

Lemma profiles_keys : NoDup (Js.keys (schema Profiles)).
Proof. cbn. repeat constructor; cbn; intuition discriminate. Qed.

Lemma fresh_snapshot_detects_no_change_witness :
  let i := Model._trackOriginalValues Profiles
             (storedProfile (VObj [("theme", VStr "dark")])) in
  Model._detectInPlaceChanges Profiles i = i /\ _changed i = [] /\
  Js.keys (_originalData i) = ["settings"; "labels"].
Proof.
  intro i. split; [|split; reflexivity].
  apply (fresh_snapshot_detects_no_change Profiles
           (storedProfile (VObj [("theme", VStr "dark")])) profiles_keys).
  - intros k _. reflexivity.
  - intro c. unfold Js.prop. cbn.
    repeat match goal with |- context [String.eqb c ?s] => destruct (String.eqb c s) end;
      reflexivity.
Defined.

Section Detection.

Variable M : ModelClass.
Hypothesis Hschema : NoDup (Js.keys (schema M)).

Definition detectStep (i : Instance) (e : string * SchemaField) : Instance :=
  let fieldName := fst e in
  if negb (isVirtual (Types.base (snd e))) && negb (Str.startsWith "_" fieldName) then
    let dbFieldName := Model._getDbFieldName M fieldName in
    match Js.prop dbFieldName (_originalData i) with
    | VUndef => i
    | originalValue =>
        let currentValue := Model.getValue M i fieldName in
        if negb (deepEqual currentValue originalValue)
        then Model.setValue M i fieldName currentValue
        else i
    end
  else i.

(** What the comparison pass keeps, step by step. *)
Definition sameStored (i a : Instance) : Prop :=
  ModelFacts.noStrayVirtuals M a /\ _originalData a = _originalData i /\
  (forall c, Js.prop c (_data a) = Js.prop c (_data i)) /\
  (forall c, In c (_changed i) -> In c (_changed a)).

Lemma detectStep_sameStored (i a : Instance) (e : string * SchemaField) :
  sameStored i a -> sameStored i (detectStep a e).
Proof.
  intros (Hv & Ho & Hd & Hc). unfold detectStep.
  destruct (negb (isVirtual (Types.base (snd e))) && negb (Str.startsWith "_" (fst e)));
    [|repeat split; assumption].
  assert (Hset : sameStored i (Model.setValue M a (fst e) (Model.getValue M a (fst e)))).
  { split; [apply ModelFacts.setValue_noStrayVirtuals; exact Hv|].
    split; [rewrite ModelFacts.setValue_originalData; exact Ho|]. split.
    - intro c. rewrite ModelFacts.setValue_prop.
      destruct (Model.schema_isVirtual M (fst e)) eqn:Es; cbn [negb andb]; [apply Hd|].
      destruct (String.eqb c (Model._getDbFieldName M (fst e))) eqn:Ec; [|apply Hd].
      apply String.eqb_eq in Ec. subst c.
      rewrite (ModelFacts.getValue_stored M a (fst e) Hv Es). apply Hd.
    - intros c Hin. apply ModelFacts.setValue_changed. right. apply Hc. exact Hin. }
  destruct (Js.prop (Model._getDbFieldName M (fst e)) (_originalData a));
    try (repeat split; assumption);
    (destruct (negb (deepEqual (Model.getValue M a (fst e)) _));
     [exact Hset|repeat split; assumption]).
Qed.

Lemma detect_fold_sameStored (l : list (string * SchemaField)) :
  forall i a, sameStored i a -> sameStored i (fold_left detectStep l a).
Proof.
  induction l as [|e r IH]; intros i a H; [exact H|].
  cbn [fold_left]. apply IH. apply detectStep_sameStored. exact H.
Qed.

End Detection.

(** A stored field whose current value no longer equals its snapshot is
    marked as changed by [_detectInPlaceChanges], whoever changed it and
    however: the UPDATE of the next [save] will carry its column. Fields
    whose name starts with an underscore are not looked at. *)
Theorem in_place_mutation_is_detected :
  forall (M : ModelClass) (i : Instance) (k : string) (f : SchemaField),
    NoDup (Js.keys (schema M)) ->
    ModelFacts.noStrayVirtuals M i ->
    _isNew i = false ->
    In (k, f) (schema M) -> isVirtual (Types.base f) = false ->
    Str.startsWith "_" k = false ->
    let c := Model._getDbFieldName M k in
    Js.prop c (_originalData i) <> VUndef ->
    deepEqual (Js.prop c (_data i)) (Js.prop c (_originalData i)) = false ->
    In c (_changed (Model._detectInPlaceChanges M i)).
Proof.
  intros M i k f Hschema Hv Hnew Hin Hf Hk c Ho Hne.
  unfold Model._detectInPlaceChanges. rewrite Hnew.
  change (In c (_changed (fold_left (detectStep M) (schema M) i))).
  destruct (in_split _ _ Hin) as (l1 & l2 & El). rewrite El.
  rewrite fold_left_app. cbn [fold_left].
  assert (H0 : sameStored M i i) by (repeat split; auto).
  pose proof (detect_fold_sameStored M l1 i i H0) as H1.
  set (a := fold_left (detectStep M) l1 i) in *.
  assert (Hmark : In c (_changed (detectStep M a (k, f)))).
  { destruct H1 as (Hva & Hoa & Hda & _).
    unfold detectStep. cbn [fst snd]. rewrite Hf, Hk. cbn [negb andb].
    fold c. rewrite Hoa.
    assert (Hs : Model.schema_isVirtual M k = false)
      by (unfold Model.schema_isVirtual;
          rewrite (JsFacts.In_get_nodup k f _ Hschema Hin); exact Hf).
    rewrite (ModelFacts.getValue_stored M a k Hva Hs). fold c. rewrite Hda.
    destruct (Js.prop c (_originalData i)) eqn:Eo; try (exfalso; apply Ho; reflexivity);
      rewrite Hne; cbn [negb]; apply ModelFacts.setValue_changed; left;
      split; first [exact Hs | reflexivity]. }
  assert (H2 : sameStored M (detectStep M a (k, f)) (detectStep M a (k, f))).
  { pose proof (detectStep_sameStored M i a (k, f) H1) as (Hv2 & _).
    repeat split; auto. }
  destruct (detect_fold_sameStored M l2 _ _ H2) as (_ & _ & _ & Hmono).
  apply Hmono. exact Hmark.
Qed.

(** The [settings] of a stored profile replaced behind the accessors. *)
Lemma in_place_mutation_is_detected_witness :
  let snapshot := Model._trackOriginalValues Profiles
                    (storedProfile (VObj [("theme", VStr "dark")])) in
  let mutated := Model.with_data snapshot
                   (Js.set "settings" (VObj [("theme", VStr "light")]) (_data snapshot)) in
  In "settings" (_changed (Model._detectInPlaceChanges Profiles mutated)).
Proof.
  intros snapshot mutated.
  apply (in_place_mutation_is_detected Profiles mutated "settings" Types.types.object
           profiles_keys).
  - intros k _. reflexivity.
  - reflexivity.
  - cbn. tauto.
  - reflexivity.
  - reflexivity.
  - cbn. discriminate.
  - reflexivity.
Defined.

End TrackingFacts.

(* ================================================================== *)
(** ** The write path: what a save sends *)

Module WriteFacts.

Lemma checkFieldNames_vetted (M : ModelClass) (fields : list string) (u : unit) :
  Model.checkFieldNames M fields = Ok u ->
  forall c, In c fields -> Model._isValidDbFieldName M c = true.
Proof.
  induction fields as [|f r IH]; cbn; intros H c Hc; [contradiction|].
  destruct (Model._isValidDbFieldName M f) eqn:Ef; [|discriminate].
  destruct Hc as [Hc|Hc]; [subst; exact Ef|exact (IH H c Hc)].
Qed.

(** What passes the vetting of column names: a key the schema declares
    or a member its object inherits (both make [schema[name]] truthy), the
    storage name of a mapping, or a revision metadata column. *)
Lemma vetted_names (M : ModelClass) (c : string) :
  Model._isValidDbFieldName M c = true <->
  Js.has c (schema M) = true \/ In c Js.inheritedNames \/
  In c (map snd (_fieldMappings M)) \/ In c Model.metadataFields.
Proof.
  assert (Hmem : forall x l, Str.mem x l = true <-> In x l).
  { intros x l. unfold Str.mem. rewrite existsb_exists. split.
    - intros (y & Hy & E). apply String.eqb_eq in E. subst y. exact Hy.
    - intro H. exists x. split; [exact H|apply String.eqb_refl]. }
  unfold Model._isValidDbFieldName, Js.inherits.
  destruct (Js.has c (schema M)); cbn [orb]; [tauto|].
  destruct (Str.mem c Js.inheritedNames) eqn:E1.
  { apply Hmem in E1. tauto. }
  destruct (Str.mem c (map snd (_fieldMappings M))) eqn:E2.
  { apply Hmem in E2. tauto. }
  destruct (Str.mem c Model.metadataFields) eqn:E3.
  { apply Hmem in E3. tauto. }
  split; [discriminate|].
  intros [H|[H|[H|H]]]; [discriminate| | |]; apply Hmem in H; congruence.
Qed.

(** The statements a save may send. *)
Inductive Sent (M : ModelClass) (options : SaveOptions) : list SqlCall -> Prop :=
| SentNothing : Sent M options []
| SentInsert (fields : list string) (values : list Value) :
    length values = length fields ->
    (forall c, In c fields -> Model._isValidDbFieldName M c = true) ->
    Forall (fun v => v <> VUndef) values ->
    Sent M options
         [{| statement := InsertRow (tableName M) fields true; params := values |}]
| SentUpdate (fields : list string) (values : list Value) (id_ : Value) :
    fields <> [] ->
    length values = length fields ->
    (forall c, In c fields -> Model._isValidDbFieldName M c = true) ->
    (forall c, In c fields -> ModelFacts.updatable M options c = true) ->
    Sent M options
         [{| statement := UpdateById (tableName M) fields; params := values ++ [id_] |}].

Ltac nothing_sent :=
  exists []; split; [cbn [snd journal]; rewrite app_nil_r; reflexivity|constructor].

(** Whatever the instance holds and whatever storage answers, [save]
    sends at most one statement: an INSERT of the columns that hold a
    value, or an UPDATE by id of changed columns, never of a sensitive
    field the caller did not list in [updateSensitive]; and every column
    it names passed [_isValidDbFieldName], which lets through the schema's
    keys, mapped columns and revision metadata columns, and with them the
    names every object inherits. *)
Theorem save_sends_at_most_one_vetted_statement :
  forall (d : Dal) (M : ModelClass) (inst : Instance) (options : SaveOptions) (w : World),
  exists sent,
    journal (snd (Model.save d M inst options w)) = journal w ++ sent /\
    Sent M options sent.
Proof.
  intros d M inst options w.
  unfold Model.save, EffM.rethrow.
  unfold EffM.bind at 1. unfold EffM.lift at 1.
  destruct (Model._validate (host w) M (Model._detectInPlaceChanges M inst)) as [i2|t];
    [|nothing_sent].
  unfold EffM.bind at 1.
  assert (Hfinish : forall (i3 : Instance) (w' : World) (sent : list SqlCall),
             journal w' = journal w ++ sent ->
             journal (snd (let (r, w'0) :=
                             EffM.lift
                               (Model.generateVirtualValues M
                                  (Model._trackOriginalValues M
                                     {| _data := _data i3;
                                        _virtualFields := _virtualFields i3;
                                        _changed := []; _isNew := false;
                                        _originalData := _originalData i3 |})) w' in
                           match r with
                           | Ok a => (Ok a, w'0)
                           | Throw t =>
                               (Throw (TErr (Errors.convertPostgreSQLError t)), w'0)
                           end))
             = journal w ++ sent).
  { intros i3 w' sent Hw. unfold EffM.lift.
    destruct (Model.generateVirtualValues M _); exact Hw. }
  destruct (_isNew i2).
  - unfold Model._insert.
    set (fields := filter _ (Js.keys (_data i2))).
    unfold EffM.bind at 1. unfold EffM.lift at 1.
    destruct (Model.checkFieldNames M fields) as [u|t] eqn:Hck; [|nothing_sent].
    unfold EffM.bind at 1. unfold DataAccessLayer.run_query.
    destruct (query d _ (store w)) as [[res|t] st] eqn:Hq.
    + eexists. split; [unfold EffM.ret; apply Hfinish; reflexivity|].
      constructor.
      * apply length_map.
      * apply (checkFieldNames_vetted M fields u Hck).
      * apply Forall_forall. intros v Hv. apply in_map_iff in Hv.
        destruct Hv as (key & Hkey & Hin). unfold fields in Hin.
        apply filter_In in Hin. destruct Hin as [_ Hdef]. subst v.
        intro E. rewrite E in Hdef. discriminate.
    + eexists. split; [reflexivity|].
      constructor.
      * apply length_map.
      * apply (checkFieldNames_vetted M fields u Hck).
      * apply Forall_forall. intros v Hv. apply in_map_iff in Hv.
        destruct Hv as (key & Hkey & Hin). unfold fields in Hin.
        apply filter_In in Hin. destruct Hin as [_ Hdef]. subst v.
        intro E. rewrite E in Hdef. discriminate.
  - unfold Model._update.
    fold (ModelFacts.updatable M options). fold (ModelFacts.changedFields M options i2).
    destruct (_changed i2) as [|c0 cs] eqn:Hch.
    { exists []. split; [unfold EffM.ret; apply Hfinish; rewrite app_nil_r; reflexivity|].
      constructor. }
    destruct (ModelFacts.changedFields M options i2) as [|f fs] eqn:Hcf.
    { exists []. split; [unfold EffM.ret; apply Hfinish; rewrite app_nil_r; reflexivity|].
      constructor. }
    unfold EffM.bind at 1. unfold EffM.lift at 1.
    destruct (Model.checkFieldNames M (f :: fs)) as [u|t] eqn:Hck; [|nothing_sent].
    unfold EffM.bind at 1. unfold DataAccessLayer.run_query.
    assert (Hsent : Sent M options
                      [{| statement := UpdateById (tableName M) (f :: fs);
                          params := map (fun key => Js.prop key (_data i2)) (f :: fs)
                                    ++ [Model.id M i2] |}]).
    { constructor.
      - discriminate.
      - apply length_map.
      - apply (checkFieldNames_vetted M (f :: fs) u Hck).
      - intros c Hc. rewrite <- Hcf in Hc. unfold ModelFacts.changedFields in Hc.
        apply filter_In in Hc. apply Hc. }
    destruct (query d _ (store w)) as [[res|t] st] eqn:Hq.
    + destruct (rows res) as [|row more].
      * eexists. split; [reflexivity|exact Hsent].
      * eexists. split; [unfold EffM.ret; apply Hfinish; reflexivity|exact Hsent].
    + eexists. split; [reflexivity|exact Hsent].
Qed.

(** A user constructed with a [toString] entry beside its name: the
    name passes the vetting through the member the schema object
    inherits, and the INSERT names it as a column; an entry under a name
    that nothing declares is refused before anything is sent. *)
Example save_names_an_inherited_member :
  let d := Fixtures.cannedDal [] [] in
  let w := Fixtures.worldOf Fixtures.emptyStore in
  let saved data :=
    match Model.construct Fixtures.Users data with
    | Ok inst => journal (snd (Model.save d Fixtures.Users inst Model.no_options w))
    | Throw _ => []
    end in
  Model._isValidDbFieldName Fixtures.Users "toString" = true /\
  saved [("name", VStr "Ada"); ("toString", VStr "x")]
  = [{| statement := InsertRow "users" ["name"; "toString"] true;
        params := [VStr "Ada"; VStr "x"] |}] /\
  Model._isValidDbFieldName Fixtures.Users "nickname" = false /\
  saved [("name", VStr "Ada"); ("nickname", VStr "x")] = [].
Proof. repeat split. Qed.

End WriteFacts.

(* ================================================================== *)
(** ** Accessors *)

Module AccessorFacts.

(** What [setValue(key, value)] does as seen through [getValue], on an
    instance whose virtual values belong to virtual fields: the key reads
    back the value; any other key kept in another column reads what it
    read before; a virtual key touches neither the stored data nor the
    change set, a stored key marks its column as changed. *)
Theorem setValue_then_getValue :
  forall (M : ModelClass) (i : Instance) (key : string) (value : Value),
    ModelFacts.noStrayVirtuals M i ->
    let i' := Model.setValue M i key value in
    Model.getValue M i' key = value /\
    (forall other,
        other <> key ->
        Model._getDbFieldName M other <> Model._getDbFieldName M key ->
        Model.getValue M i' other = Model.getValue M i other) /\
    (if Model.schema_isVirtual M key
     then _data i' = _data i /\ _changed i' = _changed i
     else In (Model._getDbFieldName M key) (_changed i') /\
          _virtualFields i' = _virtualFields i).
Proof.
  intros M i key value Hv i'. unfold i', Model.setValue, Model.getValue.
  destruct (Model.schema_isVirtual M key) eqn:Es; cbn [_data _virtualFields _changed].
  - split; [rewrite JsFacts.get_set_same; reflexivity|].
    split; [|split; reflexivity].
    intros other Hne _. rewrite (JsFacts.get_set_other other key value _ Hne). reflexivity.
  - split; [rewrite (Hv key Es), JsFacts.prop_set, String.eqb_refl; reflexivity|].
    split.
    + intros other _ Hne. destruct (Js.get other (_virtualFields i)); [reflexivity|].
      rewrite JsFacts.prop_set. apply String.eqb_neq in Hne. rewrite Hne. reflexivity.
    + split; [|reflexivity]. apply ModelFacts.add_In. left. reflexivity.
Qed.

(** [viewCount], stored as [view_count], on a counter. *)
Lemma setValue_then_getValue_witness :
  let i := Model.setValue Fixtures.Counters Model.empty_instance "viewCount"
                          (VNum (NFin 3)) in
  Model.getValue Fixtures.Counters i "viewCount" = VNum (NFin 3) /\
  _changed i = ["view_count"].
Proof.
  intro i. split; [|reflexivity].
  exact (proj1 (setValue_then_getValue Fixtures.Counters Model.empty_instance "viewCount"
                  (VNum (NFin 3)) (fun k _ => eq_refl))).
Defined.

End AccessorFacts.

(* ================================================================== *)
(** ** Rendering: placeholders and Sql.bound parameters *)

Module RenderFacts.

(** A predicate whose raw parts, if any, bind no parameter of their own. *)
Fixpoint bindsByPlaceholder (p : Predicate) : bool :=
  match p with
  | Basic _ _ _ _ _ => true
  | Group _ preds => forallb bindsByPlaceholder preds
  | Raw sql values => String.eqb sql "" || match values with [] => true | _ => false end
  end.

(** The next placeholder is the one after the parameters bound so far. *)
Definition inStep (c : Sql.Ctx) : Prop := Sql.nextIndex c = S (length (Sql.bound c)).

Definition extends (c c' : Sql.Ctx) : Prop := exists added, Sql.bound c' = Sql.bound c ++ added.

Lemma extends_refl (c : Sql.Ctx) : extends c c.
Proof. exists []. rewrite app_nil_r. reflexivity. Qed.

Lemma extends_trans (a b c : Sql.Ctx) : extends a b -> extends b c -> extends a c.
Proof.
  intros [x Hx] [y Hy]. exists (x ++ y). rewrite Hy, Hx, app_assoc. reflexivity.
Qed.

Lemma renderBasic_inStep (q : bool) (t : string) (table : option string)
      (column operator : string) (value : option Value) (vt : option ValueTransform)
      (c : Sql.Ctx) :
  inStep c ->
  let c' := snd (Sql._renderBasicPredicate q t table column operator value vt c) in
  inStep c' /\ extends c c'.
Proof.
  intro Hc. unfold Sql._renderBasicPredicate.
  assert (Hpush : forall v, inStep {| Sql.nextIndex := S (Sql.nextIndex c); Sql.bound := Sql.bound c ++ [v] |}
                            /\ extends c {| Sql.nextIndex := S (Sql.nextIndex c);
                                            Sql.bound := Sql.bound c ++ [v] |}).
  { intro v. split; [|exists [v]; reflexivity].
    unfold inStep in *. cbn [Sql.nextIndex Sql.bound]. rewrite length_app, Hc. cbn. lia. }
  destruct value as [v|]; [|split; [exact Hc|apply extends_refl]].
  destruct v; cbn [snd]; try apply Hpush; try (split; [exact Hc|apply extends_refl]).
  destruct (String.eqb operator "IS" || String.eqb operator "IS NOT"); cbn [snd];
    [split; [exact Hc|apply extends_refl]|apply Hpush].
Qed.

Lemma renderPredicate_inStep (q : bool) (t : string) :
  forall (p : Predicate) (c : Sql.Ctx),
    bindsByPlaceholder p = true -> inStep c ->
    let c' := snd (Sql._renderPredicate q t p c) in
    inStep c' /\ extends c c'.
Proof.
  fix IH 1. intros p c Hp Hc.
  destruct p as [table column operator value vt|cj preds|sql values].
  - apply renderBasic_inStep. exact Hc.
  - cbn [Sql._renderPredicate]. cbn [bindsByPlaceholder] in Hp.
    match goal with
    | |- context [let '(inner, c') := ?e in _] =>
        assert (Hinner : inStep (snd e) /\ extends c (snd e)); [|destruct e as [inner c']]
    end.
    { revert c Hc. induction preds as [|child r IHr]; intros c Hc.
      - split; [exact Hc|apply extends_refl].
      - cbn [forallb] in Hp. apply Bool.andb_true_iff in Hp. destruct Hp as [Hchild Hr].
        destruct (IH child c Hchild Hc) as [H1 E1].
        destruct (Sql._renderPredicate q t child c) as [rendered c1]. cbn [snd] in H1, E1.
        destruct (IHr Hr c1 H1) as [H2 E2].
        match goal with
        | |- context [let '(rest, c2) := ?e in _] => destruct e as [rest c2]
        end.
        cbn [snd] in H2, E2 |- *. split; [exact H2|exact (extends_trans _ _ _ E1 E2)]. }
    cbn [snd] in Hinner. destruct inner; exact Hinner.
  - cbn [Sql._renderPredicate]. cbn [bindsByPlaceholder] in Hp.
    destruct (String.eqb sql ""); cbn [snd]; [split; [exact Hc|apply extends_refl]|].
    cbn [orb] in Hp. destruct values; [|discriminate].
    split; [unfold inStep in *; cbn; rewrite app_nil_r; exact Hc|].
    exists []. reflexivity.
Qed.

Lemma renderAll_inStep (q : bool) (t : string) (l : list Predicate) :
  forall c, forallb bindsByPlaceholder l = true -> inStep c ->
            inStep (snd (Sql.renderAll q t l c)).
Proof.
  induction l as [|p r IH]; intros c Hl Hc; [exact Hc|].
  cbn [forallb] in Hl. apply Bool.andb_true_iff in Hl. destruct Hl as [Hp Hr].
  cbn [Sql.renderAll].
  destruct (renderPredicate_inStep q t p c Hp Hc) as [H1 _].
  destruct (Sql._renderPredicate q t p c) as [fragment c1]. cbn [snd] in H1.
  pose proof (IH c1 Hr H1) as H2.
  destruct (Sql.renderAll q t r c1) as [rest c2]. exact H2.
Qed.

(** Rendering a WHERE clause keeps the placeholder counter in step with
    the parameter list: when every predicate binds through placeholders
    (basic predicates, groups of them, raw parts without values), the
    counter after rendering is one more than the number of parameters, so the
    placeholder a basic predicate prints for its value is the position of
    that value among the parameters. A raw predicate that carries values
    of its own appends them without advancing the counter, and puts the
    two out of step. *)
Theorem placeholders_follow_parameters :
  forall (qb : QueryBuilder) (qualifyColumns : bool),
    (forallb bindsByPlaceholder (_where qb) = true ->
     exists fragments c,
       Sql.renderAll qualifyColumns (tableName (modelClass qb)) (_where qb)
                     {| Sql.nextIndex := 1; Sql.bound := [] |} = (fragments, c) /\
       Sql.nextIndex c = S (length (Sql.bound c)) /\
       (_where qb <> [] ->
        snd (QueryBuilder._buildWhereClause qb qualifyColumns) = Sql.bound c)) /\
    (forall table column operator v vt c,
        inStep c ->
        v <> VUndef -> (v = VNull -> operator <> "IS" /\ operator <> "IS NOT") ->
        let n := S (length (Sql.bound c)) in
        let '(fragment, c') :=
          Sql._renderBasicPredicate qualifyColumns (tableName (modelClass qb))
                                    table column operator (Some v) vt c in
        fragment = (Sql._qualifyColumn qualifyColumns (tableName (modelClass qb))
                                       table column ++ " " ++ operator ++ " " ++
                    Sql.applyTransform vt (Str.placeholder n))%string /\
        nth_error (Sql.bound c') (n - 1) = Some v /\ inStep c') /\
    (forall sql values c,
        sql <> "" -> values <> [] -> inStep c ->
        let c' := snd (Sql._renderPredicate qualifyColumns (tableName (modelClass qb))
                                            (Raw sql values) c) in
        Sql.nextIndex c' = Sql.nextIndex c /\
        Sql.bound c' = Sql.bound c ++ values /\ ~ inStep c').
Proof.
  intros qb q. split; [|split].
  - intro Hall.
    pose proof (renderAll_inStep q (tableName (modelClass qb)) (_where qb)
                  {| Sql.nextIndex := 1; Sql.bound := [] |} Hall eq_refl) as Hstep.
    destruct (Sql.renderAll q (tableName (modelClass qb)) (_where qb) _) as [fragments c]
      eqn:Er.
    exists fragments, c. split; [reflexivity|]. split; [exact Hstep|].
    intro Hne. unfold QueryBuilder._buildWhereClause, Sql.buildWhere.
    destruct (_where qb) as [|p r]; [contradiction|]. rewrite Er. reflexivity.
  - intros table column operator v vt c Hc Hundef Hnull n.
    assert (Hpush : nth_error (Sql.bound c ++ [v]) (n - 1) = Some v /\
                    inStep {| Sql.nextIndex := S n; Sql.bound := Sql.bound c ++ [v] |}).
    { split.
      - unfold n. cbn [Nat.sub]. rewrite Nat.sub_0_r, nth_error_app2 by lia.
        rewrite Nat.sub_diag. reflexivity.
      - unfold inStep, n. cbn [Sql.nextIndex Sql.bound]. rewrite length_app.
        cbn. lia. }
    unfold Sql._renderBasicPredicate. unfold inStep in Hc. rewrite Hc. fold n.
    destruct v; cbv beta iota;
      try (split; [reflexivity|exact Hpush]); [exfalso; apply Hundef; reflexivity|].
    destruct (Hnull eq_refl) as [H1 H2].
    apply String.eqb_neq in H1, H2. rewrite H1, H2. cbn [orb]. cbv beta iota.
    split; [reflexivity|exact Hpush].
  - intros sql values c Hsql Hvalues Hc c'. unfold c'. cbn [Sql._renderPredicate].
    apply String.eqb_neq in Hsql. rewrite Hsql. cbn [snd Sql.nextIndex Sql.bound].
    split; [reflexivity|]. split; [reflexivity|].
    unfold inStep in *. cbn [Sql.nextIndex Sql.bound]. rewrite length_app, Hc.
    destruct values; [contradiction|]. cbn. lia.
Qed.

End RenderFacts.

(* ================================================================== *)
(** ** Revision handlers: the order of effects *)

Module HandlerFacts.

Import LineageFacts.

Definition userIdRequired : JsError :=
  Errors.ValidationError "Revision metadata requires a user ID" None.

(** [newRevision] inserts the archived copy before it looks at the user:
    called without a user, or with one whose [id] is missing or empty,
    on a model with revision support, it throws the [ValidationError] of
    [applyRevisionMetadata] only after storage has accepted the INSERT,
    which stays issued; the instance is not restamped. *)
Theorem newRevision_archives_before_it_checks_the_user :
  forall (d : Dal) (M : ModelClass) (inst : Instance) (user : option JsObject)
         (tags : Value) (w : World) (res : QueryResult) (st : Store),
    Js.has "_revID" (schema M) = true ->
    Js.truthy (Revision.resolveRevisionUserId user) = false ->
    query d (archiveCall M inst) (store w) = (Ok res, st) ->
    exists w',
      Revision.newRevision d M inst user tags w = (Throw (TErr userIdRequired), w') /\
      journal w' = journal w ++ [archiveCall M inst] /\
      store w' = st.
Proof.
  intros d M inst user tags w res st Hrev Huser Hq.
  unfold Revision.newRevision, Revision._ensureRevisionHandler. rewrite Hrev.
  unfold EffM.bind at 1. unfold EffM.lift at 1.
  unfold Revision.newRevisionHandler.
  fold (archiveFields M inst). fold (archiveCall M inst).
  unfold EffM.bind at 1. unfold DataAccessLayer.run_query. rewrite Hq.
  unfold EffM.bind at 1. unfold Revision.new_Date at 1.
  unfold Revision.applyRevisionMetadata. rewrite Huser. cbn [negb].
  unfold EffM.throw. eexists. split; [reflexivity|]. split; reflexivity.
Qed.

(** On the fixture table: the first revision is saved, then
    [newRevision(null)] leaves a second row behind and throws. *)
Lemma newRevision_archives_before_it_checks_the_user_witness :
  let w := snd ScenarioFacts.firstSaved in
  let r := Revision.newRevision Fixtures.revisionsDal Fixtures.Revisions
                                ScenarioFacts.savedInstance None VUndef w in
  fst r = Throw (TErr userIdRequired) /\
  length (rowsOf "revisions" (store w)) = 1 /\
  length (rowsOf "revisions" (store (snd r))) = 2.
Proof.
  intros w r.
  destruct (newRevision_archives_before_it_checks_the_user
              Fixtures.revisionsDal Fixtures.Revisions ScenarioFacts.savedInstance None VUndef w
              (match fst (Postgres.exec (archiveCall Fixtures.Revisions ScenarioFacts.savedInstance)
                                  (store w))
               with Ok q => q | Throw _ => {| rows := []; rowCount := 0 |} end)
              (snd (Postgres.exec (archiveCall Fixtures.Revisions ScenarioFacts.savedInstance)
                                  (store w)))
              eq_refl eq_refl) as (w' & Hrun & _ & Hst).
  - vm_compute. reflexivity.
  - unfold r. rewrite Hrun. cbn [fst snd]. split; [reflexivity|]. split.
    + vm_compute. reflexivity.
    + rewrite Hst. vm_compute. reflexivity.
Defined.

End HandlerFacts.

(* ================================================================== *)
(** ** Lookups by id on a revision-enabled table *)

Module LookupFacts.

Import RevisionModelFacts LineageFacts GuardedFacts.

Definition isTrue (v : Postgres.Tri) : bool :=
  match v with Postgres.TT => true | _ => false end.

Lemma isTrue_or (a b : Postgres.Tri) :
  isTrue (Postgres.tri_or a b) = isTrue a || isTrue b.
Proof. destruct a, b; reflexivity. Qed.

(** [column = ANY(ids)] is true exactly when some id matches. *)
Lemma any_of_ids (c : Value) (ids : list string) :
  forall acc,
    isTrue (fold_left (fun a x => Postgres.tri_or a (Postgres.sql_eq c (Postgres.toSql x)))
                      (map VStr ids) acc)
    = isTrue acc || existsb (fun L => isTrue (Postgres.sql_eq c (VStr L))) ids.
Proof.
  induction ids as [|L r IH]; intro acc; cbn [map fold_left existsb].
  - rewrite Bool.orb_false_r. reflexivity.
  - rewrite IH, isTrue_or. cbn [Postgres.toSql]. rewrite Bool.orb_assoc. reflexivity.
Qed.

(** The predicate [whereIn('id', ids, { cast: 'uuid[]' })] adds. *)
Definition idsPredicate (ids : list string) : Predicate :=
  Basic None "id" "= ANY" (Some (VArr (map VStr ids))) (Some (TWrap (Some "uuid[]"))).

(** The ids as storage reads them under the cast to [uuid[]]; [None]
    when one of them is no uuid. *)
Fixpoint canonicalIds (ids : list string) : option (list string) :=
  match ids with
  | [] => Some []
  | x :: r =>
      match Postgres.uuid_in x, canonicalIds r with
      | Some c, Some cs => Some (c :: cs)
      | _, _ => None
      end
  end.

Lemma uuidOperands_read (ids cs : list string) :
  canonicalIds ids = Some cs ->
  Postgres.uuidOperands (map VStr ids) = Ok (map VStr cs).
Proof.
  revert cs. induction ids as [|x r IH]; intros cs H; cbn in H |- *.
  - inversion H. reflexivity.
  - destruct (Postgres.uuid_in x) as [c|]; [|discriminate].
    destruct (canonicalIds r) as [cs'|]; [|discriminate].
    inversion H; subst. rewrite (IH cs' eq_refl). reflexivity.
Qed.

Lemma uuidOperands_rejected (ids : list string) :
  canonicalIds ids = None ->
  exists s, In s ids /\ Postgres.uuid_in s = None /\
            Postgres.uuidOperands (map VStr ids) = Throw (TErr (Postgres.invalidUuid s)).
Proof.
  induction ids as [|x r IH]; intro H; cbn in H |- *; [discriminate|].
  destruct (Postgres.uuid_in x) as [c|] eqn:Ex.
  - destruct (canonicalIds r) as [cs'|]; [discriminate|].
    destruct (IH eq_refl) as (s & Hin & Hs & Hr).
    exists s. split; [right; exact Hin|]. split; [exact Hs|]. rewrite Hr. reflexivity.
  - exists x. split; [left; reflexivity|]. split; [exact Ex|reflexivity].
Qed.

Lemma canonicalIds_v4 (ids : list string) :
  forallb Revision.isUUID_v4 ids = true -> exists cs, canonicalIds ids = Some cs.
Proof.
  induction ids as [|x r IH]; intro H; cbn in H |- *; [exists []; reflexivity|].
  apply andb_prop in H. destruct H as [Hx Hr].
  destruct (StoreFacts.v4_read x Hx) as [c Hc]. destruct (IH Hr) as [cs Hcs].
  exists (c :: cs). rewrite Hc, Hcs. reflexivity.
Qed.

Lemma canonicalIds_fixed (ids : list string) :
  Forall (fun x => Postgres.uuid_in x = Some x) ids -> canonicalIds ids = Some ids.
Proof.
  induction 1 as [|x r Hx _ IH]; cbn; [reflexivity|]. rewrite Hx, IH. reflexivity.
Qed.

(** The row carries one of the ids. *)
Definition among (ids : list string) (row : Row) : bool :=
  existsb (fun L => hasId L row) ids.

Lemma any_of_ids_among (ids : list string) (row : Row) :
  isTrue (fold_left (fun a x => Postgres.tri_or a
                                  (Postgres.sql_eq (Postgres.columnValue "id" row)
                                     (Postgres.toSql x)))
                    (map VStr ids) Postgres.FF)
  = among ids row.
Proof. rewrite any_of_ids. reflexivity. Qed.

(** The rows [getMultipleNotStaleOrDeleted(ids)] is after. *)
Definition liveAmong (ids : list string) (row : Row) : bool :=
  among ids row && (isCurrent row && notDeleted row).

Lemma passes_ids_and_guards (M : ModelClass) (b : FilterWhereBuilder) (ids cs : list string)
      (row : Row) :
  RevisionModel M -> modelClass (_builder b) = M ->
  _hasRevisions b = true -> _revisionFiltersApplied b = false ->
  _includeDeleted b = false -> _includeStale b = false ->
  canonicalIds ids = Some cs ->
  Postgres.passes (tableName M) (idsPredicate ids :: FilterFacts.owedGuards b) row
  = Some (liveAmong cs row).
Proof.
  intros HM Hm Hh Ha Hd Hs Hcs.
  cbn [Postgres.passes idsPredicate Postgres.evalPredicate Postgres.castOperand
       Postgres.castOf String.eqb Ascii.eqb Bool.eqb].
  rewrite (uuidOperands_read ids cs Hcs). unfold Postgres.evalBasic.
  rewrite (FilterFacts.passes_owed_guards M b row HM Hm Hh Ha), Hd, Hs.
  unfold liveAmong, FilterFacts.visible. cbn [orb].
  rewrite <- (any_of_ids_among cs row).
  destruct (fold_left _ (map VStr cs) Postgres.FF); reflexivity.
Qed.

Lemma no_id_no_row (rs : list Row) : filter (liveAmong []) rs = [].
Proof. induction rs as [|r rest IH]; [reflexivity|exact IH]. Qed.

Lemma whereIn_ids (M : ModelClass) (d : Dal) (x : string) (xs : list string) :
  Model._getDbFieldName M "id" = "id" ->
  FilterWhere.whereIn (FilterWhere.new (QueryBuilder.new M d) true) "id"
                      (VArr (map VStr (x :: xs))) (Some "uuid[]")
  = Ok (FilterWhere.with_builder (FilterWhere.new (QueryBuilder.new M d) true)
          (QueryBuilder.set_where (QueryBuilder.new M d) [idsPredicate (x :: xs)])).
Proof.
  intro Hid. unfold FilterWhere.whereIn. rewrite (resolves_id M d Hid).
  cbn [ResultM.bind map QueryBuilder.whereIn FilterWhere.new _builder].
  unfold QueryBuilder._addWhereCondition, QueryBuilder._createPredicate.
  cbn [snd QueryBuilder._splitFieldReference Str.indexOf].
  unfold QueryBuilder._splitFieldReference. cbn.
  unfold QueryBuilder._resolvePredicateColumn, QueryBuilder._resolveFieldName. cbn.
  rewrite Hid. reflexivity.
Qed.

(** [getMultipleNotStaleOrDeleted(ids)], run over the store. The ids
    travel under a cast to [uuid[]]. When storage reads every one of them
    as a uuid, the run sends one SELECT, leaves the store untouched and
    returns exactly the rows that are current and not deleted and carry
    one of the uuids, hydrated from the selected columns, in table order;
    with no id at all the builder is limited to zero rows and nothing
    comes back, whatever the table holds. When one of the ids is no uuid,
    storage rejects the statement and the run throws the [QueryError] the
    conversion makes of its error. *)
Theorem multiple_lookup_returns_the_live_rows_of_the_ids :
  forall (M : ModelClass) (d : Dal) (ids : list string) (w : World) (t : Table),
    RevisionModel M -> QueryFacts.DefaultsTotal M -> query d = Postgres.exec ->
    Js.get (tableName M) (tables (store w)) = Some t ->
    exists b,
      Revision.getMultipleNotStaleOrDeleted d M (map VStr ids) = Ok b /\
      (forall cs,
          canonicalIds ids = Some cs ->
          exists results b' w',
            FilterWhere.run b w = (Ok (results, b'), w') /\
            store w' = store w /\ length (journal w') = S (length (journal w)) /\
            Forall2 (fun res row =>
                       QueryFacts.hydrates M res
                         (QueryFacts.projected (Model.getColumnNames M []) row))
                    results (filter (liveAmong cs) (records t)) /\
            (ids = [] -> results = [])) /\
      (canonicalIds ids = None ->
       exists s w',
         In s ids /\ Postgres.uuid_in s = None /\
         FilterWhere.run b w
         = (Throw (TErr (Errors.QueryError (message (Postgres.invalidUuid s))
                                           (Some (Postgres.invalidUuid s)))), w') /\
         store w' = store w /\ length (journal w') = S (length (journal w))).
Proof.
  intros M d ids w t HM HD Hd Ht.
  unfold Revision.getMultipleNotStaleOrDeleted. rewrite (rm_filterWhere M HM).
  change (FilterWhere.filterWhere true M d [])
    with (Ok (FilterWhere.new (QueryBuilder.new M d) true)).
  cbn [ResultM.bind].
  set (b0 := FilterWhere.new (QueryBuilder.new M d) true).
  assert (Hrun : forall b sel,
             _hasRevisions b = true -> _revisionFiltersApplied b = false ->
             _includeDeleted b = false -> _includeStale b = false ->
             (exists ps l, _builder b = QueryBuilder.set_paging
                                          (QueryBuilder.set_where (QueryBuilder.new M d) ps)
                                          [] [] l None) ->
             QueryFacts.selects (tableName M)
                                (_where (_builder b) ++ FilterFacts.owedGuards b)
                                (records t) sel ->
             exists results b' w',
               FilterWhere.run b w = (Ok (results, b'), w') /\
               store w' = store w /\ length (journal w') = S (length (journal w)) /\
               Forall2 (QueryFacts.hydrates M) results
                       (map (QueryFacts.projected (Model.getColumnNames M []))
                            (Postgres.paginate (_limit (_builder b)) None sel))).
  { intros b sel Hh Ha Hdel Hst (ps & l & Hb) Hsel.
    destruct (FilterFacts.ensure_spec b) as (Hb1 & _). cbv zeta in Hb1.
    set (g := FilterWhere._ensureRevisionFilters b) in *.
    assert (Hg : _builder g
                 = QueryBuilder.set_paging
                     (QueryBuilder.set_where (QueryBuilder.new M d)
                        (ps ++ FilterFacts.owedGuards b)) [] [] l None)
      by (rewrite Hb1, Hb; reflexivity).
    destruct (QueryFacts.run_plain (_builder g) w t sel) as (results & Hres & Hall).
    - rewrite Hg. repeat split.
    - rewrite Hg. exact Hd.
    - rewrite Hg. exact HD.
    - rewrite Hg. exact Ht.
    - rewrite Hg. rewrite Hb in Hsel. exact Hsel.
    - exists results, g. eexists. unfold FilterWhere.run. fold g.
      unfold EffM.bind. rewrite Hres. unfold EffM.ret.
      split; [reflexivity|]. split; [reflexivity|].
      split; [cbn [journal]; rewrite length_app; cbn; lia|].
      rewrite Hg in Hall. rewrite Hb. exact Hall. }
  destruct ids as [|x xs].
  - cbn [map]. exists (FilterWhere.limit b0 0). split; [reflexivity|].
    split; [|discriminate]. intros cs Hcs. cbn in Hcs. inversion Hcs; subst cs.
    destruct (Hrun (FilterWhere.limit b0 0)
                   (filter (FilterFacts.visible false false) (records t)))
      as (results & b' & w' & H1 & H2 & H3 & H4); try reflexivity.
    + exists [], (Some 0%Z). reflexivity.
    + apply QueryFacts.selectRows_filter. intro row. cbn [app].
      apply (FilterFacts.passes_owed_guards M (FilterWhere.limit b0 0) row HM);
        reflexivity.
    + exists results, b', w'.
      split; [exact H1|]. split; [exact H2|]. split; [exact H3|].
      cbn in H4. inversion H4; subst. split; [|reflexivity].
      rewrite no_id_no_row. constructor.
  - cbn [map]. change (VStr x :: map VStr xs) with (map VStr (x :: xs)).
    unfold b0 at 1. rewrite (whereIn_ids M d x xs (rm_id_column M HM)). fold b0.
    set (b := FilterWhere.with_builder b0
                (QueryBuilder.set_where (QueryBuilder.new M d) [idsPredicate (x :: xs)])).
    exists b. split; [reflexivity|]. split.
    + intros cs Hcs.
      destruct (Hrun b (filter (liveAmong cs) (records t)))
        as (results & b' & w' & H1 & H2 & H3 & H4); try reflexivity.
      * exists [idsPredicate (x :: xs)], None. reflexivity.
      * apply QueryFacts.selectRows_filter. intro row.
        apply (passes_ids_and_guards M b (x :: xs) cs row HM); try reflexivity.
        exact Hcs.
      * exists results, b', w'.
        split; [exact H1|]. split; [exact H2|]. split; [exact H3|].
        split; [|discriminate].
        cbn [Postgres.paginate _limit _builder b FilterWhere.with_builder
             QueryBuilder.set_where QueryBuilder.new] in H4.
        apply FilterFacts.Forall2_map_r. exact H4.
    + intro Hnone.
      destruct (uuidOperands_rejected (x :: xs) Hnone) as (s & Hin & Hs & Hrej).
      destruct (FilterFacts.ensure_spec b) as (Hb1 & _). cbv zeta in Hb1.
      set (g := FilterWhere._ensureRevisionFilters b) in *.
      assert (Hg : _builder g
                   = QueryBuilder.set_where (QueryBuilder.new M d)
                       (idsPredicate (x :: xs) :: FilterFacts.owedGuards b))
        by (rewrite Hb1; reflexivity).
      pose proof (QueryFacts.run_rejected (_builder g) w t
                    (TErr (Postgres.invalidUuid s))) as Hr.
      rewrite Hg in Hr.
      exists s. eexists. split; [exact Hin|]. split; [exact Hs|].
      unfold FilterWhere.run. fold g. unfold EffM.bind. rewrite Hg. rewrite Hr.
      * split; [reflexivity|]. split; [reflexivity|].
        cbn [journal]. rewrite length_app. cbn. lia.
      * repeat split.
      * exact Hd.
      * exact Ht.
      * cbn [_where QueryBuilder.set_where Postgres.castErrors Postgres.castError
             idsPredicate Postgres.castOperand Postgres.castOf String.eqb Ascii.eqb
             Bool.eqb].
        rewrite Hrej. reflexivity.
Qed.

Definition mixedTable : Table :=
  Fixtures.revisionsTable
    [Fixtures.revisionRow Fixtures.liveId VNull false;
     Fixtures.revisionRow Fixtures.deletedId VNull true;
     Fixtures.revisionRow Fixtures.archivedId (VStr Fixtures.liveId) false].

(** Asked for the live row (its id in upper case), the deleted and the
    archived row of the mixed table, the lookup is after the live one
    alone; asked for something that is no uuid, it fails. *)
Lemma multiple_lookup_returns_the_live_rows_of_the_ids_witness :
  let ids := ["AAAAAAAA-AAAA-4AAA-8AAA-AAAAAAAAAAA1"; Fixtures.deletedId;
              Fixtures.archivedId] in
  let cs := [Fixtures.liveId; Fixtures.deletedId; Fixtures.archivedId] in
  canonicalIds ids = Some cs /\
  filter (liveAmong cs) (records mixedTable)
  = [Fixtures.revisionRow Fixtures.liveId VNull false] /\
  exists b,
    Revision.getMultipleNotStaleOrDeleted Fixtures.revisionsDal Fixtures.Revisions
                                          (map VStr ids) = Ok b /\
    exists results b' w',
      FilterWhere.run b Fixtures.mixedRows = (Ok (results, b'), w') /\
      store w' = store Fixtures.mixedRows /\
      length (journal w') = S (length (journal Fixtures.mixedRows)) /\
      Forall2 (fun res row =>
                 QueryFacts.hydrates Fixtures.Revisions res
                   (QueryFacts.projected (Model.getColumnNames Fixtures.Revisions []) row))
              results (filter (liveAmong cs) (records mixedTable)) /\
      (ids = [] -> results = []).
Proof.
  intros ids cs. split; [vm_compute; reflexivity|]. split; [vm_compute; reflexivity|].
  destruct (multiple_lookup_returns_the_live_rows_of_the_ids
              Fixtures.Revisions Fixtures.revisionsDal ids Fixtures.mixedRows mixedTable
              FixtureFacts.revisions_model QueryFacts.revisions_defaults_total
              eq_refl eq_refl) as (b & Hb & Hread & _).
  exists b. split; [exact Hb|]. apply Hread. vm_compute. reflexivity.
Defined.

Example multiple_lookup_rejects_what_is_no_uuid :
  exists b,
    Revision.getMultipleNotStaleOrDeleted Fixtures.revisionsDal Fixtures.Revisions
                                          [VStr Fixtures.liveId; VStr "42"] = Ok b /\
    fst (FilterWhere.run b Fixtures.mixedRows)
    = Throw (TErr (Errors.QueryError (message (Postgres.invalidUuid "42"))
                                     (Some (Postgres.invalidUuid "42")))).
Proof. eexists. split; [reflexivity|]. vm_compute. reflexivity. Qed.

(** The group [getAllRevisions(documentId)] adds. *)
Definition familyPredicate (L : string) : Predicate :=
  Group OR [Basic None "id" "=" (Some (VStr L)) (Some TIdentity);
            Basic None "_old_rev_of" "=" (Some (VStr L)) (Some TIdentity)].

Lemma getAllRevisions_fresh (M : ModelClass) (d : Dal) (L : string) :
  RevisionModel M ->
  FilterWhere.getAllRevisions (FilterWhere.new (QueryBuilder.new M d) true) (VStr L)
  = {| _builder := QueryBuilder.set_where (QueryBuilder.new M d) [familyPredicate L];
       _hasRevisions := true; _includeDeleted := true; _includeStale := true;
       _revisionFiltersApplied := false |}.
Proof.
  intro HM. unfold FilterWhere.getAllRevisions, QueryBuilder.getAllRevisions.
  cbn [FilterWhere.new _builder QueryBuilder.new _where filter app].
  unfold QueryBuilder._createPredicate, QueryBuilder._splitFieldReference. cbn.
  unfold QueryBuilder._resolvePredicateColumn, QueryBuilder._resolveFieldName. cbn.
  rewrite (rm_id_column M HM).
  rewrite (reserved_fixed M HM "_old_rev_of") by (cbn; tauto).
  reflexivity.
Qed.

(** [filterWhere({}).getAllRevisions(id)], run over the store, for a
    document id in the spelling storage prints (the id is bound without a
    cast, and is compared with the two columns as the text they hold):
    one SELECT without ORDER BY, LIMIT or revision guard, and the results
    are every row of the document, the one that carries the id and the
    ones archived under it, deleted or not, in table order. *)
Theorem all_revisions_lookup_returns_the_family :
  forall (M : ModelClass) (d : Dal) (L : string) (w : World) (t : Table),
    RevisionModel M -> QueryFacts.DefaultsTotal M -> query d = Postgres.exec ->
    Postgres.uuid_in L = Some L ->
    Js.get (tableName M) (tables (store w)) = Some t ->
    let b := FilterWhere.getAllRevisions (FilterWhere.new (QueryBuilder.new M d) true)
                                         (VStr L) in
    _orderBy (_builder b) = [] /\ _limit (_builder b) = None /\
    exists results w',
      FilterWhere.run b w = (Ok (results, FilterWhere._ensureRevisionFilters b), w') /\
      _where (_builder (FilterWhere._ensureRevisionFilters b)) = [familyPredicate L] /\
      store w' = store w /\ length (journal w') = S (length (journal w)) /\
      Forall2 (fun res row =>
                 QueryFacts.hydrates M res
                   (QueryFacts.projected (Model.getColumnNames M []) row))
              results (family L (records t)).
Proof.
  intros M d L w t HM HD Hd _ Ht b. unfold b. rewrite (getAllRevisions_fresh M d L HM).
  split; [reflexivity|]. split; [reflexivity|].
  set (g := FilterWhere._ensureRevisionFilters _).
  assert (Hg : _builder g = QueryBuilder.set_where (QueryBuilder.new M d) [familyPredicate L])
    by reflexivity.
  destruct (QueryFacts.run_plain (_builder g) w t (family L (records t)))
    as (results & Hres & Hall).
  - rewrite Hg. repeat split.
  - rewrite Hg. exact Hd.
  - rewrite Hg. exact HD.
  - rewrite Hg. exact Ht.
  - rewrite Hg. apply QueryFacts.selectRows_filter. intro row.
    cbn [_where QueryBuilder.set_where Postgres.passes familyPredicate
         Postgres.evalPredicate Postgres.castOperand Postgres.castOf].
    unfold Postgres.evalBasic, hasId, archives, Postgres.matches. cbn [Postgres.toSql].
    destruct (Postgres.sql_eq (Postgres.columnValue "id" row) (VStr L));
      destruct (Postgres.sql_eq (Postgres.columnValue "_old_rev_of" row) (VStr L));
      reflexivity.
  - exists results. eexists. unfold FilterWhere.run. fold g.
    unfold EffM.bind. rewrite Hres. unfold EffM.ret.
    split; [reflexivity|]. split; [reflexivity|]. split; [reflexivity|].
    split; [cbn [journal]; rewrite length_app; cbn; lia|].
    rewrite Hg in Hall. cbn [Postgres.paginate _limit _offset QueryBuilder.set_where
                              QueryBuilder.new modelClass _includeSensitive] in Hall.
    apply FilterFacts.Forall2_map_r. exact Hall.
Qed.

(** On the mixed table, the live document has two rows. *)
Lemma all_revisions_lookup_returns_the_family_witness :
  family Fixtures.liveId (records mixedTable)
  = [Fixtures.revisionRow Fixtures.liveId VNull false;
     Fixtures.revisionRow Fixtures.archivedId (VStr Fixtures.liveId) false] /\
  exists results b',
    fst (FilterWhere.run
           (FilterWhere.getAllRevisions
              (FilterWhere.new (QueryBuilder.new Fixtures.Revisions Fixtures.revisionsDal)
                               true)
              (VStr Fixtures.liveId)) Fixtures.mixedRows)
    = Ok (results, b') /\ length results = 2.
Proof.
  split; [vm_compute; reflexivity|].
  destruct (proj2 (proj2 (all_revisions_lookup_returns_the_family
                     Fixtures.Revisions Fixtures.revisionsDal Fixtures.liveId
                     Fixtures.mixedRows mixedTable
                     FixtureFacts.revisions_model QueryFacts.revisions_defaults_total
                     eq_refl eq_refl eq_refl)))
    as (results & w' & Hrun & _ & _ & _ & Hall).
  exists results. eexists. rewrite Hrun. split; [reflexivity|].
  rewrite (FilterFacts.Forall2_length_eq _ _ _ Hall). vm_compute. reflexivity.
Defined.

End LookupFacts.

(* ================================================================== *)
(** ** Column names of related tables *)

Module NormalizeFacts.

Definition is_separator (c : ascii) : bool :=
  QueryBuilder.is_space c || Ascii.eqb c "-"%char.

(** A character the normalization leaves alone wherever it stands. *)
Definition settledChar (c : ascii) : bool :=
  negb (QueryBuilder.is_upper c) && negb (is_separator c).

Lemma to_lower_settled (c : ascii) :
  is_separator c = false -> settledChar (QueryBuilder.to_lower c) = true.
Proof.
  destruct c as [[] [] [] [] [] [] [] []]; vm_compute; intro H;
    first [reflexivity | discriminate].
Qed.

Lemma to_lower_fixed (c : ascii) :
  QueryBuilder.is_upper c = false -> QueryBuilder.to_lower c = c.
Proof. unfold QueryBuilder.to_lower. intro H. rewrite H. reflexivity. Qed.

Lemma underscore_settled : settledChar "_"%char = true.
Proof. reflexivity. Qed.

Lemma squeeze_no_separator (l : list ascii) :
  forall inRun, forallb (fun c => negb (is_separator c))
                        (QueryBuilder.squeezeSeparators inRun l) = true.
Proof.
  induction l as [|c r IH]; intro inRun; cbn [QueryBuilder.squeezeSeparators];
    [reflexivity|].
  fold (is_separator c). destruct (is_separator c) eqn:Ec.
  - destruct inRun; cbn [forallb]; [apply IH|]. rewrite IH. reflexivity.
  - cbn [forallb]. rewrite Ec, IH. reflexivity.
Qed.

Lemma lowered_settled (l : list ascii) :
  forallb (fun c => negb (is_separator c)) l = true ->
  forallb settledChar (map QueryBuilder.to_lower l) = true.
Proof.
  induction l as [|c r IH]; cbn [forallb map]; [reflexivity|].
  intro H. apply Bool.andb_true_iff in H. destruct H as [Hc Hr].
  rewrite to_lower_settled, (IH Hr); [reflexivity|].
  destruct (is_separator c); [discriminate|reflexivity].
Qed.

(** On settled characters every pass is the identity. *)
Lemma settled_passes (l : list ascii) :
  forallb settledChar l = true ->
  forall prev inRun,
    QueryBuilder.camelBreaks prev l = l /\
    QueryBuilder.squeezeSeparators inRun l = l /\
    map QueryBuilder.to_lower l = l.
Proof.
  induction l as [|c r IH]; intros H prev inRun; [repeat split|].
  cbn [forallb] in H. apply Bool.andb_true_iff in H. destruct H as [Hc Hr].
  unfold settledChar in Hc. apply Bool.andb_true_iff in Hc. destruct Hc as [Hu Hs].
  assert (Hup : QueryBuilder.is_upper c = false)
    by (destruct (QueryBuilder.is_upper c); [discriminate|reflexivity]).
  assert (Hsep : is_separator c = false)
    by (destruct (is_separator c); [discriminate|reflexivity]).
  split; [|split].
  - cbn [QueryBuilder.camelBreaks].
    destruct prev as [p|]; [rewrite Hup, Bool.andb_false_r|];
      rewrite (proj1 (IH Hr (Some c) false)); reflexivity.
  - cbn [QueryBuilder.squeezeSeparators]. fold (is_separator c). rewrite Hsep.
    rewrite (proj1 (proj2 (IH Hr None false))). reflexivity.
  - cbn [map]. rewrite (to_lower_fixed c Hup), (proj2 (proj2 (IH Hr None false))).
    reflexivity.
Qed.

Lemma leading_split (l : list ascii) :
  let '(u, rest) := QueryBuilder.leadingUnderscores l in
  l = u ++ rest /\ forallb (Ascii.eqb "_"%char) u = true.
Proof.
  induction l as [|c r IH]; cbn [QueryBuilder.leadingUnderscores]; [split; reflexivity|].
  destruct (Ascii.eqb c "_"%char) eqn:Ec; [|split; reflexivity].
  destruct (QueryBuilder.leadingUnderscores r) as [u rest]. destruct IH as [E Hu].
  split; [cbn; rewrite <- E; reflexivity|].
  cbn [forallb]. rewrite Ascii.eqb_sym, Ec, Hu. reflexivity.
Qed.

Lemma leading_of_settled (l : list ascii) :
  forallb settledChar l = true ->
  forallb settledChar (snd (QueryBuilder.leadingUnderscores l)) = true.
Proof.
  induction l as [|c r IH]; cbn [QueryBuilder.leadingUnderscores]; [reflexivity|].
  intro H. destruct (Ascii.eqb c "_"%char); [|exact H].
  cbn [forallb] in H. apply Bool.andb_true_iff in H. destruct H as [_ Hr].
  specialize (IH Hr). destruct (QueryBuilder.leadingUnderscores r). exact IH.
Qed.

Lemma chars_of_chars (l : list ascii) : Str.chars (Str.of_chars l) = l.
Proof. induction l as [|c r IH]; cbn; [reflexivity|rewrite IH; reflexivity]. Qed.

Lemma of_chars_chars (s : string) : Str.of_chars (Str.chars s) = s.
Proof. induction s as [|c r IH]; cbn; [reflexivity|rewrite IH; reflexivity]. Qed.

Lemma normalize_settled_chars (l : list ascii) :
  forallb settledChar l = true ->
  QueryBuilder._normalizeColumnName (Str.of_chars l) = Str.of_chars l.
Proof.
  intro H. unfold QueryBuilder._normalizeColumnName. rewrite chars_of_chars.
  pose proof (leading_split l) as Hsplit. pose proof (leading_of_settled l H) as Hrest.
  destruct (QueryBuilder.leadingUnderscores l) as [u rest]. cbn [snd] in Hrest.
  destruct Hsplit as [E _].
  destruct (settled_passes rest Hrest None false) as (H1 & _).
  destruct (settled_passes rest Hrest None false) as (_ & H2 & H3).
  rewrite H1, H2, H3, <- E. reflexivity.
Qed.

Lemma underscores_settled (u : list ascii) :
  forallb (Ascii.eqb "_"%char) u = true -> forallb settledChar u = true.
Proof.
  induction u as [|c r IH]; cbn [forallb]; [reflexivity|].
  intro H. apply Bool.andb_true_iff in H. destruct H as [Hc Hr].
  apply Ascii.eqb_eq in Hc. subst c. rewrite underscore_settled, (IH Hr). reflexivity.
Qed.

(** A name without upper-case letters, blanks or hyphens. *)
Definition isSnakeCase (field_ : string) : bool := forallb settledChar (Str.chars field_).

(** [_normalizeColumnName] yields snake case and leaves snake case
    alone: its result has no upper-case letter, blank or hyphen, a name
    that has none comes back as it is, and so normalizing twice is
    normalizing once. *)
Theorem normalizeColumnName_is_idempotent :
  forall (field_ : string),
    isSnakeCase (QueryBuilder._normalizeColumnName field_) = true /\
    (isSnakeCase field_ = true -> QueryBuilder._normalizeColumnName field_ = field_) /\
    QueryBuilder._normalizeColumnName (QueryBuilder._normalizeColumnName field_)
    = QueryBuilder._normalizeColumnName field_.
Proof.
  intro field_.
  assert (Hfix : forall s, isSnakeCase s = true -> QueryBuilder._normalizeColumnName s = s).
  { intros s Hs. pose proof (normalize_settled_chars (Str.chars s) Hs) as H.
    rewrite (of_chars_chars s) in H. exact H. }
  assert (Hout : isSnakeCase (QueryBuilder._normalizeColumnName field_) = true).
  { unfold isSnakeCase, QueryBuilder._normalizeColumnName.
    pose proof (leading_split (Str.chars field_)) as Hsplit.
    destruct (QueryBuilder.leadingUnderscores (Str.chars field_)) as [u rest].
    destruct Hsplit as [_ Hu]. rewrite chars_of_chars, forallb_app.
    rewrite (underscores_settled u Hu). cbn [andb].
    apply lowered_settled. apply squeeze_no_separator. }
  split; [exact Hout|]. split; [apply Hfix|]. apply Hfix. exact Hout.
Qed.

(** [_revUserName] and what it normalizes to. *)
Lemma normalizeColumnName_is_idempotent_witness :
  QueryBuilder._normalizeColumnName "_revUserName" = "_rev_user_name" /\
  QueryBuilder._normalizeColumnName "_rev_user_name" = "_rev_user_name".
Proof.
  split; [reflexivity|].
  exact (proj1 (proj2 (normalizeColumnName_is_idempotent "_rev_user_name")) eq_refl).
Defined.

End NormalizeFacts.

(* ================================================================== *)
(** ** Range operators *)

Module RangeFacts.

(** The [value] property of a predicate made from [v]. *)
Definition predValue (v : Value) : option Value :=
  match v with VUndef => None | _ => Some v end.

Definition predTransform (v : Value) : option ValueTransform :=
  match v with VUndef => None | _ => Some TIdentity end.

(** Table and column of the predicates a builder makes for a field. *)
Definition predTarget (qb : QueryBuilder) (field_ : string) : option string * string :=
  match QueryBuilder._createPredicate qb field_ "" VUndef QueryBuilder.no_predicate_options with
  | Basic t c _ _ _ => (t, c)
  | _ => (None, "")
  end.

Lemma createPredicate_shape (qb : QueryBuilder) (field_ operator : string) (v : Value) :
  String.eqb operator "IS" || String.eqb operator "IS NOT" = false ->
  QueryBuilder._createPredicate qb field_ operator v QueryBuilder.no_predicate_options
  = Basic (fst (predTarget qb field_)) (snd (predTarget qb field_)) operator
          (predValue v) (predTransform v).
Proof.
  intro Hop. unfold predTarget, QueryBuilder._createPredicate.
  destruct (QueryBuilder._splitFieldReference field_) as [explicitTable column_].
  cbn [QueryBuilder.no_predicate_options opt_table serializeValue cast opt_valueTransform].
  destruct v; cbn [fst snd predValue predTransform]; try reflexivity.
  rewrite Hop. reflexivity.
Qed.

(** The bounds travel without a cast. *)
Lemma bound_as_bound (v : Value) (operand : option Value) :
  Postgres.castOperand (predTransform v) operand = Ok operand.
Proof. destruct v; reflexivity. Qed.

(** [notBetween] is the complement of [between] with the same bounds:
    on every row the predicate one builds evaluates to the negation of
    the predicate the other builds, in the three-valued sense, so a row
    passes exactly one of them unless the comparison is unknown (a NULL
    column or bound), in which case it passes neither. *)
Theorem notBetween_is_the_complement_of_between :
  forall (qb : QueryBuilder) (field_ : string) (lower upper : Value)
         (leftBound rightBound : option BoundMode) (mutate : bool)
         (table : string) (row : Row),
  exists inside outside,
    fst (FilterWhere.build (FilterWhere.ops.between lower upper leftBound rightBound)
                           qb field_ mutate) = Some inside /\
    fst (FilterWhere.build (FilterWhere.ops.notBetween lower upper leftBound rightBound)
                           qb field_ mutate) = Some outside /\
    Postgres.evalPredicate table outside row
    = option_map Postgres.tri_not (Postgres.evalPredicate table inside row).
Proof.
  intros qb field_ lower upper leftBound rightBound mutate table row.
  unfold FilterWhere.ops.between, FilterWhere.ops.notBetween.
  set (l := match leftBound with Some b => b | None => closed end).
  set (r := match rightBound with Some b => b | None => closed end).
  clearbody l r. cbn [FilterWhere.build]. unfold FilterWhere.createGroupedPredicate.
  cbn [fst snd]. eexists. eexists. split; [reflexivity|]. split; [reflexivity|].
  rewrite !createPredicate_shape by (destruct l, r; reflexivity).
  destruct (predTarget qb field_) as [tr col]. cbn [fst snd].
  cbn [Postgres.evalPredicate]. rewrite !bound_as_bound.
  destruct (predValue lower) as [lo|], (predValue upper) as [hi|];
    destruct l, r;
    (destruct tr as [t'|]; [destruct (String.eqb t' table)|]);
    cbn [Postgres.evalBasic option_map]; try reflexivity;
    unfold Postgres.evalBasic; cbn [option_map];
    repeat match goal with
           | |- context [Postgres.sql_lt ?a ?b] =>
               let x := fresh "x" in
               set (x := Postgres.sql_lt a b); clearbody x; destruct x as [[]|]
           end; reflexivity.
Qed.

(** A counter at 5 is between 1 and 10, and so not outside; a counter
    at 10 is inside the closed range and outside the half-open one. *)
Lemma notBetween_is_the_complement_of_between_witness :
  let qb := QueryBuilder.new Fixtures.Counters (Fixtures.cannedDal [] []) in
  let at_ n := [("id", VStr "c"); ("counter", VNum (NFin n))] in
  let inside rightBound :=
    fst (FilterWhere.build
           (FilterWhere.ops.between (VNum (NFin 1)) (VNum (NFin 10)) None rightBound)
           qb "counter" false) in
  let outside rightBound :=
    fst (FilterWhere.build
           (FilterWhere.ops.notBetween (VNum (NFin 1)) (VNum (NFin 10)) None rightBound)
           qb "counter" false) in
  option_map (fun p => Postgres.evalPredicate "counters" p (at_ 5%Z)) (inside None)
  = Some (Some Postgres.TT) /\
  option_map (fun p => Postgres.evalPredicate "counters" p (at_ 5%Z)) (outside None)
  = Some (Some Postgres.FF) /\
  option_map (fun p => Postgres.evalPredicate "counters" p (at_ 10%Z)) (inside (Some open))
  = Some (Some Postgres.FF) /\
  option_map (fun p => Postgres.evalPredicate "counters" p (at_ 10%Z)) (outside (Some open))
  = Some (Some Postgres.TT).
Proof.
  intros qb at_ inside outside.
  split; [reflexivity|]. split.
  - destruct (notBetween_is_the_complement_of_between qb "counter" (VNum (NFin 1))
                (VNum (NFin 10)) None None false "counters" (at_ 5%Z))
      as (p & p' & Hin & Hout & Hneg).
    unfold outside. rewrite Hout. cbn [option_map]. rewrite Hneg.
    assert (E : Some p = inside None) by (symmetry; exact Hin).
    vm_compute in E. inversion E; subst p. reflexivity.
  - split; reflexivity.
Defined.

End RangeFacts.

(* ================================================================== *)
(** ** The pages of a chronological feed *)

Module FeedFacts.

Lemma last_of_firstn {A} (n : nat) (l : list A) (x : A) (rest : list A) :
  rev (firstn n l) = x :: rest -> n < length l ->
  nth_error (firstn n l) (n - 1) = Some x /\ 0 < n.
Proof.
  intros Hrev Hlt.
  assert (Hlen : length (firstn n l) = n) by (rewrite length_firstn; lia).
  assert (Hk : firstn n l = rev rest ++ [x]).
  { rewrite <- (rev_involutive (firstn n l)), Hrev. reflexivity. }
  rewrite Hk in Hlen |- *. rewrite length_app, length_rev in Hlen. cbn in Hlen.
  split; [|lia].
  rewrite nth_error_app2; rewrite length_rev; [|lia].
  replace (n - 1 - length rest) with 0 by lia. reflexivity.
Qed.

(** A page that [chronologicalFeed] answers with never holds more rows
    than the limit asked for (floored at zero); it says that more rows
    follow only when it is full; it names a cursor only when more rows
    follow, and the cursor is then the cursor field of its last row; and
    a limit of zero or less answers with the empty page without a
    statement being sent. *)
Theorem chronologicalFeed_page_is_bounded :
  forall (b : FilterWhereBuilder) (options : ChronologicalFeedOptions) (w w' : World)
         (page : ChronologicalFeedPage) (b' : FilterWhereBuilder),
    FilterWhere.chronologicalFeed b options w = (Ok (page, b'), w') ->
    let n := Z.to_nat (Z.max 0 (feed_limit options)) in
    length (page_rows page) <= n /\
    (hasMore page = true ->
     length (page_rows page) = n /\ 0 < n /\
     _limit (_builder b') = Some (Z.max 0 (feed_limit options) + 1)%Z) /\
    (nextCursor page <> VUndef ->
     hasMore page = true /\ Js.nullish (nextCursor page) = false /\
     exists last_,
       nth_error (page_rows page) (n - 1) = Some last_ /\
       nextCursor page
       = Model.getValue (modelClass (_builder b')) (instance last_) (cursorField options)) /\
    ((feed_limit options <= 0)%Z ->
     w' = w /\ page_rows page = [] /\ hasMore page = false /\ nextCursor page = VUndef).
Proof.
  intros b options w w' page b' H n.
  unfold FilterWhere.chronologicalFeed in H. fold n in H.
  destruct (Z.eqb (Z.max 0 (feed_limit options)) 0) eqn:Ez.
  - unfold EffM.ret in H. inversion H; subst; clear H. cbn.
    repeat split; try lia; try discriminate; try congruence.
  - apply Z.eqb_neq in Ez.
    unfold EffM.bind at 1 in H. unfold EffM.lift at 1 in H.
    destruct (FilterWhere.resolved (FilterWhere._ensureRevisionFilters b)
                                   (cursorField options)) as [dbField|t]; [|discriminate].
    unfold EffM.bind at 1 in H.
    match type of H with
    | context [QueryBuilder.run ?q w] =>
        set (qb3 := q) in *; destruct (QueryBuilder.run qb3 w) as [[results|t] w1]
    end; [|discriminate].
    unfold EffM.ret in H. inversion H; subst page b' w'; clear H.
    cbn [page_rows hasMore nextCursor FilterWhere.with_builder _builder].
    fold n. destruct (Nat.ltb n (length results)) eqn:El.
    + apply Nat.ltb_lt in El.
      assert (Hlen : length (firstn n results) = n) by (rewrite length_firstn; lia).
      split; [lia|]. split.
      * intros _. split; [exact Hlen|]. split; [lia|]. reflexivity.
      * split.
        -- intro Hc. split; [reflexivity|].
           destruct (rev (firstn n results)) as [|last_ rest] eqn:Er; [congruence|].
           destruct (last_of_firstn n results last_ rest Er El) as [Hnth _].
           match type of Hc with
           | context [Js.nullish ?v] => destruct (Js.nullish v) eqn:En
           end; [congruence|].
           split; [exact En|]. exists last_. split; [exact Hnth|reflexivity].
        -- intro Hle. lia.
    + apply Nat.ltb_ge in El. split; [exact El|].
      split; [discriminate|]. split; [congruence|]. intro Hle. lia.
Qed.

(** Three counters as the storage double answers with them, newest
    first. *)
Definition counterRow (id_ : string) (n : Z) : Row :=
  [("id", VStr id_); ("counter", VNum (NFin n)); ("view_count", VNum (NFin 0));
   ("label", VStr id_)].

Definition feedOf (limit_ : Z)
  : Result (ChronologicalFeedPage * FilterWhereBuilder) * World :=
  FilterWhere.chronologicalFeed
    (FilterWhere.new
       (QueryBuilder.new Fixtures.Counters
          (Fixtures.cannedDal [counterRow "c" 30; counterRow "b" 20; counterRow "a" 10] []))
       false)
    {| cursorField := "counter"; cursor := VUndef; direction := DESC; feed_limit := limit_ |}
    (Fixtures.worldOf Fixtures.emptyStore).

Definition pageOf (limit_ : Z) : ChronologicalFeedPage :=
  match fst (feedOf limit_) with
  | Ok (page, _) => page
  | Throw _ => {| page_rows := []; hasMore := false; nextCursor := VNull |}
  end.

Definition builderOf (limit_ : Z) : FilterWhereBuilder :=
  match fst (feedOf limit_) with
  | Ok (_, b) => b
  | Throw _ => FilterWhere.new (QueryBuilder.new Fixtures.Counters (Fixtures.cannedDal [] []))
                               false
  end.

(** Asked for two of the three counters, the feed keeps the first two,
    says that more follow and names the second one's counter as the
    cursor; asked for five, it keeps all three and names no cursor. *)
Lemma chronologicalFeed_page_is_bounded_witness :
  map (fun r => Js.prop "id" (_data (instance r))) (page_rows (pageOf 2))
  = [VStr "c"; VStr "b"] /\
  hasMore (pageOf 2) = true /\ nextCursor (pageOf 2) = VNum (NFin 20) /\
  length (journal (snd (feedOf 2))) = 1 /\
  length (page_rows (pageOf 5)) = 3 /\ hasMore (pageOf 5) = false /\
  nextCursor (pageOf 5) = VUndef /\
  length (page_rows (pageOf 2)) <= 2 /\
  (hasMore (pageOf 2) = true ->
   length (page_rows (pageOf 2)) = 2 /\ 0 < 2 /\
   _limit (_builder (builderOf 2)) = Some 3%Z).
Proof.
  pose proof (chronologicalFeed_page_is_bounded _ _ _ (snd (feedOf 2)) (pageOf 2)
                (builderOf 2) (eq_refl : feedOf 2 = (Ok (pageOf 2, builderOf 2), snd (feedOf 2))))
    as (Hle & Hmore & _).
  do 7 (split; [vm_compute; reflexivity|]).
  split; [exact Hle|exact Hmore].
Defined.

End FeedFacts.

(* ================================================================== *)
(** ** Predicate literals: [and] against [or] *)

Module LiteralFacts.

(** The builder with predicates [ps] pushed onto its WHERE list. *)
Definition appended (b : FilterWhereBuilder) (ps : list Predicate) : FilterWhereBuilder :=
  FilterWhere.with_builder b
    (QueryBuilder.set_where (_builder b) (_where (_builder b) ++ ps)).

(** An entry whose comparison [_addWhereCondition] rewrites: [null]
    itself and [neq(null)]. *)
Definition comparesNull (value : LiteralValue) : bool :=
  match value with
  | Plain VNull => true
  | Op (OpNeq VNull) => true
  | _ => false
  end.

Definition nullFree (literal : Literal) : bool :=
  forallb (fun entry => negb (comparesNull (snd entry))) literal.

Definition optional (p : option Predicate) : list Predicate :=
  match p with Some x => [x] | None => [] end.

Lemma appended_nothing (b : FilterWhereBuilder) : appended b [] = b.
Proof.
  destruct b as [qb r d s a]. destruct qb. unfold appended, FilterWhere.with_builder,
    QueryBuilder.set_where. cbn. rewrite app_nil_r. reflexivity.
Qed.

Lemma appended_more (b : FilterWhereBuilder) (ps qs : list Predicate) :
  appended (appended b ps) qs = appended b (ps ++ qs).
Proof.
  unfold appended, FilterWhere.with_builder, QueryBuilder.set_where. cbn.
  rewrite app_assoc. reflexivity.
Qed.

(** Off the two rewritten comparisons, [_addWhereCondition] pushes what
    [_createPredicate] describes. *)
Lemma addWhereCondition_pushes (qb : QueryBuilder) (field_ operator : string)
      (value : Value) (options : PredicateOptions) :
  value <> VNull \/ (String.eqb operator "=" = false /\ String.eqb operator "!=" = false) ->
  QueryBuilder._addWhereCondition qb field_ operator value options
  = (QueryBuilder._createPredicate qb field_ operator value options,
     QueryBuilder.set_where qb
       (_where qb ++ [QueryBuilder._createPredicate qb field_ operator value options])).
Proof.
  intro H. unfold QueryBuilder._addWhereCondition.
  destruct value; try reflexivity.
  destruct H as [H|[H1 H2]]; [congruence|]. rewrite H1, H2. reflexivity.
Qed.

Lemma condition_pushes (qb : QueryBuilder) (field_ operator : string) (value : Value)
      (options : PredicateOptions) :
  value <> VNull \/ (String.eqb operator "=" = false /\ String.eqb operator "!=" = false) ->
  FilterWhere.condition_ qb field_ true operator value options
  = (fst (FilterWhere.condition_ qb field_ false operator value options),
     QueryBuilder.set_where qb
       (_where qb ++ optional (fst (FilterWhere.condition_ qb field_ false operator value
                                                           options)))).
Proof.
  intro H. unfold FilterWhere.condition_. rewrite (addWhereCondition_pushes _ _ _ _ _ H).
  reflexivity.
Qed.

Lemma set_where_nothing (qb : QueryBuilder) : QueryBuilder.set_where qb (_where qb ++ []) = qb.
Proof. destruct qb. unfold QueryBuilder.set_where. cbn. rewrite app_nil_r. reflexivity. Qed.

Lemma build_pushes (o : Operator) (qb : QueryBuilder) (field_ : string) :
  comparesNull (Op o) = false ->
  FilterWhere.build o qb field_ true
  = (fst (FilterWhere.build o qb field_ false),
     QueryBuilder.set_where qb
       (_where qb ++ optional (fst (FilterWhere.build o qb field_ false)))).
Proof.
  intro H.
  assert (Hany : forall operator value options,
             String.eqb operator "=" = false -> String.eqb operator "!=" = false ->
             FilterWhere.condition_ qb field_ true operator value options
             = (fst (FilterWhere.condition_ qb field_ false operator value options),
                QueryBuilder.set_where qb
                  (_where qb ++ optional (fst (FilterWhere.condition_ qb field_ false operator
                                                                      value options))))).
  { intros. apply condition_pushes. right. split; assumption. }
  destruct o as [value| | | | |normalized|normalized| | | | | | | | | |];
    cbn [FilterWhere.build];
    try (apply Hany; reflexivity);
    try reflexivity.
  - apply condition_pushes. left. intro E. subst value. discriminate.
  - destruct normalized; [cbn; rewrite set_where_nothing; reflexivity|].
    apply Hany; reflexivity.
  - destruct normalized; [cbn; rewrite set_where_nothing; reflexivity|].
    apply Hany; reflexivity.
Qed.

(** What [_createFieldPredicate] describes for an entry when it pushes
    nothing. *)
Definition described (qb : QueryBuilder) (k : string) (value : LiteralValue)
  : Result (option Predicate) :=
  match value with
  | Plain VUndef => Ok None
  | _ =>
      match QueryBuilder._assertResolvedField qb (QueryBuilder._resolveFieldName qb k) with
      | Throw t => Throw t
      | Ok _ =>
          Ok (fst match value with
                  | Op o => FilterWhere.build o qb (QueryBuilder._resolveFieldName qb k) false
                  | Plain v =>
                      FilterWhere.condition_ qb (QueryBuilder._resolveFieldName qb k) false
                                             "=" v QueryBuilder.no_predicate_options
                  end)
      end
  end.

Fixpoint collected (qb : QueryBuilder) (literal : Literal) : Result (list Predicate) :=
  match literal with
  | [] => Ok []
  | (key, rawValue) :: r =>
      match described qb key rawValue with
      | Throw t => Throw t
      | Ok p =>
          match collected qb r with
          | Throw t => Throw t
          | Ok ps => Ok (optional p ++ ps)
          end
      end
  end.

Lemma build_leaves (o : Operator) (qb : QueryBuilder) (field_ : string) :
  snd (FilterWhere.build o qb field_ false) = qb.
Proof.
  destruct o as [value| | | | |normalized|normalized| | | | | | | | | |];
    try reflexivity; destruct normalized; reflexivity.
Qed.

Lemma with_own_builder (b : FilterWhereBuilder) : FilterWhere.with_builder b (_builder b) = b.
Proof. destruct b. reflexivity. Qed.

Lemma createFieldPredicate_describes (b : FilterWhereBuilder) (k : string)
      (value : LiteralValue) :
  FilterWhere._createFieldPredicate b k value false
  = match described (_builder b) k value with
    | Ok p => Ok (p, b)
    | Throw t => Throw t
    end.
Proof.
  unfold FilterWhere._createFieldPredicate, described.
  destruct value as [v|o].
  - destruct v; try reflexivity;
      destruct (QueryBuilder._assertResolvedField (_builder b)
                  (QueryBuilder._resolveFieldName (_builder b) k)); try reflexivity;
      unfold FilterWhere.condition_; cbn [fst]; rewrite with_own_builder; reflexivity.
  - destruct (QueryBuilder._assertResolvedField (_builder b)
                (QueryBuilder._resolveFieldName (_builder b) k)); [|reflexivity].
    pose proof (build_leaves o (_builder b) (QueryBuilder._resolveFieldName (_builder b) k))
      as Hl.
    destruct (FilterWhere.build o (_builder b)
                (QueryBuilder._resolveFieldName (_builder b) k) false) as [p qb].
    cbn [fst snd] in *. subst qb. rewrite with_own_builder. reflexivity.
Qed.

Lemma createFieldPredicate_pushes (b : FilterWhereBuilder) (k : string)
      (value : LiteralValue) :
  comparesNull value = false ->
  FilterWhere._createFieldPredicate b k value true
  = match described (_builder b) k value with
    | Ok p => Ok (p, appended b (optional p))
    | Throw t => Throw t
    end.
Proof.
  intro H. unfold FilterWhere._createFieldPredicate, described.
  destruct value as [v|o].
  - destruct v; try discriminate;
      try (cbn [optional]; rewrite appended_nothing; reflexivity);
      destruct (QueryBuilder._assertResolvedField (_builder b)
                  (QueryBuilder._resolveFieldName (_builder b) k)); try reflexivity;
      rewrite condition_pushes by (left; discriminate); reflexivity.
  - destruct (QueryBuilder._assertResolvedField (_builder b)
                (QueryBuilder._resolveFieldName (_builder b) k)); [|reflexivity].
    rewrite (build_pushes o _ _ H). reflexivity.
Qed.

Lemma described_appended (b : FilterWhereBuilder) (ps : list Predicate) (k : string)
      (value : LiteralValue) :
  described (_builder (appended b ps)) k value = described (_builder b) k value.
Proof.
  unfold described.
  change (QueryBuilder._assertResolvedField (_builder (appended b ps))
            (QueryBuilder._resolveFieldName (_builder (appended b ps)) k))
    with (QueryBuilder._assertResolvedField (_builder b)
            (QueryBuilder._resolveFieldName (_builder b) k)).
  change (QueryBuilder._resolveFieldName (_builder (appended b ps)) k)
    with (QueryBuilder._resolveFieldName (_builder b) k).
  destruct value as [v|o].
  - destruct v; reflexivity.
  - destruct (QueryBuilder._assertResolvedField (_builder b)
                (QueryBuilder._resolveFieldName (_builder b) k)); [|reflexivity].
    f_equal.
    destruct o as [value| | | | |normalized|normalized| | | | | | | | | |];
      try reflexivity; destruct normalized; reflexivity.
Qed.

Lemma collected_appended (b : FilterWhereBuilder) (ps : list Predicate) (literal : Literal) :
  collected (_builder (appended b ps)) literal = collected (_builder b) literal.
Proof.
  induction literal as [|[k v] r IH]; [reflexivity|].
  cbn [collected]. rewrite described_appended, IH. reflexivity.
Qed.

Lemma collectPredicates_collected (b : FilterWhereBuilder) (literal : Literal) :
  FilterWhere.collectPredicates b literal = collected (_builder b) literal.
Proof.
  induction literal as [|[k v] r IH]; [reflexivity|].
  cbn [FilterWhere.collectPredicates collected].
  rewrite createFieldPredicate_describes, IH.
  destruct (described (_builder b) k v) as [[p|]|t]; try reflexivity.
Qed.

Lemma applyEach_collected (literal : Literal) :
  nullFree literal = true ->
  forall b : FilterWhereBuilder,
    FilterWhere.applyEach b literal true
    = match collected (_builder b) literal with
      | Ok ps => Ok (appended b ps)
      | Throw t => Throw t
      end.
Proof.
  induction literal as [|[k v] r IH]; intros Hn b.
  - cbn. rewrite appended_nothing. reflexivity.
  - cbn [nullFree forallb snd] in Hn. apply Bool.andb_true_iff in Hn.
    destruct Hn as [Hv Hr]. apply Bool.negb_true_iff in Hv.
    cbn [FilterWhere.applyEach collected].
    rewrite (createFieldPredicate_pushes b k v Hv).
    destruct (described (_builder b) k v) as [p|t]; [|reflexivity].
    rewrite (IH Hr), collected_appended.
    destruct (collected (_builder b) r) as [ps|t]; [|reflexivity].
    rewrite appended_more. reflexivity.
Qed.

(** On a literal that compares nothing with [null], [and] and [or] fail
    together, with the same error, and otherwise differ only in how they
    attach the entries' predicates: [and] pushes them one by one, [or]
    pushes them as one OR group, and nothing at all when there is none. *)
Theorem and_pushes_what_or_groups :
  forall (b : FilterWhereBuilder) (literal : Literal),
    nullFree literal = true ->
    (forall t, FilterWhere.and b literal = Throw t <-> FilterWhere.or b literal = Throw t) /\
    (forall b1, FilterWhere.and b literal = Ok b1 ->
                exists predicates,
                  b1 = appended b predicates /\
                  FilterWhere.or b literal
                  = Ok match predicates with
                       | [] => b
                       | _ => appended b [Group OR predicates]
                       end).
Proof.
  intros b literal Hn.
  unfold FilterWhere.and, FilterWhere.or, FilterWhere._applyLiteral.
  rewrite (applyEach_collected literal Hn b), collectPredicates_collected.
  destruct (collected (_builder b) literal) as [ps|t].
  - split.
    + intro t. split; [discriminate|]. destruct ps; discriminate.
    + intros b1 H. inversion H; subst b1. exists ps. split; [reflexivity|].
      destruct ps; reflexivity.
  - split.
    + intro t'. split; intro H; exact H.
    + intros b1 H. discriminate.
Qed.

(** Counters above three or never viewed: two predicates under [and],
    one group of the same two under [or]; the undefined entry adds
    nothing. *)
Lemma and_pushes_what_or_groups_witness :
  let b := FilterWhere.new (QueryBuilder.new Fixtures.Counters (Fixtures.cannedDal [] []))
                           false in
  let literal := [("counter", Op (FilterWhere.ops.gt (VNum (NFin 3))));
                  ("label", Plain VUndef);
                  ("viewCount", Plain (VNum (NFin 0)))] in
  let above := Basic None "counter" ">" (Some (VNum (NFin 3))) (Some TIdentity) in
  let unseen := Basic None "view_count" "=" (Some (VNum (NFin 0))) (Some TIdentity) in
  option_map (fun b1 => _where (_builder b1))
             (match FilterWhere.and b literal with Ok b1 => Some b1 | Throw _ => None end)
  = Some [above; unseen] /\
  FilterWhere.or b literal = Ok (appended b [Group OR [above; unseen]]).
Proof.
  intros b literal above unseen. split; [reflexivity|].
  destruct (and_pushes_what_or_groups b literal eq_refl) as [_ H].
  destruct (H (appended b [above; unseen]) eq_refl) as (ps & Hps & Hor).
  apply (f_equal (fun x => _where (_builder x))) in Hps. cbn in Hps. subst ps.
  exact Hor.
Defined.

(** A [null] entry is the exception. Where [and] accepts it, it pushes
    [column IS NULL]; [or] then groups [column = $n] with NULL bound to
    the placeholder, a comparison that is true of no row, while the
    predicate of [and] is true of every row whose column is NULL. *)
Theorem null_entry_is_a_test_under_and_and_an_equality_under_or :
  forall (b b1 : FilterWhereBuilder) (k : string),
    FilterWhere.and b [(k, Plain VNull)] = Ok b1 ->
    exists reference column_,
      let test := Basic reference column_ "IS" (Some VNull) None in
      let equality := Basic reference column_ "=" (Some VNull) (Some TIdentity) in
      b1 = appended b [test] /\
      FilterWhere.or b [(k, Plain VNull)] = Ok (appended b [Group OR [equality]]) /\
      (forall qualify table c,
          Sql._renderPredicate qualify table test c
          = ((Sql._qualifyColumn qualify table reference column_ ++ " IS NULL")%string, c) /\
          Sql._renderPredicate qualify table equality c
          = ((Sql._qualifyColumn qualify table reference column_ ++ " = " ++
              Str.placeholder (Sql.nextIndex c))%string,
             {| Sql.nextIndex := S (Sql.nextIndex c);
                Sql.bound := Sql.bound c ++ [VNull] |})) /\
      (forall table row,
          Postgres.evalPredicate table (Group OR [equality]) row <> Some Postgres.TT) /\
      (forall table row,
          reference = None \/ reference = Some table ->
          Postgres.columnValue column_ row = VNull ->
          Postgres.evalPredicate table test row = Some Postgres.TT).
Proof.
  intros b b1 k H.
  unfold FilterWhere.and, FilterWhere.or, FilterWhere._applyLiteral in *.
  cbn [FilterWhere.applyEach FilterWhere.collectPredicates] in *.
  unfold FilterWhere._createFieldPredicate in *.
  destruct (QueryBuilder._assertResolvedField (_builder b)
              (QueryBuilder._resolveFieldName (_builder b) k)) as [f|t]; [|discriminate].
  unfold FilterWhere.condition_, QueryBuilder._addWhereCondition,
    QueryBuilder._createPredicate in *.
  destruct (QueryBuilder._splitFieldReference
              (QueryBuilder._resolveFieldName (_builder b) k)) as [explicitTable column_].
  cbn [opt_table serializeValue cast opt_valueTransform QueryBuilder.no_predicate_options
       String.eqb Ascii.eqb Bool.eqb orb andb] in *.
  inversion H; subst b1; clear H.
  set (reference := match explicitTable with
                    | Some t => if String.eqb t "" then None else Some t
                    | None => None
                    end).
  set (resolved := QueryBuilder._resolvePredicateColumn (_builder b) reference column_).
  exists reference, resolved. split; [reflexivity|]. split; [reflexivity|].
  split; [intros; split; reflexivity|]. split.
  - intros table row.
    assert (Hbasic : Postgres.evalBasic resolved "=" (Some VNull) row = Some Postgres.UU).
    { unfold Postgres.evalBasic. cbn. destruct (Postgres.columnValue resolved row); reflexivity. }
    cbn [Postgres.evalPredicate Postgres.castOperand Postgres.castOf].
    destruct reference as [t'|].
    + destruct (String.eqb t' table); [rewrite Hbasic|]; discriminate.
    + rewrite Hbasic. discriminate.
  - intros table row Href Hnull.
    cbn [Postgres.evalPredicate Postgres.castOperand Postgres.castOf].
    destruct Href as [Href|Href]; rewrite Href.
    + unfold Postgres.evalBasic. rewrite Hnull. reflexivity.
    + rewrite JsFacts.eqb_refl. unfold Postgres.evalBasic. rewrite Hnull. reflexivity.
Qed.


(** Counters without a label: the row whose label is NULL passes what
    [and] pushes and fails what [or] pushes. *)
Lemma null_entry_is_a_test_under_and_and_an_equality_under_or_witness :
  let b := FilterWhere.new (QueryBuilder.new Fixtures.Counters (Fixtures.cannedDal [] []))
                           false in
  let literal := [("label", Plain VNull)] in
  let unlabelled := [("id", VStr "c"); ("counter", VNum (NFin 1)); ("label", VNull)] in
  let test := Basic None "label" "IS" (Some VNull) None in
  let equality := Basic None "label" "=" (Some VNull) (Some TIdentity) in
  FilterWhere.and b literal = Ok (appended b [test]) /\
  FilterWhere.or b literal = Ok (appended b [Group OR [equality]]) /\
  Postgres.passes "counters" [test] unlabelled = Some true /\
  Postgres.passes "counters" [Group OR [equality]] unlabelled = Some false.
Proof.
  intros b literal unlabelled test equality.
  destruct (null_entry_is_a_test_under_and_and_an_equality_under_or
              b (appended b [test]) "label" eq_refl)
    as (reference & column_ & Hand & Hor & _).
  apply (f_equal (fun x => _where (_builder x))) in Hand. cbn in Hand.
  inversion Hand; subst reference column_.
  split; [reflexivity|]. split; [exact Hor|]. split; reflexivity.
Defined.

End LiteralFacts.

(* ================================================================== *)
(** ** What the deleting executions send *)

Module DeleteFacts.

Lemma ensure_keeps_model (b : FilterWhereBuilder) :
  modelClass (_builder (FilterWhere._ensureRevisionFilters b)) = modelClass (_builder b) /\
  dal (_builder (FilterWhere._ensureRevisionFilters b)) = dal (_builder b).
Proof.
  unfold FilterWhere._ensureRevisionFilters.
  destruct (_revisionFiltersApplied b), (_hasRevisions b), (_includeStale b),
    (_includeDeleted b); split; reflexivity.
Qed.

Lemma ensure_plain (b : FilterWhereBuilder) :
  _hasRevisions b = false ->
  _builder (FilterWhere._ensureRevisionFilters b) = _builder b.
Proof.
  intro H. unfold FilterWhere._ensureRevisionFilters. rewrite H.
  destruct (_revisionFiltersApplied b); reflexivity.
Qed.

Lemma append_nothing (s : string) : (s ++ "")%string = s.
Proof. induction s as [|c r IH]; cbn; [reflexivity|rewrite IH; reflexivity]. Qed.

(** The statement of [deleteById]. *)
Definition deleteByIdCall (M : ModelClass) (id_ : Value) : SqlCall :=
  {| statement := Text ("DELETE FROM " ++ tableName M ++ " WHERE id = $1")%string;
     params := [id_] |}.

(** [deleteById] sends one statement, [DELETE FROM table WHERE id = $1]
    with the id as its only parameter: neither the predicates the builder
    holds nor the revision guards it owes reach it. [delete] sends the
    DELETE of the builder's WHERE list, guards included, so that on an
    entity without revisions a builder without predicates sends
    [DELETE FROM table] with no WHERE clause. *)
Theorem deleteById_sends_the_id_alone :
  forall (b : FilterWhereBuilder) (id_ : Value) (w : World),
    journal (snd (FilterWhere.deleteById b id_ w))
    = journal w ++ [deleteByIdCall (modelClass (_builder b)) id_] /\
    journal (snd (FilterWhere.delete b w))
    = journal w ++ [QueryBuilder._buildDeleteQuery
                      (_builder (FilterWhere._ensureRevisionFilters b))] /\
    (_hasRevisions b = false -> _where (_builder b) = [] ->
     journal (snd (FilterWhere.delete b w))
     = journal w ++ [{| statement := Text ("DELETE FROM " ++ tableName (modelClass (_builder b)));
                        params := [] |}]).
Proof.
  intros b id_ w.
  assert (Hdel : journal (snd (FilterWhere.delete b w))
                 = journal w ++ [QueryBuilder._buildDeleteQuery
                                   (_builder (FilterWhere._ensureRevisionFilters b))]).
  { unfold FilterWhere.delete, QueryBuilder.delete, EffM.bind, EffM.rethrow, EffM.ret,
      DataAccessLayer.run_query.
    destruct (query _ _ (store w)) as [[r|t] st]; reflexivity. }
  split; [|split; [exact Hdel|]].
  - destruct (ensure_keeps_model b) as [Hm Hd].
    unfold FilterWhere.deleteById, QueryBuilder.deleteById, EffM.bind, EffM.rethrow, EffM.ret,
      DataAccessLayer.run_query, deleteByIdCall.
    rewrite Hm, Hd.
    destruct (query _ _ (store w)) as [[r|t] st]; reflexivity.
  - intros Hr Hw. rewrite Hdel, (ensure_plain b Hr).
    unfold QueryBuilder._buildDeleteQuery, QueryBuilder._buildWhereClause. rewrite Hw.
    cbn [Sql.buildWhere fst snd]. unfold QueryBuilder.whereSuffix. cbn [String.eqb].
    rewrite append_nothing. reflexivity.
Qed.

(** The drafts of the revision-tracked fixture. *)
Definition drafts : FilterWhereBuilder :=
  match FilterWhere.filterWhere true Fixtures.Revisions (Fixtures.cannedDal [] [])
                                [("title", Plain (VStr "draft"))] with
  | Ok b => b
  | Throw _ => FilterWhere.new (QueryBuilder.new Fixtures.Revisions (Fixtures.cannedDal [] []))
                               true
  end.

(** On the drafts, [deleteById] names the id alone, where [delete] names
    the title and both guards. *)
Lemma deleteById_sends_the_id_alone_witness :
  let w := Fixtures.worldOf Fixtures.emptyStore in
  journal (snd (FilterWhere.deleteById drafts (VStr Fixtures.liveId) w))
  = [{| statement := Text "DELETE FROM revisions WHERE id = $1";
        params := [VStr Fixtures.liveId] |}] /\
  journal (snd (FilterWhere.delete drafts w))
  = [{| statement :=
          Text "DELETE FROM revisions WHERE title = $1 AND _old_rev_of IS NULL AND _rev_deleted = $2";
        params := [VStr "draft"; VBool false] |}].
Proof.
  intro w.
  destruct (deleteById_sends_the_id_alone drafts (VStr Fixtures.liveId) w) as (Hid & Hdel & _).
  split; [exact Hid|exact Hdel].
Defined.

End DeleteFacts.

(* ================================================================== *)
(** ** The first revision *)

Module FirstRevisionFacts.

Import RevisionModelFacts LineageFacts.

Lemma construct_fresh (M : ModelClass) :
  QueryFacts.DefaultsTotal M ->
  exists i, Model.construct M [] = Ok i /\ _isNew i = true.
Proof.
  intro HD. unfold Model.construct.
  destruct (QueryFacts.applyDefaults_total M [] Model.empty_instance HD) as [i0 E0].
  rewrite E0. cbn [ResultM.bind fold_left].
  destruct (QueryFacts.generateVirtualValues_total M i0 HD) as [i1 E1].
  exists i1. split; [exact E1|].
  assert (H0 : _isNew i0 = true).
  { revert E0. unfold Model._applyDefaults.
    apply (ModelFacts.foldM_invariant (fun a => _isNew a = true)); [reflexivity|].
    intros [k f] a b _ Ha Hstep. cbv zeta in Hstep.
    destruct (isVirtual (Types.base f) || negb (hasDefault (Types.base f)));
      [inversion Hstep; subst; exact Ha|].
    destruct (Js.has k [] || _); [inversion Hstep; subst; exact Ha|].
    unfold ResultM.bind in Hstep. destruct (Model._resolveDefault a f) as [v|t]; [|discriminate].
    destruct v; inversion Hstep; subst; try exact Ha;
      rewrite ModelFacts.setValue_isNew; exact Ha. }
  revert E1. unfold Model.generateVirtualValues.
  apply (ModelFacts.foldM_invariant (fun a => _isNew a = true)); [exact H0|].
  intros [k f] a b _ Ha Hstep. cbn [fst snd] in Hstep.
  destruct (isVirtual (Types.base f) && hasDefault (Types.base f));
    [|inversion Hstep; subst; exact Ha].
  unfold ResultM.bind in Hstep. destruct (Model._resolveDefault a f) as [v|t]; [|discriminate].
  destruct v; inversion Hstep; subst; exact Ha.
Qed.

Lemma stamp_isNew (M : ModelClass) (i : Instance) (revId userId date tags : Value) :
  _isNew (stamp M i revId userId date tags) = _isNew i.
Proof. unfold stamp. rewrite !ModelFacts.setProperty_isNew. reflexivity. Qed.

Definition validDateRequired : JsError :=
  Errors.ValidationError "Revision metadata requires a valid date" None.

(** The [date] option of [createFirstRevision]: left out, an invalid
    [Date], or a [Date] at a given time. *)
Definition dateOption (moment : option (option Z)) : option Value :=
  option_map VDate moment.

(** [createFirstRevision] never reaches storage. Without a user id it
    throws the [ValidationError] asking for one, and with an invalid date
    the one asking for a valid date. Otherwise it answers with a new,
    unsaved instance on which the revision id (a fresh UUID), the user id,
    the date (the current time when none is given) and the tags (none
    when none are given) are set and marked as changed. *)
Theorem createFirstRevision_stamps_a_new_instance :
  forall (M : ModelClass) (user : option JsObject) (tags : Value)
         (moment : option (option Z)) (w : World),
    RevisionModel M -> QueryFacts.DefaultsTotal M ->
    let r := Revision.createFirstRevision M user tags (dateOption moment) w in
    store (snd r) = store w /\ journal (snd r) = journal w /\
    if negb (Js.truthy (Revision.resolveRevisionUserId user)) then
      fst r = Throw (TErr HandlerFacts.userIdRequired)
    else
      match moment with
      | Some None => fst r = Throw (TErr validDateRequired)
      | _ =>
          exists first,
            fst r = Ok first /\ _isNew first = true /\
            pending "_rev_id"
                    (VStr (randomUUID (host w)
                             (match moment with None => S (draws w) | Some _ => draws w end)))
                    first /\
            pending "_rev_user" (Revision.resolveRevisionUserId user) first /\
            pending "_rev_date"
                    (VDate (Some (match moment with
                                  | Some (Some t) => t
                                  | _ => Date_now (host w) (draws w)
                                  end)))
                    first /\
            pending "_rev_tags" (resolvedTags tags) first
      end.
Proof.
  intros M user tags moment w HM HD r. subst r.
  destruct (construct_fresh M HD) as (i0 & E0 & Hnew).
  unfold Revision.createFirstRevision, dateOption.
  destruct (Js.truthy (Revision.resolveRevisionUserId user)) eqn:Hu; cbn [negb].
  - destruct moment as [[t|]|]; cbn [option_map];
      unfold EffM.bind, EffM.ret, EffM.lift, Revision.new_Date,
        Revision.applyRevisionMetadata;
      rewrite E0, Hu; cbn [negb host store journal draws fst snd Js.truthy];
      unfold EffM.bind, EffM.ret, Revision.draw_randomUUID;
      cbn [negb host store journal draws fst snd Js.truthy];
      (split; [reflexivity|]); (split; [reflexivity|]); try reflexivity.
    + eexists. split; [reflexivity|].
      fold (resolvedTags tags).
      match goal with
      | |- context [Model.setProperty M (Model.setProperty M (Model.setProperty M
                      (Model.setProperty M i0 "_revID" ?a) "_revUser" ?u) "_revDate" ?d)
                      "_revTags" ?g] =>
          fold (stamp M i0 a u d g);
          split; [rewrite stamp_isNew; exact Hnew|];
          exact (stamp_pending M HM i0 a u d g)
      end.
    + eexists. split; [reflexivity|].
      fold (resolvedTags tags).
      match goal with
      | |- context [Model.setProperty M (Model.setProperty M (Model.setProperty M
                      (Model.setProperty M i0 "_revID" ?a) "_revUser" ?u) "_revDate" ?d)
                      "_revTags" ?g] =>
          fold (stamp M i0 a u d g);
          split; [rewrite stamp_isNew; exact Hnew|];
          exact (stamp_pending M HM i0 a u d g)
      end.
  - destruct moment as [[t|]|]; cbn [option_map];
      unfold EffM.bind, EffM.ret, EffM.lift, EffM.throw, Revision.new_Date,
        Revision.applyRevisionMetadata;
      rewrite E0, Hu; cbn [negb host store journal draws fst snd];
      repeat split; reflexivity.
Qed.


(** For the test user, with neither tags nor date, on the fixture. *)
Lemma createFirstRevision_stamps_a_new_instance_witness :
  let w := Fixtures.worldOf (Fixtures.revisionsStore []) in
  let r := Revision.createFirstRevision Fixtures.Revisions Fixtures.testUser VUndef None w in
  store (snd r) = store w /\ journal (snd r) = [] /\
  exists first,
    fst r = Ok first /\ _isNew first = true /\
    pending "_rev_id" (VStr (Postgres.gen_random_uuid 4097)) first /\
    pending "_rev_user" (VStr "11111111-1111-4111-8111-111111111111") first /\
    pending "_rev_date" (VDate (Some 0%Z)) first /\
    pending "_rev_tags" (VArr []) first.
Proof.
  intros w r.
  exact (createFirstRevision_stamps_a_new_instance
           Fixtures.Revisions Fixtures.testUser VUndef None w
           FixtureFacts.revisions_model QueryFacts.revisions_defaults_total).
Defined.

End FirstRevisionFacts.

(* ================================================================== *)
(** ** Rows read back under the schema's field names *)

Module RemapFacts.

Definition swapped (m : list (string * string)) : list (string * string) :=
  map (fun e => (snd e, fst e)) m.

(** The key [remapRowToCamelCase] files a column under. *)
Definition renamed (m : list (string * string)) (key : string) : string :=
  match Js.get key (Js.assign [] (swapped m)) with
  | Some camel => camel
  | None => key
  end.

Lemma fold_left_mapped {A B S} (f : S -> B -> S) (g : A -> B) (l : list A) :
  forall s, fold_left f (map g l) s = fold_left (fun a x => f a (g x)) l s.
Proof. induction l as [|x r IH]; intro s; cbn; [reflexivity|apply IH]. Qed.

Lemma get_of_fold {A} (l : list (string * A)) (c : string) :
  NoDup (Js.keys l) -> Js.get c (Js.assign [] l) = Js.get c l.
Proof.
  intro H. rewrite (StoreFacts.get_assign l H). destruct (Js.get c l); reflexivity.
Qed.

Lemma remap_as_assign (row : Row) (m : list (string * string)) :
  m <> [] ->
  QueryBuilder.remapRowToCamelCase row m
  = Js.assign [] (map (fun kv => (renamed m (fst kv), snd kv)) row).
Proof.
  intro Hm. unfold QueryBuilder.remapRowToCamelCase, Js.assign, renamed, swapped.
  destruct m as [|e m']; [congruence|].
  rewrite !fold_left_mapped. cbn [fst snd]. unfold Js.assign.
  rewrite fold_left_mapped. reflexivity.
Qed.

Lemma remap_get_assign (row : Row) (m : list (string * string)) (c : string) :
  NoDup (Js.keys row) ->
  Js.get c (QueryBuilder.remapRowToCamelCase row m)
  = Js.get c (Js.assign [] (map (fun kv => (renamed m (fst kv), snd kv)) row)).
Proof.
  intro Hnd. destruct m as [|e m'].
  - assert (Hsame : map (fun kv : string * Value => (renamed [] (fst kv), snd kv)) row = row).
    { clear. induction row as [|[k v] r IH]; [reflexivity|].
      cbn [map fst snd]. rewrite IH. reflexivity. }
    rewrite Hsame, (get_of_fold row c Hnd). reflexivity.
  - rewrite remap_as_assign by discriminate. reflexivity.
Qed.

Lemma get_renamed_key {A} (f : string -> string) (l : list (string * A)) (k : string) :
  NoDup (map f (Js.keys l)) -> In k (Js.keys l) ->
  Js.get (f k) (map (fun kv => (f (fst kv), snd kv)) l) = Js.get k l.
Proof.
  induction l as [|[k' v] r IH]; cbn; intros Hnd Hin; [destruct Hin|].
  inversion Hnd as [|? ? Hnot Hnd']; subst.
  destruct (String.eqb k k') eqn:E.
  - apply String.eqb_eq in E. subst k'. rewrite JsFacts.eqb_refl. reflexivity.
  - apply String.eqb_neq in E. destruct Hin as [Hin|Hin]; [congruence|].
    rewrite JsFacts.eqb_false; [apply IH; assumption|].
    intro Heq. apply Hnot. rewrite <- Heq. apply in_map. exact Hin.
Qed.

Lemma keys_renamed {A} (f : string -> string) (l : list (string * A)) :
  Js.keys (map (fun kv => (f (fst kv), snd kv)) l) = map f (Js.keys l).
Proof. unfold Js.keys. rewrite !map_map. reflexivity. Qed.

Section Mapping.

Variable m : list (string * string).
Hypothesis fields_distinct : NoDup (map fst m).
Hypothesis columns_distinct : NoDup (map snd m).

Lemma swapped_keys : Js.keys (swapped m) = map snd m.
Proof. unfold swapped, Js.keys. rewrite map_map. reflexivity. Qed.

Lemma renamed_mapped (camel snake : string) :
  In (camel, snake) m -> renamed m snake = camel.
Proof.
  intro H. unfold renamed. rewrite get_of_fold by (rewrite swapped_keys; exact columns_distinct).
  rewrite (JsFacts.In_get_nodup snake camel (swapped m)); [reflexivity| |].
  - rewrite swapped_keys. exact columns_distinct.
  - unfold swapped. apply in_map_iff. exists (camel, snake). split; [reflexivity|exact H].
Qed.

Lemma renamed_unmapped (key : string) : ~ In key (map snd m) -> renamed m key = key.
Proof.
  intro H. unfold renamed. rewrite get_of_fold by (rewrite swapped_keys; exact columns_distinct).
  rewrite (proj2 (JsFacts.get_None_notin key (swapped m))); [reflexivity|].
  rewrite swapped_keys. exact H.
Qed.

Lemma renamed_cases (key : string) :
  (exists camel, In (camel, key) m /\ renamed m key = camel) \/
  (~ In key (map snd m) /\ renamed m key = key).
Proof.
  destruct (in_dec string_dec key (map snd m)) as [Hin|Hnot].
  - left. apply in_map_iff in Hin. destruct Hin as [[camel snake] [Hs Hin]].
    cbn in Hs. subst snake. exists camel. split; [exact Hin|apply renamed_mapped; exact Hin].
  - right. split; [exact Hnot|apply renamed_unmapped; exact Hnot].
Qed.

(** No column of the row is named like the field another column is
    filed under. *)
Definition collisionFree (row : Row) : Prop :=
  forall camel snake, In (camel, snake) m -> In snake (Js.keys row) -> camel <> snake ->
                      ~ In camel (Js.keys row).

Lemma renamed_injective (row : Row) (k1 k2 : string) :
  collisionFree row -> In k1 (Js.keys row) -> In k2 (Js.keys row) ->
  renamed m k1 = renamed m k2 -> k1 = k2.
Proof.
  intros Hfree H1 H2 Heq.
  destruct (renamed_cases k1) as [(c1 & Hc1 & E1)|[Hn1 E1]];
    destruct (renamed_cases k2) as [(c2 & Hc2 & E2)|[Hn2 E2]];
    rewrite E1, E2 in Heq.
  - subst c2. clear E1 E2.
    assert (Hget : forall s, In (c1, s) m -> Js.get c1 m = Some s)
      by (intros s Hs; apply JsFacts.In_get_nodup; assumption).
    pose proof (Hget k1 Hc1) as G1. pose proof (Hget k2 Hc2) as G2. congruence.
  - subst c1. destruct (string_dec k2 k1) as [E|E]; [congruence|].
    exfalso. exact (Hfree k2 k1 Hc1 H1 E H2).
  - subst c2. destruct (string_dec k1 k2) as [E|E]; [exact E|].
    exfalso. exact (Hfree k1 k2 Hc2 H2 E H1).
  - exact Heq.
Qed.

Lemma renamed_keys_distinct (row : Row) :
  collisionFree row -> NoDup (Js.keys row) -> NoDup (map (renamed m) (Js.keys row)).
Proof.
  intros Hfree Hnd.
  assert (Hinj : forall k1 k2, In k1 (Js.keys row) -> In k2 (Js.keys row) ->
                               renamed m k1 = renamed m k2 -> k1 = k2)
    by (intros; eapply renamed_injective; eassumption).
  revert Hinj. generalize (Js.keys row) Hnd. clear.
  induction l as [|k r IH]; intros Hnd Hinj; cbn; [constructor|].
  inversion Hnd as [|? ? Hnot Hnd']; subst. constructor.
  - intro Hin. apply in_map_iff in Hin. destruct Hin as [k' [Heq Hin]].
    assert (k' = k) by (apply Hinj; [right; exact Hin|left; reflexivity|exact Heq]).
    subst k'. contradiction.
  - apply IH; [exact Hnd'|]. intros k1 k2 H1 H2. apply Hinj; right; assumption.
Qed.

Lemma remap_get (row : Row) (key : string) :
  collisionFree row -> NoDup (Js.keys row) -> In key (Js.keys row) ->
  Js.get (renamed m key) (QueryBuilder.remapRowToCamelCase row m) = Js.get key row.
Proof.
  intros Hfree Hnd Hin.
  rewrite (remap_get_assign row m _ Hnd).
  pose proof (renamed_keys_distinct row Hfree Hnd) as Hd.
  rewrite get_of_fold by (rewrite keys_renamed; exact Hd).
  apply get_renamed_key; assumption.
Qed.

End Mapping.

(** A row read back through [remapRowToCamelCase] holds every mapped
    column under its field name, and every other column under its own
    name, provided the mapping is one to one and the row has no column
    named like the field another of its columns is filed under. *)
Theorem remapRowToCamelCase_files_columns_under_fields :
  forall (m : list (string * string)) (row : Row),
    NoDup (map fst m) -> NoDup (map snd m) -> NoDup (Js.keys row) ->
    collisionFree m row ->
    (forall camel snake,
        In (camel, snake) m -> In snake (Js.keys row) ->
        Js.get camel (QueryBuilder.remapRowToCamelCase row m) = Js.get snake row) /\
    (forall key,
        In key (Js.keys row) -> ~ In key (map snd m) ->
        Js.get key (QueryBuilder.remapRowToCamelCase row m) = Js.get key row).
Proof.
  intros m row Hf Hc Hnd Hfree. split.
  - intros camel snake Hin Hrow.
    rewrite <- (renamed_mapped m Hc camel snake Hin).
    apply remap_get; assumption.
  - intros key Hrow Hnot.
    rewrite <- (renamed_unmapped m Hc key Hnot) at 1.
    apply remap_get; assumption.
Qed.


(** A counter row read back: the view count under [viewCount], the id
    under [id]. *)
Lemma remapRowToCamelCase_files_columns_under_fields_witness :
  let m := [("viewCount", "view_count")] in
  let row := [("id", VStr "c"); ("view_count", VNum (NFin 7))] in
  Js.get "viewCount" (QueryBuilder.remapRowToCamelCase row m) = Some (VNum (NFin 7)) /\
  Js.get "id" (QueryBuilder.remapRowToCamelCase row m) = Some (VStr "c").
Proof.
  intros m row.
  assert (Hf : NoDup (map fst m)) by (repeat constructor; cbn; tauto).
  assert (Hc : NoDup (map snd m)) by (repeat constructor; cbn; tauto).
  assert (Hr : NoDup (Js.keys row)).
  { repeat constructor; cbn; [|tauto]. intros [H|[]]. discriminate. }
  assert (Hfree : collisionFree m row).
  { intros camel snake [H|[]] _ _. inversion H; subst. cbn.
    intros [E|[E|[]]]; discriminate. }
  destruct (remapRowToCamelCase_files_columns_under_fields m row Hf Hc Hr Hfree)
    as [Hmapped Hother].
  split.
  - exact (Hmapped "viewCount" "view_count" (or_introl eq_refl) (or_intror (or_introl eq_refl))).
  - apply (Hother "id" (or_introl eq_refl)). cbn. intros [E|[]]. discriminate.
Defined.

End RemapFacts.

(* ================================================================== *)
(** ** Registering and finding models *)

Module RegistryFacts.

Import ModelRegistry.

Lemma set_present {A} (k : string) (v : A) (o : list (string * A)) :
  Js.get k o = Some v -> Js.set k v o = o.
Proof.
  induction o as [|[k' v'] r IH]; cbn; [discriminate|].
  destruct (String.eqb k k') eqn:E.
  - apply String.eqb_eq in E. subst k'. intro H. inversion H. reflexivity.
  - intro H. rewrite (IH H). reflexivity.
Qed.

Lemma differs_same (m : Ctor) : differs (Some m) m = false.
Proof. unfold differs. rewrite Nat.eqb_refl. reflexivity. Qed.

Lemma differs_other (m m' : Ctor) : m <> m' -> differs (Some m) m' = true.
Proof. intro H. unfold differs. apply Nat.eqb_neq in H. rewrite H. reflexivity. Qed.

Definition canonical (tableName_ : string) (key : option string) : string :=
  match key with Some k => k | None => tableName_ end.

Definition alreadyRegistered (tableName_ : string) : JsError :=
  Errors.Error ("Model '" ++ tableName_ ++ "' already registered on this DAL instance.").

Lemma register_ok (r r' : Registry) (tableName_ : string) (m : Ctor) (key : option string) :
  register r tableName_ m key = Ok r' ->
  tableName_ <> "" /\
  r' = {| byTable := Js.set tableName_ m (byTable r);
          byKey := Js.set (canonical tableName_ key) m (byKey r) |}.
Proof.
  unfold register. fold (canonical tableName_ key).
  destruct (String.eqb tableName_ "") eqn:Et; [discriminate|].
  destruct (differs (Js.get tableName_ (byTable r)) m); [discriminate|].
  destruct (differs (Js.get (canonical tableName_ key) (byKey r)) m); [discriminate|].
  intro H. inversion H. split; [|reflexivity]. apply String.eqb_neq. exact Et.
Qed.

(** What [register] accepts can be found again under its table name,
    and under its key in the key map; lookups of every other identifier
    are as before; registering the same constructor again changes
    nothing, and registering another one for the table is refused. *)
Theorem register_then_get :
  forall (r r' : Registry) (tableName_ : string) (m : Ctor) (key : option string),
    register r tableName_ m key = Ok r' ->
    get r' tableName_ = Some m /\
    Js.get (canonical tableName_ key) (listByKey r') = Some m /\
    (forall identifier,
        identifier <> tableName_ -> identifier <> canonical tableName_ key ->
        get r' identifier = get r identifier) /\
    register r' tableName_ m key = Ok r' /\
    (forall other key',
        other <> m ->
        register r' tableName_ other key' = Throw (TErr (alreadyRegistered tableName_))).
Proof.
  intros r r' t m key H. destruct (register_ok _ _ _ _ _ H) as [Ht Hr'].
  assert (Et : String.eqb t "" = false) by (apply String.eqb_neq; exact Ht).
  subst r'. unfold get, listByKey. cbn [byTable byKey]. rewrite Et.
  rewrite !JsFacts.get_set_same. split; [reflexivity|]. split; [reflexivity|]. split.
  - intros identifier H1 H2. rewrite !JsFacts.get_set_other by assumption. reflexivity.
  - split.
    + unfold register. fold (canonical t key). rewrite Et. cbn [byTable byKey].
      rewrite !JsFacts.get_set_same, differs_same.
      rewrite (set_present t m) by apply JsFacts.get_set_same.
      rewrite (set_present (canonical t key) m) by apply JsFacts.get_set_same.
      reflexivity.
    + intros other key' Hne. unfold register. rewrite Et. cbn [byTable byKey].
      rewrite JsFacts.get_set_same, differs_other by congruence. reflexivity.
Qed.

(** Two tables under their own names. *)
Lemma register_then_get_witness :
  exists r1 r2,
    register empty "users" 1 None = Ok r1 /\
    register r1 "teams" 2 (Some "groups") = Ok r2 /\
    get r2 "users" = Some 1 /\ get r2 "teams" = Some 2 /\ get r2 "groups" = Some 2 /\
    has r2 "people" = false /\
    register r2 "teams" 3 None
    = Throw (TErr (alreadyRegistered "teams")).
Proof.
  eexists. eexists. split; [reflexivity|]. split; [reflexivity|].
  match goal with
  | |- get ?r2 _ = _ /\ _ =>
      destruct (register_then_get
                  {| byTable := [("users", 1)]; byKey := [("users", 1)] |} r2
                  "teams" 2 (Some "groups") eq_refl)
        as (Hget & Hkey & Hframe & _ & Hrefuse)
  end.
  split; [reflexivity|]. split; [exact Hget|]. split; [reflexivity|].
  split; [reflexivity|]. apply Hrefuse. discriminate.
Defined.

Definition alreadyExists (key : string) : JsError :=
  Errors.Error ("Model '" ++ key ++ "' already exists").

Definition notFound (name_ : string) : JsError :=
  Errors.Error ("Model '" ++ name_ ++ "' not found").

Lemma get_none (r : Registry) (identifier : string) :
  identifier <> "" -> get r identifier = None ->
  Js.get identifier (byTable r) = None /\ Js.get identifier (byKey r) = None.
Proof.
  intros Hne. unfold get. rewrite (JsFacts.eqb_false _ _ Hne).
  destruct (Js.get identifier (byTable r)); [discriminate|]. intro H. split; [reflexivity|exact H].
Qed.

Lemma createModel_ok (r r' : Registry) (name_ : string) (registryKey : option string)
      (made : Result Ctor) (m : Ctor) :
  createModel r name_ registryKey made = Ok (m, r') ->
  made = Ok m /\ name_ <> "" /\ get r name_ = None /\
  (canonical name_ registryKey <> name_ -> get r (canonical name_ registryKey) = None) /\
  r' = {| byTable := Js.set name_ m (byTable r);
          byKey := Js.set (canonical name_ registryKey) m (byKey r) |}.
Proof.
  unfold createModel. fold (canonical name_ registryKey).
  destruct (get r name_) eqn:G; [discriminate|].
  destruct (negb (String.eqb (canonical name_ registryKey) name_)) eqn:En.
  - destruct (get r (canonical name_ registryKey)) eqn:Gk; [discriminate|].
    destruct made as [c|t]; [|discriminate].
    destruct (register r name_ c (Some (canonical name_ registryKey))) as [r1|t] eqn:R;
      [|discriminate].
    intro H. inversion H; subst. destruct (register_ok _ _ _ _ _ R) as [Hn Hr].
    repeat split; try assumption; try reflexivity.
  - destruct made as [c|t]; [|discriminate].
    destruct (register r name_ c (Some (canonical name_ registryKey))) as [r1|t] eqn:R;
      [|discriminate].
    intro H. inversion H; subst. destruct (register_ok _ _ _ _ _ R) as [Hn Hr].
    repeat split; try assumption; try reflexivity.
    intro Hne. apply Bool.negb_false_iff in En. apply String.eqb_eq in En. congruence.
Qed.

Lemma created_is_found (r : Registry) (name_ key : string) (m : Ctor) :
  name_ <> "" -> key <> "" -> (key <> name_ -> get r key = None) ->
  get {| byTable := Js.set name_ m (byTable r); byKey := Js.set key m (byKey r) |} name_
  = Some m /\
  get {| byTable := Js.set name_ m (byTable r); byKey := Js.set key m (byKey r) |} key
  = Some m.
Proof.
  intros Hn Hk Hfree. unfold get. cbn [byTable byKey].
  rewrite (JsFacts.eqb_false _ _ Hn), (JsFacts.eqb_false _ _ Hk).
  rewrite !JsFacts.get_set_same. split; [reflexivity|].
  destruct (string_dec key name_) as [E|E].
  - subst key. rewrite JsFacts.get_set_same. reflexivity.
  - rewrite JsFacts.get_set_other by exact E.
    destruct (get_none r key Hk (Hfree E)) as [Ht _]. rewrite Ht. reflexivity.
Qed.

(** A model that [createModel] has made is the one [getModel] finds
    under its name and under its registry key; no other identifier
    resolves differently than before; and the name is taken from then
    on: creating it again throws, whatever key is given. *)
Theorem createModel_then_getModel :
  forall (r r' : Registry) (name_ : string) (registryKey : option string)
         (made : Result Ctor) (m : Ctor),
    createModel r name_ registryKey made = Ok (m, r') ->
    made = Ok m /\ get r name_ = None /\
    getModel r' name_ = Ok m /\
    (canonical name_ registryKey <> "" -> getModel r' (canonical name_ registryKey) = Ok m) /\
    (forall identifier,
        identifier <> name_ -> identifier <> canonical name_ registryKey ->
        get r' identifier = get r identifier) /\
    (forall key' made',
        createModel r' name_ key' made'
        = Throw (TErr (alreadyExists (canonical name_ key')))).
Proof.
  intros r r' n k made m H.
  destruct (createModel_ok _ _ _ _ _ _ H) as (Hmade & Hn & Hfree & Hkfree & Hr').
  split; [exact Hmade|]. split; [exact Hfree|].
  assert (Hfound : get r' n = Some m).
  { subst r'. unfold get. cbn [byTable]. rewrite (JsFacts.eqb_false _ _ Hn).
    rewrite JsFacts.get_set_same. reflexivity. }
  split; [unfold getModel; rewrite Hfound; reflexivity|]. split.
  - intro Hk. subst r'. unfold getModel.
    rewrite (proj2 (created_is_found r n (canonical n k) m Hn Hk Hkfree)). reflexivity.
  - split.
    + intros identifier H1 H2. subst r'. unfold get. cbn [byTable byKey].
      rewrite !JsFacts.get_set_other by assumption. reflexivity.
    + intros key' made'. unfold createModel. rewrite Hfound. reflexivity.
Qed.

(** The users, created under the key [accounts]. *)
Lemma createModel_then_getModel_witness :
  exists r',
    createModel empty "users" (Some "accounts") (Ok 7) = Ok (7, r') /\
    getModel r' "users" = Ok 7 /\ getModel r' "accounts" = Ok 7 /\
    getModel r' "people" = Throw (TErr (notFound "people")) /\
    createModel r' "users" None (Ok 8) = Throw (TErr (alreadyExists "users")).
Proof.
  eexists. split; [reflexivity|].
  match goal with
  | |- getModel ?r' _ = _ /\ _ =>
      destruct (createModel_then_getModel empty r' "users" (Some "accounts") (Ok 7) 7 eq_refl)
        as (_ & _ & Hname & Hkey & _ & Htaken)
  end.
  split; [exact Hname|]. split; [apply Hkey; discriminate|]. split; [reflexivity|].
  exact (Htaken None (Ok 8)).
Defined.

Lemma safeGetModel_found (r : Registry) (key : string) (m : Ctor) :
  key <> "" -> get r key = Some m -> safeGetModel r key = Ok (Some m).
Proof.
  intros Hk Hg. unfold safeGetModel, getModel. rewrite (JsFacts.eqb_false _ _ Hk), Hg.
  reflexivity.
Qed.

Lemma safeGetModel_some (r : Registry) (key : string) (m : Ctor) :
  safeGetModel r key = Ok (Some m) -> get r key = Some m.
Proof.
  unfold safeGetModel, getModel. destruct (String.eqb key ""); [discriminate|].
  destruct (get r key) as [c|]; [intro H; inversion H; reflexivity|].
  cbn [messageOf]. destruct (saysNotFound _); discriminate.
Qed.

Lemma firstExisting_some (r : Registry) (keys_ : list string) (m : Ctor) :
  firstExisting r keys_ = Ok (Some m) ->
  exists key, In key keys_ /\ get r key = Some m.
Proof.
  induction keys_ as [|key rest IH]; cbn; [discriminate|].
  destruct (safeGetModel r key) as [[c|]|t] eqn:E; [| |discriminate].
  - intro H. inversion H; subst c. exists key. split; [left; reflexivity|].
    apply safeGetModel_some. exact E.
  - intro H. destruct (IH H) as (k' & Hin & Hg). exists k'. split; [right; exact Hin|exact Hg].
Qed.

Lemma firstExisting_head (r : Registry) (key : string) (rest : list string) (m : Ctor) :
  key <> "" -> get r key = Some m -> firstExisting r (key :: rest) = Ok (Some m).
Proof. intros Hk Hg. cbn. rewrite (safeGetModel_found r key m Hk Hg). reflexivity. Qed.

(** The first key [getOrCreateModel] looks up is the registry key when
    one is given, and otherwise the table name. *)
Lemma lookupKeys_head (tableName_ : string) (registryKey : option string) :
  tableName_ <> "" ->
  exists rest,
    lookupKeys tableName_ registryKey
    = (if String.eqb (canonical tableName_ registryKey) "" then tableName_
       else canonical tableName_ registryKey) :: rest.
Proof.
  intro Ht. unfold lookupKeys, canonical. rewrite (JsFacts.eqb_false _ _ Ht).
  destruct registryKey as [k|].
  - destruct (String.eqb k "") eqn:Ek; cbn.
    + exists []. reflexivity.
    + destruct (String.eqb tableName_ k || false); eexists; reflexivity.
  - rewrite (JsFacts.eqb_false _ _ Ht). exists []. reflexivity.
Qed.

(** [getOrCreateModel] answers with a registered model when the registry
    key or the table name resolves, and leaves the registry alone;
    otherwise the model it answers with is the one just made, registered
    under the table name. Either way a second call with the same names
    finds that model, makes nothing and changes nothing. *)
Theorem getOrCreateModel_finds_what_it_made :
  forall (r r' : Registry) (tableName_ : string) (registryKey : option string)
         (made : Result Ctor) (res : GetOrCreateModelResult),
    getOrCreateModel r tableName_ registryKey made = Ok (res, r') ->
    (isNew res = false ->
     r' = r /\
     exists key, In key (lookupKeys tableName_ registryKey) /\ get r key = Some (model res)) /\
    (isNew res = true ->
     made = Ok (model res) /\ get r tableName_ = None /\
     get r' tableName_ = Some (model res)) /\
    (forall made',
        getOrCreateModel r' tableName_ registryKey made'
        = Ok ({| model := model res; isNew := false |}, r')).
Proof.
  intros r r' t k made res H. unfold getOrCreateModel in H.
  destruct (firstExisting r (lookupKeys t k)) as [[existing|]|e] eqn:F; [| |discriminate].
  - inversion H; subst res r'. clear H. cbn [isNew model].
    split; [intros _; split; [reflexivity|apply firstExisting_some; exact F]|].
    split; [discriminate|].
    intro made'. unfold getOrCreateModel. rewrite F. reflexivity.
  - destruct (createModel r t k made) as [[m r1]|e] eqn:C; [|discriminate].
    inversion H; subst res r'. clear H. cbn [isNew model].
    destruct (createModel_ok _ _ _ _ _ _ C) as (Hmade & Ht & Hfree & Hkfree & Hr1).
    split; [discriminate|].
    assert (Hfound : get r1 t = Some m).
    { subst r1. unfold get. cbn [byTable]. rewrite (JsFacts.eqb_false _ _ Ht).
      rewrite JsFacts.get_set_same. reflexivity. }
    split; [intros _; repeat split; assumption|].
    intro made'. unfold getOrCreateModel.
    destruct (lookupKeys_head t k Ht) as [rest Hkeys]. rewrite Hkeys.
    destruct (String.eqb (canonical t k) "") eqn:Ek.
    + rewrite (firstExisting_head r1 t rest m Ht Hfound). reflexivity.
    + apply String.eqb_neq in Ek.
      rewrite (firstExisting_head r1 (canonical t k) rest m Ek); [reflexivity|].
      subst r1. exact (proj2 (created_is_found r t (canonical t k) m Ht Ek Hkfree)).
Qed.

(** The users again, asked for twice. *)
Lemma getOrCreateModel_finds_what_it_made_witness :
  exists r',
    getOrCreateModel empty "users" (Some "accounts") (Ok 7)
    = Ok ({| model := 7; isNew := true |}, r') /\
    get r' "users" = Some 7 /\
    getOrCreateModel r' "users" (Some "accounts") (Ok 8)
    = Ok ({| model := 7; isNew := false |}, r').
Proof.
  eexists. split; [reflexivity|].
  match goal with
  | |- get ?r' _ = _ /\ _ =>
      destruct (getOrCreateModel_finds_what_it_made
                  empty r' "users" (Some "accounts") (Ok 7) {| model := 7; isNew := true |}
                  eq_refl)
        as (_ & Hnew & Hagain)
  end.
  split; [exact (proj2 (proj2 (Hnew eq_refl)))|exact (Hagain (Ok 8))].
Defined.

(** *** Keys and the pattern of [safeGetModel] *)

(** A byte that starts no line terminator. *)
Definition plainByte (c : ascii) : bool :=
  let n := nat_of_ascii c in
  negb (Nat.eqb n 10 || Nat.eqb n 13 || Nat.eqb n 226).

Definition plainName (s : string) : bool := forallb plainByte (Str.chars s).

Lemma chars_append (a b : string) : Str.chars (a ++ b) = Str.chars a ++ Str.chars b.
Proof. induction a as [|c r IH]; cbn; [reflexivity|rewrite IH; reflexivity]. Qed.

Lemma prefixed_refl (p rest : list ascii) : prefixed p (p ++ rest) = true.
Proof.
  induction p as [|c r IH]; cbn; [reflexivity|]. rewrite Ascii.eqb_refl, IH. reflexivity.
Qed.

Lemma plainByte_no_terminator (c : ascii) (rest : list ascii) :
  plainByte c = true -> lineTerminatorAt (c :: rest) = false.
Proof.
  unfold plainByte, lineTerminatorAt. cbv zeta. intro H. apply Bool.negb_true_iff in H.
  apply Bool.orb_false_iff in H. destruct H as [H1 H3].
  apply Bool.orb_false_iff in H1. destruct H1 as [H1 H2].
  rewrite H1, H2, H3. reflexivity.
Qed.

Lemma dotStarThen_plain (suffix s : list ascii) :
  forallb plainByte s = true -> dotStarThen suffix (s ++ suffix) = true.
Proof.
  induction s as [|c r IH]; intro H.
  - cbn [app]. destruct suffix as [|x xs]; [reflexivity|].
    cbn [dotStarThen].
    replace (x :: xs) with ((x :: xs) ++ []) at 2 by apply app_nil_r.
    rewrite prefixed_refl. reflexivity.
  - cbn [forallb] in H. apply Bool.andb_true_iff in H. destruct H as [Hc Hr].
    cbn [app dotStarThen]. rewrite (plainByte_no_terminator c _ Hc), (IH Hr).
    cbn [negb andb]. apply Bool.orb_true_r.
Qed.

Lemma plain_name_is_reported (key : string) :
  plainName key = true -> saysNotFound (Str.chars (message (notFound key))) = true.
Proof.
  intro H. unfold notFound, Errors.Error, Errors.plain. cbn [message].
  cbn [String.append Str.chars saysNotFound prefixed Ascii.eqb Bool.eqb andb skipn].
  rewrite chars_append. rewrite (dotStarThen_plain _ _ H). reflexivity.
Qed.

(** For a key nothing is registered under, [safeGetModel] answers [null]
    exactly when the pattern it tests finds the lookup's message, which it
    does for every key without a line terminator; for a key the pattern
    misses, it throws the lookup's error instead. [getOrCreateModel] thus
    makes and registers the model of an unregistered table whose name has
    no line terminator, and throws for one the pattern misses. *)
Theorem safeGetModel_answers_null_for_a_missing_key :
  forall (r : Registry) (key : string),
    key <> "" -> get r key = None ->
    (safeGetModel r key
     = if saysNotFound (Str.chars (message (notFound key))) then Ok None
       else Throw (TErr (notFound key))) /\
    (plainName key = true ->
     safeGetModel r key = Ok None /\
     forall fresh,
       exists r',
         getOrCreateModel r key None (Ok fresh)
         = Ok ({| model := fresh; isNew := true |}, r') /\
         get r' key = Some fresh) /\
    (saysNotFound (Str.chars (message (notFound key))) = false ->
     forall made, getOrCreateModel r key None made = Throw (TErr (notFound key))).
Proof.
  intros r key Hk Hg.
  assert (Hsafe : safeGetModel r key
                  = if saysNotFound (Str.chars (message (notFound key))) then Ok None
                    else Throw (TErr (notFound key))).
  { unfold safeGetModel, getModel. rewrite (JsFacts.eqb_false _ _ Hk), Hg. reflexivity. }
  assert (Hkeys : lookupKeys key None = [key]).
  { unfold lookupKeys. rewrite (JsFacts.eqb_false _ _ Hk). reflexivity. }
  split; [exact Hsafe|]. split.
  - intro Hp. rewrite (plain_name_is_reported key Hp) in Hsafe. split; [exact Hsafe|].
    intro fresh. unfold getOrCreateModel. rewrite Hkeys. cbn [firstExisting]. rewrite Hsafe.
    destruct (get_none r key Hk Hg) as [Ht Hy].
    unfold createModel, register. cbn [negb]. rewrite Hg, JsFacts.eqb_refl. cbn [negb].
    rewrite (JsFacts.eqb_false _ _ Hk), Ht, Hy. cbn [differs].
    eexists. split; [reflexivity|].
    unfold get. cbn [byTable]. rewrite (JsFacts.eqb_false _ _ Hk), JsFacts.get_set_same.
    reflexivity.
  - intros Hmiss made. unfold getOrCreateModel. rewrite Hkeys. cbn [firstExisting].
    rewrite Hsafe, Hmiss. reflexivity.
Qed.

(** A table named on one line is made; one named on two is not. *)
Lemma safeGetModel_answers_null_for_a_missing_key_witness :
  let twoLines := String "a" (String (ascii_of_nat 10) "b") in
  safeGetModel empty "users" = Ok None /\
  (exists r', getOrCreateModel empty "users" None (Ok 7)
              = Ok ({| model := 7; isNew := true |}, r') /\ get r' "users" = Some 7) /\
  safeGetModel empty twoLines = Throw (TErr (notFound twoLines)) /\
  getOrCreateModel empty twoLines None (Ok 7) = Throw (TErr (notFound twoLines)).
Proof.
  intro twoLines.
  destruct (safeGetModel_answers_null_for_a_missing_key empty "users"
              ltac:(discriminate) eq_refl) as (_ & Hplain & _).
  destruct (Hplain eq_refl) as [Hnull Hmade].
  destruct (safeGetModel_answers_null_for_a_missing_key empty twoLines
              ltac:(discriminate) eq_refl) as (Hsafe & _ & Hmiss).
  split; [exact Hnull|]. split; [exact (Hmade 7)|]. split; [exact Hsafe|].
  exact (Hmiss eq_refl (Ok 7)).
Defined.

End RegistryFacts.

(* ================================================================== *)
(** ** Resolving multilingual strings *)

Module MlStringFacts.

Lemma find_first {A} (f : A -> bool) (l : list A) (x : A) :
  find f l = Some x ->
  f x = true /\
  exists before after, l = before ++ x :: after /\ forall y, In y before -> f y = false.
Proof.
  induction l as [|a r IH]; cbn; [discriminate|].
  destruct (f a) eqn:Fa.
  - intro H. inversion H; subst a. split; [exact Fa|].
    exists [], r. split; [reflexivity|intros y []].
  - intro H. destruct (IH H) as (Hx & before & after & Hl & Hb). split; [exact Hx|].
    exists (a :: before), after. split; [cbn; rewrite Hl; reflexivity|].
    intros y [Hy|Hy]; [subst y; exact Fa|apply Hb; exact Hy].
Qed.

Lemma find_nothing {A} (f : A -> bool) (l : list A) :
  find f l = None -> forall y, In y l -> f y = false.
Proof. intros H y Hy. exact (find_none f l H y Hy). Qed.

Lemma filter_nothing {A} (f : A -> bool) (l : list A) :
  filter f l = [] -> forall y, In y l -> f y = false.
Proof.
  intros H y Hy. destruct (f y) eqn:Fy; [|reflexivity].
  assert (Hin : In y (filter f l)) by (apply filter_In; split; assumption).
  rewrite H in Hin. destruct Hin.
Qed.

Lemma filter_head {A} (f : A -> bool) (l : list A) (x : A) (rest : list A) :
  filter f l = x :: rest -> In x l /\ f x = true.
Proof.
  intro H. apply filter_In. rewrite H. left. reflexivity.
Qed.

Section Resolving.

Variable inherited : string -> option Value.
Variable provider : DalLanguageProvider.

Let has := MlString.hasValue inherited.
Let read := MlString.read inherited.

Lemma hasValue_read (o : JsObject) (c : string) :
  has o c = true -> read o c <> VUndef /\ read o c <> VStr "".
Proof.
  unfold has, read, MlString.hasValue.
  destruct (MlString.read inherited o c); try discriminate;
    try (intros _; split; discriminate).
  intro H. split; [discriminate|]. intro E. inversion E; subst. discriminate.
Qed.

(** The fallbacks [resolve] consults: those of the first priority. *)
Definition consulted (ps : list string) : list string :=
  match ps with
  | [] => []
  | first :: _ => getFallbacks provider first
  end.

Lemma fallbackWithValue_consulted (o : JsObject) (ps : list string) :
  MlString.fallbackWithValue inherited provider o ps = find (has o) (consulted ps).
Proof. destruct ps; reflexivity. Qed.

End Resolving.

(** What [resolve] answers with always has a value: it is never
    [undefined] and never the empty string. The language is the first
    priority that has a value; when none has, a fallback of the first
    priority that has one; when none has either, a key of the object that
    has one. It answers [undefined] only when no priority, no consulted
    fallback and no key of the object has a value. *)
Theorem resolve_answers_with_the_first_value :
  forall (inherited : string -> option Value) (provider : DalLanguageProvider)
         (lang_ : LangArg) (o : JsObject),
    let ps := MlString.priorities lang_ in
    let has := MlString.hasValue inherited o in
    match MlString.resolve inherited provider lang_ (Some o) with
    | Some res =>
        has (res_lang res) = true /\
        res_str res = MlString.read inherited o (res_lang res) /\
        res_str res <> VUndef /\ res_str res <> VStr "" /\
        ((exists before after,
             ps = before ++ res_lang res :: after /\ forall c, In c before -> has c = false) \/
         ((forall c, In c ps -> has c = false) /\
          (In (res_lang res) (consulted provider ps) \/
           (forall c, In c (consulted provider ps) -> has c = false) /\
           In (res_lang res) (Js.keys o))))
    | None =>
        forall c, In c (ps ++ consulted provider ps ++ Js.keys o) -> has c = false
    end.
Proof.
  intros inherited provider lang_ o ps has. unfold MlString.resolve. fold ps.
  rewrite fallbackWithValue_consulted. fold has.
  destruct (find has ps) as [p|] eqn:F1.
  - destruct (find_first has ps p F1) as (Hp & before & after & Hps & Hb).
    cbn [res_lang res_str]. split; [exact Hp|]. split; [reflexivity|].
    destruct (hasValue_read inherited o p Hp) as [H1 H2].
    split; [exact H1|]. split; [exact H2|]. left. exists before, after. split; assumption.
  - pose proof (find_nothing has ps F1) as Hnone.
    destruct (find has (consulted provider ps)) as [f|] eqn:F2.
    + destruct (find_first has _ f F2) as (Hf & before & after & Hfs & Hb).
      cbn [res_lang res_str]. split; [exact Hf|]. split; [reflexivity|].
      destruct (hasValue_read inherited o f Hf) as [H1 H2].
      split; [exact H1|]. split; [exact H2|]. right. split; [exact Hnone|]. left.
      rewrite Hfs. apply in_or_app. right. left. reflexivity.
    + pose proof (find_nothing has _ F2) as Hnof.
      destruct (filter has (Js.keys o)) as [|k rest] eqn:F3.
      * intros c Hc. apply in_app_or in Hc. destruct Hc as [Hc|Hc]; [apply Hnone; exact Hc|].
        apply in_app_or in Hc. destruct Hc as [Hc|Hc]; [apply Hnof; exact Hc|].
        exact (filter_nothing has _ F3 c Hc).
      * destruct (filter_head has _ k rest F3) as [Hin Hk].
        cbn [res_lang res_str]. split; [exact Hk|]. split; [reflexivity|].
        destruct (hasValue_read inherited o k Hk) as [H1 H2].
        split; [exact H1|]. split; [exact H2|]. right. split; [exact Hnone|]. right.
        split; [exact Hnof|exact Hin].
Qed.

(** English is missing, so the German fallback of the first priority
    wins over the French that the object lists first. *)
Example resolve_on_a_title :
  let provider := {| getValidLanguagesAndUndetermined := ["en"; "de"; "fr"; "und"];
                     getFallbacks := fun _ => ["en"; "und"; "de"] |} in
  let title := [("fr", VStr "Bonjour"); ("en", VStr ""); ("de", VStr "Hallo")] in
  MlString.resolve (fun _ => None) provider (PriorityList ["en"; "es"]) (Some title)
  = Some {| res_str := VStr "Hallo"; res_lang := "de" |} /\
  MlString.resolve (fun _ => None) provider (OneLang "fr") (Some title)
  = Some {| res_str := VStr "Bonjour"; res_lang := "fr" |} /\
  MlString.resolve (fun _ => None) provider (OneLang "en") (Some [("en", VStr "")]) = None.
Proof. intros provider title. split; [|split]; reflexivity. Qed.

Lemma resolve_has_value (inherited : string -> option Value) (provider : DalLanguageProvider)
      (lang_ : LangArg) (o : JsObject) (res : ResolveResult) :
  MlString.resolve inherited provider lang_ (Some o) = Some res ->
  MlString.hasValue inherited o (res_lang res) = true.
Proof.
  unfold MlString.resolve. rewrite fallbackWithValue_consulted.
  destruct (find _ (MlString.priorities lang_)) as [p|] eqn:F1.
  - intro H. inversion H; subst res. exact (proj1 (find_first _ _ p F1)).
  - destruct (find _ (consulted provider _)) as [f|] eqn:F2.
    + intro H. inversion H; subst res. exact (proj1 (find_first _ _ f F2)).
    + destruct (filter _ (Js.keys o)) as [|k rest] eqn:F3; [discriminate|].
      intro H. inversion H; subst res. exact (proj2 (filter_head _ _ k rest F3)).
Qed.

(** Whenever [resolveWithMetadata] answers, [resolve] answers with the
    same string and language; the metadata lists the keys that have a
    value and the priorities as given, and marks the language as
    preferred exactly when it is one of the priorities. It answers
    [undefined] as soon as no key of the object itself has a value; if
    [resolve] still answers then, it does so with a property the object
    inherits. *)
Theorem resolveWithMetadata_agrees_with_resolve :
  forall (inherited : string -> option Value) (provider : DalLanguageProvider)
         (lang_ : LangArg) (o : JsObject),
    match MlString.resolveWithMetadata inherited provider lang_ (Some o) with
    | Some m =>
        MlString.resolve inherited provider lang_ (Some o)
        = Some {| res_str := meta_str m; res_lang := meta_lang m |} /\
        availableLanguages m = filter (MlString.hasValue inherited o) (Js.keys o) /\
        preferredLanguages m = MlString.priorities lang_ /\
        (isPreferredLanguage m = true <-> In (meta_lang m) (MlString.priorities lang_))
    | None =>
        (forall c, In c (Js.keys o) -> MlString.hasValue inherited o c = false) /\
        forall res,
          MlString.resolve inherited provider lang_ (Some o) = Some res ->
          ~ In (res_lang res) (Js.keys o) /\ inherited (res_lang res) <> None
    end.
Proof.
  intros inherited provider lang_ o.
  unfold MlString.resolveWithMetadata.
  destruct (filter (MlString.hasValue inherited o) (Js.keys o)) as [|k rest] eqn:F3.
  - pose proof (filter_nothing _ _ F3) as Hnone. split; [exact Hnone|].
    intros res Hres. pose proof (resolve_has_value _ _ _ _ _ Hres) as Hhas.
    assert (Hnot : ~ In (res_lang res) (Js.keys o)).
    { intro Hin. rewrite (Hnone _ Hin) in Hhas. discriminate. }
    split; [exact Hnot|].
    intro Hi. unfold MlString.hasValue, MlString.read in Hhas.
    rewrite (proj2 (JsFacts.get_None_notin _ _) Hnot), Hi in Hhas. discriminate.
  - unfold MlString.resolve. rewrite F3.
    destruct (find _ (MlString.priorities lang_)) as [p|] eqn:F1.
    + cbn [meta_str meta_lang availableLanguages preferredLanguages isPreferredLanguage].
      split; [reflexivity|]. split; [reflexivity|]. split; [reflexivity|].
      split; [intros _|reflexivity].
      destruct (find_first _ _ p F1) as (_ & before & after & Hps & _).
      rewrite Hps. apply in_or_app. right. left. reflexivity.
    + destruct (MlString.fallbackWithValue inherited provider o (MlString.priorities lang_))
        as [f|] eqn:F2;
        cbn [meta_str meta_lang availableLanguages preferredLanguages isPreferredLanguage].
      * split; [reflexivity|]. split; [reflexivity|]. split; [reflexivity|].
        apply JsFacts.mem_In.
      * split; [reflexivity|]. split; [reflexivity|]. split; [reflexivity|].
        split; [discriminate|]. intro Hin.
        destruct (filter_head _ _ k rest F3) as [_ Hk].
        rewrite (find_nothing _ _ F1 k Hin) in Hk. discriminate.
Qed.


(** An object without own values, asked for a name every object
    inherits: [resolve] answers with the inherited property,
    [resolveWithMetadata] with [undefined]. *)
Example resolve_reads_what_the_object_inherits :
  let inherited := fun c => if String.eqb c "toString" then Some (VObj []) else None in
  let provider := {| getValidLanguagesAndUndetermined := ["en"; "und"];
                     getFallbacks := fun _ => ["en"; "und"] |} in
  MlString.resolve inherited provider (OneLang "toString") (Some [("en", VStr "")])
  = Some {| res_str := VObj []; res_lang := "toString" |} /\
  MlString.resolveWithMetadata inherited provider (OneLang "toString") (Some [("en", VStr "")])
  = None.
Proof. intros inherited provider. split; reflexivity. Qed.

End MlStringFacts.

(* ================================================================== *)
(** ** Transactions *)

Module TransactionFacts.

Import Connection.




(** A client that refuses COMMIT: the callback's statement is followed
    by COMMIT, ROLLBACK and the release, and the error of COMMIT is
    thrown. *)
Example transaction_with_a_refused_commit :
  let refused := TErr (Errors.Error "could not serialize access") in
  let client : PoolClient :=
    fun _ text => if String.eqb text "COMMIT" then Throw refused
                  else Ok {| rows := []; rowCount := 0 |} in
  let callback (c : PoolClient) (s : Session) : Result nat * Session :=
    match client_query c "INSERT INTO counters DEFAULT VALUES" s with
    | (Ok q, s') => (Ok (rowCount q), s')
    | (Throw t, s') => (Throw t, s')
    end in
  transaction true (Some (Ok client)) callback []
  = (Throw refused,
     [Sent "BEGIN"; Sent "INSERT INTO counters DEFAULT VALUES"; Sent "COMMIT";
      Sent "ROLLBACK"; Released]).
Proof. reflexivity. Qed.

End TransactionFacts.

(* ================================================================== *)
(** ** Reading by id through the model's statics *)

Module StaticFacts.

Import RevisionModelFacts LineageFacts.

(** The predicate [whereIn('id', ids, { cast })] adds. *)
Definition amongPredicate (ids : list string) (cast_ : option string) : Predicate :=
  Basic None "id" "= ANY" (Some (VArr (map VStr ids))) (Some (TWrap cast_)).

(** The cast both statics choose: [uuid[]] when every id is a version-4
    UUID, none otherwise. *)
Definition castFor (ids : list string) : option string :=
  if forallb Revision.isUUID_v4 ids then Some "uuid[]" else None.

(** The ids the statements below cover: version-4 UUIDs in any spelling,
    which travel under the cast and are read by storage, or ids in the
    spelling storage prints, which are compared as the text they are. *)
Definition legible (ids : list string) : Prop :=
  forallb Revision.isUUID_v4 ids = true \/
  Forall (fun x => Postgres.uuid_in x = Some x) ids.

Lemma legible_read (ids : list string) :
  legible ids -> exists cs, LookupFacts.canonicalIds ids = Some cs.
Proof.
  intros [H|H]; [exact (LookupFacts.canonicalIds_v4 ids H)|].
  exists ids. exact (LookupFacts.canonicalIds_fixed ids H).
Qed.

Lemma passes_among (table : string) (ids cs : list string) (row : Row) :
  legible ids -> LookupFacts.canonicalIds ids = Some cs ->
  Postgres.passes table [amongPredicate ids (castFor ids)] row
  = Some (LookupFacts.among cs row).
Proof.
  intros Hleg Hcs. unfold castFor.
  destruct (forallb Revision.isUUID_v4 ids) eqn:Ev.
  - cbn [Postgres.passes amongPredicate Postgres.evalPredicate Postgres.castOperand
         Postgres.castOf String.eqb Ascii.eqb Bool.eqb].
    rewrite (LookupFacts.uuidOperands_read ids cs Hcs). unfold Postgres.evalBasic.
    rewrite <- (LookupFacts.any_of_ids_among cs row).
    destruct (fold_left _ (map VStr cs) Postgres.FF); reflexivity.
  - destruct Hleg as [H|H]; [congruence|].
    rewrite (LookupFacts.canonicalIds_fixed ids H) in Hcs. inversion Hcs; subst cs.
    cbn [Postgres.passes amongPredicate Postgres.evalPredicate Postgres.castOperand
         Postgres.castOf].
    unfold Postgres.evalBasic.
    rewrite <- (LookupFacts.any_of_ids_among ids row).
    destruct (fold_left _ (map VStr ids) Postgres.FF); reflexivity.
Qed.

(** The builder both statics start from, once the ids are in. *)
Definition lookup (d : Dal) (M : ModelClass) (ids : list string) (cast_ : option string)
  : FilterWhereBuilder :=
  FilterWhere.with_builder
    (FilterWhere.includeStale (FilterWhere.includeDeleted
                                 (FilterWhere.new (QueryBuilder.new M d) true)))
    (QueryBuilder.set_where (QueryBuilder.new M d) [amongPredicate ids cast_]).

Lemma whereIn_unguarded (d : Dal) (M : ModelClass) (x : string) (xs : list string)
      (cast_ : option string) :
  RevisionModel M ->
  ResultM.bind (ModelStatics.unguarded d M)
    (fun builder => FilterWhere.whereIn builder "id" (VArr (map VStr (x :: xs))) cast_)
  = Ok (lookup d M (x :: xs) cast_).
Proof.
  intro HM. unfold ModelStatics.unguarded. rewrite (rm_filterWhere M HM).
  change (FilterWhere.filterWhere true M d [])
    with (Ok (FilterWhere.new (QueryBuilder.new M d) true)).
  cbn [ResultM.bind]. unfold FilterWhere.whereIn.
  change (FilterWhere.resolved
            (FilterWhere.includeStale
               (FilterWhere.includeDeleted (FilterWhere.new (QueryBuilder.new M d) true))) "id")
    with (FilterWhere.resolved (FilterWhere.new (QueryBuilder.new M d) true) "id").
  rewrite (GuardedFacts.resolves_id M d (rm_id_column M HM)).
  cbn [ResultM.bind map QueryBuilder.whereIn FilterWhere.new FilterWhere.includeStale
       FilterWhere.includeDeleted _builder].
  unfold QueryBuilder._addWhereCondition, QueryBuilder._createPredicate.
  cbn [snd QueryBuilder._splitFieldReference Str.indexOf].
  unfold QueryBuilder._splitFieldReference. cbn.
  unfold QueryBuilder._resolvePredicateColumn, QueryBuilder._resolveFieldName. cbn.
  rewrite (rm_id_column M HM). reflexivity.
Qed.

Lemma ensure_lookup (d : Dal) (M : ModelClass) (ids : list string) (cast_ : option string) :
  _builder (FilterWhere._ensureRevisionFilters (lookup d M ids cast_))
  = QueryBuilder.set_where (QueryBuilder.new M d) [amongPredicate ids cast_].
Proof. reflexivity. Qed.

(** Running the lookup, as it is or limited, over the store. *)
Lemma run_lookup (d : Dal) (M : ModelClass) (ids cs : list string)
      (l : option Z) (w : World) (t : Table) :
  RevisionModel M -> QueryFacts.DefaultsTotal M -> query d = Postgres.exec ->
  legible ids -> LookupFacts.canonicalIds ids = Some cs ->
  Js.get (tableName M) (tables (store w)) = Some t ->
  let qb := QueryBuilder.set_paging
              (QueryBuilder.set_where (QueryBuilder.new M d)
                 [amongPredicate ids (castFor ids)])
              [] [] l None in
  exists results,
    QueryBuilder.run qb w
    = (Ok results,
       {| host := host w; store := store w;
          journal := journal w ++ [QueryFacts.selectCall qb]; draws := draws w |}) /\
    Forall2 (fun res row =>
               QueryFacts.hydrates M res
                 (QueryFacts.projected (Model.getColumnNames M []) row))
            results (Postgres.paginate l None (filter (LookupFacts.among cs) (records t))).
Proof.
  intros HM HD Hd Hleg Hcs Ht qb.
  destruct (QueryFacts.run_plain qb w t (filter (LookupFacts.among cs) (records t)))
    as (results & Hrun & Hall); try assumption.
  - repeat split.
  - apply QueryFacts.selectRows_filter. intro row. apply passes_among; assumption.
  - exists results. split; [exact Hrun|].
    apply FilterFacts.Forall2_map_r. exact Hall.
Qed.

(** [Model.getAll] reads without revision guards. For ids that are all
    version-4 UUIDs, in any spelling, or all spelled as storage prints
    them: over the store it sends one SELECT and answers with every row
    that carries one of the uuids, current or archived, deleted or not,
    hydrated in table order. Called without ids it answers with nothing
    and sends nothing. *)
Theorem getAll_returns_every_row_of_the_ids :
  forall (M : ModelClass) (d : Dal) (ids cs : list string) (w : World) (t : Table),
    RevisionModel M -> QueryFacts.DefaultsTotal M -> query d = Postgres.exec ->
    legible ids -> LookupFacts.canonicalIds ids = Some cs ->
    Js.get (tableName M) (tables (store w)) = Some t ->
    exists results w',
      ModelStatics.getAll d M ids w = (Ok results, w') /\
      store w' = store w /\
      length (journal w') = match ids with [] => 0 | _ => 1 end + length (journal w) /\
      Forall2 (fun res row =>
                 QueryFacts.hydrates M res
                   (QueryFacts.projected (Model.getColumnNames M []) row))
              results (filter (LookupFacts.among cs) (records t)) /\
      (ids = [] -> results = [] /\ w' = w).
Proof.
  intros M d ids cs w t HM HD Hd Hleg Hcs Ht.
  destruct ids as [|x xs].
  - cbn in Hcs. inversion Hcs; subst cs.
    exists [], w. split; [reflexivity|]. split; [reflexivity|]. split; [reflexivity|].
    split; [|intros _; split; reflexivity].
    assert (Hnone : filter (LookupFacts.among []) (records t) = []).
    { induction (records t) as [|r rest IH]; [reflexivity|exact IH]. }
    rewrite Hnone. constructor.
  - destruct (run_lookup d M (x :: xs) cs None w t HM HD Hd Hleg Hcs Ht)
      as (results & Hrun & Hall).
    cbv zeta in Hrun.
    pose proof (whereIn_unguarded d M x xs (castFor (x :: xs)) HM) as Hb.
    unfold ModelStatics.getAll. fold (castFor (x :: xs)).
    unfold EffM.bind at 1. unfold EffM.lift at 1.
    destruct (ModelStatics.unguarded d M) as [builder|e]; [|discriminate].
    cbn [ResultM.bind] in Hb.
    unfold EffM.bind at 1. unfold EffM.lift at 1. rewrite Hb.
    unfold EffM.bind at 1. unfold FilterWhere.run, EffM.bind. rewrite ensure_lookup.
    change (QueryBuilder.set_where (QueryBuilder.new M d)
              [amongPredicate (x :: xs) (castFor (x :: xs))])
      with (QueryBuilder.set_paging
              (QueryBuilder.set_where (QueryBuilder.new M d)
                 [amongPredicate (x :: xs) (castFor (x :: xs))])
              [] [] None None).
    rewrite Hrun. unfold EffM.ret. cbn [fst].
    eexists. eexists. split; [reflexivity|]. split; [reflexivity|].
    split; [cbn [journal]; rewrite length_app; cbn; lia|].
    split; [exact Hall|discriminate].
Qed.

(** Asked for all three rows of the mixed table, one id in upper case,
    [getAll] answers with all three: the live one, the deleted one and
    the archived one. *)
Lemma getAll_returns_every_row_of_the_ids_witness :
  let ids := [Fixtures.liveId; "AAAAAAAA-AAAA-4AAA-8AAA-AAAAAAAAAAA2"; Fixtures.archivedId] in
  let cs := [Fixtures.liveId; Fixtures.deletedId; Fixtures.archivedId] in
  filter (LookupFacts.among cs) (records LookupFacts.mixedTable)
  = records LookupFacts.mixedTable /\
  exists results w',
    ModelStatics.getAll Fixtures.revisionsDal Fixtures.Revisions ids Fixtures.mixedRows
    = (Ok results, w') /\
    length results = 3 /\ store w' = store Fixtures.mixedRows.
Proof.
  intros ids cs. split; [reflexivity|].
  destruct (getAll_returns_every_row_of_the_ids
              Fixtures.Revisions Fixtures.revisionsDal ids cs Fixtures.mixedRows
              LookupFacts.mixedTable FixtureFacts.revisions_model
              QueryFacts.revisions_defaults_total eq_refl
              (or_introl eq_refl) eq_refl eq_refl)
    as (results & w' & Hrun & Hstore & _ & Hall & _).
  exists results, w'. split; [exact Hrun|]. split; [|exact Hstore].
  rewrite (FilterFacts.Forall2_length_eq _ _ _ Hall). reflexivity.
Defined.

Lemma among_one (L c : string) (rs : list Row) :
  Postgres.uuid_in L = Some c ->
  filter (LookupFacts.among [c]) rs = filter (GuardedFacts.names L) rs.
Proof.
  intro Hc. apply filter_ext. intro row. unfold LookupFacts.among, GuardedFacts.names.
  rewrite Hc. cbn [existsb]. apply Bool.orb_false_r.
Qed.

Definition documentNotFound (M : ModelClass) (id_ : string) : JsError :=
  Errors.DocumentNotFound (tableName M ++ " with id " ++ id_ ++ " not found").

(** [Model.get] reads without revision guards as well. For an id that is
    a version-4 UUID, in any spelling, or is spelled as storage prints
    it: over the store it sends one SELECT and answers with the first row
    whose id is that uuid, hydrated, whether that row is current,
    archived or deleted; it throws [DocumentNotFound] exactly when no row
    has that id. *)
Theorem get_returns_the_row_whatever_its_revision_state :
  forall (M : ModelClass) (d : Dal) (L : string) (w : World) (t : Table),
    RevisionModel M -> QueryFacts.DefaultsTotal M -> query d = Postgres.exec ->
    Revision.isUUID_v4 L = true \/ Postgres.uuid_in L = Some L ->
    Js.get (tableName M) (tables (store w)) = Some t ->
    exists answer w',
      ModelStatics.get d M L None [] w = (answer, w') /\
      store w' = store w /\
      length (journal w') = S (length (journal w)) /\
      match filter (GuardedFacts.names L) (records t) with
      | [] => answer = Throw (TErr (documentNotFound M L))
      | row :: _ =>
          exists res,
            answer = Ok res /\
            QueryFacts.hydrates M res (QueryFacts.projected (Model.getColumnNames M []) row)
      end.
Proof.
  intros M d L w t HM HD Hd HL Ht.
  assert (Hleg : legible [L]).
  { destruct HL as [H|H]; [left; cbn; rewrite H; reflexivity|].
    right. constructor; [exact H|constructor]. }
  destruct (legible_read [L] Hleg) as [cs Hcs].
  assert (Hc : exists c, Postgres.uuid_in L = Some c /\ cs = [c]).
  { cbn in Hcs. destruct (Postgres.uuid_in L) as [c|]; [|discriminate].
    inversion Hcs. exists c. split; reflexivity. }
  destruct Hc as (c & Hc & Ecs). subst cs.
  destruct (run_lookup d M [L] [c] (Some 1%Z) w t HM HD Hd Hleg Hcs Ht)
    as (results & Hrun & Hall).
  cbv zeta in Hrun.
  pose proof (whereIn_unguarded d M L [] (castFor [L]) HM) as Hb.
  assert (Ecast : (if Revision.isUUID_v4 L then Some "uuid[]" else None) = castFor [L]).
  { unfold castFor. cbn [forallb]. rewrite Bool.andb_true_r. reflexivity. }
  unfold ModelStatics.get. rewrite Ecast.
  unfold EffM.bind at 1. unfold EffM.lift at 1.
  destruct (ModelStatics.unguarded d M) as [builder|e]; [|discriminate].
  cbn [ResultM.bind map] in Hb.
  unfold EffM.bind at 1. unfold EffM.lift at 1. rewrite Hb.
  cbn [FilterWhere.getJoin].
  unfold EffM.bind at 1. unfold FilterWhere.first, EffM.bind. rewrite ensure_lookup.
  unfold QueryBuilder.first, EffM.bind.
  change (QueryBuilder.limit
            (QueryBuilder.set_where (QueryBuilder.new M d)
               [amongPredicate [L] (castFor [L])]) 1)
    with (QueryBuilder.set_paging
            (QueryBuilder.set_where (QueryBuilder.new M d)
               [amongPredicate [L] (castFor [L])])
            [] [] (Some 1%Z) None).
  rewrite Hrun. unfold EffM.ret. cbn [fst snd].
  rewrite (among_one L c _ Hc) in Hall. cbn [Postgres.paginate] in Hall.
  change (Z.to_nat 1) with 1 in Hall.
  destruct (filter (GuardedFacts.names L) (records t)) as [|row rest].
  - inversion Hall; subst. eexists. eexists. split; [reflexivity|].
    split; [reflexivity|]. split; [cbn [journal]; rewrite length_app; cbn; lia|].
    reflexivity.
  - cbn [firstn] in Hall. inversion Hall as [|res ? more ? Hh Hmore]; subst.
    eexists. eexists. split; [reflexivity|].
    split; [reflexivity|]. split; [cbn [journal]; rewrite length_app; cbn; lia|].
    exists res. split; [reflexivity|exact Hh].
Qed.

(** On the mixed table [get] answers with the deleted row, which the
    guarded read refuses, also when the id comes in upper case, and throws
    for the id no row carries. *)
Lemma get_returns_the_row_whatever_its_revision_state_witness :
  let w := Fixtures.mixedRows in
  (exists res w',
      ModelStatics.get Fixtures.revisionsDal Fixtures.Revisions
                       "AAAAAAAA-AAAA-4AAA-8AAA-AAAAAAAAAAA2" None [] w
      = (Ok res, w') /\
      Js.prop "id" (_data (instance res)) = VStr Fixtures.deletedId /\
      Js.prop "_rev_deleted" (_data (instance res)) = VBool true) /\
  fst (Revision.getNotStaleOrDeleted Fixtures.revisionsDal Fixtures.Revisions
                                     Fixtures.deletedId [] w)
  = Throw (TErr Revision.deletedError) /\
  fst (ModelStatics.get Fixtures.revisionsDal Fixtures.Revisions Fixtures.missingId None [] w)
  = Throw (TErr (documentNotFound Fixtures.Revisions Fixtures.missingId)).
Proof.
  intro w. split; [|split; [reflexivity|]].
  - destruct (get_returns_the_row_whatever_its_revision_state
                Fixtures.Revisions Fixtures.revisionsDal
                "AAAAAAAA-AAAA-4AAA-8AAA-AAAAAAAAAAA2" w
                LookupFacts.mixedTable FixtureFacts.revisions_model
                QueryFacts.revisions_defaults_total eq_refl (or_introl eq_refl) eq_refl)
      as (answer & w' & Hrun & _ & _ & Hrow).
    assert (Ef : filter (GuardedFacts.names "AAAAAAAA-AAAA-4AAA-8AAA-AAAAAAAAAAA2")
                        (records LookupFacts.mixedTable)
                 = [Fixtures.revisionRow Fixtures.deletedId VNull true])
      by (vm_compute; reflexivity).
    rewrite Ef in Hrow. destruct Hrow as (res & Hres & _). subst answer.
    exists res, w'. split; [exact Hrun|].
    assert (E : fst (ModelStatics.get Fixtures.revisionsDal Fixtures.Revisions
                                      "AAAAAAAA-AAAA-4AAA-8AAA-AAAAAAAAAAA2" None [] w)
                = Ok res)
      by (rewrite Hrun; reflexivity).
    vm_compute in E. inversion E. split; reflexivity.
  - destruct (get_returns_the_row_whatever_its_revision_state
                Fixtures.Revisions Fixtures.revisionsDal Fixtures.missingId w
                LookupFacts.mixedTable FixtureFacts.revisions_model
                QueryFacts.revisions_defaults_total eq_refl (or_introl eq_refl) eq_refl)
      as (answer & w' & Hrun & _ & _ & Hrow).
    assert (Ef : filter (GuardedFacts.names Fixtures.missingId)
                        (records LookupFacts.mixedTable) = [])
      by (vm_compute; reflexivity).
    rewrite Ef in Hrow. rewrite Hrun. exact Hrow.
Defined.

End StaticFacts.

(* ================================================================== *)
(** ** The fallback lists of the default language provider *)

Module FallbackFacts.

Import Runtime.

(** [after] is [before] with codes of kind [P] appended, none of them
    twice. *)
Definition grows (P : string -> Prop) (before after : list string) : Prop :=
  exists extra,
    after = before ++ extra /\ (NoDup before -> NoDup after) /\
    forall x, In x extra -> P x.

Lemma grows_same (P : string -> Prop) (l : list string) : grows P l l.
Proof.
  exists []. split; [symmetry; apply app_nil_r|]. split; [tauto|intros x []].
Qed.

Lemma grows_then (P : string -> Prop) (a b c : list string) :
  grows P a b -> grows P b c -> grows P a c.
Proof.
  intros (e1 & H1 & N1 & P1) (e2 & H2 & N2 & P2). exists (e1 ++ e2).
  split; [rewrite H2, H1, app_assoc; reflexivity|]. split; [tauto|].
  intros x Hx. apply in_app_or in Hx. destruct Hx; [apply P1|apply P2]; assumption.
Qed.

Lemma append_grows (P : string -> Prop) (c : string) (l : list string) :
  P c -> grows P l (append c l).
Proof.
  intro Hc. unfold append.
  destruct (String.eqb c ""); [apply grows_same|].
  destruct (Str.mem c l) eqn:Em; [apply grows_same|].
  exists [c]. split; [reflexivity|]. split.
  - intro Hnd. apply NoDup_app; [exact Hnd|repeat constructor; intros []|].
    intros x Hx [Hc'|[]]. subst x. apply JsFacts.mem_false in Em. contradiction.
  - intros x [Hx|[]]. subst x. exact Hc.
Qed.

Lemma append_holds (c : string) (l : list string) : c <> "" -> In c (append c l).
Proof.
  intro Hc. unfold append. rewrite (JsFacts.eqb_false _ _ Hc).
  destruct (Str.mem c l) eqn:Em; [apply JsFacts.mem_In; exact Em|].
  apply in_or_app. right. left. reflexivity.
Qed.

Lemma fold_grows (P : string -> Prop) (step : list string -> string -> list string)
      (candidates : list string) :
  (forall l c, In c candidates -> grows P l (step l c)) ->
  forall l, grows P l (fold_left step candidates l).
Proof.
  induction candidates as [|c r IH]; intros Hstep l; cbn; [apply grows_same|].
  eapply grows_then; [apply Hstep; left; reflexivity|].
  apply IH. intros l' c' Hc'. apply Hstep. right. exact Hc'.
Qed.

Lemma grows_keeps (P : string -> Prop) (a b : list string) (x : string) :
  grows P a b -> In x a -> In x b.
Proof. intros (e & H & _) Hx. rewrite H. apply in_or_app. left. exact Hx. Qed.

Lemma appended_all (candidates : list string) :
  forall l c, In c candidates -> c <> "" ->
              In c (fold_left (fun fallbacks candidate => append candidate fallbacks)
                              candidates l).
Proof.
  induction candidates as [|k r IH]; intros l c Hc Hne; [destruct Hc|]. cbn.
  destruct Hc as [Hc|Hc].
  - subst k.
    apply (grows_keeps (fun _ => True) (append c l)); [|apply append_holds; exact Hne].
    apply fold_grows. intros l' c' _. apply append_grows. exact I.
  - apply IH; assumption.
Qed.

Lemma supported_codes (c : string) :
  In c DEFAULT_SUPPORTED_LOCALES -> c <> "" /\ c <> "und".
Proof.
  intro H.
  assert (Hall : forallb (fun l => negb (String.eqb l "") && negb (String.eqb l "und"))
                         DEFAULT_SUPPORTED_LOCALES = true) by reflexivity.
  rewrite forallb_forall in Hall. specialize (Hall c H).
  apply Bool.andb_true_iff in Hall. destruct Hall as [H1 H2].
  apply Bool.negb_true_iff in H1, H2. apply String.eqb_neq in H1, H2. split; assumption.
Qed.

(** The fallback list built for a supported language starts with the
    language itself, then [und]; it lists no code twice, it holds [en],
    and everything after [und] is a supported language. With minimal
    fallbacks only English and the languages of the same base follow;
    otherwise every supported language is in the list. The map files the
    list under the language. *)
Theorem fallbacks_start_with_the_language :
  forall (intl : IntlHost) (minimalFallback : bool) (lang_ : string),
    In lang_ DEFAULT_SUPPORTED_LOCALES ->
    exists rest,
      fallbacksFor intl minimalFallback lang_ = lang_ :: "und" :: rest /\
      NoDup (lang_ :: "und" :: rest) /\
      In "en" (lang_ :: "und" :: rest) /\
      (forall c, In c rest -> In c DEFAULT_SUPPORTED_LOCALES) /\
      (if minimalFallback
       then forall c, In c rest -> c = "en" \/ getBase intl c = getBase intl lang_
       else forall c, In c DEFAULT_SUPPORTED_LOCALES -> In c (lang_ :: "und" :: rest)) /\
      Js.get lang_ (buildFallbackMap intl minimalFallback)
      = Some (lang_ :: "und" :: rest).
Proof.
  intros intl minimal lang_ Hlang.
  destruct (supported_codes lang_ Hlang) as [Hne Hund].
  assert (Hmap : Js.get lang_ (buildFallbackMap intl minimal)
                 = Some (fallbacksFor intl minimal lang_)).
  { unfold buildFallbackMap.
    rewrite <- (RemapFacts.fold_left_mapped
                  (fun a kv => Js.set (fst kv) (snd kv) a)
                  (fun k => (k, fallbacksFor intl minimal k))).
    apply (StoreFacts.get_fold_set_graph (fallbacksFor intl minimal)). exact Hlang. }
  assert (Hf1 : append "und" (append lang_ []) = [lang_; "und"]).
  { unfold append. rewrite (JsFacts.eqb_false _ _ Hne).
    change (Str.mem lang_ []) with false. cbv iota. cbn [app].
    change (String.eqb "und" "") with false. cbv iota.
    unfold Str.mem. cbn [existsb].
    rewrite (JsFacts.eqb_false "und" lang_) by congruence. reflexivity. }
  set (minimalKind := fun c => In c DEFAULT_SUPPORTED_LOCALES /\
                               (c = "en" \/ getBase intl c = getBase intl lang_)).
  set (anyKind := fun c => In c DEFAULT_SUPPORTED_LOCALES).
  assert (Hen : In "en" DEFAULT_SUPPORTED_LOCALES) by (left; reflexivity).
  (* the first three steps *)
  set (f2 := fold_left
               (fun fallbacks candidate =>
                  if String.eqb candidate lang_ then fallbacks
                  else if String.eqb (getBase intl candidate) (getBase intl lang_)
                       then append candidate fallbacks
                       else fallbacks)
               DEFAULT_SUPPORTED_LOCALES [lang_; "und"]).
  assert (G2 : grows minimalKind [lang_; "und"] f2).
  { unfold f2. apply fold_grows. intros l c Hc.
    destruct (String.eqb c lang_); [apply grows_same|].
    destruct (String.eqb (getBase intl c) (getBase intl lang_)) eqn:Eb; [|apply grows_same].
    apply append_grows. split; [exact Hc|]. right. apply String.eqb_eq. exact Eb. }
  assert (G3 : grows minimalKind [lang_; "und"] (append "en" f2)).
  { apply (grows_then _ _ f2); [exact G2|].
    apply append_grows. split; [exact Hen|]. left. reflexivity. }
  assert (Hen3 : In "en" (append "en" f2)) by (apply append_holds; discriminate).
  assert (Hnd1 : NoDup [lang_; "und"]).
  { repeat constructor; [intros [H|[]]; congruence|intros []]. }
  rewrite Hmap.
  assert (Hfor : fallbacksFor intl minimal lang_
                 = if minimal then append "en" f2
                   else fold_left (fun fallbacks candidate => append candidate fallbacks)
                          DEFAULT_SUPPORTED_LOCALES
                          match getScript intl lang_ with
                          | Some script =>
                              fold_left
                                (fun fallbacks candidate =>
                                   if Str.mem candidate fallbacks then fallbacks
                                   else if sameScript (getScript intl candidate) script
                                        then append candidate fallbacks
                                        else fallbacks)
                                DEFAULT_SUPPORTED_LOCALES (append "en" f2)
                          | None => append "en" f2
                          end).
  { unfold fallbacksFor. rewrite Hf1. reflexivity. }
  rewrite Hfor. clear Hfor Hmap.
  destruct minimal.
  - destruct G3 as (extra & Hx & Hn & Hp). exists extra.
    pose proof (Hn Hnd1) as Hnd. rewrite Hx in Hen3, Hnd. rewrite Hx.
    split; [reflexivity|]. split; [exact Hnd|]. split; [exact Hen3|].
    split; [intros c Hc; exact (proj1 (Hp c Hc))|].
    split; [intros c Hc; exact (proj2 (Hp c Hc))|reflexivity].
  - set (f4 := match getScript intl lang_ with
               | Some script =>
                   fold_left
                     (fun fallbacks candidate =>
                        if Str.mem candidate fallbacks then fallbacks
                        else if sameScript (getScript intl candidate) script
                             then append candidate fallbacks
                             else fallbacks)
                     DEFAULT_SUPPORTED_LOCALES (append "en" f2)
               | None => append "en" f2
               end).
    set (f5 := fold_left (fun fallbacks candidate => append candidate fallbacks)
                         DEFAULT_SUPPORTED_LOCALES f4).
    assert (G3' : grows anyKind [lang_; "und"] (append "en" f2)).
    { destruct G3 as (extra & Hx & Hn & Hp). exists extra.
      split; [exact Hx|]. split; [exact Hn|]. intros c Hc. exact (proj1 (Hp c Hc)). }
    assert (G4 : grows anyKind (append "en" f2) f4).
    { unfold f4. destruct (getScript intl lang_) as [script|]; [|apply grows_same].
      apply fold_grows. intros l c Hc.
      destruct (Str.mem c l); [apply grows_same|].
      destruct (sameScript (getScript intl c) script); [|apply grows_same].
      apply append_grows. exact Hc. }
    assert (G5 : grows anyKind [lang_; "und"] f5).
    { apply (grows_then _ _ (append "en" f2)); [exact G3'|].
      apply (grows_then _ _ f4); [exact G4|].
      unfold f5. apply fold_grows. intros l c Hc. apply append_grows. exact Hc. }
    assert (Hall : forall c, In c DEFAULT_SUPPORTED_LOCALES -> In c f5).
    { intros c Hc. unfold f5. apply appended_all; [exact Hc|].
      exact (proj1 (supported_codes c Hc)). }
    clearbody f5. clear f4 G4 G3 G3' G2 Hen3. clearbody f2.
    destruct G5 as (extra & Hx & Hn & Hp). exists extra.
    pose proof (Hn Hnd1) as Hnd. subst f5.
    split; [reflexivity|]. split; [exact Hnd|]. split; [apply Hall; exact Hen|].
    split; [exact Hp|]. split; [exact Hall|reflexivity].
Qed.


(** A host that knows the base of a code as what precedes its hyphen,
    and three scripts. *)
Definition sampleIntl : IntlHost :=
  {| localeLanguage :=
       fun c => match Str.indexOf "-"%char c with
                | Some n => Ok (Str.take n c)
                | None => Ok c
                end;
     maximizedScript :=
       fun c => if Str.mem c ["ru"; "uk"; "mk"] then Ok "Cyrl"
                else if Str.mem c ["ar"; "ur"] then Ok "Arab"
                else Ok "Latn";
     toLowerCase := fun c => c |}.

(** European Portuguese falls back on Portuguese, then English;
    Ukrainian, with all fallbacks, on English, then on the other
    Cyrillic languages, then on the rest. *)
Lemma fallbacks_start_with_the_language_witness :
  fallbacksFor sampleIntl true "pt-PT" = ["pt-PT"; "und"; "pt"; "en"] /\
  firstn 5 (fallbacksFor sampleIntl false "uk") = ["uk"; "und"; "en"; "mk"; "ru"] /\
  length (fallbacksFor sampleIntl false "uk") = 30 /\
  NoDup (fallbacksFor sampleIntl false "uk") /\
  Js.get "uk" (buildFallbackMap sampleIntl false) = Some (fallbacksFor sampleIntl false "uk").
Proof.
  assert (Huk : In "uk" DEFAULT_SUPPORTED_LOCALES)
    by (unfold DEFAULT_SUPPORTED_LOCALES; repeat (first [left; reflexivity | right])).
  destruct (fallbacks_start_with_the_language sampleIntl false "uk" Huk)
    as (rest & Hlist & Hnd & _ & _ & _ & Hmap).
  split; [vm_compute; reflexivity|]. split; [vm_compute; reflexivity|].
  split; [vm_compute; reflexivity|].
  rewrite Hlist. split; [exact Hnd|exact Hmap].
Defined.

End FallbackFacts.
